(** * Device setup wizard: Wi-Fi adapter, activation client, state store
      and wizard flow

    A shallow embedding of the Python sources

      - [bootstrap/utils/nmcli_utils.py]  (command runner, scan, connect,
        local address),
      - [bootstrap/utils/api_utils.py]    (activation key check, activation
        codes),
      - [bootstrap/utils/state_utils.py]  (JSON state file),
      - [bootstrap/wizard.py]             (three-screen flow),
      - [bootstrap/screens/network_screen.py], [activation_screen.py] and
        [summary_screen.py]               (the handlers of the three screens),
      - [archive/network-old.py]          (the earlier network wizard: runner,
        scan, connect, hidden-network path, connectivity, addresses),

    followed by the properties proved about them.

    Conventions of the embedding.
      - A Python [str] is the list of its code points ([N]).
      - A call that may raise returns a [result]; the exception classes
        that the sources can meet are enumerated in [exn].
      - The outside world (processes started by the command runner, the
        HTTP server, the state file) appears as explicit state or as an
        explicit outcome handed to the function.
      - Library code whose tables or algorithms are not part of the
        repository ([str.lower], [float()] and [float.__repr__], the
        [ipaddress] module) is taken as a parameter of the function that
        calls it.
      - The limit that the interpreter sets on recursion depends on its
        configuration and on the depth of the stack at the call; where it
        is met is a parameter of the encoder and of the reader of [json]. *)

From Stdlib Require Import List ZArith NArith QArith Lia Bool String Ascii.
From Stdlib Require Import DecimalString DecimalFacts DecimalPos DecimalN DecimalZ.
From Stdlib Require Import Sorting.Sorted Sorting.Permutation.
From Stdlib Require Import Floats.SpecFloat.
Import ListNotations.
Close Scope Q_scope.

Set Implicit Arguments.
#[local] Set Warnings "-register-all".

(* ===================================================================== *)
(** * Part I. The embedding                                               *)
(* ===================================================================== *)

(** ** Exceptions and results *)

Inductive exn : Type :=
| ValueError | TypeError | AttributeError | OSError
| UnicodeDecodeError | RecursionError.

Inductive result (A : Type) : Type :=
| Return (a : A)
| Raise (e : exn).

Arguments Return {A} a.
Arguments Raise {A} e.

Definition rbind {A B} (r : result A) (k : A -> result B) : result B :=
  match r with
  | Return a => k a
  | Raise e => Raise e
  end.

(** ** Python strings *)

Module PyStr.

Local Open Scope N_scope.

(** A character is its code point; a string is the list of its
    characters. *)
Abbreviation char := N (only parsing).
Abbreviation str := (list N) (only parsing).

(** String literals of the sources, written as Rocq strings. *)
Definition lit (s : string) : str := map N_of_ascii (list_ascii_of_string s).

Fixpoint str_eqb (a b : str) : bool :=
  match a, b with
  | [], [] => true
  | x :: a', y :: b' => (x =? y) && str_eqb a' b'
  | _, _ => false
  end.

(** [str.isspace] on one code point (the set is that of CPython's
    [_PyUnicode_IsWhitespace]). *)
Definition isspace (c : char) : bool :=
  ((9 <=? c) && (c <=? 13)) || ((28 <=? c) && (c <=? 32))
  || (c =? 133) || (c =? 160) || (c =? 5760)
  || ((8192 <=? c) && (c <=? 8202))
  || (c =? 8232) || (c =? 8233) || (c =? 8239) || (c =? 8287) || (c =? 12288).

(** Line boundaries of [str.splitlines] ([_PyUnicode_IsLinebreak]). *)
Definition is_linebreak (c : char) : bool :=
  ((10 <=? c) && (c <=? 13)) || ((28 <=? c) && (c <=? 30))
  || (c =? 133) || (c =? 8232) || (c =? 8233).

(** [s.splitlines()]: the lines without their terminators; CR LF is one
    terminator; a terminator at the very end opens no further line. *)
Fixpoint splitlines (s : str) : list str :=
  match s with
  | [] => []
  | c :: rest =>
    if is_linebreak c then
      [] :: match rest with
            | d :: rest' =>
              if (c =? 13) && (d =? 10) then splitlines rest' else splitlines rest
            | [] => []
            end
    else
      match splitlines rest with
      | [] => [[c]]
      | l :: ls => (c :: l) :: ls
      end
  end.

(** [s.split(sep)] for a one-character separator. *)
Fixpoint split (sep : char) (s : str) : list str :=
  match s with
  | [] => [[]]
  | c :: rest =>
    if c =? sep then [] :: split sep rest
    else
      match split sep rest with
      | [] => [[c]]
      | l :: ls => (c :: l) :: ls
      end
  end.

(** [s.split()]: the maximal runs of non-whitespace characters. *)
Fixpoint split_fields (s : str) : str * list str :=
  match s with
  | [] => ([], [])
  | c :: rest =>
    let (t, ts) := split_fields rest in
    if isspace c then ([], match t with [] => ts | _ => t :: ts end)
    else (c :: t, ts)
  end.

Definition split_whitespace (s : str) : list str :=
  let (t, ts) := split_fields s in
  match t with [] => ts | _ => t :: ts end.

Fixpoint lstrip (s : str) : str :=
  match s with
  | [] => []
  | c :: rest => if isspace c then lstrip rest else s
  end.

(** [s.strip()]. *)
Definition strip (s : str) : str := rev (lstrip (rev (lstrip s))).

Fixpoint startswith (s prefix : str) {struct prefix} : bool :=
  match prefix, s with
  | [], _ => true
  | p :: prefix', c :: s' => (c =? p) && startswith s' prefix'
  | _ :: _, [] => false
  end.

(** [needle in s]. *)
Fixpoint contains (needle s : str) : bool :=
  startswith s needle ||
  match s with
  | [] => false
  | _ :: rest => contains needle rest
  end.

(** [sep.join(parts)]. *)
Fixpoint join (sep : str) (parts : list str) : str :=
  match parts with
  | [] => []
  | [p] => p
  | p :: ps => p ++ sep ++ join sep ps
  end.

(** Comparison of strings, [a < b]: lexicographic on code points. *)
Fixpoint str_ltb (a b : str) : bool :=
  match a, b with
  | _, [] => false
  | [], _ :: _ => true
  | x :: a', y :: b' => (x <? y) || ((x =? y) && str_ltb a' b')
  end.

(** *** Decimal digits and [int(s)] *)

(** First code points of the runs of ten decimal digits (general category
    Nd) of the Unicode character database, version 14. *)
Definition decimal_zeros : list N :=
  [48; 1632; 1776; 1984; 2406; 2534; 2662; 2790; 2918; 3046; 3174; 3302;
   3430; 3558; 3664; 3792; 3872; 4160; 4240; 6112; 6160; 6470; 6608; 6784;
   6800; 6992; 7088; 7232; 7248; 42528; 43216; 43264; 43472; 43504; 43600;
   44016; 65296; 66720; 68912; 69734; 69872; 69942; 70096; 70384; 70736;
   70864; 71248; 71360; 71472; 71904; 72016; 72784; 73040; 73120; 92768;
   92864; 93008; 120782; 120792; 120802; 120812; 120822; 123200; 123632;
   125264; 130032].

(** [Py_UNICODE_TODECIMAL]. *)
Definition to_decimal (c : char) : option N :=
  match find (fun z => (z <=? c) && (c <? z + 10)) decimal_zeros with
  | Some z => Some (c - z)
  | None => None
  end.

(** White space of the C locale ([Py_ISSPACE]). *)
Definition c_isspace (c : char) : bool :=
  ((9 <=? c) && (c <=? 13)) || (c =? 32).

(** [_PyUnicode_TransformDecimalAndSpaceToASCII]: code points below 127
    are kept, other white space becomes a blank, other decimal digits
    become ASCII digits, and anything else ends the conversion. *)
Fixpoint transform_decimal_and_space (s : str) : option str :=
  match s with
  | [] => Some []
  | c :: rest =>
    let out :=
      if c <? 127 then Some c
      else if isspace c then Some 32
      else match to_decimal c with
           | Some d => Some (48 + d)
           | None => None
           end in
    match out, transform_decimal_and_space rest with
    | Some c', Some rest' => Some (c' :: rest')
    | _, _ => None
    end
  end.

Definition digit_of_char (c : char) : option Decimal.uint -> option Decimal.uint :=
  fun tl =>
    match tl with
    | None => None
    | Some u =>
      if c =? 48 then Some (Decimal.D0 u) else if c =? 49 then Some (Decimal.D1 u)
      else if c =? 50 then Some (Decimal.D2 u) else if c =? 51 then Some (Decimal.D3 u)
      else if c =? 52 then Some (Decimal.D4 u) else if c =? 53 then Some (Decimal.D5 u)
      else if c =? 54 then Some (Decimal.D6 u) else if c =? 55 then Some (Decimal.D7 u)
      else if c =? 56 then Some (Decimal.D8 u) else if c =? 57 then Some (Decimal.D9 u)
      else None
    end.

(** The decimal numeral spelled by a string of ASCII digits. *)
Fixpoint uint_of_digits (s : str) : option Decimal.uint :=
  match s with
  | [] => Some Decimal.Nil
  | c :: rest => digit_of_char c (uint_of_digits rest)
  end.

Fixpoint digits_of_uint (u : Decimal.uint) : str :=
  match u with
  | Decimal.Nil => []
  | Decimal.D0 u => 48 :: digits_of_uint u
  | Decimal.D1 u => 49 :: digits_of_uint u
  | Decimal.D2 u => 50 :: digits_of_uint u
  | Decimal.D3 u => 51 :: digits_of_uint u
  | Decimal.D4 u => 52 :: digits_of_uint u
  | Decimal.D5 u => 53 :: digits_of_uint u
  | Decimal.D6 u => 54 :: digits_of_uint u
  | Decimal.D7 u => 55 :: digits_of_uint u
  | Decimal.D8 u => 56 :: digits_of_uint u
  | Decimal.D9 u => 57 :: digits_of_uint u
  end.

Definition is_digit (c : char) : bool := (48 <=? c) && (c <=? 57).

(** The digits of an [int()] literal: ASCII digits, single underscores
    allowed between two digits only.  [prev_digit] tells whether the
    previous character was a digit. *)
Fixpoint literal_digits (prev_digit : bool) (s : str) : option str :=
  match s with
  | [] => if prev_digit then Some [] else None
  | c :: rest =>
    if is_digit c then
      match literal_digits true rest with
      | Some ds => Some (c :: ds)
      | None => None
      end
    else if (c =? 95) && prev_digit then
      match rest with
      | [] => None
      | _ => literal_digits false rest
      end
    else None
  end.

Fixpoint c_lstrip (s : str) : str :=
  match s with
  | [] => []
  | c :: rest => if c_isspace c then c_lstrip rest else s
  end.

Definition c_strip (s : str) : str := rev (c_lstrip (rev (c_lstrip s))).

(** [sys.int_info.default_max_str_digits]: the most digits that [int(s)]
    and [str(n)] convert; the sources leave the interpreter's default in
    place. *)
Definition max_str_digits : nat := 4300.

(** [int(s)] for a [str] argument, base ten; [None] stands for
    [ValueError]. *)
Definition py_int (s : str) : option Z :=
  match transform_decimal_and_space s with
  | None => None
  | Some a =>
    let body := c_strip a in
    let (neg, ds) :=
      match body with
      | c :: r =>
        if c =? 43 then (false, r) else if c =? 45 then (true, r) else (false, body)
      | [] => (false, body)
      end in
    match literal_digits false ds with
    | None => None
    | Some d =>
      if (max_str_digits <? List.length d)%nat then None
      else
        match uint_of_digits d with
        | None => None
        | Some u => Some (if neg then (- Z.of_uint u)%Z else Z.of_uint u)
        end
    end
  end.

(** The decimal numeral of an integer. *)
Definition int_numeral (z : Z) : str :=
  match Z.to_int z with
  | Decimal.Pos u => digits_of_uint u
  | Decimal.Neg u => 45 :: digits_of_uint u
  end.

(** The integer has no more digits than [str(n)] converts. *)
Definition int_fits (z : Z) : bool :=
  (List.length (int_numeral (Z.abs z)) <=? max_str_digits)%nat.

(** [int.__repr__]; [ValueError] beyond the limit of digits. *)
Definition int_repr (z : Z) : result str :=
  if int_fits z then Return (int_numeral z) else Raise ValueError.

End PyStr.
Import PyStr.

(** ** Python values and the [json] module *)

Module Json.

Local Open Scope N_scope.

(** The values that [json.loads] produces and [json.dumps] accepts.  A
    [dict] is the list of its items in insertion order.  A [float] is an
    IEEE 754 binary64 datum. *)
Inductive pyval : Type :=
| PyNone
| PyBool (b : bool)
| PyInt (z : Z)
| PyFloat (f : spec_float)
| PyStr (s : str)
| PyList (l : list pyval)
| PyTuple (l : list pyval)
| PyDict (items : list (pyval * pyval)).

(** [bool(v)]. *)
Definition py_truthy (v : pyval) : bool :=
  match v with
  | PyNone => false
  | PyBool b => b
  | PyInt z => negb (z =? 0)%Z
  | PyFloat f => match f with S754_zero _ => false | _ => true end
  | PyStr s => match s with [] => false | _ => true end
  | PyList l | PyTuple l => match l with [] => false | _ => true end
  | PyDict items => match items with [] => false | _ => true end
  end.

(** [d.get(key)] for a [str] key: the value stored under the equal key,
    [None] when there is none. *)
Fixpoint dict_get (items : list (pyval * pyval)) (key : str) : pyval :=
  match items with
  | [] => PyNone
  | (PyStr k, v) :: items' => if str_eqb k key then v else dict_get items' key
  | _ :: items' => dict_get items' key
  end.

(** [d[key] = v] for a [str] key: an existing key keeps its place. *)
Fixpoint dict_set (items : list (pyval * pyval)) (key : str) (v : pyval)
  : list (pyval * pyval) :=
  match items with
  | [] => [(PyStr key, v)]
  | (PyStr k, v') :: items' =>
    if str_eqb k key then (PyStr k, v) :: items'
    else (PyStr k, v') :: dict_set items' key v
  | kv :: items' => kv :: dict_set items' key v
  end.

(** *** [json.dumps(obj, indent=2)] *)

Definition hex_char (d : N) : char := if d <? 10 then 48 + d else 87 + d.

(** ['{0:04x}'.format(n)], for [n < 0x10000]. *)
Definition format_04x (n : N) : str :=
  [hex_char (n / 4096 mod 16); hex_char (n / 256 mod 16);
   hex_char (n / 16 mod 16); hex_char (n mod 16)].

(** The replacement of one character by [py_encode_basestring_ascii]
    ([ESCAPE_ASCII] matches a backslash, a double quote, and everything
    outside the range from blank to tilde). *)
Definition escape_char (c : char) : str :=
  if c =? 92 then [92; 92]
  else if c =? 34 then [92; 34]
  else if (32 <=? c) && (c <=? 126) then [c]
  else if c =? 8 then [92; 98]
  else if c =? 12 then [92; 102]
  else if c =? 10 then [92; 110]
  else if c =? 13 then [92; 114]
  else if c =? 9 then [92; 116]
  else if c <? 65536 then 92 :: 117 :: format_04x c
  else
    let n := c - 65536 in
    let s1 := N.lor 55296 (N.land (N.shiftr n 10) 1023) in
    let s2 := N.lor 56320 (N.land n 1023) in
    (92 :: 117 :: format_04x s1) ++ (92 :: 117 :: format_04x s2).

Definition encode_basestring_ascii (s : str) : str :=
  34 :: flat_map escape_char s ++ [34].

(** ['\n' + ' ' * (2 * level)]. *)
Definition newline_indent (level : nat) : str := 10 :: repeat 32 (2 * level)%nat.

Section Dumps.

(** [float.__repr__] (with the spellings [NaN], [Infinity], [-Infinity]
    of [json.encoder.floatstr]); library code, not embedded. *)
Variable floatstr : spec_float -> str.

(** The interpreter's limit on recursion.  With an indent, [json.dumps]
    runs the encoder that is written in Python: one generator inside the
    other for every container, and a call for the text of a key or of a
    value that is no container.  [deep_write level v] tells whether the
    limit is exceeded where the encoder, [level] containers down, comes to
    [v]; the encoder then raises [RecursionError].  The answer depends on
    the limit that is set and on the depth of the stack where the wizard
    calls [json.dumps], which are not part of the repository. *)
Variable deep_write : nat -> pyval -> bool.

(** A key of a [dict] as it is written: [str] as it is, numbers, booleans
    and [None] through their JSON spelling; [TypeError] for other keys. *)
Definition encode_key (k : pyval) : result str :=
  match k with
  | PyStr s => Return (encode_basestring_ascii s)
  | PyFloat f => Return (encode_basestring_ascii (floatstr f))
  | PyBool true => Return (encode_basestring_ascii (lit "true"))
  | PyBool false => Return (encode_basestring_ascii (lit "false"))
  | PyNone => Return (encode_basestring_ascii (lit "null"))
  | PyInt z => rbind (int_repr z) (fun t => Return (encode_basestring_ascii t))
  | _ => Raise TypeError
  end.

(** [_iterencode_list] and [_iterencode_dict] at indentation [level],
    after the opening bracket: [enc] encodes a member, one level deeper;
    [first] tells whether the next member is the first.  The chunks are
    concatenated. *)
Section Members.

Variable enc : pyval -> result str.
Variable level : nat.

Fixpoint iterencode_list (first : bool) (l : list pyval) : result str :=
  match l with
  | [] => Return (newline_indent level ++ [93])
  | x :: l' =>
    rbind (enc x) (fun tx =>
    rbind (iterencode_list false l') (fun tl =>
    Return ((if first then [] else [44]) ++ newline_indent (S level) ++ tx ++ tl)))
  end.

Fixpoint iterencode_dict (first : bool) (l : list (pyval * pyval)) : result str :=
  match l with
  | [] => Return (newline_indent level ++ [125])
  | (k, x) :: l' =>
    if deep_write (S level) k then Raise RecursionError
    else
      rbind (encode_key k) (fun tk =>
      rbind (enc x) (fun tx =>
      rbind (iterencode_dict false l') (fun tl =>
      Return ((if first then [] else [44]) ++ newline_indent (S level)
              ++ tk ++ [58; 32] ++ tx ++ tl))))
  end.

End Members.

(** [_iterencode] at indentation [level], which is the number of
    containers around [v]. *)
Fixpoint iterencode (level : nat) (v : pyval) {struct v} : result str :=
  if deep_write level v then Raise RecursionError
  else
    match v with
    | PyStr s => Return (encode_basestring_ascii s)
    | PyNone => Return (lit "null")
    | PyBool true => Return (lit "true")
    | PyBool false => Return (lit "false")
    | PyInt z => int_repr z
    | PyFloat f => Return (floatstr f)
    | PyList [] | PyTuple [] => Return (lit "[]")
    | PyList l | PyTuple l =>
      rbind (iterencode_list (iterencode (S level)) level true l) (fun t => Return (91 :: t))
    | PyDict [] => Return (lit "{}")
    | PyDict items =>
      rbind (iterencode_dict (iterencode (S level)) level true items)
            (fun t => Return (123 :: t))
    end.

Definition dumps_indent2 (v : pyval) : result str := iterencode 0 v.

End Dumps.

(** *** [json.loads(s)] *)

(** [WHITESPACE]: blank, tab, line feed, carriage return. *)
Definition json_ws (c : char) : bool :=
  (c =? 32) || (c =? 9) || (c =? 10) || (c =? 13).

Fixpoint skip_ws (s : str) : str :=
  match s with
  | [] => []
  | c :: rest => if json_ws c then skip_ws rest else s
  end.

Definition hex_value (c : char) : option N :=
  if (48 <=? c) && (c <=? 57) then Some (c - 48)
  else if (97 <=? c) && (c <=? 102) then Some (c - 87)
  else if (65 <=? c) && (c <=? 70) then Some (c - 55)
  else None.

Definition hex4 (a b c d : char) : option N :=
  match hex_value a, hex_value b, hex_value c, hex_value d with
  | Some x, Some y, Some z, Some w => Some (4096 * x + 256 * y + 16 * z + w)
  | _, _, _, _ => None
  end.

(** [BACKSLASH]: the one-letter escapes. *)
Definition backslash (e : char) : option char :=
  if e =? 34 then Some 34 else if e =? 92 then Some 92
  else if e =? 47 then Some 47 else if e =? 98 then Some 8
  else if e =? 102 then Some 12 else if e =? 110 then Some 10
  else if e =? 114 then Some 13 else if e =? 116 then Some 9
  else None.

Definition is_high_surrogate (c : N) : bool := (55296 <=? c) && (c <=? 56319).
Definition is_low_surrogate (c : N) : bool := (56320 <=? c) && (c <=? 57343).

Definition cons_fst (c : char) (r : option (str * str)) : option (str * str) :=
  match r with
  | Some (x, rest) => Some (c :: x, rest)
  | None => None
  end.

(** [scanstring(s, end, strict=True)], entered after the opening quote:
    the decoded string and the text after the closing quote; [None] when
    it raises.  An escaped high surrogate directly followed by an
    escaped low surrogate is one code point. *)
Fixpoint scanstring (s : str) : option (str * str) :=
  match s with
  | [] => None
  | c :: rest =>
    if c =? 34 then Some ([], rest)
    else if c =? 92 then
      match rest with
      | [] => None
      | e :: rest1 =>
        if e =? 117 then
          match rest1 with
          | h1 :: h2 :: h3 :: h4 :: rest2 =>
            match hex4 h1 h2 h3 h4 with
            | None => None
            | Some uni =>
              match rest2 with
              | b :: u :: l1 :: l2 :: l3 :: l4 :: rest3 =>
                if is_high_surrogate uni && (b =? 92) && (u =? 117) then
                  match hex4 l1 l2 l3 l4 with
                  | None => None
                  | Some uni2 =>
                    if is_low_surrogate uni2 then
                      cons_fst (65536 + (N.lor (N.shiftl (uni - 55296) 10) (uni2 - 56320)))
                               (scanstring rest3)
                    else cons_fst uni (scanstring rest2)
                  end
                else cons_fst uni (scanstring rest2)
              | _ => cons_fst uni (scanstring rest2)
              end
            end
          | _ => None
          end
        else
          match backslash e with
          | Some ch => cons_fst ch (scanstring rest1)
          | None => None
          end
      end
    else if c <? 32 then None
    else cons_fst c (scanstring rest)
  end.

(** The longest prefix of ASCII digits, and what follows it. *)
Fixpoint span_digits (s : str) : str * str :=
  match s with
  | [] => ([], [])
  | c :: rest =>
    if is_digit c then let (ds, r) := span_digits rest in (c :: ds, r)
    else ([], s)
  end.

(** The groups of [NUMBER_RE]: an optional minus sign; then a zero, or a
    digit from one to nine followed by digits; then, optionally, a point
    and one digit or more; then, optionally, [e] or [E], an optional sign
    and one digit or more.  Each function returns its group and the text
    after it. *)
Definition number_sign (s : str) : str * str :=
  match s with
  | c :: r => if c =? 45 then ([45], r) else ([], s)
  | [] => ([], s)
  end.

Definition number_int (s : str) : option (str * str) :=
  match s with
  | c :: r =>
    if c =? 48 then Some ([48], r)
    else if is_digit c then Some (span_digits s) else None
  | [] => None
  end.

Definition number_frac (s : str) : str * str :=
  match s with
  | c :: r =>
    if c =? 46 then
      match span_digits r with
      | ([], _) => ([], s)
      | (fs, r') => (46 :: fs, r')
      end
    else ([], s)
  | [] => ([], s)
  end.

Definition number_exp (s : str) : str * str :=
  match s with
  | e :: r =>
    if (e =? 101) || (e =? 69) then
      let (esign, r1) :=
        match r with
        | c :: r1 => if (c =? 43) || (c =? 45) then ([c], r1) else ([], r)
        | [] => ([], r)
        end in
      match span_digits r1 with
      | ([], _) => ([], s)
      | (es, r') => (e :: esign ++ es, r')
      end
    else ([], s)
  | [] => ([], s)
  end.

Section Loads.

(** [float(lexeme)]: library code, not embedded. *)
Variable float_of_str : str -> spec_float.

(** [match_number] and the conversion of the match: without fraction and
    exponent the number is an [int]. *)
Definition match_number (s : str) : option (pyval * str) :=
  let (sign, s1) := number_sign s in
  match number_int s1 with
  | None => None
  | Some (ds, s2) =>
    let (frac, s3) := number_frac s2 in
    let (exp, s4) := number_exp s3 in
    match frac, exp with
    | [], [] =>
      match py_int (sign ++ ds) with
      | Some z => Some (PyInt z, s4)
      | None => None
      end
    | _, _ => Some (PyFloat (float_of_str (sign ++ ds ++ frac ++ exp)), s4)
    end
  end.

(** [dict(pairs)]: a repeated key keeps its first place and its last
    value. *)
Definition dict_of_pairs (pairs : list (str * pyval)) : list (pyval * pyval) :=
  fold_left (fun d kv => dict_set d (fst kv) (snd kv)) pairs [].

Definition strip_prefix (p s : str) : option str :=
  if startswith s p then Some (skipn (List.length p) s) else None.

(** The interpreter's limit on recursion, for the reader.  The scanner
    of [json.loads] asks for a level of recursion where it enters an
    object or an array and where it calls back for a constant.
    [deep_read level c] tells whether the limit is exceeded where the
    scanner, [level] containers down, comes to a value that starts with
    the character [c]; the scanner then raises [RecursionError].  As for
    the encoder, the answer is not part of the repository. *)
Variable deep_read : nat -> char -> bool.

(** [scan_once], [JSONArray] and [JSONObject], [level] containers down.
    Every call takes one unit of [fuel]; [loads] below provides more than
    any text can use.  [ValueError] stands for [JSONDecodeError], its
    subclass, and for the error of [int] beyond the limit of digits. *)
Fixpoint scan_once (level fuel : nat) (s : str) {struct fuel} : result (pyval * str) :=
  match fuel with
  | O => Raise ValueError
  | S fuel' =>
    match s with
    | [] => Raise ValueError
    | c :: rest =>
      if deep_read level c then Raise RecursionError
      else if c =? 34 then
        match scanstring rest with
        | Some (x, r) => Return (PyStr x, r)
        | None => Raise ValueError
        end
      else if c =? 123 then
        match skip_ws rest with
        | d :: r =>
          if d =? 125 then Return (PyDict [], r)
          else
            match parse_members (S level) fuel' (d :: r) with
            | Return (pairs, r') => Return (PyDict (dict_of_pairs pairs), r')
            | Raise e => Raise e
            end
        | [] => Raise ValueError
        end
      else if c =? 91 then
        match skip_ws rest with
        | d :: r =>
          if d =? 93 then Return (PyList [], r)
          else
            match parse_elements (S level) fuel' (d :: r) with
            | Return (vs, r') => Return (PyList vs, r')
            | Raise e => Raise e
            end
        | [] => Raise ValueError
        end
      else
        match strip_prefix (lit "null") s, strip_prefix (lit "true") s,
              strip_prefix (lit "false") s with
        | Some r, _, _ => Return (PyNone, r)
        | _, Some r, _ => Return (PyBool true, r)
        | _, _, Some r => Return (PyBool false, r)
        | _, _, _ =>
          match match_number s with
          | Some x => Return x
          | None =>
            match strip_prefix (lit "NaN") s, strip_prefix (lit "Infinity") s,
                  strip_prefix (lit "-Infinity") s with
            | Some r, _, _ => Return (PyFloat S754_nan, r)
            | _, Some r, _ => Return (PyFloat (S754_infinity false), r)
            | _, _, Some r => Return (PyFloat (S754_infinity true), r)
            | _, _, _ => Raise ValueError
            end
          end
        end
    end
  end

with parse_elements (level fuel : nat) (s : str) {struct fuel}
  : result (list pyval * str) :=
  match fuel with
  | O => Raise ValueError
  | S fuel' =>
    match scan_once level fuel' s with
    | Raise e => Raise e
    | Return (v, r) =>
      match skip_ws r with
      | d :: r' =>
        if d =? 93 then Return ([v], r')
        else if d =? 44 then
          match parse_elements level fuel' (skip_ws r') with
          | Return (vs, r'') => Return (v :: vs, r'')
          | Raise e => Raise e
          end
        else Raise ValueError
      | [] => Raise ValueError
      end
    end
  end

with parse_members (level fuel : nat) (s : str) {struct fuel}
  : result (list (str * pyval) * str) :=
  match fuel with
  | O => Raise ValueError
  | S fuel' =>
    match s with
    | q :: s1 =>
      if q =? 34 then
        match scanstring s1 with
        | None => Raise ValueError
        | Some (key, r) =>
          match skip_ws r with
          | colon :: r1 =>
            if colon =? 58 then
              match scan_once level fuel' (skip_ws r1) with
              | Raise e => Raise e
              | Return (v, r2) =>
                match skip_ws r2 with
                | d :: r3 =>
                  if d =? 125 then Return ([(key, v)], r3)
                  else if d =? 44 then
                    match parse_members level fuel' (skip_ws r3) with
                    | Return (kvs, r4) => Return ((key, v) :: kvs, r4)
                    | Raise e => Raise e
                    end
                  else Raise ValueError
                | [] => Raise ValueError
                end
              end
            else Raise ValueError
          | [] => Raise ValueError
          end
        end
      else Raise ValueError
    | [] => Raise ValueError
    end
  end.

(** [json.loads(s)]: one value between optional white space, nothing
    after it. *)
Definition loads (s : str) : result pyval :=
  match scan_once 0 (2 * List.length s + 2) (skip_ws s) with
  | Return (v, r) =>
    match skip_ws r with
    | [] => Return v
    | _ => Raise ValueError
    end
  | Raise e => Raise e
  end.

End Loads.

End Json.
Import Json.

(** ** State store ([bootstrap/utils/state_utils.py]) *)

Module StateStore.

(** What is found at [STATE_PATH]: a path that cannot be looked up, the
    directory not being open to search, so that [exists()] raises
    [PermissionError]; nothing; a file whose reading raises (bytes that
    do not decode, no permission); or a file holding a text. *)
Inductive node : Type :=
| Unsearchable
| Absent
| Unreadable
| Text (content : str).

(** The file system as far as the state store sees it: the node at
    [STATE_PATH], whether [mkdir] of the parent directory succeeds,
    whether [write_text] succeeds, and how it fails when it does not.
    [write_text] opens the file for writing, which empties it, and then
    writes: [cut] is [None] when the file cannot be opened, and [Some n]
    when the write breaks off after the file has been opened, with the
    first [n] characters of the text left in it. *)
Record filesystem : Type := {
  state_file : node;
  mkdir_ok : bool;
  write_ok : bool;
  cut : option nat
}.

Section Store.

Variable float_of_str : str -> spec_float.
Variable floatstr : spec_float -> str.
Variable deep_read : nat -> N -> bool.
Variable deep_write : nat -> pyval -> bool.

(** [load_state].  The test [STATE_PATH.exists()] stands before the
    [try]: what it raises leaves [load_state].  Whatever reading and
    [json.loads] raise is an [Exception] and is answered with [{}]. *)
Definition load_state (fs : filesystem) : result pyval :=
  match state_file fs with
  | Unsearchable => Raise OSError
  | Absent => Return (PyDict [])
  | Unreadable => Return (PyDict [])
  | Text content =>
    match loads float_of_str deep_read content with
    | Return v => Return v
    | Raise _ => Return (PyDict [])
    end
  end.

(** [save_state]: [mkdir], then [json.dumps], then [write_text]. *)
Definition save_state (state : pyval) (fs : filesystem) : result unit * filesystem :=
  if negb (mkdir_ok fs) then (Raise OSError, fs)
  else
    match dumps_indent2 floatstr deep_write state with
    | Raise e => (Raise e, fs)
    | Return text =>
      if write_ok fs then
        (Return tt,
         {| state_file := Text text; mkdir_ok := mkdir_ok fs; write_ok := write_ok fs;
            cut := cut fs |})
      else
        match cut fs with
        | None => (Raise OSError, fs)
        | Some n =>
          (Raise OSError,
           {| state_file := Text (firstn n text); mkdir_ok := mkdir_ok fs;
              write_ok := write_ok fs; cut := cut fs |})
        end
    end.

End Store.

End StateStore.
Import StateStore.

(** ** A state-and-exception monad for code that runs commands *)

Definition M (S A : Type) : Type := S -> result A * S.

Definition ret {S A} (a : A) : M S A := fun s => (Return a, s).

Definition bind {S A B} (m : M S A) (k : A -> M S B) : M S B :=
  fun s =>
    match m s with
    | (Return a, s') => k a s'
    | (Raise e, s') => (Raise e, s')
    end.

(** [try: body finally: cleanup]. *)
Definition try_finally {S A} (body : M S A) (cleanup : M S unit) : M S A :=
  fun s =>
    match body s with
    | (r, s') =>
      match cleanup s' with
      | (Return _, s'') => (r, s'')
      | (Raise e, s'') => (Raise e, s'')
      end
    end.

Declare Scope monad_scope.
Delimit Scope monad_scope with monad.
Notation "x <- m ;; k" := (bind m (fun x => k))
  (at level 61, m at next level, right associativity) : monad_scope.
Notation "' p <- m ;; k" := (bind m (fun x => match x with p => k end))
  (at level 61, p pattern, m at next level, right associativity) : monad_scope.
Notation "m ;;; k" := (bind m (fun _ => k))
  (at level 61, right associativity) : monad_scope.

(** ** Command runners, Wi-Fi adapter and the archived network wizard *)

(** What [proc.kill()] meets when the time is up: the child is killed;
    or it has ended in the meantime, and [asyncio] raises
    [ProcessLookupError]; or it runs as another user (a command started
    through [sudo]), and the signal is refused with [PermissionError]. *)
Inductive kill_outcome : Type :=
| Killed
| Gone
| Denied.

(** A process as the runner observes it: how long it takes to finish
    (seconds; [None] if it does not finish by itself), its exit code, its
    two output streams decoded ([None]: the bytes do not decode), and what
    killing it meets. *)
Record process : Type := {
  duration : option Q;
  returncode : Z;
  stdout : option str;
  stderr : option str;
  kill : kill_outcome
}.

Definition finishes_within (p : process) (timeout : Z) : bool :=
  match duration p with
  | Some d => Qle_bool d (inject_Z timeout)
  | None => false
  end.

(** What the runner does to the operating system: a command is started,
    a child is killed. *)
Inductive event : Type :=
| Exec (cmd : list str)
| Kill (cmd : list str).

(** The record of a network found by the archived scan. *)
Record WifiNetwork : Type := {
  ssid : str;
  signal : Z;
  security : str
}.

(** The widgets and attributes of the archived [NetworkWizard] that
    [attempt_connect] touches. *)
Record NetworkWizard : Type := {
  selected_ssid : option str;
  networks : list WifiNetwork;
  password_value : str;
  password_mode : bool;
  password_placeholder : str;
  status_text : str;
  status_label : str;
  ip_label : str;
  connected_ips : list str;
  widgets_enabled : bool
}.

(** [x or default] on strings. *)
Definition str_or (x default : str) : str :=
  match x with [] => default | _ => x end.

Fixpoint universal_newlines (s : str) : str :=
  match s with
  | [] => []
  | c :: rest =>
    if (c =? 13)%N then
      10%N :: match rest with
              | d :: rest' =>
                if (d =? 10)%N then universal_newlines rest' else universal_newlines rest
              | [] => []
              end
    else c :: universal_newlines rest
  end.

Section Commands.

(** The operating system: starting [cmd] in world [w] either raises
    ([OSError]: no such executable) or yields a process. *)
Variable World : Type.
Variable spawn : list str -> World -> result process * World.

(** [str.lower]; its case table is not part of the repository. *)
Variable lower : str -> str.

(** [ipaddress.ip_address(s).is_private]; [None] stands for the
    [ValueError] of a text that is no address. *)
Variable ip_is_private : str -> option bool.

(** The state threaded through the runners: the world and the trace of
    what was executed and killed. *)
Record rstate : Type := {
  world : World;
  trace : list event
}.

Definition Run (A : Type) : Type := M rstate A.

Local Open Scope monad_scope.

(** *** [bootstrap/utils/nmcli_utils.py] *)

(** [_run].  When the time is up, [proc.kill()] stands unprotected in the
    [except] clause: what it raises ([ProcessLookupError] and
    [PermissionError] are [OSError]s) leaves [_run]. *)
Definition _run (cmd : list str) (timeout : Z) : Run (Z * str * str) :=
  fun s =>
    match spawn cmd (world s) with
    | (Raise e, w) => (Raise e, {| world := w; trace := trace s ++ [Exec cmd] |})
    | (Return proc, w) =>
      if finishes_within proc timeout then
        let s' := {| world := w; trace := trace s ++ [Exec cmd] |} in
        match stdout proc, stderr proc with
        | Some out, Some err => (Return (returncode proc, strip out, strip err), s')
        | _, _ => (Raise UnicodeDecodeError, s')
        end
      else
        match kill proc with
        | Killed =>
          (Return (1%Z, [], lit "Timeout"),
           {| world := w; trace := trace s ++ [Exec cmd; Kill cmd] |})
        | Gone | Denied =>
          (Raise OSError, {| world := w; trace := trace s ++ [Exec cmd] |})
        end
    end.

(** The body of the loop of [scan_networks], over the remaining lines. *)
Fixpoint scan_networks_loop (lines : list str) (nets : list pyval) : result (list pyval) :=
  match lines with
  | [] => Return nets
  | line :: more =>
    match firstn 2 (split 58%N line ++ [lit "0"]) with
    | [ssid; sig] =>
      match ssid with
      | [] => scan_networks_loop more nets
      | _ =>
        match py_int sig with
        | Some z =>
          scan_networks_loop more
            (nets ++ [PyDict [(PyStr (lit "ssid"), PyStr ssid);
                              (PyStr (lit "signal"), PyInt z)]])
        | None => Raise ValueError
        end
      end
    | _ => Raise ValueError
    end
  end.

Definition scan_networks : Run (list pyval) :=
  '(rc, out, _) <- _run (map lit ["nmcli"; "-t"; "-f"; "SSID,SIGNAL"; "device"; "wifi"; "list"]%string) 10 ;;
  fun s => (scan_networks_loop (splitlines out) [], s).

Definition connect_network (ssid password : str) : Run (bool * str) :=
  let cmd := map lit ["sudo"; "nmcli"; "device"; "wifi"; "connect"]%string ++ [ssid] in
  let cmd := match password with
             | [] => cmd
             | _ => cmd ++ [lit "password"; password]
             end in
  '(rc, out, err) <- _run cmd 30 ;;
  let ok := (rc =? 0)%Z in
  ret (ok, if ok then out else err).

(** The loop of [get_ip_address] over the candidate addresses. *)
Fixpoint first_private (ips : list str) : option str :=
  match ips with
  | [] => None
  | ip :: more =>
    match ip_is_private ip with
    | Some true => Some ip
    | Some false => first_private more
    | None => first_private more
    end
  end.

Definition get_ip_address : Run (option str) :=
  '(rc, out, _) <- _run (map lit ["hostname"; "-I"]%string) 10 ;;
  let ips := filter (fun i => match i with [] => false | _ => negb (startswith i (lit "127.")) end)
                    (split_whitespace out) in
  match first_private ips with
  | Some ip => ret (Some ip)
  | None => ret (hd_error ips)
  end.

(** *** [archive/network-old.py] *)

(** [run].  [subprocess.run] kills the child itself when the time is up
    and raises [TimeoutExpired], which [run] catches; its [Popen.kill]
    passes over a child that has ended, and the commands of the archived
    wizard are started as the user of the wizard. *)
Definition run (cmd : list str) (timeout : Z) : Run (Z * str * str) :=
  fun s =>
    match spawn cmd (world s) with
    | (Raise e, w) => (Raise e, {| world := w; trace := trace s ++ [Exec cmd] |})
    | (Return proc, w) =>
      if finishes_within proc timeout then
        let s' := {| world := w; trace := trace s ++ [Exec cmd] |} in
        match stdout proc, stderr proc with
        | Some out, Some err =>
          (Return (returncode proc, strip (universal_newlines out),
                   strip (universal_newlines err)), s')
        | _, _ => (Raise UnicodeDecodeError, s')
        end
      else
        (Return (1%Z, [], lit "Command timed out"),
         {| world := w; trace := trace s ++ [Exec cmd; Kill cmd] |})
    end.

Definition mem_str (x : str) (l : list str) : bool := existsb (str_eqb x) l.

(** One turn of the loop of [scan_wifi]: the list built so far and the
    set of names seen.  (The debug line that the loop prints to the
    standard error stream is left out.) *)
Definition scan_wifi_line (acc : list WifiNetwork * list str) (line : str)
  : list WifiNetwork * list str :=
  let (nets, seen) := acc in
  let parts := split 58%N line in
  let n := List.length parts in
  if (3 <=? n)%nat then
    let ssid0 := strip (join [58%N] (firstn (n - 2) parts)) in
    let signal0 := strip (nth (n - 2) parts []) in
    let security0 := str_or (strip (nth (n - 1) parts [])) (lit "--") in
    let ssid1 := match ssid0 with [] => lit "(hidden)" | _ => ssid0 end in
    if negb (mem_str ssid1 seen) then
      let sig := match py_int signal0 with Some z => z | None => 0%Z end in
      (nets ++ [{| ssid := ssid1; signal := sig; security := security0 |}],
       ssid1 :: seen)
    else acc
  else acc.

(** The sort key [(-n.signal, n.ssid.lower())] and its order. *)
Definition sort_key (n : WifiNetwork) : Z * str := ((- signal n)%Z, lower (ssid n)).

Definition key_ltb (a b : Z * str) : bool :=
  (fst a <? fst b)%Z || ((fst a =? fst b)%Z && str_ltb (snd a) (snd b)).

(** [list.sort(key=...)] is stable: among the arrangements in key order
    it is the one that keeps equal keys in their former order.  It is
    computed here by insertion from the right. *)
Fixpoint insert_by_key (x : WifiNetwork) (l : list WifiNetwork) : list WifiNetwork :=
  match l with
  | [] => [x]
  | y :: l' =>
    if key_ltb (sort_key y) (sort_key x) then y :: insert_by_key x l'
    else x :: l
  end.

Definition sort_by_key (l : list WifiNetwork) : list WifiNetwork :=
  fold_right insert_by_key [] l.

Definition scan_wifi : Run (list WifiNetwork) :=
  '(rc, out, err) <- run (map lit ["nmcli"; "-t"; "-f"; "SSID,SIGNAL,SECURITY"; "device"; "wifi"; "list"]%string) 8 ;;
  if negb (rc =? 0)%Z then ret []
  else ret (sort_by_key (fst (fold_left scan_wifi_line (splitlines out) ([], [])))).

(** [if password:] on an optional string. *)
Definition has_password (password : option str) : option str :=
  match password with
  | Some (c :: p) => Some (c :: p)
  | _ => None
  end.

Definition connect_wifi (ssid_ : str) (password : option str) : Run (bool * str) :=
  if str_eqb ssid_ (lit "(hidden)") then
    ret (false, lit "Cannot directly connect to '(hidden)'" ++ [8212%N]
                ++ lit "please use 'Hidden SSID' flow.")
  else
    let cmd := map lit ["nmcli"; "device"; "wifi"; "connect"]%string ++ [ssid_] in
    let cmd := match has_password password with
               | Some p => cmd ++ [lit "password"; p]
               | None => cmd
               end in
    '(rc, out, err) <- run cmd 25 ;;
    if (rc =? 0)%Z then ret (true, str_or out (lit "Connected."))
    else ret (false, str_or err (str_or out (lit "Failed to connect."))).

Definition hidden_connect_cmd (ssid_ : str) (password : option str) : list str :=
  let cmd := map lit ["nmcli"; "device"; "wifi"; "connect"]%string ++ [ssid_]
             ++ map lit ["hidden"; "yes"]%string in
  match has_password password with
  | Some p => cmd ++ [lit "password"; p]
  | None => cmd
  end.

Definition profile_add_cmd (ssid_ : str) (password : option str) : list str :=
  match has_password password with
  | Some p =>
    map lit ["nmcli"; "connection"; "add"; "type"; "wifi"; "con-name"]%string
    ++ [ssid_] ++ map lit ["ifname"; "*"; "ssid"]%string ++ [ssid_]
    ++ map lit ["wifi-sec.key-mgmt"; "wpa-psk"; "wifi-sec.psk"]%string ++ [p]
  | None =>
    map lit ["nmcli"; "connection"; "add"; "type"; "wifi"; "con-name"]%string
    ++ [ssid_] ++ map lit ["ifname"; "*"; "ssid"]%string ++ [ssid_]
  end.

Definition profile_up_cmd (ssid_ : str) : list str :=
  map lit ["nmcli"; "connection"; "up"]%string ++ [ssid_].

Definition connect_hidden_wifi (ssid_ : str) (password : option str) : Run (bool * str) :=
  match ssid_ with
  | [] => ret (false, lit "SSID cannot be empty.")
  | _ =>
    '(rc, out, err) <- run (hidden_connect_cmd ssid_ password) 25 ;;
    if (rc =? 0)%Z then ret (true, str_or out (lit "Connected."))
    else
      '(rc2, out2, err2) <- run (profile_add_cmd ssid_ password) 15 ;;
      if negb (rc2 =? 0)%Z && negb (contains (lit "exists") (lower (out2 ++ err2))) then
        ret (false, str_or err2 (str_or out2 (lit "Failed to create connection profile.")))
      else
        '(rc3, out3, err3) <- run (profile_up_cmd ssid_) 20 ;;
        if (rc3 =? 0)%Z then ret (true, str_or out3 (lit "Connected."))
        else ret (false, str_or err3 (str_or out3 (lit "Failed to bring up connection.")))
  end.

(** The loop of the second branch of [get_ip_addresses], over the lines
    of [ip -4 -o addr show]. *)
Definition addr_of_line (line : str) : list str :=
  let parts := split_whitespace line in
  if (4 <=? List.length parts)%nat then [hd [] (split 47%N (nth 3 parts []))] else [].

Definition get_ip_addresses : Run (list str) :=
  '(rc, out, _) <- run (map lit ["hostname"; "-I"]%string) 8 ;;
  if (rc =? 0)%Z && match out with [] => false | _ => true end then
    ret (map strip
             (filter (fun ip => match strip ip with [] => false | _ => true end)
                     (split_whitespace (strip out))))
  else
    '(rc2, out2, _) <- run (map lit ["ip"; "-4"; "-o"; "addr"; "show"]%string) 8 ;;
    if (rc2 =? 0)%Z then ret (flat_map addr_of_line (splitlines out2))
    else ret [].

(** The archived wizard: its attributes together with the runner state. *)
Definition Wiz (A : Type) : Type := M (NetworkWizard * rstate) A.

Definition lift_run {A} (m : Run A) : Wiz A :=
  fun s =>
    match m (snd s) with
    | (r, s') => (r, (fst s, s'))
    end.

Definition self : Wiz NetworkWizard := fun s => (Return (fst s), s).

Definition update (f : NetworkWizard -> NetworkWizard) : Wiz unit :=
  fun s => (Return tt, (f (fst s), snd s)).

Definition set_status_text (t : str) (a : NetworkWizard) : NetworkWizard :=
  {| selected_ssid := selected_ssid a; networks := networks a;
     password_value := password_value a; password_mode := password_mode a;
     password_placeholder := password_placeholder a;
     status_text := t; status_label := status_label a; ip_label := ip_label a;
     connected_ips := connected_ips a; widgets_enabled := widgets_enabled a |}.

(** [self.status_label.update(self.status_text)]. *)
Definition show_status (a : NetworkWizard) : NetworkWizard :=
  {| selected_ssid := selected_ssid a; networks := networks a;
     password_value := password_value a; password_mode := password_mode a;
     password_placeholder := password_placeholder a;
     status_text := status_text a; status_label := status_text a; ip_label := ip_label a;
     connected_ips := connected_ips a; widgets_enabled := widgets_enabled a |}.

Definition set_ip_label (t : str) (a : NetworkWizard) : NetworkWizard :=
  {| selected_ssid := selected_ssid a; networks := networks a;
     password_value := password_value a; password_mode := password_mode a;
     password_placeholder := password_placeholder a;
     status_text := status_text a; status_label := status_label a; ip_label := t;
     connected_ips := connected_ips a; widgets_enabled := widgets_enabled a |}.

Definition set_connected_ips (ips : list str) (a : NetworkWizard) : NetworkWizard :=
  {| selected_ssid := selected_ssid a; networks := networks a;
     password_value := password_value a; password_mode := password_mode a;
     password_placeholder := password_placeholder a;
     status_text := status_text a; status_label := status_label a; ip_label := ip_label a;
     connected_ips := ips; widgets_enabled := widgets_enabled a |}.

Definition set_widgets_enabled (enabled : bool) (a : NetworkWizard) : NetworkWizard :=
  {| selected_ssid := selected_ssid a; networks := networks a;
     password_value := password_value a; password_mode := password_mode a;
     password_placeholder := password_placeholder a;
     status_text := status_text a; status_label := status_label a; ip_label := ip_label a;
     connected_ips := connected_ips a; widgets_enabled := enabled |}.

(** The hidden name typed into the password field is taken over and the
    field goes back to asking for a password. *)
Definition capture_hidden_ssid (entered : str) (a : NetworkWizard) : NetworkWizard :=
  {| selected_ssid := Some entered; networks := networks a;
     password_value := []; password_mode := true;
     password_placeholder :=
       lit "Password for hidden SSID (leave empty if open), then press Connect again";
     status_text := lit "Hidden SSID '" ++ entered
                    ++ lit "' captured. Enter password (if any), then press Connect again.";
     status_label := status_label a; ip_label := ip_label a;
     connected_ips := connected_ips a; widgets_enabled := widgets_enabled a |}.

(** [needs_pwd] as the loop over [self.networks] leaves it. *)
Fixpoint needs_pwd (selected : str) (nets : list WifiNetwork) : bool :=
  match nets with
  | [] => true
  | n :: more =>
    if str_eqb (ssid n) selected then
      negb (mem_str (security n) [lit "--"; lit "NONE"; []])
    else needs_pwd selected more
  end.

Definition in_scan (selected : str) (nets : list WifiNetwork) : bool :=
  existsb (fun n => str_eqb (ssid n) selected) nets.

(** The first statement inside [try:]: which way of connecting is taken,
    and its outcome [(ok, msg)]. *)
Definition attempt_connect_choose (selected : str) (pwd : option str)
  (nets : list WifiNetwork) : Run (bool * str) :=
  if str_eqb selected (lit "(hidden)") then
    ret (false, lit "Please use 'Hidden SSID' to enter the network name.")
  else
    let pwd := if needs_pwd selected nets then pwd else None in
    if match selected with [] => false | _ => true end && negb (in_scan selected nets)
    then connect_hidden_wifi selected pwd
    else connect_wifi selected pwd.

(** The second statement inside [try:]: what is shown of the outcome. *)
Definition attempt_connect_report (selected : str) (outcome : bool * str) : Wiz unit :=
  let (ok, msg) := outcome in
  if ok then
    ips <- lift_run get_ip_addresses ;;
    update (set_connected_ips ips) ;;;
    update (set_status_text (lit "Connected to '" ++ selected ++ lit "'.")) ;;;
    match ips with
    | [] => update (set_ip_label (lit "IP: (pending DHCP)"))
    | _ => update (set_ip_label (lit "IP: " ++ join (lit ", ") ips))
    end
  else
    update (set_status_text (lit "Connection failed: " ++ msg)).

Definition attempt_connect_body (selected : str) (pwd : option str) : Wiz unit :=
  a <- self ;;
  outcome <- lift_run (attempt_connect_choose selected pwd (networks a)) ;;
  attempt_connect_report selected outcome.

Definition attempt_connect : Wiz unit :=
  a <- self ;;
  match selected_ssid a with
  | None =>
    update (set_status_text (lit "Select a network first (or choose Hidden SSID).")) ;;;
    update show_status
  | Some selected =>
    if str_eqb selected (lit "(hidden-enter-next)") then
      match strip (password_value a) with
      | [] =>
        update (set_status_text (lit "Hidden SSID cannot be empty.")) ;;;
        update show_status
      | entered =>
        update (capture_hidden_ssid entered) ;;;
        update show_status
      end
    else
      let pwd := match password_value a with [] => None | v => Some v end in
      update (set_status_text (lit "Connecting to '" ++ selected ++ lit "'...")) ;;;
      update show_status ;;;
      update (set_widgets_enabled false) ;;;
      try_finally (attempt_connect_body selected pwd)
                  (update show_status ;;; update (set_widgets_enabled true))
  end.

End Commands.

(** ** Activation client ([bootstrap/utils/api_utils.py]) *)

Module Api.

(** An exception object: whether it is an instance of [Exception] (a
    cancellation is not) and its [str()]. *)
Record pyexc : Type := {
  is_Exception : bool;
  exc_str : str
}.

(** What [await r.json()] does. *)
Inductive json_outcome : Type :=
| JsonValue (data : pyval)
| JsonRaises (e : pyexc).

(** What the request does: a response with its status and body, or an
    exception out of the session or the request. *)
Inductive http_outcome : Type :=
| Response (status : Z) (body : json_outcome)
| RequestRaises (e : pyexc).

(** What a call of [check_key_status] does. *)
Inductive outcome : Type :=
| Returns (ok : bool) (msg : str)
| Propagates (e : pyexc).

Definition API_URL : str := lit "https://api.example.com/devices".

Definition type_name (v : pyval) : str :=
  match v with
  | PyNone => lit "NoneType"
  | PyBool _ => lit "bool"
  | PyInt _ => lit "int"
  | PyFloat _ => lit "float"
  | PyStr _ => lit "str"
  | PyList _ => lit "list"
  | PyTuple _ => lit "tuple"
  | PyDict _ => lit "dict"
  end.

(** [data.get("active")]: a [dict] has the method, other values raise
    [AttributeError]. *)
Definition get_active (data : pyval) : pyval + pyexc :=
  match data with
  | PyDict items => inl (dict_get items (lit "active"))
  | _ => inr {| is_Exception := true;
                exc_str := lit "'" ++ type_name data
                           ++ lit "' object has no attribute 'get'" |}
  end.

(** [except Exception as e: return False, f"Network error: {e}"]. *)
Definition handle (e : pyexc) : outcome :=
  if is_Exception e then Returns false (lit "Network error: " ++ exc_str e)
  else Propagates e.

Section Client.

(** The network: what [s.get(url, params=..., timeout=5)] meets. *)
Variable http_get : str -> list (str * str) -> http_outcome.

Definition check_key_status (api_key : str) : outcome :=
  match http_get (API_URL ++ lit "/validate") [(lit "key", api_key)] with
  | RequestRaises e => handle e
  | Response status body =>
    if (status =? 200)%Z then
      match body with
      | JsonRaises e => handle e
      | JsonValue data =>
        match get_active data with
        | inr e => handle e
        | inl active =>
          if py_truthy active then Returns true (lit "API key active " ++ [9989%N])
          else Returns false (lit "Key found but not activated.")
        end
      end
    else Returns false (lit "Invalid API key.")
  end.

End Client.

End Api.

(** ** Wizard flow ([bootstrap/wizard.py]) *)

Module Wizard.

Inductive screen : Type :=
| NetworkScreen
| ActivationScreen
| SummaryScreen (result : pyval).

(** The screen stack of the application, topmost screen first. *)
Definition stack := list screen.

Definition push_screen (s : screen) (st : stack) : stack := s :: st.

Definition on_mount (st : stack) : stack := push_screen NetworkScreen st.

Definition after_network (network_result : list (pyval * pyval)) (st : stack) : stack :=
  if negb (py_truthy (dict_get network_result (lit "connected"))) then
    push_screen
      (SummaryScreen (PyDict [(PyStr (lit "error"), PyStr (lit "Network not connected"))]))
      st
  else push_screen ActivationScreen st.

Definition after_activation (activation_result : pyval) (st : stack) : stack :=
  push_screen (SummaryScreen activation_result) st.

(** The dictionary that [NetworkScreen.handle_done] hands to [on_done]. *)
Definition network_step_result (connected : bool) (ip : option str) : list (pyval * pyval) :=
  [(PyStr (lit "connected"), PyBool connected);
   (PyStr (lit "ip"), match ip with Some a => PyStr a | None => PyNone end)].

End Wizard.

(** ** Connectivity checks ([get_connectivity], [have_connectivity]) *)

Section Connectivity.

Variable World : Type.
Variable spawn : list str -> World -> result process * World.
Variable lower : str -> str.

(** [socket.gethostbyname(name)]: the resolver raises or answers. *)
Variable gethostbyname : str -> World -> result unit * World.

Local Open Scope monad_scope.

(** [bootstrap/utils/nmcli_utils.py].  The target [rc, _, _] binds the
    name [_] twice, the second time to the text of the error stream; that
    is the text searched. *)
Definition get_connectivity : Run World bool :=
  '(rc, _, err) <- _run spawn (map lit ["nmcli"; "-t"; "-f"; "CONNECTIVITY"; "general"]%string) 10 ;;
  ret (if (rc =? 0)%Z then contains (lit "full") (lower err) else false).

(** [archive/network-old.py], with the default [timeout=3.0]: the
    command gets [str(int(timeout))] and the runner [int(timeout)+1]
    seconds.  Both [except Exception] clauses answer [False]. *)
Definition have_connectivity : Run World bool :=
  fun s =>
    match gethostbyname (lit "www.google.com") (world s) with
    | (Raise _, w) => (Return false, {| world := w; trace := trace s |})
    | (Return _, w) =>
      match run spawn (map lit ["curl"; "-sS"; "--max-time"; "3";
                                "https://www.google.com/generate_204"]%string) 4
                {| world := w; trace := trace s |} with
      | (Return (rc, _, _), s') => (Return (rc =? 0)%Z, s')
      | (Raise _, s') => (Return false, s')
      end
    end.

End Connectivity.

(** ** The archived wizard: the prompt for a hidden name *)

Section HiddenPrompt.

Variable World : Type.

Local Open Scope monad_scope.

(** [enter_hidden_ssid]: the password field is borrowed for the name. *)
Definition enter_hidden_ssid : Wiz World unit :=
  update (set_status_text
            (lit "Enter hidden SSID in the password field temporarily, then press Connect. (We'll reprompt for password)")) ;;;
  update show_status ;;;
  update (fun a =>
            {| selected_ssid := Some (lit "(hidden-enter-next)");
               networks := networks a;
               password_value := []; password_mode := false;
               password_placeholder := lit "TEMP: Enter hidden SSID here, then press Connect";
               status_text := status_text a; status_label := status_label a;
               ip_label := ip_label a; connected_ips := connected_ips a;
               widgets_enabled := widgets_enabled a |}).

End HiddenPrompt.

(** ** Values at run time: lookups and formatting *)

(** What the screens can raise besides the exceptions of the utilities:
    the two lookup errors, and an exception that is no [Exception],
    handed on by the key check. *)
Inductive raised : Type :=
| Utility (e : exn)
| IndexError
| KeyError
| Passed (e : Api.pyexc).

Inductive attempt (A : Type) : Type :=
| Done (a : A)
| Fails (e : raised).

Arguments Done {A} a.
Arguments Fails {A} e.

Definition of_result {A} (r : result A) : attempt A :=
  match r with
  | Return a => Done a
  | Raise e => Fails (Utility e)
  end.

(** The handlers of a screen: state passing with the exceptions above. *)
Definition Act (S A : Type) : Type := S -> attempt A * S.

Definition pure {S A} (a : A) : Act S A := fun s => (Done a, s).

Definition throw {S A} (e : raised) : Act S A := fun s => (Fails e, s).

Definition lift {S A} (r : attempt A) : Act S A := fun s => (r, s).

Definition and_then {S A B} (m : Act S A) (k : A -> Act S B) : Act S B :=
  fun s =>
    match m s with
    | (Done a, s') => k a s'
    | (Fails e, s') => (Fails e, s')
    end.

Declare Scope act_scope.
Delimit Scope act_scope with act.
Notation "x <- m ;; k" := (and_then m (fun x => k))
  (at level 61, m at next level, right associativity) : act_scope.
Notation "' p <- m ;; k" := (and_then m (fun x => match x with p => k end))
  (at level 61, p pattern, m at next level, right associativity) : act_scope.
Notation "m ;;; k" := (and_then m (fun _ => k))
  (at level 61, right associativity) : act_scope.

(** The value stored under a [str] key, if there is one. *)
Fixpoint dict_find (items : list (pyval * pyval)) (key : str) : option pyval :=
  match items with
  | [] => None
  | (PyStr k, v) :: items' => if str_eqb k key then Some v else dict_find items' key
  | _ :: items' => dict_find items' key
  end.

(** [v[key]] for a [str] key: [KeyError] for a [dict] without the key,
    [TypeError] for a value of another type. *)
Definition getitem (v : pyval) (key : str) : attempt pyval :=
  match v with
  | PyDict items =>
    match dict_find items key with
    | Some x => Done x
    | None => Fails KeyError
    end
  | _ => Fails (Utility TypeError)
  end.

(** [v[key] = x] for a [str] key; only a [dict] takes it. *)
Definition setitem (v : pyval) (key : str) (x : pyval) : attempt pyval :=
  match v with
  | PyDict items => Done (PyDict (dict_set items key x))
  | _ => Fails (Utility TypeError)
  end.

(** [v.get(key)]: only a [dict] has the method. *)
Definition get_method (v : pyval) (key : str) : attempt pyval :=
  match v with
  | PyDict items => Done (dict_get items key)
  | _ => Fails (Utility AttributeError)
  end.

(** [l[i]] for a list: a negative index counts from the end. *)
Definition list_item {A} (l : list A) (i : Z) : attempt A :=
  let n := Z.of_nat (List.length l) in
  let j := if (i <? 0)%Z then (i + n)%Z else i in
  if ((0 <=? j) && (j <? n))%Z then
    match nth_error l (Z.to_nat j) with
    | Some x => Done x
    | None => Fails IndexError
    end
  else Fails IndexError.

Section Format.

(** [format(v, "")] of a float or a container; library code. *)
Variable format_other : pyval -> attempt str.

(** A replacement field [{v}] of an f-string. *)
Definition format_value (v : pyval) : attempt str :=
  match v with
  | PyStr s => Done s
  | PyNone => Done (lit "None")
  | PyBool true => Done (lit "True")
  | PyBool false => Done (lit "False")
  | PyInt z => of_result (int_repr z)
  | _ => format_other v
  end.

End Format.

(** [{len(l)}] in an f-string.  (A length is below [sys.maxsize], which
    has nineteen digits; the limit of digits does not come into play.) *)
Definition len_text {A} (l : list A) : str := int_numeral (Z.of_nat (List.length l)).

(** ** The network screen ([bootstrap/screens/network_screen.py]) *)

Module network_screen.

(** The attributes of the screen and what its widgets hold: the list
    view by the texts of its items, the password input by its value and
    the status label by its text. *)
Record NetworkScreen : Type := {
  networks : list pyval;
  selected_ssid : pyval;
  listview : list str;
  password : str;
  status : str
}.

(** [__init__] and [compose]. *)
Definition init : NetworkScreen :=
  {| networks := []; selected_ssid := PyNone; listview := []; password := []; status := [] |}.

Section Handlers.

Variable World : Type.
Variable spawn : list str -> World -> result process * World.
Variable lower : str -> str.
Variable ip_is_private : str -> option bool.
Variable format_other : pyval -> attempt str.

Local Open Scope act_scope.

Definition Handler (A : Type) : Type := Act (NetworkScreen * rstate World) A.

Definition self : Handler NetworkScreen := fun s => (Done (fst s), s).

Definition update (f : NetworkScreen -> NetworkScreen) : Handler unit :=
  fun s => (Done tt, (f (fst s), snd s)).

(** [await] of one of the functions of [nmcli_utils]. *)
Definition await {A} (m : Run World A) : Handler A :=
  fun s =>
    match m (snd s) with
    | (r, s') => (of_result r, (fst s, s'))
    end.

Definition status_update (text : str) : Handler unit :=
  update (fun scr =>
            {| networks := networks scr; selected_ssid := selected_ssid scr;
               listview := listview scr; password := password scr; status := text |}).

Definition set_networks (nets : list pyval) : Handler unit :=
  update (fun scr =>
            {| networks := nets; selected_ssid := selected_ssid scr;
               listview := listview scr; password := password scr; status := status scr |}).

Definition set_listview (items : list str) : Handler unit :=
  update (fun scr =>
            {| networks := networks scr; selected_ssid := selected_ssid scr;
               listview := items; password := password scr; status := status scr |}).

Definition set_selected_ssid (v : pyval) : Handler unit :=
  update (fun scr =>
            {| networks := networks scr; selected_ssid := v;
               listview := listview scr; password := password scr; status := status scr |}).

(** The text of a list item, [f"{net['ssid']}  ({net['signal']}%)"]. *)
Definition item_text (net : pyval) : attempt str :=
  match getitem net (lit "ssid") with
  | Fails e => Fails e
  | Done name =>
    match format_value format_other name with
    | Fails e => Fails e
    | Done a =>
      match getitem net (lit "signal") with
      | Fails e => Fails e
      | Done sig =>
        match format_value format_other sig with
        | Fails e => Fails e
        | Done b => Done (a ++ lit "  (" ++ b ++ lit "%)")
        end
      end
    end
  end.

(** The loop of [refresh_networks]. *)
Fixpoint append_items (nets : list pyval) : Handler unit :=
  match nets with
  | [] => pure tt
  | net :: more =>
    text <- lift (item_text net) ;;
    scr <- self ;;
    set_listview (listview scr ++ [text]) ;;;
    append_items more
  end.

Definition refresh_networks : Handler unit :=
  status_update (lit "Scanning" ++ [8230%N]) ;;;
  nets <- await (scan_networks spawn) ;;
  set_networks nets ;;;
  set_listview [] ;;;
  append_items nets ;;;
  status_update (lit "Found " ++ len_text nets ++ lit " network(s).").

Definition on_mount : Handler unit := refresh_networks.

Definition handle_refresh : Handler unit := refresh_networks.

(** [handle_select], for the index that the event carries. *)
Definition handle_select (index : Z) : Handler unit :=
  scr <- self ;;
  net <- lift (list_item (networks scr) index) ;;
  name <- lift (getitem net (lit "ssid")) ;;
  set_selected_ssid name.

(** [ip or 'unknown']. *)
Definition or_unknown (ip : option str) : str :=
  match ip with
  | Some (c :: r) => c :: r
  | _ => lit "unknown"
  end.

(** [handle_connect].  A selected value that is no [str] cannot stand in
    a command line: starting the process raises [TypeError]. *)
Definition handle_connect : Handler unit :=
  scr <- self ;;
  if negb (py_truthy (selected_ssid scr)) then
    status_update (lit "Select a network first.")
  else
    shown <- lift (format_value format_other (selected_ssid scr)) ;;
    status_update (lit "Connecting to " ++ shown ++ [8230%N]) ;;;
    match selected_ssid scr with
    | PyStr name =>
      '(ok, msg) <- await (connect_network spawn name (password scr)) ;;
      if ok : bool then
        ip <- await (get_ip_address spawn ip_is_private) ;;
        status_update (lit "Connected! IP: " ++ or_unknown ip)
      else status_update (lit "Failed: " ++ msg)
    | _ => throw (Utility TypeError)
    end.

(** [handle_done]: the callback [on_done] acts on the application. *)
Definition handle_done (App : Type) (on_done : list (pyval * pyval) -> App -> App)
  : Act (rstate World * App) unit :=
  fun s =>
    match get_connectivity spawn lower (fst s) with
    | (Raise e, s1) => (Fails (Utility e), (s1, snd s))
    | (Return connected, s1) =>
      match get_ip_address spawn ip_is_private s1 with
      | (Raise e, s2) => (Fails (Utility e), (s2, snd s))
      | (Return ip, s2) =>
        (Done tt, (s2, on_done (Wizard.network_step_result connected ip) (snd s)))
      end
    end.

End Handlers.

End network_screen.

(** ** Activation codes ([generate_activation_code]) *)

Section ActivationCode.

(** The random number generator.  [random.choices(population, k=k)] draws
    [k] times the item [population[floor(random() * n)]], [n] the size of
    the population; [random_index n] is that index.  The generator is
    library code. *)
Variable Rng : Type.
Variable random_index : nat -> Rng -> nat * Rng.

Fixpoint choices (population : str) (k : nat) : Act Rng str :=
  match k with
  | O => pure []
  | S k' =>
    fun g =>
      let (i, g') := random_index (List.length population) g in
      match nth_error population i with
      | None => (Fails IndexError, g')
      | Some c =>
        match choices population k' g' with
        | (Done cs, g'') => (Done (c :: cs), g'')
        | (Fails e, g'') => (Fails e, g'')
        end
      end
  end.

(** [string.digits], joined draws. *)
Definition generate_activation_code : Act Rng str := choices (lit "0123456789") 6.

End ActivationCode.

(** ** The activation screen ([bootstrap/screens/activation_screen.py]) *)

Module activation_screen.

(** The status label by its text and the key input by its value. *)
Record ActivationScreen : Type := {
  status : str;
  key_input : str
}.

(** [compose]. *)
Definition init : ActivationScreen :=
  {| status := lit "Checking device key" ++ [8230%N]; key_input := [] |}.

Section Handlers.

Variable float_of_str : str -> spec_float.
Variable floatstr : spec_float -> str.
Variable deep_read : nat -> N -> bool.
Variable deep_write : nat -> pyval -> bool.
Variable http_get : str -> list (str * str) -> Api.http_outcome.

(** [check_key_status(key)] for a key that is no [str]: what becomes of
    such a request parameter is decided by the HTTP library. *)
Variable check_other : pyval -> Api.outcome.

Variable Rng : Type.
Variable random_index : nat -> Rng -> nat * Rng.

Local Open Scope act_scope.

(** The screen, the state file and the random number generator. *)
Definition Handler (A : Type) : Type := Act (ActivationScreen * (filesystem * Rng)) A.

Definition self : Handler ActivationScreen := fun s => (Done (fst s), s).

Definition status_update (text : str) : Handler unit :=
  fun s => (Done tt, ({| status := text; key_input := key_input (fst s) |}, snd s)).

Definition load : Handler pyval :=
  fun s => (of_result (load_state float_of_str deep_read (fst (snd s))), s).

Definition save (state : pyval) : Handler unit :=
  fun s =>
    match save_state floatstr deep_write state (fst (snd s)) with
    | (r, fs') => (of_result r, (fst s, (fs', snd (snd s))))
    end.

Definition draw_code : Handler str :=
  fun s =>
    match generate_activation_code random_index (snd (snd s)) with
    | (r, g') => (r, (fst s, (fst (snd s), g')))
    end.

Definition check (key : pyval) : Handler (bool * str) :=
  match match key with
        | PyStr k => Api.check_key_status http_get k
        | _ => check_other key
        end with
  | Api.Returns ok msg => pure (ok, msg)
  | Api.Propagates e => throw (Passed e)
  end.

Definition on_mount : Handler unit :=
  state <- load ;;
  key <- lift (get_method state (lit "api_key")) ;;
  if negb (py_truthy key) then
    code <- draw_code ;;
    status_update (lit "No API key found." ++ [10%N] ++ lit "Activation code: " ++ code) ;;;
    state' <- lift (setitem state (lit "activation_code") (PyStr code)) ;;
    save state'
  else
    '(ok, msg) <- check key ;;
    status_update msg.

Definition validate_key : Handler unit :=
  scr <- self ;;
  match strip (key_input scr) with
  | [] => status_update (lit "Please enter a key.")
  | key =>
    '(ok, msg) <- check (PyStr key) ;;
    status_update msg ;;;
    if ok : bool then
      state <- load ;;
      state' <- lift (setitem state (lit "api_key") (PyStr key)) ;;
      save state'
    else pure tt
  end.

(** [done]: the callback [on_done] acts on the application. *)
Definition done (App : Type) (on_done : pyval -> App -> App)
  : Act (filesystem * App) unit :=
  fun s =>
    match load_state float_of_str deep_read (fst s) with
    | Raise e => (Fails (Utility e), s)
    | Return state =>
      match get_method state (lit "api_key") with
      | Fails e => (Fails e, s)
      | Done key =>
        (Done tt,
         (fst s, on_done (PyDict [(PyStr (lit "activated"), PyBool (py_truthy key))])
                         (snd s)))
      end
    end.

End Handlers.

End activation_screen.

(** ** The summary screen ([bootstrap/screens/summary_screen.py]) *)

Module summary_screen.

Section Compose.

Variable format_other : pyval -> attempt str.

(** The text of the label that [compose] yields for [self.result]. *)
Definition message (result : pyval) : attempt str :=
  match get_method result (lit "error") with
  | Fails e => Fails e
  | Done err =>
    if py_truthy err then
      match getitem result (lit "error") with
      | Fails e => Fails e
      | Done v =>
        match format_value format_other v with
        | Fails e => Fails e
        | Done t => Done ([10060%N; 32%N] ++ t)
        end
      end
    else
      match get_method result (lit "activated") with
      | Fails e => Fails e
      | Done activated =>
        if py_truthy activated then
          Done ([9989%N] ++ lit " Device activated and ready!")
        else
          match get_method result (lit "connected") with
          | Fails e => Fails e
          | Done connected =>
            if py_truthy connected then
              match get_method result (lit "ip") with
              | Fails e => Fails e
              | Done ip =>
                match format_value format_other ip with
                | Fails e => Fails e
                | Done t => Done ([9989%N] ++ lit " Connected to network. IP: " ++ t)
                end
              end
            else Done ([9888%N; 65039%N] ++ lit "  Setup incomplete.")
          end
      end
  end.

End Compose.

End summary_screen.

(* ===================================================================== *)
(** * Part II. Properties                                                 *)
(* ===================================================================== *)

Unset Implicit Arguments.

(** ** Sample environments for the closed examples *)

(** A world that answers the successive commands from a script. *)
Definition scripted : Type := list (result process).

Definition spawn_scripted (cmd : list str) (w : scripted) : result process * scripted :=
  match w with
  | [] => (Raise OSError, [])
  | r :: w' => (r, w')
  end.

Definition answers (w : scripted) : rstate scripted := {| world := w; trace := [] |}.

(** A process that prints [out] and exits with [rc] after a tenth of a
    second. *)
Definition prints (rc : Z) (out : string) : result process :=
  Return {| duration := Some (1 # 10)%Q; returncode := rc;
            stdout := Some (lit out); stderr := Some []; kill := Killed |}.

(** A process that never exits. *)
Definition hangs : result process :=
  Return {| duration := None; returncode := 0; stdout := Some []; stderr := Some [];
            kill := Killed |}.

(** Lower case of the ASCII letters, other code points unchanged. *)
Definition ascii_lower (s : str) : str :=
  map (fun c => if (65 <=? c)%N && (c <=? 90)%N then (c + 32)%N else c) s.

(** One octet of a dotted quad. *)
Definition octet (s : str) : option Z :=
  match s with
  | [] => None
  | c :: r =>
    if forallb is_digit s && (List.length s <=? 3)%nat
       && (negb (c =? 48)%N || match r with [] => true | _ => false end)
    then match py_int s with
         | Some z => if (z <=? 255)%Z then Some z else None
         | None => None
         end
    else None
  end.

(** An address judge for dotted quads: private are the blocks 10/8,
    172.16/12, 192.168/16, 169.254/16, 127/8 and 0/8; other texts are no
    addresses. *)
Definition dotted_quad_is_private (s : str) : option bool :=
  match map octet (split 46%N s) with
  | [Some a; Some b; Some _; Some _] =>
    Some ((a =? 10) || (a =? 127) || (a =? 0)
          || ((a =? 172) && (16 <=? b) && (b <=? 31))
          || ((a =? 192) && (b =? 168))
          || ((a =? 169) && (b =? 254)))%Z
  | _ => None
  end.

(** The same judge, knowing also the unique local IPv6 address
    [fd00::1], which is private. *)
Definition with_unique_local (s : str) : option bool :=
  if str_eqb s (lit "fd00::1") then Some true else dotted_quad_is_private s.

(** ** Strings *)

Lemma str_eqb_eq : forall a b, str_eqb a b = true <-> a = b.
Proof.
  induction a as [|x a IH]; destruct b as [|y b]; simpl; split; intro H;
    try reflexivity; try discriminate.
  - apply andb_true_iff in H. destruct H as [Hx Ha].
    apply N.eqb_eq in Hx. apply IH in Ha. congruence.
  - injection H as -> ->. apply andb_true_iff. split.
    + apply N.eqb_refl.
    + now apply IH.
Qed.

Lemma str_eqb_refl : forall a, str_eqb a a = true.
Proof. intro a. now apply str_eqb_eq. Qed.

Lemma str_eqb_neq : forall a b, str_eqb a b = false <-> a <> b.
Proof.
  intros a b. split.
  - intros H E. apply str_eqb_eq in E. congruence.
  - intro H. destruct (str_eqb a b) eqn:E; [|reflexivity].
    apply str_eqb_eq in E. contradiction.
Qed.

Lemma mem_str_In : forall x l, mem_str x l = true <-> In x l.
Proof.
  intros x l. unfold mem_str. rewrite existsb_exists. split.
  - intros [y [Hy E]]. apply str_eqb_eq in E. now subst.
  - intro H. exists x. split; [assumption | apply str_eqb_refl].
Qed.

(** ** Wizard flow *)

Import Wizard.

Definition network_error : pyval :=
  PyDict [(PyStr (lit "error"), PyStr (lit "Network not connected"))].

(** C1. Activation gating.  After the network screen hands over its
    result dictionary, the screen on top of the stack is the activation
    screen exactly when the [connected] entry of the dictionary is true
    (in Python's sense of truth; for the Boolean that [handle_done] stores
    there, exactly when it is [True]); in every other case it is the
    summary screen carrying the error result.  The network screen stays
    underneath. *)
Theorem activation_gating :
  forall (network_result : list (pyval * pyval)) (st : stack),
    let connected := py_truthy (dict_get network_result (lit "connected")) in
    let after := after_network network_result (on_mount st) in
    (hd_error after = Some ActivationScreen <-> connected = true)
    /\ (after = ActivationScreen :: NetworkScreen :: st
        \/ (connected = false /\ after = SummaryScreen network_error :: NetworkScreen :: st))
    /\ (forall (c : bool) (ip : option str),
           hd_error (after_network (network_step_result c ip) (on_mount st))
           = Some ActivationScreen <-> c = true).
Proof.
  intros d st connected after. subst connected after.
  unfold after_network, on_mount, push_screen, network_error.
  repeat split.
  - destruct (py_truthy (dict_get d (lit "connected"))); simpl;
      [reflexivity | discriminate].
  - intros ->. reflexivity.
  - destruct (py_truthy (dict_get d (lit "connected"))); simpl;
      [left; reflexivity | right; split; reflexivity].
  - destruct c; simpl; [reflexivity | discriminate].
  - intros ->. reflexivity.
Qed.

Lemma activation_gating_witness :
  after_network (network_step_result true (Some (lit "192.168.1.7"))) (on_mount [])
  = [ActivationScreen; NetworkScreen]
  /\ after_network (network_step_result false None) (on_mount [])
     = [SummaryScreen network_error; NetworkScreen]
  /\ hd_error (after_network (network_step_result true None) (on_mount []))
     = Some ActivationScreen.
Proof.
  split; [|split].
  - destruct (proj1 (proj2 (activation_gating
                 (network_step_result true (Some (lit "192.168.1.7"))) [])))
      as [H | [H _]]; [exact H | discriminate H].
  - destruct (proj1 (proj2 (activation_gating (network_step_result false None) [])))
      as [H | [_ H]]; [discriminate H | exact H].
  - exact (proj2 (proj2 (proj2 (activation_gating [] [])) true None) eq_refl).
Defined.

(** ** Activation client *)

Import Api.

Definition validate_request (http_get : str -> list (str * str) -> http_outcome)
  (api_key : str) : http_outcome :=
  http_get (lit "https://api.example.com/devices/validate") [(lit "key", api_key)].

(** The response is a 200 whose JSON body is an object with a true
    [active] entry. *)
Definition active_response (r : http_outcome) : Prop :=
  exists items,
    r = Response 200 (JsonValue (PyDict items))
    /\ py_truthy (dict_get items (lit "active")) = true.

Lemma handle_cases : forall e,
  (is_Exception e = true /\ handle e = Returns false (lit "Network error: " ++ exc_str e))
  \/ (is_Exception e = false /\ handle e = Propagates e).
Proof.
  intro e. unfold handle. destruct (is_Exception e); [left | right]; split; reflexivity.
Qed.

(** C6. Key check.  [check_key_status] sends one GET to the validation
    endpoint with the key as parameter.  It returns success exactly when
    the answer is a 200 whose JSON body is an object with a true [active]
    entry (for a Boolean entry: exactly when it is [true]).  Every other
    response gives the failure flag with a non-empty message, unless
    reading the body is interrupted by something that is no [Exception].
    An [Exception] raised by the request is returned as the failure
    message [Network error: ...], not raised. *)
Theorem check_key_status_cases :
  forall (http_get : str -> list (str * str) -> http_outcome) (api_key : str),
    let answer := validate_request http_get api_key in
    let out := check_key_status http_get api_key in
    ((exists msg, out = Returns true msg) <-> active_response answer)
    /\ (forall items (b : bool),
           answer = Response 200 (JsonValue (PyDict items)) ->
           dict_get items (lit "active") = PyBool b ->
           out = Returns b (if b then lit "API key active " ++ [9989%N]
                            else lit "Key found but not activated."))
    /\ (forall status body,
           answer = Response status body -> ~ active_response answer ->
           (exists msg, msg <> [] /\ out = Returns false msg)
           \/ (exists e, body = JsonRaises e /\ is_Exception e = false /\ out = Propagates e))
    /\ (forall e,
           answer = RequestRaises e -> is_Exception e = true ->
           out = Returns false (lit "Network error: " ++ exc_str e)).
Proof.
  intros http_get api_key answer out. subst answer out.
  unfold check_key_status, validate_request.
  change (API_URL ++ lit "/validate") with (lit "https://api.example.com/devices/validate").
  destruct (http_get _ _) as [status body | e] eqn:Hresp.
  - destruct (Z.eqb_spec status 200) as [-> | Hne].
    + destruct body as [data | e].
      * destruct data as [ | b | z | f | t | l | l | items]; simpl;
          try (repeat split;
               [ intros [msg H]; discriminate H
               | intros [items [H _]]; discriminate H
               | intros items b' H; discriminate H
               | intros status body H Hn; injection H as <- <-; left;
                 eexists; split; [|reflexivity]; discriminate
               | intros e H; discriminate H ]).
        repeat split.
        -- intros [msg H]. exists items. split; [reflexivity|].
           destruct (py_truthy (dict_get items (lit "active"))); [reflexivity | discriminate H].
        -- intros [items' [H Ht]]. injection H as <-. rewrite Ht. eexists; reflexivity.
        -- intros items' b H Hb. injection H as ->. rewrite Hb. destruct b; reflexivity.
        -- intros status body H Hn. injection H as <- <-. left.
           destruct (py_truthy (dict_get items (lit "active"))) eqn:Ht.
           ++ exfalso. apply Hn. exists items. split; [reflexivity | assumption].
           ++ eexists; split; [|reflexivity]; discriminate.
        -- intros e H; discriminate H.
      * repeat split.
        -- intros [msg H]. destruct (handle_cases e) as [[_ Hh] | [_ Hh]];
             rewrite Hh in H; discriminate H.
        -- intros [items [H _]]; discriminate H.
        -- intros items b H; discriminate H.
        -- intros status body H Hn. injection H as <- <-.
           destruct (handle_cases e) as [[_ Hh] | [He Hh]]; rewrite Hh.
           ++ left. eexists; split; [|reflexivity]; discriminate.
           ++ right. exists e. repeat split; assumption.
        -- intros e' H; discriminate H.
    + repeat split.
      * intros [msg H]; discriminate H.
      * intros [items [H _]]. injection H as -> _. exfalso. now apply Hne.
      * intros items b H. injection H as -> _. exfalso. now apply Hne.
      * intros status' body' H Hn. left. eexists; split; [|reflexivity]; discriminate.
      * intros e H; discriminate H.
  - repeat split.
    + intros [msg H]. destruct (handle_cases e) as [[_ Hh] | [_ Hh]];
        rewrite Hh in H; discriminate H.
    + intros [items [H _]]; discriminate H.
    + intros items b H; discriminate H.
    + intros status body H; discriminate H.
    + intros e' H He. injection H as <-. unfold handle. rewrite He. reflexivity.
Qed.

(** Three networks: one that confirms every key, one that knows none and
    one that is down. *)
Definition confirms : str -> list (str * str) -> http_outcome :=
  fun _ _ => Response 200 (JsonValue (PyDict [(PyStr (lit "active"), PyBool true)])).

Definition unknown_key : str -> list (str * str) -> http_outcome :=
  fun _ _ => Response 404 (JsonRaises {| is_Exception := true; exc_str := [] |}).

Definition network_down : str -> list (str * str) -> http_outcome :=
  fun _ _ => RequestRaises {| is_Exception := true; exc_str := lit "Cannot connect to host" |}.

Lemma check_key_status_cases_witness :
  check_key_status confirms (lit "k-123") = Returns true (lit "API key active " ++ [9989%N])
  /\ (exists msg, msg <> [] /\ check_key_status unknown_key (lit "k-123") = Returns false msg)
  /\ check_key_status network_down (lit "k-123")
     = Returns false (lit "Network error: Cannot connect to host").
Proof.
  split; [|split].
  - exact (proj1 (proj2 (check_key_status_cases confirms (lit "k-123")))
                 [(PyStr (lit "active"), PyBool true)] true eq_refl eq_refl).
  - destruct (proj1 (proj2 (proj2 (check_key_status_cases unknown_key (lit "k-123"))))
                    404%Z (JsonRaises {| is_Exception := true; exc_str := [] |}) eq_refl)
      as [H | [e [_ [_ H]]]].
    + intros [items [H _]]. discriminate H.
    + exact H.
    + discriminate H.
  - exact (proj2 (proj2 (proj2 (check_key_status_cases network_down (lit "k-123"))))
                 {| is_Exception := true; exc_str := lit "Cannot connect to host" |}
                 eq_refl eq_refl).
Defined.

(** ** Command runners *)

(** The process is still running when the timeout expires. *)
Definition exceeds (p : process) (timeout : Z) : Prop :=
  match duration p with
  | None => True
  | Some d => (inject_Z timeout < d)%Q
  end.

Lemma exceeds_finishes_within : forall p timeout,
  exceeds p timeout <-> finishes_within p timeout = false.
Proof.
  intros p timeout. unfold exceeds, finishes_within.
  destruct (duration p) as [d|]; [|tauto].
  destruct (Qle_bool d (inject_Z timeout)) eqn:E.
  - apply Qle_bool_iff in E. split; [|discriminate].
    intro H. exfalso. exact (Qlt_not_le _ _ H E).
  - split; [reflexivity|]. intros _. apply Qnot_le_lt. intro H.
    apply Qle_bool_iff in H. congruence.
Qed.

(** Two children that are still running when the time is up: one that
    was started through [sudo] and cannot be killed by the caller, and one
    that ends just then, before [kill] is called. *)
Definition escapes (how : kill_outcome) : result process :=
  Return {| duration := None; returncode := 0; stdout := Some []; stderr := Some [];
            kill := how |}.

(** C4.  Timeout handling.  When the process started for a command is
    still running at the timeout, the archived [run] returns the failure
    tuple: exit code 1, empty standard output and a timeout message.
    [_run] kills the child and returns its failure tuple when
    [proc.kill()] succeeds; when [proc.kill()] raises, because the child
    has ended in the meantime or runs as another user, [_run] returns no
    tuple: the [OSError] leaves it, and the child has not been killed.
    (What [subprocess.run] does with a child of another user is not
    stated; the archived wizard starts none.) *)
Theorem timeout_handling :
  forall (World : Type) (spawn : list str -> World -> result process * World)
         (cmd : list str) (timeout : Z) (s : rstate World) (proc : process) (w : World),
    spawn cmd (world s) = (Return proc, w) ->
    exceeds proc timeout ->
    let started := {| world := w; trace := trace s ++ [Exec cmd] |} in
    let killed := {| world := w; trace := trace s ++ [Exec cmd; Kill cmd] |} in
    (kill proc = Killed ->
     _run spawn cmd timeout s = (Return (1%Z, [], lit "Timeout"), killed))
    /\ (kill proc <> Killed -> _run spawn cmd timeout s = (Raise OSError, started))
    /\ (kill proc <> Denied ->
        run spawn cmd timeout s = (Return (1%Z, [], lit "Command timed out"), killed)).
Proof.
  intros World spawn cmd timeout s proc w Hspawn Hex started killed.
  apply exceeds_finishes_within in Hex.
  unfold _run, run. rewrite Hspawn, Hex. split; [|split].
  - intros ->. reflexivity.
  - intro Hk. destruct (kill proc); [congruence | reflexivity | reflexivity].
  - intros _. reflexivity.
Qed.

Lemma timeout_handling_witness :
  let sudo_nmcli := map lit ["sudo"; "nmcli"; "device"; "wifi"; "connect"; "cafe"]%string in
  _run spawn_scripted sudo_nmcli 30 (answers [escapes Denied])
  = (Raise OSError, {| world := []; trace := [Exec sudo_nmcli] |})
  /\ _run spawn_scripted [lit "nmcli"] 10 (answers [escapes Gone])
     = (Raise OSError, {| world := []; trace := [Exec [lit "nmcli"]] |})
  /\ _run spawn_scripted [lit "nmcli"] 10 (answers [hangs])
     = (Return (1%Z, [], lit "Timeout"),
        {| world := []; trace := [Exec [lit "nmcli"]; Kill [lit "nmcli"]] |})
  /\ run spawn_scripted [lit "nmcli"] 8 (answers [hangs])
     = (Return (1%Z, [], lit "Command timed out"),
        {| world := []; trace := [Exec [lit "nmcli"]; Kill [lit "nmcli"]] |}).
Proof.
  intro sudo_nmcli. split; [|split; [|split]].
  - refine (proj1 (proj2 (timeout_handling scripted spawn_scripted sudo_nmcli 30
                            (answers [escapes Denied])
                            {| duration := None; returncode := 0; stdout := Some [];
                               stderr := Some []; kill := Denied |}
                            [] eq_refl I)) _).
    discriminate.
  - refine (proj1 (proj2 (timeout_handling scripted spawn_scripted [lit "nmcli"] 10
                            (answers [escapes Gone])
                            {| duration := None; returncode := 0; stdout := Some [];
                               stderr := Some []; kill := Gone |}
                            [] eq_refl I)) _).
    discriminate.
  - exact (proj1 (timeout_handling scripted spawn_scripted [lit "nmcli"] 10
                    (answers [hangs])
                    {| duration := None; returncode := 0; stdout := Some [];
                       stderr := Some []; kill := Killed |}
                    [] eq_refl I) eq_refl).
  - refine (proj2 (proj2 (timeout_handling scripted spawn_scripted [lit "nmcli"] 8
                            (answers [hangs])
                            {| duration := None; returncode := 0; stdout := Some [];
                               stderr := Some []; kill := Killed |}
                            [] eq_refl I)) _).
    discriminate.
Defined.

(** ** Scan of [bootstrap/utils/nmcli_utils.py] *)

Lemma split_not_nil : forall sep s, split sep s <> [].
Proof.
  intros sep s. destruct s as [|c rest]; simpl; [discriminate|].
  destruct (c =? sep)%N; [discriminate|].
  destruct (split sep rest); discriminate.
Qed.

(** The two fields that [scan_networks] reads from a line. *)
Definition ssid_field (line : str) : str := hd [] (split 58%N line).

Definition signal_field (line : str) : str :=
  match split 58%N line with
  | _ :: sig :: _ => sig
  | _ => lit "0"
  end.

Lemma scan_fields : forall line,
  firstn 2 (split 58%N line ++ [lit "0"]) = [ssid_field line; signal_field line].
Proof.
  intro line. unfold ssid_field, signal_field.
  pose proof (split_not_nil 58%N line) as Hne.
  destruct (split 58%N line) as [|a [|b l]]; [congruence | reflexivity | reflexivity].
Qed.

Definition network_dict (name : str) (z : Z) : pyval :=
  PyDict [(PyStr (lit "ssid"), PyStr name); (PyStr (lit "signal"), PyInt z)].

Definition has_ssid (line : str) : bool :=
  match ssid_field line with [] => false | _ => true end.

Lemma scan_networks_loop_step : forall line more nets,
  scan_networks_loop (line :: more) nets =
  if has_ssid line then
    match py_int (signal_field line) with
    | Some z => scan_networks_loop more (nets ++ [network_dict (ssid_field line) z])
    | None => Raise ValueError
    end
  else scan_networks_loop more nets.
Proof.
  intros line more nets. cbn [scan_networks_loop]. rewrite scan_fields.
  unfold has_ssid. destruct (ssid_field line); reflexivity.
Qed.

(** A network dictionary with a non-empty name. *)
Definition named (n : pyval) : Prop :=
  exists name z, name <> [] /\ n = network_dict name z.

Lemma scan_networks_loop_named : forall lines acc nets,
  Forall named acc ->
  scan_networks_loop lines acc = Return nets ->
  Forall named nets.
Proof.
  induction lines as [|line more IH]; intros acc nets Hacc H.
  - simpl in H. injection H as <-. assumption.
  - rewrite scan_networks_loop_step in H.
    destruct (has_ssid line) eqn:Hs.
    + destruct (py_int (signal_field line)) as [z|]; [|discriminate].
      refine (IH _ _ _ H). apply Forall_app. split; [assumption|].
      constructor; [|constructor].
      exists (ssid_field line), z. split; [|reflexivity].
      unfold has_ssid in Hs. destruct (ssid_field line); discriminate.
    + exact (IH _ _ Hacc H).
Qed.

Lemma scan_networks_loop_drops : forall lines acc,
  scan_networks_loop lines acc = scan_networks_loop (filter has_ssid lines) acc.
Proof.
  induction lines as [|line more IH]; intro acc; [reflexivity|].
  simpl filter. destruct (has_ssid line) eqn:Hs.
  - rewrite !scan_networks_loop_step, Hs.
    destruct (py_int (signal_field line)); [apply IH | reflexivity].
  - rewrite scan_networks_loop_step, Hs. apply IH.
Qed.

(** When every line with a name has an integer signal field, the scan
    returns one dictionary for each such line, in the order of the lines. *)
Lemma scan_networks_loop_total : forall lines acc,
  (forall line, In line lines -> has_ssid line = true -> py_int (signal_field line) <> None) ->
  scan_networks_loop lines acc =
  Return (acc ++ map (fun line => network_dict (ssid_field line)
                                    (match py_int (signal_field line) with
                                     | Some z => z
                                     | None => 0%Z
                                     end))
                     (filter has_ssid lines)).
Proof.
  induction lines as [|line more IH]; intros acc Hall.
  - simpl. now rewrite List.app_nil_r.
  - rewrite scan_networks_loop_step. simpl filter.
    destruct (has_ssid line) eqn:Hs.
    + pose proof (Hall line (or_introl eq_refl) Hs) as Hint.
      destruct (py_int (signal_field line)) as [z|] eqn:Hz; [|congruence].
      rewrite IH by (intros l Hl; apply Hall; now right).
      simpl map. rewrite Hz. now rewrite <- List.app_assoc.
    + apply IH. intros l Hl. apply Hall. now right.
Qed.

(** One line with a name and a signal field that is no integer, anywhere
    in the output, makes the loop raise. *)
Lemma scan_networks_loop_raises : forall lines acc line,
  In line lines -> has_ssid line = true -> py_int (signal_field line) = None ->
  scan_networks_loop lines acc = Raise ValueError.
Proof.
  induction lines as [|l more IH]; intros acc line Hin Hs Hint; [destruct Hin|].
  rewrite scan_networks_loop_step. destruct Hin as [-> | Hin].
  - now rewrite Hs, Hint.
  - destruct (has_ssid l); [|now apply IH with line].
    destruct (py_int (signal_field l)); [now apply IH with line | reflexivity].
Qed.

(** The scan command of [scan_networks]. *)
Definition scan_networks_cmd : list str :=
  map lit ["nmcli"; "-t"; "-f"; "SSID,SIGNAL"; "device"; "wifi"; "list"]%string.

Lemma scan_networks_unfold :
  forall (World : Type) (spawn : list str -> World -> result process * World)
         (s : rstate World),
    scan_networks spawn s =
    match _run spawn scan_networks_cmd 10 s with
    | (Return (rc, out, _), s') => (scan_networks_loop (splitlines out) [], s')
    | (Raise e, s') => (Raise e, s')
    end.
Proof.
  intros World spawn s. unfold scan_networks, bind.
  destruct (_run spawn _ 10 s) as [[[[rc out] err]|e] s']; reflexivity.
Qed.

(** C9. Every network dictionary that [scan_networks] returns has a
    non-empty name, and a line whose name field is empty leaves no trace
    in the result: the scan of the lines is the scan of the lines that
    have a name. *)
Theorem scan_networks_names_nonempty :
  forall (World : Type) (spawn : list str -> World -> result process * World),
    (forall (s s' : rstate World) (nets : list pyval),
        scan_networks spawn s = (Return nets, s') -> Forall named nets)
    /\ (forall (lines : list str) (acc : list pyval),
           scan_networks_loop lines acc = scan_networks_loop (filter has_ssid lines) acc).
Proof.
  intros World spawn. split.
  - intros s s' nets H. rewrite scan_networks_unfold in H.
    destruct (_run spawn _ 10 s) as [[[[rc out] err]|e] s1]; [|discriminate].
    injection H as H _.
    exact (scan_networks_loop_named _ _ _ (Forall_nil _) H).
  - exact scan_networks_loop_drops.
Qed.

Lemma scan_networks_names_nonempty_witness :
  Forall named [network_dict (lit "cafe") 70; network_dict (lit "lab") 55].
Proof.
  exact (proj1 (scan_networks_names_nonempty scripted spawn_scripted)
               (answers [prints 0 "cafe:70
:80
lab:55"])
               {| world := [];
                  trace := [Exec (map lit ["nmcli"; "-t"; "-f"; "SSID,SIGNAL";
                                           "device"; "wifi"; "list"]%string)] |}
               [network_dict (lit "cafe") 70; network_dict (lit "lab") 55]
               eq_refl).
Defined.

(** C7 (defect).  A line with a name whose signal field is not an
    integer makes [scan_networks] raise [ValueError], wherever it stands
    in the output of the scan command: the line is not skipped, and the
    well-formed lines before and after it are not returned either.  The
    third output below is what the tool prints for a network named
    [my:net], whose colon it escapes with a backslash. *)
Theorem scan_networks_raises_on_malformed_signal :
  (forall (World : Type) (spawn : list str -> World -> result process * World)
          (s s' : rstate World) (rc : Z) (out err line : str),
      _run spawn scan_networks_cmd 10 s = (Return (rc, out, err), s') ->
      In line (splitlines out) ->
      has_ssid line = true ->
      py_int (signal_field line) = None ->
      scan_networks spawn s = (Raise ValueError, s'))
  /\ fst (scan_networks spawn_scripted (answers [prints 0 "home:abc"])) = Raise ValueError
  /\ fst (scan_networks spawn_scripted (answers [prints 0 "cafe:70
home:abc
lab:55"])) = Raise ValueError
  /\ fst (scan_networks spawn_scripted (answers [prints 0 "cafe:70
my\:net:65"])) = Raise ValueError.
Proof.
  split.
  - intros World spawn s s' rc out err line Hrun Hin Hs Hint.
    rewrite scan_networks_unfold. fold scan_networks_cmd. rewrite Hrun.
    now rewrite (scan_networks_loop_raises _ [] line Hin Hs Hint).
  - repeat split; vm_compute; reflexivity.
Qed.

Lemma scan_networks_raises_on_malformed_signal_witness :
  scan_networks spawn_scripted (answers [prints 0 "cafe:70
home:abc
lab:55"])
  = (Raise ValueError, {| world := []; trace := [Exec scan_networks_cmd] |}).
Proof.
  refine (proj1 scan_networks_raises_on_malformed_signal scripted spawn_scripted
            (answers [prints 0 "cafe:70
home:abc
lab:55"])
            {| world := []; trace := [Exec scan_networks_cmd] |}
            0%Z (lit "cafe:70
home:abc
lab:55") [] (lit "home:abc") eq_refl _ eq_refl eq_refl).
  vm_compute. right. left. reflexivity.
Defined.

(** ** Scan of [archive/network-old.py] *)

(** *** Order of strings and of sort keys *)

Lemma str_ltb_irrefl : forall a, str_ltb a a = false.
Proof.
  induction a as [|x a IH]; [reflexivity|].
  simpl. rewrite N.ltb_irrefl, N.eqb_refl, IH. reflexivity.
Qed.

Lemma str_ltb_asym : forall a b, str_ltb a b = true -> str_ltb b a = false.
Proof.
  induction a as [|x a IH]; destruct b as [|y b]; simpl; intro H;
    try reflexivity; try discriminate.
  destruct (N.ltb_spec x y), (N.ltb_spec y x), (N.eqb_spec x y), (N.eqb_spec y x);
    simpl in *; try lia; try discriminate; try reflexivity.
  now apply IH.
Qed.

(** [a <= b] and [b <= c] give [a <= c], with [x <= y] read as "not
    [y < x]". *)
Lemma str_leb_trans : forall a b c,
  str_ltb b a = false -> str_ltb c b = false -> str_ltb c a = false.
Proof.
  induction a as [|x a IH]; intros [|y b] [|z c]; simpl; intros H1 H2;
    try reflexivity; try discriminate.
  destruct (N.ltb_spec y x), (N.ltb_spec z y), (N.ltb_spec z x),
           (N.eqb_spec y x), (N.eqb_spec z y), (N.eqb_spec z x);
    simpl in *; try lia; try discriminate; try reflexivity.
  now apply (IH b c).
Qed.

Lemma str_ltb_total : forall a b, str_ltb a b = false -> str_ltb b a = false -> a = b.
Proof.
  induction a as [|x a IH]; destruct b as [|y b]; simpl; intros H1 H2;
    try reflexivity; try discriminate.
  destruct (N.ltb_spec x y), (N.ltb_spec y x), (N.eqb_spec x y), (N.eqb_spec y x);
    simpl in *; try lia; try discriminate.
  subst. f_equal. now apply IH.
Qed.

Lemma key_ltb_asym : forall a b, key_ltb a b = true -> key_ltb b a = false.
Proof.
  intros [za sa] [zb sb]. unfold key_ltb. simpl. intro H.
  destruct (Z.ltb_spec za zb), (Z.ltb_spec zb za), (Z.eqb_spec za zb), (Z.eqb_spec zb za);
    simpl in *; try lia; try discriminate; try reflexivity.
  now apply str_ltb_asym.
Qed.

Lemma key_leb_trans : forall a b c,
  key_ltb b a = false -> key_ltb c b = false -> key_ltb c a = false.
Proof.
  intros [za sa] [zb sb] [zc sc]. unfold key_ltb. simpl. intros H1 H2.
  destruct (Z.ltb_spec zb za), (Z.ltb_spec zc zb), (Z.ltb_spec zc za),
           (Z.eqb_spec zb za), (Z.eqb_spec zc zb), (Z.eqb_spec zc za);
    simpl in *; try lia; try discriminate; try reflexivity.
  now apply (str_leb_trans sa sb sc).
Qed.

Section ScanWifi.

Variable lower : str -> str.

(** [a] may stand before [b]: stronger signal first, and for equal
    signals the lower-cased name of [a] is not after that of [b]. *)
Definition scan_order (a b : WifiNetwork) : Prop :=
  (signal b < signal a)%Z
  \/ (signal a = signal b /\ str_ltb (lower (ssid b)) (lower (ssid a)) = false).

Lemma scan_order_key : forall a b,
  key_ltb (sort_key lower b) (sort_key lower a) = false <-> scan_order a b.
Proof.
  intros a b. unfold key_ltb, sort_key, scan_order. simpl.
  destruct (Z.ltb_spec (- signal b) (- signal a)),
           (Z.eqb_spec (- signal b) (- signal a)); simpl; split; intro Hs;
    try discriminate; try reflexivity; try lia.
  - right. split; [lia | assumption].
  - destruct Hs as [Hs | [_ Hs]]; [lia | assumption].
Qed.

(** *** Sorting *)

Lemma insert_by_key_perm : forall x l, Permutation (insert_by_key lower x l) (x :: l).
Proof.
  intros x l. induction l as [|y l IH]; simpl; [reflexivity|].
  destruct (key_ltb (sort_key lower y) (sort_key lower x)); [|reflexivity].
  rewrite IH. apply perm_swap.
Qed.

Lemma sort_by_key_perm : forall l, Permutation (sort_by_key lower l) l.
Proof.
  induction l as [|x l IH]; simpl; [reflexivity|].
  rewrite insert_by_key_perm. now constructor.
Qed.

Lemma insert_by_key_sorted : forall x l,
  StronglySorted scan_order l -> StronglySorted scan_order (insert_by_key lower x l).
Proof.
  intros x l Hs. induction Hs as [|y l Hs IH Hy]; simpl.
  - constructor; constructor.
  - destruct (key_ltb (sort_key lower y) (sort_key lower x)) eqn:E.
    + constructor; [assumption|].
      apply (Permutation_Forall (Permutation_sym (insert_by_key_perm x l))).
      constructor; [|assumption].
      apply scan_order_key. now apply key_ltb_asym.
    + constructor; [constructor; assumption|].
      constructor; [now apply scan_order_key|].
      apply Forall_forall. intros z Hz. rewrite Forall_forall in Hy.
      apply scan_order_key.
      apply (key_leb_trans _ (sort_key lower y) _ E).
      apply scan_order_key. now apply Hy.
Qed.

Lemma sort_by_key_sorted : forall l, StronglySorted scan_order (sort_by_key lower l).
Proof.
  induction l as [|x l IH]; simpl; [constructor|].
  now apply insert_by_key_sorted.
Qed.

(** The sort is stable: the records of one sort key keep their order. *)
Definition same_key (a b : WifiNetwork) : bool :=
  (signal a =? signal b)%Z && str_eqb (lower (ssid a)) (lower (ssid b)).

Lemma same_key_not_before : forall a x y,
  same_key a x = true -> same_key a y = true ->
  key_ltb (sort_key lower y) (sort_key lower x) = false.
Proof.
  intros a x y Hx Hy. unfold same_key in Hx, Hy.
  apply andb_true_iff in Hx, Hy. destruct Hx as [Hx Hx'], Hy as [Hy Hy'].
  apply Z.eqb_eq in Hx, Hy. apply str_eqb_eq in Hx', Hy'.
  unfold key_ltb, sort_key. cbn [fst snd]. rewrite <- Hx, <- Hy, <- Hx', <- Hy'.
  rewrite Z.ltb_irrefl, str_ltb_irrefl. apply andb_false_r.
Qed.

Lemma insert_by_key_stable : forall a x l,
  filter (same_key a) (insert_by_key lower x l) = filter (same_key a) (x :: l).
Proof.
  intros a x l. induction l as [|y l IH]; [reflexivity|].
  cbn [insert_by_key].
  destruct (key_ltb (sort_key lower y) (sort_key lower x)) eqn:E; [|reflexivity].
  cbn [filter] in IH |- *. rewrite IH.
  destruct (same_key a y) eqn:Hy; [|reflexivity].
  destruct (same_key a x) eqn:Hx; [|reflexivity].
  rewrite (same_key_not_before a x y Hx Hy) in E. discriminate E.
Qed.

Lemma sort_by_key_stable : forall a l,
  filter (same_key a) (sort_by_key lower l) = filter (same_key a) l.
Proof.
  intros a l. induction l as [|x l IH]; [reflexivity|].
  unfold sort_by_key in *. cbn [fold_right]. rewrite insert_by_key_stable.
  cbn [filter]. now rewrite IH.
Qed.

(** *** Deduplication *)

Definition well_formed (line : str) : bool := (3 <=? List.length (split 58%N line))%nat.

(** The record that a well-formed line stands for. *)
Definition line_network (line : str) : WifiNetwork :=
  let parts := split 58%N line in
  let n := List.length parts in
  {| ssid := match strip (join [58%N] (firstn (n - 2) parts)) with
             | [] => lit "(hidden)"
             | _ => strip (join [58%N] (firstn (n - 2) parts))
             end;
     signal := match py_int (strip (nth (n - 2) parts [])) with
               | Some z => z
               | None => 0%Z
               end;
     security := str_or (strip (nth (n - 1) parts [])) (lit "--") |}.

(** Deduplication by name as the specification words it: of the records
    with one name only the first is kept. *)
Fixpoint keep_first (seen : list str) (l : list WifiNetwork) : list WifiNetwork :=
  match l with
  | [] => []
  | n :: l' =>
    if mem_str (ssid n) seen then keep_first seen l'
    else n :: keep_first (ssid n :: seen) l'
  end.

Lemma scan_wifi_line_spec : forall nets seen line,
  scan_wifi_line (nets, seen) line =
  if well_formed line then
    if mem_str (ssid (line_network line)) seen then (nets, seen)
    else (nets ++ [line_network line], ssid (line_network line) :: seen)
  else (nets, seen).
Proof.
  intros nets seen line. unfold scan_wifi_line, well_formed, line_network.
  cbv zeta. destruct (3 <=? List.length (split 58%N line))%nat; [|reflexivity].
  cbn [ssid]. destruct (mem_str _ seen); reflexivity.
Qed.

Lemma scan_wifi_fold : forall lines nets seen,
  fst (fold_left scan_wifi_line lines (nets, seen)) =
  nets ++ keep_first seen (map line_network (filter well_formed lines)).
Proof.
  induction lines as [|line lines IH]; intros nets seen.
  - simpl. now rewrite List.app_nil_r.
  - cbn [fold_left filter]. rewrite scan_wifi_line_spec.
    destruct (well_formed line); [|apply IH].
    cbn [map keep_first]. destruct (mem_str (ssid (line_network line)) seen); [apply IH|].
    rewrite IH, <- List.app_assoc. reflexivity.
Qed.

Lemma keep_first_names : forall l seen x,
  In x (map ssid (keep_first seen l)) -> In x (map ssid l) /\ ~ In x seen.
Proof.
  induction l as [|n l IH]; intros seen x H; simpl in *; [contradiction|].
  destruct (mem_str (ssid n) seen) eqn:E.
  - destruct (IH _ _ H) as [H1 H2]. auto.
  - simpl in H. destruct H as [<- | H].
    + split; [now left|]. intro Hin. apply mem_str_In in Hin. congruence.
    + destruct (IH _ _ H) as [H1 H2]. split; [now right|].
      intro Hin. apply H2. now right.
Qed.

Lemma keep_first_NoDup : forall l seen, NoDup (map ssid (keep_first seen l)).
Proof.
  induction l as [|n l IH]; intro seen; simpl; [constructor|].
  destruct (mem_str (ssid n) seen); [apply IH|].
  simpl. constructor; [|apply IH].
  intro H. apply keep_first_names in H. destruct H as [_ H]. apply H. now left.
Qed.

Lemma keep_first_covers : forall l seen x,
  In x (map ssid l) -> ~ In x seen -> In x (map ssid (keep_first seen l)).
Proof.
  induction l as [|n l IH]; intros seen x H Hs; simpl in *; [contradiction|].
  destruct (mem_str (ssid n) seen) eqn:E.
  - destruct H as [<- | H]; [|now apply IH].
    apply mem_str_In in E. contradiction.
  - simpl. destruct (str_eqb (ssid n) x) eqn:Ex.
    + left. now apply str_eqb_eq.
    + right. apply str_eqb_neq in Ex. destruct H as [H | H]; [contradiction|].
      apply IH; [assumption|]. intros [H' | H']; contradiction.
Qed.

Lemma keep_first_length : forall l seen,
  (List.length (keep_first seen l) <= List.length l)%nat.
Proof.
  induction l as [|n l IH]; intro seen; simpl; [lia|].
  destruct (mem_str (ssid n) seen); simpl.
  - specialize (IH seen). lia.
  - specialize (IH (ssid n :: seen)). lia.
Qed.

Lemma keep_first_all : forall l seen,
  List.length (keep_first seen l) = List.length l <->
  (NoDup (map ssid l) /\ forall x, In x (map ssid l) -> ~ In x seen).
Proof.
  induction l as [|n l IH]; intro seen; simpl.
  - split; [intros _; split; [constructor | contradiction] | reflexivity].
  - destruct (mem_str (ssid n) seen) eqn:E.
    + split.
      * intro H. pose proof (keep_first_length l seen). lia.
      * intros [_ H]. apply mem_str_In in E. exfalso. apply (H (ssid n)); [now left | assumption].
    + simpl. split.
      * intro H. apply eq_add_S in H. apply IH in H. destruct H as [Hnd Hseen]. split.
        -- constructor; [|assumption]. intro Hin. apply (Hseen _ Hin). now left.
        -- intros x [<- | Hx].
           ++ intro Hin. apply mem_str_In in Hin. congruence.
           ++ intro Hin. apply (Hseen _ Hx). now right.
      * intros [Hnd Hseen]. f_equal. apply IH. inversion Hnd as [|? ? Hn Hnd']; subst.
        split; [assumption|]. intros x Hx [<- | Hin]; [contradiction|].
        apply (Hseen x); [now right | assumption].
Qed.

End ScanWifi.

Definition scan_wifi_cmd : list str :=
  map lit ["nmcli"; "-t"; "-f"; "SSID,SIGNAL,SECURITY"; "device"; "wifi"; "list"]%string.

(** The dictionary that [scan_networks] builds for a line. *)
Definition line_dict (line : str) : pyval :=
  network_dict (ssid_field line)
               (match py_int (signal_field line) with Some z => z | None => 0%Z end).

(** C2 (as amended).  For the archived [scan_wifi], when the scan command
    exits with code 0: the result consists of the records of the
    well-formed lines (three fields or more), deduplicated by name with
    the first occurrence kept, in the order of decreasing signal and then
    of increasing lower-cased name, records that agree in both in the
    order of their lines; no name occurs twice, every name of a
    well-formed line occurs; there are at most as many records as
    well-formed lines, and exactly as many if and only if the names of
    these lines are pairwise different.  When the command exits with
    another code, [scan_wifi] returns no record.  For [scan_networks],
    when every line with a name has an integer signal field: the result
    has exactly one dictionary for each line with a name, in the order of
    the lines, neither deduplicated nor sorted. *)
Theorem scan_records :
  forall (World : Type) (spawn : list str -> World -> result process * World)
         (lower : str -> str),
    (forall (s s' : rstate World) (out err : str),
        run spawn scan_wifi_cmd 8 s = (Return (0%Z, out, err), s') ->
        let lines := filter well_formed (splitlines out) in
        let nets := sort_by_key lower (keep_first [] (map line_network lines)) in
        scan_wifi spawn lower s = (Return nets, s')
        /\ Permutation nets (keep_first [] (map line_network lines))
        /\ NoDup (map ssid nets)
        /\ (forall line, In line lines -> In (ssid (line_network line)) (map ssid nets))
        /\ StronglySorted (scan_order lower) nets
        /\ (forall a, filter (same_key lower a) nets
                      = filter (same_key lower a) (keep_first [] (map line_network lines)))
        /\ (List.length nets <= List.length lines)%nat
        /\ (List.length nets = List.length lines
            <-> NoDup (map (fun line => ssid (line_network line)) lines)))
    /\ (forall (s s' : rstate World) (rc : Z) (out err : str),
           run spawn scan_wifi_cmd 8 s = (Return (rc, out, err), s') ->
           rc <> 0%Z ->
           scan_wifi spawn lower s = (Return [], s'))
    /\ (forall (s s' : rstate World) (rc : Z) (out err : str),
           _run spawn scan_networks_cmd 10 s = (Return (rc, out, err), s') ->
           (forall line, In line (splitlines out) -> has_ssid line = true ->
                         py_int (signal_field line) <> None) ->
           scan_networks spawn s
           = (Return (map line_dict (filter has_ssid (splitlines out))), s')).
Proof.
  intros World spawn lower. split; [|split].
  - intros s s' out err Hrun lines nets.
    pose proof (sort_by_key_perm lower (keep_first [] (map line_network lines))) as Hperm.
    fold nets in Hperm.
    assert (Hlen : List.length nets = List.length (keep_first [] (map line_network lines)))
      by (now apply Permutation_length).
    repeat split.
    + unfold scan_wifi, bind. fold scan_wifi_cmd. rewrite Hrun. simpl negb. cbv iota.
      unfold ret. rewrite scan_wifi_fold. reflexivity.
    + exact Hperm.
    + apply (Permutation_NoDup (Permutation_sym (Permutation_map ssid Hperm))).
      apply keep_first_NoDup.
    + intros line Hin.
      apply (Permutation_in _ (Permutation_sym (Permutation_map ssid Hperm))).
      apply keep_first_covers; [|intros []].
      apply in_map_iff. exists (line_network line). split; [reflexivity|].
      now apply in_map.
    + apply sort_by_key_sorted.
    + intro a. apply sort_by_key_stable.
    + rewrite Hlen. pose proof (keep_first_length (map line_network lines) []) as H.
      now rewrite length_map in H.
    + intro H. rewrite Hlen in H. rewrite <- (length_map line_network lines) in H.
      apply keep_first_all in H. destruct H as [H _]. now rewrite map_map in H.
    + intro H. rewrite Hlen, <- (length_map line_network lines).
      apply keep_first_all. split; [now rewrite map_map | intros x _ []].
  - intros s s' rc out err Hrun Hrc.
    unfold scan_wifi, bind. fold scan_wifi_cmd. rewrite Hrun.
    destruct (Z.eqb_spec rc 0) as [-> | _]; [now contradiction Hrc | reflexivity].
  - intros s s' rc out err Hrun Hall.
    rewrite scan_networks_unfold. fold scan_networks_cmd. rewrite Hrun.
    rewrite (scan_networks_loop_total _ [] Hall). reflexivity.
Qed.

Lemma scan_records_witness :
  scan_wifi spawn_scripted ascii_lower
    (answers [prints 0 "lab:55:WPA2
Cafe:70:--
cafe:70:WPA2
lab:40:WPA2"])
  = (Return [ {| ssid := lit "Cafe"; signal := 70; security := lit "--" |};
              {| ssid := lit "cafe"; signal := 70; security := lit "WPA2" |};
              {| ssid := lit "lab"; signal := 55; security := lit "WPA2" |} ],
     {| world := []; trace := [Exec scan_wifi_cmd] |})
  /\ scan_networks spawn_scripted (answers [prints 0 "lab:55
cafe:70"])
     = (Return [network_dict (lit "lab") 55; network_dict (lit "cafe") 70],
        {| world := []; trace := [Exec scan_networks_cmd] |}).
Proof.
  split.
  - exact (proj1 (proj1 (scan_records scripted spawn_scripted ascii_lower)
             (answers [prints 0 "lab:55:WPA2
Cafe:70:--
cafe:70:WPA2
lab:40:WPA2"])
             {| world := []; trace := [Exec scan_wifi_cmd] |}
             (lit "lab:55:WPA2
Cafe:70:--
cafe:70:WPA2
lab:40:WPA2") [] eq_refl)).
  - refine (proj2 (proj2 (scan_records scripted spawn_scripted ascii_lower))
             (answers [prints 0 "lab:55
cafe:70"])
             {| world := []; trace := [Exec scan_networks_cmd] |}
             0%Z (lit "lab:55
cafe:70") [] eq_refl _).
    intros line [<- | [<- | []]] _; vm_compute; discriminate.
Defined.

(** C2 (as stated) fails.  Two well-formed lines with one name give one
    record from [scan_wifi], not two; a well-formed line printed by a
    command that exits with code 1 gives none; and [scan_networks] returns
    the three dictionaries of three well-formed lines in the order of the
    lines, a name twice and the weaker signal first. *)
Lemma scan_records_counterexample :
  List.length (filter well_formed (splitlines (lit "cafe:50:WPA2
cafe:40:WPA2"))) = 2%nat
  /\ fst (scan_wifi spawn_scripted ascii_lower (answers [prints 0 "cafe:50:WPA2
cafe:40:WPA2"]))
     = Return [ {| ssid := lit "cafe"; signal := 50; security := lit "WPA2" |} ]
  /\ fst (scan_wifi spawn_scripted ascii_lower (answers [prints 1 "cafe:50:WPA2"]))
     = Return []
  /\ fst (scan_networks spawn_scripted (answers [prints 0 "lab:10
cafe:90
lab:20"]))
     = Return [network_dict (lit "lab") 10; network_dict (lit "cafe") 90;
               network_dict (lit "lab") 20].
Proof. repeat split; vm_compute; reflexivity. Qed.

(** A line of the archived scan whose signal field is not an integer is
    kept, with signal 0; lines with fewer than three fields are skipped. *)
Lemma scan_wifi_keeps_malformed_signal :
  fst (scan_wifi spawn_scripted ascii_lower (answers [prints 0 "cafe:70:WPA2
home:abc:WPA2
broken line
lab:55"]))
  = Return [ {| ssid := lit "cafe"; signal := 70; security := lit "WPA2" |};
             {| ssid := lit "home"; signal := 0; security := lit "WPA2" |} ].
Proof. vm_compute. reflexivity. Qed.

(** ** Connecting *)

(** The three commands of the hidden-network path, word for word:
    [nmcli device wifi connect] with the hidden flag, [nmcli connection
    add], and [nmcli connection up].  The password is given when there is
    one and it is not empty. *)
Definition direct_hidden_cmd (ssid_ : str) (password : option str) : list str :=
  [lit "nmcli"; lit "device"; lit "wifi"; lit "connect"; ssid_; lit "hidden"; lit "yes"]
  ++ match password with
     | Some (c :: p) => [lit "password"; c :: p]
     | _ => []
     end.

Definition add_profile_cmd (ssid_ : str) (password : option str) : list str :=
  [lit "nmcli"; lit "connection"; lit "add"; lit "type"; lit "wifi"; lit "con-name"; ssid_;
   lit "ifname"; lit "*"; lit "ssid"; ssid_]
  ++ match password with
     | Some (c :: p) => [lit "wifi-sec.key-mgmt"; lit "wpa-psk"; lit "wifi-sec.psk"; c :: p]
     | _ => []
     end.

Definition bring_up_cmd (ssid_ : str) : list str :=
  [lit "nmcli"; lit "connection"; lit "up"; ssid_].

Lemma hidden_connect_cmd_words : forall ssid_ password,
  hidden_connect_cmd ssid_ password = direct_hidden_cmd ssid_ password.
Proof. intros ssid_ [[|c p]|]; reflexivity. Qed.

Lemma profile_add_cmd_words : forall ssid_ password,
  profile_add_cmd ssid_ password = add_profile_cmd ssid_ password.
Proof. intros ssid_ [[|c p]|]; reflexivity. Qed.

Lemma profile_up_cmd_words : forall ssid_, profile_up_cmd ssid_ = bring_up_cmd ssid_.
Proof. reflexivity. Qed.

Section HiddenPath.

Variable World : Type.
Variable spawn : list str -> World -> result process * World.
Variable lower : str -> str.

(** The profile exists after the [connection add] command: it was
    created, or the tool reports that it exists already. *)
Definition profile_available (rc2 : Z) (out2 err2 : str) : bool :=
  (rc2 =? 0)%Z || contains (lit "exists") (lower (out2 ++ err2)).

(** The outcome of [nmcli connection up]. *)
Definition up_outcome (r3 : result (Z * str * str)) : result (bool * str) :=
  match r3 with
  | Return (rc3, out3, err3) =>
    if (rc3 =? 0)%Z then Return (true, str_or out3 (lit "Connected."))
    else Return (false, str_or err3 (str_or out3 (lit "Failed to bring up connection.")))
  | Raise e => Raise e
  end.

(** The second half of the hidden-network path, from the state [s1] that
    the failed direct attempt leaves: the profile is added with [nmcli
    connection add]; if it is then available it is brought up with [nmcli
    connection up], whose outcome is the outcome of the path. *)
Inductive profile_path (ssid_ : str) (password : option str)
  : rstate World -> result (bool * str) -> rstate World -> Prop :=
| add_raises : forall s1 s2 e,
    run spawn (add_profile_cmd ssid_ password) 15 s1 = (Raise e, s2) ->
    profile_path ssid_ password s1 (Raise e) s2
| add_fails : forall s1 s2 rc2 out2 err2,
    run spawn (add_profile_cmd ssid_ password) 15 s1 = (Return (rc2, out2, err2), s2) ->
    profile_available rc2 out2 err2 = false ->
    profile_path ssid_ password s1
      (Return (false, str_or err2 (str_or out2 (lit "Failed to create connection profile."))))
      s2
| brought_up : forall s1 s2 s3 rc2 out2 err2 r3,
    run spawn (add_profile_cmd ssid_ password) 15 s1 = (Return (rc2, out2, err2), s2) ->
    profile_available rc2 out2 err2 = true ->
    run spawn (bring_up_cmd ssid_) 20 s2 = (r3, s3) ->
    profile_path ssid_ password s1 (up_outcome r3) s3.

(** The hidden-network path as the specification words it: first the
    direct connect with the hidden flag; if that command exits with a code
    other than 0, the profile path. *)
Inductive hidden_path (ssid_ : str) (password : option str)
  : rstate World -> result (bool * str) -> rstate World -> Prop :=
| direct_raises : forall s s1 e,
    run spawn (direct_hidden_cmd ssid_ password) 25 s = (Raise e, s1) ->
    hidden_path ssid_ password s (Raise e) s1
| direct_connects : forall s s1 out err,
    run spawn (direct_hidden_cmd ssid_ password) 25 s = (Return (0%Z, out, err), s1) ->
    hidden_path ssid_ password s (Return (true, str_or out (lit "Connected."))) s1
| direct_fails : forall s s1 rc out err r s',
    run spawn (direct_hidden_cmd ssid_ password) 25 s = (Return (rc, out, err), s1) ->
    rc <> 0%Z ->
    profile_path ssid_ password s1 r s' ->
    hidden_path ssid_ password s r s'.

Lemma connect_hidden_wifi_path : forall ssid_ password s,
  ssid_ <> [] ->
  hidden_path ssid_ password s
    (fst (connect_hidden_wifi spawn lower ssid_ password s))
    (snd (connect_hidden_wifi spawn lower ssid_ password s)).
Proof.
  intros ssid_ password s Hne. unfold connect_hidden_wifi.
  rewrite hidden_connect_cmd_words, profile_add_cmd_words, profile_up_cmd_words.
  destruct ssid_ as [|c ssid']; [congruence|]. set (name := c :: ssid') in *.
  unfold bind.
  destruct (run spawn (direct_hidden_cmd name password) 25 s)
    as [[[[rc out] err]|e] s1] eqn:H1; [|now apply direct_raises].
  destruct (Z.eqb_spec rc 0) as [-> | Hrc]; [now apply direct_connects with (err := err)|].
  apply (direct_fails _ _ _ _ _ _ _ _ _ H1 Hrc).
  destruct (run spawn (add_profile_cmd name password) 15 s1)
    as [[[[rc2 out2] err2]|e2] s2] eqn:H2; [|now apply add_raises].
  destruct (profile_available rc2 out2 err2) eqn:Hav.
  - replace (negb (rc2 =? 0)%Z && negb (contains (lit "exists") (lower (out2 ++ err2))))
      with false
      by (unfold profile_available in Hav; rewrite <- negb_orb, Hav; reflexivity).
    destruct (run spawn (bring_up_cmd name) 20 s2) as [r3 s3] eqn:H3.
    assert (Hout : forall r s0,
               (r, s0) = (up_outcome r3, s3) ->
               profile_path name password s1 (fst (r, s0)) (snd (r, s0))).
    { intros r s0 E. injection E as -> ->. simpl.
      exact (brought_up _ _ _ _ _ _ _ _ _ H2 Hav H3). }
    apply Hout. destruct r3 as [[[rc3 out3] err3]|e3]; simpl; [|reflexivity].
    destruct (rc3 =? 0)%Z; reflexivity.
  - replace (negb (rc2 =? 0)%Z && negb (contains (lit "exists") (lower (out2 ++ err2))))
      with true
      by (unfold profile_available in Hav; rewrite <- negb_orb, Hav; reflexivity).
    simpl. now apply add_fails with (rc2 := rc2).
Qed.

Lemma needs_pwd_absent : forall selected nets,
  in_scan selected nets = false -> needs_pwd selected nets = true.
Proof.
  intros selected nets. unfold in_scan.
  induction nets as [|n nets IH]; simpl; [reflexivity|].
  destruct (str_eqb (ssid n) selected); simpl; [discriminate | exact IH].
Qed.

Lemma attempt_connect_choose_hidden : forall selected pwd nets,
  selected <> [] ->
  selected <> lit "(hidden)" ->
  in_scan selected nets = false ->
  attempt_connect_choose spawn lower selected pwd nets
  = connect_hidden_wifi spawn lower selected pwd.
Proof.
  intros selected pwd nets Hne Hh Habs. unfold attempt_connect_choose.
  apply str_eqb_neq in Hh. rewrite Hh, Habs, (needs_pwd_absent _ _ Habs).
  destruct selected; [congruence | reflexivity].
Qed.

(** What [attempt_connect] leaves behind for an outcome [r] of the way of
    connecting that it took, which ended in runner state [s1]: a failure
    is shown with its message and nothing else is run; after a success the
    addresses are looked up; an exception passes through.  In every case
    the status label shows the status text and the widgets are enabled
    again. *)
Definition reported (selected : str) (r : result (bool * str)) (s1 : rstate World)
  (final : result unit * (NetworkWizard * rstate World)) : Prop :=
  let '(res, (a', s')) := final in
  status_label a' = status_text a' /\ widgets_enabled a' = true /\
  match r with
  | Return (true, _) =>
    s' = snd (get_ip_addresses spawn s1)
    /\ (res = Return tt -> status_text a' = lit "Connected to '" ++ selected ++ lit "'.")
  | Return (false, msg) =>
    s' = s1 /\ res = Return tt /\ status_text a' = lit "Connection failed: " ++ msg
  | Raise e => s' = s1 /\ res = Raise e
  end.

Lemma attempt_connect_reported : forall (a : NetworkWizard) (s : rstate World) selected,
  selected_ssid a = Some selected ->
  selected <> lit "(hidden-enter-next)" ->
  let pwd := match password_value a with [] => None | v => Some v end in
  let tried := attempt_connect_choose spawn lower selected pwd (networks a) s in
  reported selected (fst tried) (snd tried) (attempt_connect spawn lower (a, s)).
Proof.
  intros a s selected Hsel Hnext pwd tried. subst tried.
  apply str_eqb_neq in Hnext.
  unfold attempt_connect, bind at 1, self. cbn [fst snd]. rewrite Hsel, Hnext.
  fold pwd. unfold try_finally, attempt_connect_body, bind, self, update, lift_run.
  cbn [fst snd networks set_status_text show_status set_widgets_enabled].
  destruct (attempt_connect_choose spawn lower selected pwd (networks a) s)
    as [[[ok msg]|e] s1]; cbn [fst snd]; unfold reported.
  - unfold attempt_connect_report. destruct ok.
    + unfold bind, lift_run, update. cbn [fst snd].
      destruct (get_ip_addresses spawn s1) as [[ips|e] s2]; cbn [fst snd].
      * destruct ips; cbn; repeat split; reflexivity.
      * cbn. repeat split. intro H; discriminate H.
    + unfold update. cbn. repeat split; reflexivity.
  - cbn. repeat split; reflexivity.
Qed.

End HiddenPath.

Arguments hidden_path {World} spawn lower ssid_ password _ _ _.
Arguments profile_path {World} spawn lower ssid_ password _ _ _.
Arguments reported {World} spawn selected r s1 final.

Lemma in_scan_absent : forall selected nets,
  (forall n, In n nets -> ssid n <> selected) -> in_scan selected nets = false.
Proof.
  intros selected nets H. unfold in_scan.
  destruct (existsb _ nets) eqn:E; [|reflexivity].
  apply existsb_exists in E. destruct E as [n [Hin Heq]].
  apply str_eqb_eq in Heq. exfalso. exact (H n Hin Heq).
Qed.

(** The command of [connect_network]. *)
Definition plain_connect_cmd (ssid_ password : str) : list str :=
  map lit ["sudo"; "nmcli"; "device"; "wifi"; "connect"]%string ++ [ssid_]
  ++ match password with
     | [] => []
     | _ => [lit "password"; password]
     end.

(** C3 (as amended).  In the archived wizard, a selected name that is not
    empty, is neither of the two placeholders [(hidden)] and
    [(hidden-enter-next)], and is the name of no network of the last scan,
    is connected through the hidden-network path, with the content of the
    password field (if any) as password: first the direct connect with the
    hidden flag, [nmcli device wifi connect NAME hidden yes]; if that
    command exits with a code other than 0, the profile is added with
    [nmcli connection add] and, once available, brought up with [nmcli
    connection up NAME]; the outcome of the path is what the wizard
    reports.  [connect_network] of the bootstrap
    wizard has no such path: for every name it runs the plain connect
    command, once. *)
Theorem hidden_network_path :
  forall (World : Type) (spawn : list str -> World -> result process * World)
         (lower : str -> str),
    (forall (a : NetworkWizard) (s : rstate World) (selected : str),
        selected_ssid a = Some selected ->
        selected <> [] ->
        selected <> lit "(hidden)" ->
        selected <> lit "(hidden-enter-next)" ->
        (forall n, In n (networks a) -> ssid n <> selected) ->
        let pwd := match password_value a with [] => None | v => Some v end in
        exists r s1,
          hidden_path spawn lower selected pwd s r s1
          /\ reported spawn selected r s1 (attempt_connect spawn lower (a, s)))
    /\ (forall (ssid_ password : str) (s : rstate World),
           connect_network spawn ssid_ password s =
           match _run spawn (plain_connect_cmd ssid_ password) 30 s with
           | (Return (rc, out, err), s') =>
             (Return ((rc =? 0)%Z, if (rc =? 0)%Z then out else err), s')
           | (Raise e, s') => (Raise e, s')
           end).
Proof.
  intros World spawn lower. split.
  - intros a s selected Hsel Hne Hh Hnext Habs pwd.
    apply in_scan_absent in Habs.
    pose proof (attempt_connect_reported World spawn lower a s selected Hsel Hnext) as Hrep.
    cbv zeta in Hrep. fold pwd in Hrep.
    rewrite (attempt_connect_choose_hidden World spawn lower selected pwd _ Hne Hh Habs) in Hrep.
    eexists. eexists. split; [|exact Hrep].
    now apply connect_hidden_wifi_path.
  - intros ssid_ password s. unfold connect_network, plain_connect_cmd, bind, ret.
    replace (match password with
             | [] => map lit ["sudo"; "nmcli"; "device"; "wifi"; "connect"]%string ++ [ssid_]
             | _ :: _ => (map lit ["sudo"; "nmcli"; "device"; "wifi"; "connect"]%string ++ [ssid_])
                         ++ [lit "password"; password]
             end)
      with (map lit ["sudo"; "nmcli"; "device"; "wifi"; "connect"]%string ++ [ssid_]
            ++ match password with [] => [] | _ => [lit "password"; password] end)
      by (destruct password; reflexivity).
    destruct (_run spawn _ 30 s) as [[[[rc out] err]|e] s']; reflexivity.
Qed.

(** A wizard in which the hidden name [attic] was entered, after a scan
    that found [cafe] only. *)
Definition attic_entered : NetworkWizard :=
  {| selected_ssid := Some (lit "attic");
     networks := [ {| ssid := lit "cafe"; signal := 70; security := lit "WPA2" |} ];
     password_value := lit "secret"; password_mode := true;
     password_placeholder := []; status_text := []; status_label := [];
     ip_label := []; connected_ips := []; widgets_enabled := true |}.

(** The direct attempt fails, the profile is added and comes up. *)
Definition attic_world : rstate scripted :=
  answers [prints 10 ""; prints 0 ""; prints 0 "up"; prints 0 "192.168.1.7"].

Lemma hidden_network_path_witness :
  (exists r s1,
      hidden_path spawn_scripted ascii_lower (lit "attic") (Some (lit "secret")) attic_world r s1
      /\ reported spawn_scripted (lit "attic") r s1
           (attempt_connect spawn_scripted ascii_lower (attic_entered, attic_world)))
  /\ trace (snd (snd (attempt_connect spawn_scripted ascii_lower (attic_entered, attic_world))))
     = [Exec (map lit ["nmcli"; "device"; "wifi"; "connect"; "attic"; "hidden"; "yes";
                       "password"; "secret"]%string);
        Exec (map lit ["nmcli"; "connection"; "add"; "type"; "wifi"; "con-name"; "attic";
                       "ifname"; "*"; "ssid"; "attic";
                       "wifi-sec.key-mgmt"; "wpa-psk"; "wifi-sec.psk"; "secret"]%string);
        Exec (map lit ["nmcli"; "connection"; "up"; "attic"]%string);
        Exec (map lit ["hostname"; "-I"]%string)].
Proof.
  split.
  - refine (proj1 (hidden_network_path scripted spawn_scripted ascii_lower)
              attic_entered attic_world (lit "attic") eq_refl _ _ _ _).
    + discriminate.
    + discriminate.
    + discriminate.
    + intros n [<- | []]. discriminate.
  - vm_compute. reflexivity.
Defined.

(** A wizard with a selected name and a text in the password field,
    after a scan that found nothing. *)
Definition selected_after_empty_scan (name field : string) : NetworkWizard :=
  {| selected_ssid := Some (lit name); networks := [];
     password_value := lit field; password_mode := true;
     password_placeholder := []; status_text := []; status_label := [];
     ip_label := []; connected_ips := []; widgets_enabled := true |}.

(** C3 (as stated) fails.  In the archived wizard the name [(hidden)],
    absent from an empty scan, is refused without any command being run;
    the name [(hidden-enter-next)] runs no command either, the password
    field becomes the selected name; the empty name goes to the plain
    connect command; and [connect_network] runs the plain connect command
    for a name, without hidden flag, and after its failure adds no
    profile. *)
Lemma hidden_network_path_counterexample :
  let tool := answers [prints 10 ""; prints 0 ""; prints 0 ""] in
  let refused :=
    attempt_connect spawn_scripted ascii_lower (selected_after_empty_scan "(hidden)" "", tool) in
  let captured :=
    attempt_connect spawn_scripted ascii_lower
      (selected_after_empty_scan "(hidden-enter-next)" " attic ", tool) in
  let unnamed :=
    attempt_connect spawn_scripted ascii_lower (selected_after_empty_scan "" "secret", tool) in
  trace (snd (snd refused)) = []
  /\ status_text (fst (snd refused))
     = lit "Connection failed: Please use 'Hidden SSID' to enter the network name."
  /\ trace (snd (snd captured)) = []
  /\ selected_ssid (fst (snd captured)) = Some (lit "attic")
  /\ trace (snd (snd unnamed))
     = [Exec (map lit ["nmcli"; "device"; "wifi"; "connect"; ""; "password"; "secret"]%string)]
  /\ connect_network spawn_scripted (lit "attic") (lit "secret") tool
     = (Return (false, []),
        {| world := [prints 0 ""; prints 0 ""];
           trace := [Exec (map lit ["sudo"; "nmcli"; "device"; "wifi"; "connect";
                                    "attic"; "password"; "secret"]%string)] |}).
Proof. repeat split; vm_compute; reflexivity. Qed.

(** ** Local address *)

Definition candidate (i : str) : bool :=
  match i with
  | [] => false
  | _ => negb (startswith i (lit "127."))
  end.

Definition judged_private (ip_is_private : str -> option bool) (ip : str) : bool :=
  match ip_is_private ip with
  | Some true => true
  | _ => false
  end.

Lemma first_private_find : forall ip_is_private ips,
  first_private ip_is_private ips = find (judged_private ip_is_private) ips.
Proof.
  intros f ips. induction ips as [|ip more IH]; [reflexivity|].
  simpl. unfold judged_private at 1.
  destruct (f ip) as [[|]|]; [reflexivity | exact IH | exact IH].
Qed.

(** The claim as the specification words it, for an address judge
    [private4] of IPv4 texts: the result is the first entry of the address
    list that is a private IPv4 address. *)
Definition first_private_ipv4 (private4 : str -> bool) (out : str) : option str :=
  find private4 (split_whitespace out).

(** C8 (as amended).  [get_ip_address] splits the output of [hostname -I]
    at white space and drops the entries that start with [127.].  It
    returns the first remaining entry that the [ipaddress] module reads as
    an address (of either family) and judges private; when no entry is
    such, the first remaining entry; and [None] when nothing remains. *)
Theorem get_ip_address_result :
  forall (World : Type) (spawn : list str -> World -> result process * World)
         (ip_is_private : str -> option bool)
         (s s' : rstate World) (rc : Z) (out err : str),
    _run spawn (map lit ["hostname"; "-I"]%string) 10 s = (Return (rc, out, err), s') ->
    let ips := filter candidate (split_whitespace out) in
    get_ip_address spawn ip_is_private s =
    (Return (match find (judged_private ip_is_private) ips with
             | Some ip => Some ip
             | None => hd_error ips
             end), s').
Proof.
  intros World spawn f s s' rc out err Hrun ips.
  unfold get_ip_address, bind. rewrite Hrun.
  change (filter _ (split_whitespace out)) with ips.
  rewrite first_private_find.
  destruct (find (judged_private f) ips); reflexivity.
Qed.

Lemma get_ip_address_result_witness :
  get_ip_address spawn_scripted dotted_quad_is_private
    (answers [prints 0 "127.0.0.1 8.8.8.8 192.168.1.5 10.0.0.2"])
  = (Return (Some (lit "192.168.1.5")),
     {| world := []; trace := [Exec (map lit ["hostname"; "-I"]%string)] |}).
Proof.
  exact (get_ip_address_result scripted spawn_scripted dotted_quad_is_private
           (answers [prints 0 "127.0.0.1 8.8.8.8 192.168.1.5 10.0.0.2"])
           {| world := []; trace := [Exec (map lit ["hostname"; "-I"]%string)] |}
           0%Z (lit "127.0.0.1 8.8.8.8 192.168.1.5 10.0.0.2") [] eq_refl).
Defined.

(** C8 (as stated) fails: on a host whose only address is public the
    function returns that address, although the list holds no private
    IPv4 address; and a private IPv6 address listed before a private IPv4
    address is the one returned. *)
Lemma get_ip_address_public_counterexample :
  fst (get_ip_address spawn_scripted dotted_quad_is_private (answers [prints 0 "8.8.8.8"]))
  = Return (Some (lit "8.8.8.8"))
  /\ first_private_ipv4 (judged_private dotted_quad_is_private) (lit "8.8.8.8") = None
  /\ fst (get_ip_address spawn_scripted with_unique_local
            (answers [prints 0 "fd00::1 192.168.1.5"]))
     = Return (Some (lit "fd00::1"))
  /\ first_private_ipv4 (judged_private dotted_quad_is_private) (lit "fd00::1 192.168.1.5")
     = Some (lit "192.168.1.5").
Proof. repeat split; vm_compute; reflexivity. Qed.

(** ** The [json] module: strings *)

Section JsonStrings.

Local Open Scope N_scope.

Lemma hex_value_hex_char : forall d, d < 16 -> hex_value (hex_char d) = Some d.
Proof.
  intros d Hd. unfold hex_value, hex_char.
  destruct (N.ltb_spec d 10).
  - replace ((48 <=? 48 + d) && (48 + d <=? 57)) with true
      by (symmetry; apply andb_true_iff; split; apply N.leb_le; lia).
    f_equal. lia.
  - replace ((48 <=? 87 + d) && (87 + d <=? 57)) with false
      by (symmetry; apply andb_false_iff; right; apply N.leb_gt; lia).
    replace ((97 <=? 87 + d) && (87 + d <=? 102)) with true
      by (symmetry; apply andb_true_iff; split; apply N.leb_le; lia).
    f_equal. lia.
Qed.

Lemma hex4_format_04x : forall n,
  n < 65536 ->
  hex4 (hex_char (n / 4096 mod 16)) (hex_char (n / 256 mod 16))
       (hex_char (n / 16 mod 16)) (hex_char (n mod 16)) = Some n.
Proof.
  intros n Hn. unfold hex4.
  rewrite !hex_value_hex_char by (apply N.mod_lt; discriminate).
  f_equal. zify. Z.to_euclidean_division_equations. lia.
Qed.

(** What [scanstring] does after the escape [\uXXXX] of a code unit that
    is no high surrogate. *)
Lemma scanstring_u_escape : forall n rest,
  n < 65536 ->
  is_high_surrogate n = false ->
  scanstring (92 :: 117 :: format_04x n ++ rest) = cons_fst n (scanstring rest).
Proof.
  intros n rest Hn Hs. unfold format_04x. cbn [app scanstring]. cbn [N.eqb Pos.eqb].
  rewrite (hex4_format_04x n Hn), Hs. cbn [andb].
  destruct rest as [|b [|u [|l1 [|l2 [|l3 [|l4 rest3]]]]]]; reflexivity.
Qed.

Lemma surrogates_of_astral : forall c,
  65536 <= c -> c < 1114112 ->
  let n := c - 65536 in
  let s1 := N.lor 55296 (N.land (N.shiftr n 10) 1023) in
  let s2 := N.lor 56320 (N.land n 1023) in
  s1 = 55296 + n / 1024 /\ s2 = 56320 + n mod 1024.
Proof.
  intros c H1 H2 n s1 s2. subst s1 s2.
  assert (Hn : n < 1048576) by (subst n; lia).
  change 1023 with (N.ones 10). rewrite !N.land_ones, N.shiftr_div_pow2.
  change (2 ^ 10) with 1024.
  assert (Hq : n / 1024 < 1024) by (apply N.Div0.div_lt_upper_bound; lia).
  rewrite (N.mod_small (n / 1024) 1024 Hq).
  assert (Hr : n mod 1024 < 1024) by (apply N.mod_lt; discriminate).
  assert (Hlor : forall base v, N.land base (N.ones 10) = 0 -> v < 1024 ->
                                N.lor base v = base + v).
  { intros base v Hb Hv. rewrite <- N.lxor_lor, <- N.add_nocarry_lxor; [reflexivity| |].
    - apply N.bits_inj_0. intro i. rewrite N.land_spec.
      destruct (N.lt_ge_cases i 10) as [Hi | Hi].
      + assert (Hbi : N.testbit base i = false).
        { pose proof (f_equal (fun x => N.testbit x i) Hb) as Hbit. cbv beta in Hbit.
          rewrite N.land_spec, N.ones_spec_low, N.bits_0, andb_true_r in Hbit; assumption. }
        now rewrite Hbi.
      + assert (Hvi : N.testbit v i = false).
        { destruct (N.eq_dec v 0) as [-> | Hv0]; [apply N.bits_0|].
          apply N.bits_above_log2. apply N.lt_le_trans with 10; [|assumption].
          apply N.log2_lt_pow2; [lia | exact Hv]. }
        now rewrite Hvi, andb_false_r.
    - apply N.bits_inj_0. intro i. rewrite N.land_spec.
      destruct (N.lt_ge_cases i 10) as [Hi | Hi].
      + assert (Hbi : N.testbit base i = false).
        { pose proof (f_equal (fun x => N.testbit x i) Hb) as Hbit. cbv beta in Hbit.
          rewrite N.land_spec, N.ones_spec_low, N.bits_0, andb_true_r in Hbit; assumption. }
        now rewrite Hbi.
      + assert (Hvi : N.testbit v i = false).
        { destruct (N.eq_dec v 0) as [-> | Hv0]; [apply N.bits_0|].
          apply N.bits_above_log2. apply N.lt_le_trans with 10; [|assumption].
          apply N.log2_lt_pow2; [lia | exact Hv]. }
        now rewrite Hvi, andb_false_r. }
  split; apply Hlor; try assumption; reflexivity.
Qed.

Lemma join_surrogates : forall n,
  n < 1048576 ->
  65536 + N.lor (N.shiftl (55296 + n / 1024 - 55296) 10) (56320 + n mod 1024 - 56320)
  = 65536 + n.
Proof.
  intros n Hn. f_equal.
  rewrite (N.add_comm 55296), (N.add_comm 56320), !N.add_sub.
  rewrite N.shiftl_mul_pow2. change (2 ^ 10) with 1024.
  rewrite <- N.lxor_lor, <- N.add_nocarry_lxor.
  - rewrite N.mul_comm. symmetry. apply N.div_mod. discriminate.
  - apply N.bits_inj_0. intro i. rewrite N.land_spec.
    destruct (N.lt_ge_cases i 10) as [Hi | Hi].
    + change 1024 with (2 ^ 10). rewrite N.mul_pow2_bits_low by assumption. reflexivity.
    + change 1024 with (2 ^ 10). rewrite N.mod_pow2_bits_high by assumption.
      apply andb_false_r.
  - apply N.bits_inj_0. intro i. rewrite N.land_spec.
    destruct (N.lt_ge_cases i 10) as [Hi | Hi].
    + change 1024 with (2 ^ 10). rewrite N.mul_pow2_bits_low by assumption. reflexivity.
    + change 1024 with (2 ^ 10). rewrite N.mod_pow2_bits_high by assumption.
      apply andb_false_r.
Qed.

(** [scanstring] decodes what [py_encode_basestring_ascii] writes for a
    code point that is no high surrogate. *)
Lemma scanstring_escape_char : forall c rest,
  c < 1114112 ->
  is_high_surrogate c = false ->
  scanstring (escape_char c ++ rest) = cons_fst c (scanstring rest).
Proof.
  intros c rest Hmax Hhigh. unfold escape_char.
  destruct (N.eqb_spec c 92) as [-> | H92]; [reflexivity|].
  destruct (N.eqb_spec c 34) as [-> | H34]; [reflexivity|].
  destruct ((32 <=? c) && (c <=? 126)) eqn:Hprint.
  - apply andb_true_iff in Hprint. destruct Hprint as [Hlo Hhi].
    apply N.leb_le in Hlo.
    cbn [app scanstring].
    destruct (N.eqb_spec c 34); [contradiction|].
    destruct (N.eqb_spec c 92); [contradiction|].
    destruct (N.ltb_spec c 32); [lia | reflexivity].
  - destruct (N.eqb_spec c 8) as [-> | H8]; [reflexivity|].
    destruct (N.eqb_spec c 12) as [-> | H12]; [reflexivity|].
    destruct (N.eqb_spec c 10) as [-> | H10]; [reflexivity|].
    destruct (N.eqb_spec c 13) as [-> | H13]; [reflexivity|].
    destruct (N.eqb_spec c 9) as [-> | H9]; [reflexivity|].
    destruct (N.ltb_spec c 65536) as [Hbmp | Hastral].
    + cbn [app]. now apply scanstring_u_escape.
    + destruct (surrogates_of_astral c Hastral Hmax) as [E1 E2]. cbv zeta in E1, E2 |- *.
      rewrite E1, E2. set (n := c - 65536) in *.
      assert (Hn : n < 1048576) by (subst n; lia).
      assert (Hq : n / 1024 < 1024) by (apply N.Div0.div_lt_upper_bound; lia).
      assert (Hr : n mod 1024 < 1024) by (apply N.mod_lt; discriminate).
      remember (n / 1024) as q eqn:Eq. remember (n mod 1024) as r eqn:Er.
      rewrite <- List.app_assoc. unfold format_04x. cbn [app scanstring]. cbn [N.eqb Pos.eqb].
      rewrite (hex4_format_04x (55296 + q)) by lia.
      rewrite (hex4_format_04x (56320 + r)) by lia.
      replace (is_high_surrogate (55296 + q)) with true
        by (symmetry; unfold is_high_surrogate; apply andb_true_iff;
            split; apply N.leb_le; lia).
      replace (is_low_surrogate (56320 + r)) with true
        by (symmetry; unfold is_low_surrogate; apply andb_true_iff;
            split; apply N.leb_le; lia).
      cbn [andb]. subst q r. rewrite join_surrogates by assumption.
      replace (65536 + n) with c by (subst n; lia). reflexivity.
Qed.

(** The text starts with the escape of a low surrogate. *)
Definition low_escape_head (rest : str) : bool :=
  match rest with
  | b :: u :: l1 :: l2 :: l3 :: l4 :: _ =>
    (b =? 92) && (u =? 117)
    && match hex4 l1 l2 l3 l4 with
       | Some uni2 => is_low_surrogate uni2
       | None => false
       end
  | _ => false
  end.

(** [scanstring] decodes the escape of a high surrogate as that surrogate
    when no escape of a low surrogate follows. *)
Lemma scanstring_escape_high : forall c rest,
  is_high_surrogate c = true ->
  low_escape_head rest = false ->
  scanstring (escape_char c ++ rest) = cons_fst c (scanstring rest).
Proof.
  intros c rest Hhigh Hrest.
  assert (Hc : 55296 <= c /\ c <= 56319).
  { unfold is_high_surrogate in Hhigh. apply andb_true_iff in Hhigh.
    destruct Hhigh as [H1 H2]. apply N.leb_le in H1, H2. now split. }
  unfold escape_char.
  destruct (N.eqb_spec c 92); [lia|]. destruct (N.eqb_spec c 34); [lia|].
  replace ((32 <=? c) && (c <=? 126)) with false
    by (symmetry; apply andb_false_iff; right; apply N.leb_gt; lia).
  destruct (N.eqb_spec c 8); [lia|]. destruct (N.eqb_spec c 12); [lia|].
  destruct (N.eqb_spec c 10); [lia|]. destruct (N.eqb_spec c 13); [lia|].
  destruct (N.eqb_spec c 9); [lia|].
  destruct (N.ltb_spec c 65536); [|lia].
  unfold format_04x. cbn [app scanstring]. cbn [N.eqb Pos.eqb].
  rewrite (hex4_format_04x c) by assumption. rewrite Hhigh. cbn [andb].
  destruct rest as [|b [|u [|l1 [|l2 [|l3 [|l4 rest3]]]]]]; try reflexivity.
  cbn [low_escape_head] in Hrest.
  destruct (b =? 92) eqn:Hb; [|reflexivity].
  destruct (u =? 117) eqn:Hu; [|reflexivity].
  cbn [andb] in Hrest |- *. apply N.eqb_eq in Hb, Hu. subst b u.
  cbn [scanstring]. cbn [N.eqb Pos.eqb].
  destruct (hex4 l1 l2 l3 l4) as [uni2|]; [|reflexivity].
  rewrite Hrest. reflexivity.
Qed.

Lemma low_escape_head_other : forall b u t,
  (b =? 92) && (u =? 117) = false -> low_escape_head (b :: u :: t) = false.
Proof.
  intros b u t H. destruct t as [|l1 [|l2 [|l3 [|l4 t]]]]; try reflexivity.
  cbn [low_escape_head]. now rewrite H.
Qed.

(** The text of a string of the state: code points, no high surrogate
    directly before a low surrogate. *)
Fixpoint text_ok (s : str) : bool :=
  match s with
  | [] => true
  | c :: rest =>
    (c <? 1114112)
    && negb (is_high_surrogate c
             && match rest with d :: _ => is_low_surrogate d | [] => false end)
    && text_ok rest
  end.

(** What is written for a string that does not start with a low
    surrogate does not start with the escape of one. *)
Lemma low_escape_head_encode : forall s rest,
  match s with d :: _ => is_low_surrogate d | [] => false end = false ->
  low_escape_head (flat_map escape_char s ++ 34 :: rest) = false.
Proof.
  intros [|d s] rest Hd.
  - cbn [flat_map app]. destruct rest as [|u [|l1 [|l2 [|l3 [|l4 t]]]]]; reflexivity.
  - cbn [flat_map]. rewrite <- List.app_assoc.
    set (tail := flat_map escape_char s ++ 34 :: rest).
    unfold escape_char.
    destruct (N.eqb_spec d 92) as [-> | H92];
      [apply low_escape_head_other; reflexivity|].
    destruct (N.eqb_spec d 34) as [-> | H34];
      [apply low_escape_head_other; reflexivity|].
    destruct ((32 <=? d) && (d <=? 126)) eqn:Hprint.
    { cbn [app]. destruct tail as [|u t]; [reflexivity|].
      apply low_escape_head_other. apply andb_false_iff. left. now apply N.eqb_neq. }
    destruct (N.eqb_spec d 8) as [-> | H8]; [apply low_escape_head_other; reflexivity|].
    destruct (N.eqb_spec d 12) as [-> | H12]; [apply low_escape_head_other; reflexivity|].
    destruct (N.eqb_spec d 10) as [-> | H10]; [apply low_escape_head_other; reflexivity|].
    destruct (N.eqb_spec d 13) as [-> | H13]; [apply low_escape_head_other; reflexivity|].
    destruct (N.eqb_spec d 9) as [-> | H9]; [apply low_escape_head_other; reflexivity|].
    destruct (N.ltb_spec d 65536) as [Hbmp | Hastral].
    + unfold format_04x. cbn [app low_escape_head]. cbn [N.eqb Pos.eqb andb].
      rewrite (hex4_format_04x d) by assumption. exact Hd.
    + cbv zeta. unfold format_04x. cbn [app low_escape_head]. cbn [N.eqb Pos.eqb andb].
      set (s1 := N.lor 55296 (N.land (N.shiftr (d - 65536) 10) 1023)).
      assert (Hs1 : 55296 <= s1 /\ s1 < 56320).
      { subst s1. change 1023 with (N.ones 10). rewrite N.land_ones.
        assert (Hm : N.shiftr (d - 65536) 10 mod 2 ^ 10 < 1024)
          by (apply N.mod_lt; discriminate).
        remember (N.shiftr (d - 65536) 10 mod 2 ^ 10) as v eqn:Ev. clear Ev.
        assert (Hlor : N.lor 55296 v = 55296 + v).
        { rewrite <- N.lxor_lor, <- N.add_nocarry_lxor; [reflexivity| |];
            apply N.bits_inj_0; intro i; rewrite N.land_spec;
            (destruct (N.lt_ge_cases i 10) as [Hi | Hi];
             [ replace (N.testbit 55296 i) with false; [reflexivity|];
               symmetry; change 55296 with (54 * 2 ^ 10);
               now apply N.mul_pow2_bits_low
             | replace (N.testbit v i) with false; [apply andb_false_r|];
               symmetry; destruct (N.eq_dec v 0) as [-> | Hv0]; [apply N.bits_0|];
               apply N.bits_above_log2; apply N.lt_le_trans with 10; [|assumption];
               apply N.log2_lt_pow2; [lia | exact Hm] ]). }
        rewrite Hlor. lia. }
      rewrite (hex4_format_04x s1) by lia.
      unfold is_low_surrogate. apply andb_false_iff. left. apply N.leb_gt. lia.
Qed.

Lemma scanstring_encode : forall s rest,
  text_ok s = true ->
  scanstring (flat_map escape_char s ++ 34 :: rest) = Some (s, rest).
Proof.
  induction s as [|c s IH]; intros rest Hs; [reflexivity|].
  cbn [text_ok] in Hs. apply andb_true_iff in Hs. destruct Hs as [Hs Hok].
  apply andb_true_iff in Hs. destruct Hs as [Hmax Hpair].
  apply N.ltb_lt in Hmax. apply negb_true_iff in Hpair.
  cbn [flat_map]. rewrite <- List.app_assoc.
  destruct (is_high_surrogate c) eqn:Hhigh.
  - cbn [andb] in Hpair.
    rewrite scanstring_escape_high
      by (try assumption; now apply low_escape_head_encode).
    rewrite IH by assumption. reflexivity.
  - rewrite scanstring_escape_char by assumption.
    rewrite IH by assumption. reflexivity.
Qed.

End JsonStrings.

(** ** The [json] module: integers *)

Section JsonIntegers.

Local Open Scope N_scope.

(** What follows a value in the text that [json.dumps] writes: nothing, a
    comma, or a line feed. *)
Definition ends_token (rest : str) : bool :=
  match rest with
  | [] => true
  | c :: _ => (c =? 44) || (c =? 10)
  end.

Lemma digits_of_uint_digits : forall u, forallb is_digit (digits_of_uint u) = true.
Proof. induction u; simpl; try assumption; reflexivity. Qed.

Lemma uint_of_digits_of_uint : forall u, uint_of_digits (digits_of_uint u) = Some u.
Proof. induction u; simpl; try rewrite IHu; reflexivity. Qed.

Lemma span_digits_app : forall ds rest,
  forallb is_digit ds = true ->
  ends_token rest = true ->
  span_digits (ds ++ rest) = (ds, rest).
Proof.
  induction ds as [|d ds IH]; intros rest Hds Hrest.
  - destruct rest as [|c r]; [reflexivity|]. simpl in *.
    replace (is_digit c) with false; [reflexivity|].
    symmetry. unfold is_digit.
    apply orb_true_iff in Hrest. destruct Hrest as [H | H]; apply N.eqb_eq in H; subst c; reflexivity.
  - simpl in Hds. apply andb_true_iff in Hds. destruct Hds as [Hd Hds].
    simpl. rewrite Hd, IH by assumption. reflexivity.
Qed.

Lemma literal_digits_digits : forall ds b,
  forallb is_digit ds = true ->
  (ds <> [] \/ b = true) ->
  literal_digits b ds = Some ds.
Proof.
  induction ds as [|d ds IH]; intros b Hds Hne.
  - destruct Hne as [Hne | ->]; [congruence | reflexivity].
  - simpl in Hds. apply andb_true_iff in Hds. destruct Hds as [Hd Hds].
    simpl. rewrite Hd, IH; [reflexivity | assumption | now right].
Qed.

Lemma transform_ascii : forall s,
  forallb (fun c => c <? 127) s = true -> transform_decimal_and_space s = Some s.
Proof.
  induction s as [|c s IH]; intro H; [reflexivity|].
  simpl in H. apply andb_true_iff in H. destruct H as [Hc Hs].
  simpl. rewrite Hc, IH by assumption. reflexivity.
Qed.

Lemma is_digit_ascii : forall c, is_digit c = true -> (c <? 127) = true /\ c_isspace c = false.
Proof.
  intros c H. unfold is_digit in H. apply andb_true_iff in H. destruct H as [H1 H2].
  apply N.leb_le in H1, H2. split.
  - apply N.ltb_lt. lia.
  - unfold c_isspace. apply orb_false_iff. split.
    + apply andb_false_iff. right. apply N.leb_gt. lia.
    + apply N.eqb_neq. lia.
Qed.

Lemma c_lstrip_digit : forall d ds, is_digit d = true -> c_lstrip (d :: ds) = d :: ds.
Proof.
  intros d ds H. simpl. now rewrite (proj2 (is_digit_ascii d H)).
Qed.

Lemma c_strip_number : forall sign ds,
  forallb is_digit ds = true -> ds <> [] ->
  (sign = [] \/ sign = [45]) ->
  c_strip (sign ++ ds) = sign ++ ds.
Proof.
  intros sign ds Hds Hne Hsign. unfold c_strip.
  assert (H1 : c_lstrip (sign ++ ds) = sign ++ ds).
  { destruct Hsign as [-> | ->]; [|reflexivity].
    destruct ds as [|d ds]; [congruence|]. simpl in Hds.
    apply andb_true_iff in Hds. now apply c_lstrip_digit. }
  rewrite H1.
  assert (H2 : c_lstrip (rev (sign ++ ds)) = rev (sign ++ ds)).
  { destruct (exists_last Hne) as [ds' [d E]]. rewrite E in *.
    rewrite List.app_assoc, rev_app_distr. simpl rev at 1.
    rewrite forallb_app in Hds. apply andb_true_iff in Hds. destruct Hds as [_ Hd].
    simpl in Hd. rewrite andb_true_r in Hd. now apply c_lstrip_digit. }
  rewrite H2. apply rev_involutive.
Qed.

Lemma py_int_number : forall (neg : bool) u,
  digits_of_uint u <> [] ->
  (List.length (digits_of_uint u) <= max_str_digits)%nat ->
  py_int ((if neg then [45] else []) ++ digits_of_uint u)
  = Some (if neg then (- Z.of_uint u)%Z else Z.of_uint u).
Proof.
  intros neg u Hne Hmax. unfold py_int.
  apply Nat.ltb_ge in Hmax.
  pose proof (digits_of_uint_digits u) as Hds.
  rewrite transform_ascii.
  2:{ rewrite forallb_app. apply andb_true_iff. split; [destruct neg; reflexivity|].
      rewrite forallb_forall in Hds |- *. intros c Hc. apply is_digit_ascii. now apply Hds. }
  rewrite c_strip_number by (try assumption; destruct neg; auto).
  destruct neg.
  - cbn [app]. cbn [N.eqb Pos.eqb].
    rewrite literal_digits_digits, Hmax, uint_of_digits_of_uint
      by (try assumption; now left).
    reflexivity.
  - cbn [app]. destruct (digits_of_uint u) as [|d ds] eqn:E; [congruence|].
    simpl in Hds. apply andb_true_iff in Hds. destruct Hds as [Hd Hds].
    assert (H43 : (d =? 43) = false).
    { apply N.eqb_neq. unfold is_digit in Hd. apply andb_true_iff in Hd.
      destruct Hd as [Hd _]. apply N.leb_le in Hd. lia. }
    assert (H45 : (d =? 45) = false).
    { apply N.eqb_neq. unfold is_digit in Hd. apply andb_true_iff in Hd.
      destruct Hd as [Hd _]. apply N.leb_le in Hd. lia. }
    rewrite H43, H45. rewrite <- E in *.
    rewrite literal_digits_digits, Hmax, uint_of_digits_of_uint; [reflexivity | | now left].
    rewrite E. simpl. now rewrite Hd, Hds.
Qed.

Lemma nzhead_not_D0 : forall u v, Decimal.nzhead u <> Decimal.D0 v.
Proof. induction u; intro v; simpl; try discriminate; apply IHu. Qed.

(** The decimal numeral of a positive number starts with a digit other
    than zero. *)
Lemma to_uint_head : forall p,
  exists d ds, digits_of_uint (Pos.to_uint p) = d :: ds
               /\ is_digit d = true /\ (d =? 48) = false.
Proof.
  intro p.
  assert (Hnorm : Decimal.unorm (Pos.to_uint p) = Pos.to_uint p).
  { rewrite <- (DecimalPos.Unsigned.to_of (Pos.to_uint p)), DecimalPos.Unsigned.of_to.
    reflexivity. }
  pose proof (Unsigned.to_uint_nonzero p) as Hnz.
  pose proof (digits_of_uint_digits (Pos.to_uint p)) as Hds.
  destruct (Pos.to_uint p) as [|u|u|u|u|u|u|u|u|u|u] eqn:E;
    try (eexists; eexists; split; [reflexivity | split; reflexivity]).
  - exfalso. exact (Unsigned.to_uint_nonnil p E).
  - exfalso. unfold Decimal.unorm in Hnorm. simpl Decimal.nzhead in Hnorm.
    destruct (Decimal.nzhead u) eqn:En; try discriminate Hnorm.
    + injection Hnorm as <-. now apply Hnz.
    + injection Hnorm as <-. exact (nzhead_not_D0 _ _ En).
Qed.

Section Numbers.

Variable float_of_str : str -> spec_float.

Lemma number_frac_end : forall rest,
  ends_token rest = true -> number_frac rest = ([], rest).
Proof.
  intros [|c r] H; [reflexivity|]. simpl in H. apply orb_true_iff in H.
  destruct H as [H | H]; apply N.eqb_eq in H; subst c; reflexivity.
Qed.

Lemma number_exp_end : forall rest,
  ends_token rest = true -> number_exp rest = ([], rest).
Proof.
  intros [|c r] H; [reflexivity|]. simpl in H. apply orb_true_iff in H.
  destruct H as [H | H]; apply N.eqb_eq in H; subst c; reflexivity.
Qed.

Lemma number_sign_digits : forall (neg : bool) ds rest,
  forallb is_digit ds = true -> ds <> [] ->
  number_sign (((if neg then [45] else []) ++ ds) ++ rest)
  = (if neg then [45] else [], ds ++ rest).
Proof.
  intros neg ds rest Hds Hne. destruct neg; [reflexivity|].
  destruct ds as [|d ds]; [congruence|]. cbn [app number_sign].
  simpl in Hds. apply andb_true_iff in Hds. destruct Hds as [Hd _].
  replace (d =? 45) with false; [reflexivity|].
  symmetry. apply N.eqb_neq. unfold is_digit in Hd. apply andb_true_iff in Hd.
  destruct Hd as [Hd _]. apply N.leb_le in Hd. lia.
Qed.

Lemma number_int_digits : forall u rest,
  (u = Decimal.D0 Decimal.Nil
   \/ exists d ds, digits_of_uint u = d :: ds /\ is_digit d = true /\ (d =? 48) = false) ->
  ends_token rest = true ->
  number_int (digits_of_uint u ++ rest) = Some (digits_of_uint u, rest).
Proof.
  intros u rest Hu Hrest. destruct Hu as [-> | [d [ds [E [Hd H48]]]]]; [reflexivity|].
  pose proof (span_digits_app (digits_of_uint u) rest (digits_of_uint_digits u) Hrest) as Hspan.
  rewrite E in *. cbn [app number_int]. rewrite H48, Hd.
  cbn [app] in Hspan. rewrite Hspan. reflexivity.
Qed.

Lemma match_number_digits : forall (neg : bool) u rest,
  (u = Decimal.D0 Decimal.Nil
   \/ exists d ds, digits_of_uint u = d :: ds /\ is_digit d = true /\ (d =? 48) = false) ->
  (List.length (digits_of_uint u) <= max_str_digits)%nat ->
  ends_token rest = true ->
  match_number float_of_str (((if neg then [45] else []) ++ digits_of_uint u) ++ rest)
  = Some (PyInt (if neg then (- Z.of_uint u)%Z else Z.of_uint u), rest).
Proof.
  intros neg u rest Hu Hmax Hrest.
  assert (Hne : digits_of_uint u <> []).
  { destruct Hu as [-> | [d [ds [E _]]]]; [discriminate | rewrite E; discriminate]. }
  unfold match_number.
  rewrite number_sign_digits by (try assumption; apply digits_of_uint_digits).
  rewrite number_int_digits, number_frac_end, number_exp_end by assumption.
  rewrite py_int_number by assumption. reflexivity.
Qed.

(** The numeral of an integer within the limit of digits is read back
    as the integer. *)
Lemma match_number_int_numeral : forall z rest,
  int_fits z = true ->
  ends_token rest = true ->
  match_number float_of_str (int_numeral z ++ rest) = Some (PyInt z, rest).
Proof.
  intros z rest Hfits Hrest. unfold int_fits in Hfits. apply Nat.leb_le in Hfits.
  unfold int_numeral in *. destruct z as [|p|p]; cbn [Z.abs Z.to_int] in *.
  - exact (match_number_digits false (Decimal.D0 Decimal.Nil) rest
             (or_introl eq_refl) Hfits Hrest).
  - pose proof (match_number_digits false (Pos.to_uint p) rest
                  (or_intror (to_uint_head p)) Hfits Hrest) as H.
    cbn [app] in H. rewrite H. unfold Z.of_uint.
    rewrite DecimalPos.Unsigned.of_to. reflexivity.
  - pose proof (match_number_digits true (Pos.to_uint p) rest
                  (or_intror (to_uint_head p)) Hfits Hrest) as H.
    cbn [app] in H. cbn [app]. rewrite H. unfold Z.of_uint.
    rewrite DecimalPos.Unsigned.of_to. reflexivity.
Qed.

End Numbers.

End JsonIntegers.

(** ** The [json] module: writing and reading back *)

(** Induction on values through the lists and dictionaries they hold. *)
Section PyvalInduction.

Variable P : pyval -> Prop.
Hypothesis HNone : P PyNone.
Hypothesis HBool : forall b, P (PyBool b).
Hypothesis HInt : forall z, P (PyInt z).
Hypothesis HFloat : forall f, P (PyFloat f).
Hypothesis HStr : forall s, P (PyStr s).
Hypothesis HList : forall l, Forall P l -> P (PyList l).
Hypothesis HTuple : forall l, Forall P l -> P (PyTuple l).
Hypothesis HDict : forall items, Forall (fun kv => P (snd kv)) items -> P (PyDict items).

Fixpoint pyval_nested_ind (v : pyval) : P v :=
  match v with
  | PyNone => HNone
  | PyBool b => HBool b
  | PyInt z => HInt z
  | PyFloat f => HFloat f
  | PyStr s => HStr s
  | PyList l =>
    HList l ((fix all_elems (l : list pyval) : Forall P l :=
                match l with
                | [] => Forall_nil P
                | x :: l' => Forall_cons x (pyval_nested_ind x) (all_elems l')
                end) l)
  | PyTuple l =>
    HTuple l ((fix all_elems (l : list pyval) : Forall P l :=
                 match l with
                 | [] => Forall_nil P
                 | x :: l' => Forall_cons x (pyval_nested_ind x) (all_elems l')
                 end) l)
  | PyDict items =>
    HDict items ((fix all_items (l : list (pyval * pyval))
                    : Forall (fun kv => P (snd kv)) l :=
                    match l with
                    | [] => Forall_nil _
                    | (k, x) :: l' =>
                      Forall_cons (k, x) (pyval_nested_ind x) (all_items l')
                    end) items)
  end.

End PyvalInduction.

Fixpoint distinct (keys : list str) : bool :=
  match keys with
  | [] => true
  | k :: ks => negb (mem_str k ks) && distinct ks
  end.

Definition item_key (kv : pyval * pyval) : str :=
  match fst kv with
  | PyStr s => s
  | _ => []
  end.

(** The values that a round through the state file leaves as they are:
    [None], Booleans, integers within the limit of digits, strings in
    which no high surrogate stands directly before a low one, lists of
    such values, and dictionaries of such values under pairwise different
    keys that are such strings.
    (Tuples come back as lists and other keys as strings; floats are
    taken in by [storable] below.) *)
Fixpoint stable (v : pyval) : bool :=
  match v with
  | PyNone | PyBool _ => true
  | PyInt z => int_fits z
  | PyFloat _ | PyTuple _ => false
  | PyStr s => text_ok s
  | PyList l => forallb stable l
  | PyDict items =>
    forallb (fun kv => match kv with
                       | (PyStr s, x) => text_ok s && stable x
                       | _ => false
                       end) items
    && distinct (map item_key items)
  end.

(** The number of values in [v], members counted twice. *)
Fixpoint size (v : pyval) : nat :=
  match v with
  | PyList l | PyTuple l => S (list_sum (map (fun x => S (size x)) l))
  | PyDict items => S (list_sum (map (fun kv => S (size (snd kv))) items))
  | _ => 1
  end.

(** The number of levels of containers below the top of [v] at which
    [v] holds a value. *)
Fixpoint depth (v : pyval) : nat :=
  match v with
  | PyList l | PyTuple l => fold_right (fun x m => Nat.max (S (depth x)) m) 0%nat l
  | PyDict items => fold_right (fun kv m => Nat.max (S (depth (snd kv))) m) 0%nat items
  | _ => 0%nat
  end.

Lemma depth_list_cons : forall x l,
  depth (PyList (x :: l)) = Nat.max (S (depth x)) (depth (PyList l)).
Proof. reflexivity. Qed.

Lemma depth_dict_cons : forall k x l,
  depth (PyDict ((k, x) :: l)) = Nat.max (S (depth x)) (depth (PyDict l)).
Proof. reflexivity. Qed.

(** The interpreter has room for [n] levels of containers: down to
    there its limit on recursion is not exceeded. *)
Definition write_room (deep_write : nat -> pyval -> bool) (n : nat) : Prop :=
  forall level v, (level <= n)%nat -> deep_write level v = false.

Definition read_room (deep_read : nat -> N -> bool) (n : nat) : Prop :=
  forall level c, (level <= n)%nat -> deep_read level c = false.

(** An interpreter for the examples, which gives up [limit] containers
    down. *)
Definition write_limit (limit : nat) : nat -> pyval -> bool :=
  fun level _ => (limit <=? level)%nat.

Definition read_limit (limit : nat) : nat -> N -> bool :=
  fun level _ => (limit <=? level)%nat.

Lemma write_limit_room : forall limit, write_room (write_limit (S limit)) limit.
Proof. intros limit level v H. unfold write_limit. apply Nat.leb_gt. lia. Qed.

Lemma read_limit_room : forall limit, read_room (read_limit (S limit)) limit.
Proof. intros limit level c H. unfold read_limit. apply Nat.leb_gt. lia. Qed.

(** The values of [stable], and floats. *)
Fixpoint storable (v : pyval) : bool :=
  match v with
  | PyNone | PyBool _ | PyFloat _ => true
  | PyInt z => int_fits z
  | PyTuple _ => false
  | PyStr s => text_ok s
  | PyList l => forallb storable l
  | PyDict items =>
    forallb (fun kv => match kv with
                       | (PyStr s, x) => text_ok s && storable x
                       | _ => false
                       end) items
    && distinct (map item_key items)
  end.

(** The floats in a value. *)
Fixpoint floats_of (v : pyval) : list spec_float :=
  match v with
  | PyFloat f => [f]
  | PyList l | PyTuple l => flat_map floats_of l
  | PyDict items => flat_map (fun kv => floats_of (snd kv)) items
  | _ => []
  end.

Section JsonRoundTrip.

Local Open Scope N_scope.

Variable floatstr : spec_float -> str.
Variable float_of_str : str -> spec_float.
Variable deep_write : nat -> pyval -> bool.
Variable deep_read : nat -> N -> bool.

(** The float is written as a text that is read back as the float.  For
    a finite float that is what [float.__repr__] and [float] do between
    them: the text is a number of JSON with a fraction or an exponent,
    and the shortest that [float] converts to the float again.  The
    infinities have their spellings, which [json.loads] knows.  [NaN] is
    read back as [NaN], which Python does not count as equal to
    itself. *)
Definition float_round_trips (f : spec_float) : Prop :=
  match f with
  | S754_nan => False
  | S754_infinity false => floatstr f = lit "Infinity"
  | S754_infinity true => floatstr f = lit "-Infinity"
  | _ =>
    (exists c t, floatstr f = c :: t /\ (c = 45 \/ is_digit c = true))
    /\ forall rest,
        ends_token rest = true ->
        match_number float_of_str (floatstr f ++ rest) = Some (PyFloat f, rest)
  end.

Variable n : nat.
Hypothesis Hwrite : write_room deep_write n.
Hypothesis Hread : read_room deep_read n.

Lemma skip_ws_stop : forall c r, json_ws c = false -> skip_ws (c :: r) = c :: r.
Proof. intros c r H. simpl. now rewrite H. Qed.

Lemma skip_ws_newline_indent : forall k r,
  skip_ws (newline_indent k ++ r) = skip_ws r.
Proof.
  intros k r. unfold newline_indent. cbn [app skip_ws]. cbn [json_ws N.eqb Pos.eqb orb].
  induction (2 * k)%nat as [|j IH]; [reflexivity|]. exact IH.
Qed.

Lemma ends_token_newline_indent : forall k r, ends_token (newline_indent k ++ r) = true.
Proof. reflexivity. Qed.

(** A first character with which no string, array, object or literal
    name starts, and which is no white space and no closing bracket. *)
Definition plain_head (c : char) : Prop :=
  (c =? 34) = false /\ (c =? 123) = false /\ (c =? 91) = false
  /\ (c =? 110) = false /\ (c =? 116) = false /\ (c =? 102) = false.

Lemma scan_once_number : forall level fuel c t x,
  (level <= n)%nat ->
  plain_head c ->
  match_number float_of_str (c :: t) = Some x ->
  scan_once float_of_str deep_read level (S fuel) (c :: t) = Return x.
Proof.
  intros level fuel c t x Hl [H34 [H123 [H91 [Hn [Ht Hf]]]]] Hm.
  cbn [scan_once]. rewrite (Hread level c Hl), H34, H123, H91.
  unfold strip_prefix. cbn [lit map list_ascii_of_string startswith].
  change (N_of_ascii "n") with 110. change (N_of_ascii "t") with 116.
  change (N_of_ascii "f") with 102.
  rewrite Hn, Ht, Hf. cbn [andb]. rewrite Hm. reflexivity.
Qed.

Lemma int_numeral_head : forall z,
  exists c t, int_numeral z = c :: t /\ (c = 45 \/ is_digit c = true).
Proof.
  intro z. unfold int_numeral. destruct z as [|p|p]; cbn [Z.to_int].
  - exists 48, []. split; [reflexivity | now right].
  - destruct (to_uint_head p) as [d [ds [E [Hd _]]]]. exists d, ds. split; [assumption | now right].
  - eexists. eexists. split; [reflexivity | now left].
Qed.

Lemma number_head : forall c,
  (c = 45 \/ is_digit c = true) ->
  plain_head c /\ json_ws c = false /\ (c =? 93) = false.
Proof.
  intros c [-> | H]; [repeat split|].
  unfold is_digit in H. apply andb_true_iff in H. destruct H as [H1 H2].
  apply N.leb_le in H1, H2. unfold plain_head, json_ws.
  repeat split; try (apply N.eqb_neq; lia).
  repeat (apply orb_false_iff; split); apply N.eqb_neq; lia.
Qed.

(** A value is written as a text that is read back as the value, at
    every level at which the interpreter has room for it.  The text has a
    first character [c], which is no white space and no closing bracket,
    is at least as long as the value is large, and is read back in front
    of any text that ends the token. *)
Definition round_trips (v : pyval) : Prop :=
  forall level,
  (level + depth v <= n)%nat ->
  exists c t,
    iterencode floatstr deep_write level v = Return (c :: t)
    /\ json_ws c = false /\ (c =? 93) = false
    /\ (size v <= S (List.length t))%nat
    /\ forall rest fuel,
        ends_token rest = true ->
        (size v <= fuel)%nat ->
        scan_once float_of_str deep_read level fuel ((c :: t) ++ rest) = Return (v, rest).

(** What the encoder does where the interpreter has room. *)
Ltac encode_here :=
  cbn [iterencode depth]; rewrite Hwrite by lia.

Ltac scan_here :=
  cbn [app scan_once]; rewrite Hread by lia.

Lemma round_trips_None : round_trips PyNone.
Proof.
  intros level Hl. exists 110, (lit "ull"). split; [encode_here; reflexivity|].
  repeat split; [simpl; lia|].
  intros rest [|fuel] _ Hf; [simpl in Hf; lia|].
  cbn [lit map list_ascii_of_string]. scan_here. reflexivity.
Qed.

Lemma round_trips_Bool : forall b, round_trips (PyBool b).
Proof.
  intros b level Hl. destruct b.
  - exists 116, (lit "rue"). split; [encode_here; reflexivity|].
    repeat split; [simpl; lia|].
    intros rest [|fuel] _ Hf; [simpl in Hf; lia|].
    cbn [lit map list_ascii_of_string]. scan_here. reflexivity.
  - exists 102, (lit "alse"). split; [encode_here; reflexivity|].
    repeat split; [simpl; lia|].
    intros rest [|fuel] _ Hf; [simpl in Hf; lia|].
    cbn [lit map list_ascii_of_string]. scan_here. reflexivity.
Qed.

Lemma round_trips_Int : forall z, int_fits z = true -> round_trips (PyInt z).
Proof.
  intros z Hfits level Hl. destruct (int_numeral_head z) as [c [t [E Hc]]].
  destruct (number_head c Hc) as [Hplain [Hws H93]].
  exists c, t. encode_here. unfold int_repr. rewrite Hfits, E. split; [reflexivity|].
  repeat split; try assumption; [simpl; lia|].
  intros rest [|fuel] Hrest Hf; [simpl in Hf; lia|].
  cbn [app]. apply scan_once_number; [cbn [depth] in Hl; lia | assumption|].
  pose proof (match_number_int_numeral float_of_str z rest Hfits Hrest) as Hm.
  rewrite E in Hm. exact Hm.
Qed.

Lemma round_trips_Float : forall f, float_round_trips f -> round_trips (PyFloat f).
Proof.
  intros f Hf level Hl. cbn [depth] in Hl.
  destruct f as [s | [|] | | s m e]; cbn [float_round_trips] in Hf.
  - destruct Hf as [[c [t [E Hc]]] Hm].
    destruct (number_head c Hc) as [Hplain [Hws H93]].
    exists c, t. encode_here. rewrite E. split; [reflexivity|].
    repeat split; try assumption; [simpl; lia|].
    intros rest [|fuel] Hrest Hfu; [simpl in Hfu; lia|].
    cbn [app]. apply scan_once_number; [lia | assumption|].
    specialize (Hm rest Hrest). rewrite E in Hm. exact Hm.
  - exists 45, (lit "Infinity"). encode_here. rewrite Hf. split; [reflexivity|].
    repeat split; [simpl; lia|].
    intros rest [|fuel] _ Hfu; [simpl in Hfu; lia|].
    cbn [lit map list_ascii_of_string]. scan_here. reflexivity.
  - exists 73, (lit "nfinity"). encode_here. rewrite Hf. split; [reflexivity|].
    repeat split; [simpl; lia|].
    intros rest [|fuel] _ Hfu; [simpl in Hfu; lia|].
    cbn [lit map list_ascii_of_string]. scan_here. reflexivity.
  - contradiction.
  - destruct Hf as [[c [t [E Hc]]] Hm].
    destruct (number_head c Hc) as [Hplain [Hws H93]].
    exists c, t. encode_here. rewrite E. split; [reflexivity|].
    repeat split; try assumption; [simpl; lia|].
    intros rest [|fuel] Hrest Hfu; [simpl in Hfu; lia|].
    cbn [app]. apply scan_once_number; [lia | assumption|].
    specialize (Hm rest Hrest). rewrite E in Hm. exact Hm.
Qed.

Lemma round_trips_Str : forall s, text_ok s = true -> round_trips (PyStr s).
Proof.
  intros s Hs level Hl. unfold encode_basestring_ascii.
  exists 34, (flat_map escape_char s ++ [34]). split; [encode_here; reflexivity|].
  repeat split; [simpl; lia|].
  intros rest [|fuel] _ Hf; [simpl in Hf; lia|].
  scan_here. cbn [N.eqb Pos.eqb]. rewrite <- List.app_assoc. cbn [app].
  rewrite scanstring_encode by assumption. reflexivity.
Qed.

(** Appends nested to the right, conses outermost. *)
Ltac norm_app :=
  repeat (cbn [app]; first [rewrite <- List.app_assoc | rewrite <- List.app_comm_cons]);
  cbn [app].

Ltac len_lia :=
  unfold newline_indent;
  repeat (progress (rewrite ?length_app; cbn [List.length]));
  lia.

Lemma iterencode_list_cons : forall enc level first x l,
  iterencode_list enc level first (x :: l) =
  rbind (enc x) (fun tx =>
  rbind (iterencode_list enc level false l) (fun tl =>
  Return ((if first then [] else [44]) ++ newline_indent (S level) ++ tx ++ tl))).
Proof. reflexivity. Qed.

Lemma iterencode_dict_cons : forall enc level first s x l,
  (S level <= n)%nat ->
  iterencode_dict floatstr deep_write enc level first ((PyStr s, x) :: l) =
  rbind (enc x) (fun tx =>
  rbind (iterencode_dict floatstr deep_write enc level false l) (fun tl =>
  Return ((if first then [] else [44]) ++ newline_indent (S level)
          ++ encode_basestring_ascii s ++ [58; 32] ++ tx ++ tl))).
Proof.
  intros enc level first s x l Hl. cbn [iterencode_dict].
  rewrite Hwrite by assumption. reflexivity.
Qed.

(** The members of a list, from the first character of the first member
    to the closing bracket, are read back by [parse_elements]. *)
Lemma round_trips_elements : forall l' x level first,
  round_trips x -> Forall round_trips l' ->
  (level + depth (PyList (x :: l')) <= n)%nat ->
  exists c body,
    iterencode_list (iterencode floatstr deep_write (S level)) level first (x :: l')
    = Return ((if first then [] else [44]) ++ newline_indent (S level) ++ c :: body)
    /\ json_ws c = false /\ (c =? 93) = false
    /\ (list_sum (map (fun y => S (size y)) (x :: l')) <= List.length body)%nat
    /\ forall rest fuel,
        (list_sum (map (fun y => S (size y)) (x :: l')) <= fuel)%nat ->
        parse_elements float_of_str deep_read (S level) fuel ((c :: body) ++ rest)
        = Return (x :: l', rest).
Proof.
  induction l' as [|y l'' IH]; intros x level first Hx Hl Hd;
    rewrite depth_list_cons in Hd.
  - destruct (Hx (S level)) as [c [t [Henc [Hws [H93 [Hsize Hscan]]]]]]; [lia|].
    exists c, (t ++ newline_indent level ++ [93]).
    rewrite iterencode_list_cons, Henc. cbn [rbind iterencode_list]. split; [reflexivity|].
    repeat split; try assumption.
    + cbn [map list_sum fold_right]. len_lia.
    + intros rest [|fuel] Hf; [cbn [map list_sum fold_right] in Hf; lia|].
      cbn [map list_sum fold_right] in Hf. cbn [parse_elements].
      replace ((c :: t ++ newline_indent level ++ [93]) ++ rest)
        with ((c :: t) ++ (newline_indent level ++ 93 :: rest))
        by (norm_app; reflexivity).
      rewrite Hscan by (try apply ends_token_newline_indent; lia).
      rewrite skip_ws_newline_indent, skip_ws_stop by reflexivity.
      reflexivity.
  - inversion Hl as [|y' l0 Hy Hl'']; subst.
    destruct (IH y level false Hy Hl'') as [c' [body' [Henc' [Hws' [H93' [Hsize' Hparse']]]]]];
      [lia|].
    destruct (Hx (S level)) as [c [t [Henc [Hws [H93 [Hsize Hscan]]]]]]; [lia|].
    exists c, (t ++ 44 :: newline_indent (S level) ++ c' :: body').
    rewrite iterencode_list_cons, Henc. cbn [rbind]. rewrite Henc'.
    cbn [rbind]. split; [reflexivity|].
    repeat split; try assumption.
    + cbn [map list_sum fold_right] in Hsize' |- *. len_lia.
    + intros rest [|fuel] Hf; [cbn [map list_sum fold_right] in Hf; lia|].
      cbn [map list_sum fold_right] in Hf, Hparse'. cbn [parse_elements].
      replace ((c :: t ++ 44 :: newline_indent (S level) ++ c' :: body') ++ rest)
        with ((c :: t) ++ (44 :: newline_indent (S level) ++ (c' :: body') ++ rest))
        by (norm_app; reflexivity).
      rewrite Hscan by (try reflexivity; lia).
      rewrite skip_ws_stop by reflexivity. cbn [N.eqb Pos.eqb].
      rewrite skip_ws_newline_indent. cbn [app]. rewrite skip_ws_stop by assumption.
      change (c' :: body' ++ rest) with ((c' :: body') ++ rest).
      rewrite Hparse' by lia. reflexivity.
Qed.

Lemma round_trips_List : forall l, Forall round_trips l -> round_trips (PyList l).
Proof.
  intros l Hl level Hd. destruct l as [|x l'].
  - exists 91, [93]. split; [encode_here; reflexivity|]. repeat split; [simpl; lia|].
    intros rest [|fuel] _ Hf; [simpl in Hf; lia|]. scan_here. reflexivity.
  - inversion Hl as [|x' l0 Hx Hl']; subst.
    destruct (round_trips_elements l' x level true Hx Hl' Hd)
      as [c [body [Henc [Hws [H93 [Hsize Hparse]]]]]].
    exists 91, (newline_indent (S level) ++ c :: body).
    cbn [iterencode]. rewrite Hwrite by lia. rewrite Henc. cbn [rbind app].
    split; [reflexivity|].
    repeat split.
    + cbn [size]. len_lia.
    + intros rest [|fuel] _ Hf; [cbn [size] in Hf; lia|].
      cbn [size] in Hf. scan_here. cbn [N.eqb Pos.eqb].
      rewrite <- List.app_assoc, skip_ws_newline_indent. cbn [app].
      rewrite skip_ws_stop by assumption. rewrite H93.
      change (c :: body ++ rest) with ((c :: body) ++ rest).
      rewrite Hparse by lia. reflexivity.
Qed.

(** The key and value of an item as [parse_members] returns them. *)
Definition item_pair (kv : pyval * pyval) : str * pyval := (item_key kv, snd kv).

Definition storable_item (kv : pyval * pyval) : bool :=
  match kv with
  | (PyStr s, x) => text_ok s && storable x
  | _ => false
  end.

(** The members of a dictionary, from the quote of the first key to the
    closing brace, are read back by [parse_members]. *)
Lemma round_trips_members : forall l' kv level first,
  Forall (fun kv => storable_item kv = true /\ round_trips (snd kv)) (kv :: l') ->
  (level + depth (PyDict (kv :: l')) <= n)%nat ->
  exists body,
    iterencode_dict floatstr deep_write (iterencode floatstr deep_write (S level))
      level first (kv :: l')
    = Return ((if first then [] else [44]) ++ newline_indent (S level) ++ 34 :: body)
    /\ (list_sum (map (fun kv => S (size (snd kv))) (kv :: l')) <= List.length body)%nat
    /\ forall rest fuel,
        (list_sum (map (fun kv => S (size (snd kv))) (kv :: l')) <= fuel)%nat ->
        parse_members float_of_str deep_read (S level) fuel ((34 :: body) ++ rest)
        = Return (map item_pair (kv :: l'), rest).
Proof.
  induction l' as [|kv' l'' IH]; intros kv level first Hall Hd;
    inversion Hall as [|kv0 l0 [Hst Hx] Hl']; subst;
    destruct kv as [k x]; destruct k as [ | | | |s| | | ]; try discriminate Hst;
    cbn [storable_item] in Hst; apply andb_true_iff in Hst; destruct Hst as [Hs _];
    cbn [snd] in Hx; rewrite depth_dict_cons in Hd;
    (destruct (Hx (S level)) as [c [t [Henc [Hws [H93 [Hsize Hscan]]]]]]; [lia|]).
  - exists (flat_map escape_char s ++ [34] ++ [58; 32] ++ (c :: t) ++ newline_indent level ++ [125]).
    rewrite iterencode_dict_cons by lia. rewrite Henc. cbn [rbind iterencode_dict].
    unfold encode_basestring_ascii. split.
    + norm_app. reflexivity.
    + split.
      * cbn [map list_sum fold_right snd]. len_lia.
      * intros rest [|fuel] Hf; [cbn [map list_sum fold_right] in Hf; lia|].
        cbn [map list_sum fold_right snd] in Hf. norm_app. cbn [parse_members]. cbn [N.eqb Pos.eqb].
        rewrite scanstring_encode by assumption.
        rewrite skip_ws_stop by reflexivity. cbn [N.eqb Pos.eqb].
        replace (skip_ws (32 :: c :: t ++ newline_indent level ++ 125 :: rest))
          with ((c :: t) ++ newline_indent level ++ 125 :: rest)
          by (cbn [skip_ws json_ws N.eqb Pos.eqb orb]; now rewrite Hws).
        rewrite Hscan by (try apply ends_token_newline_indent; lia).
        rewrite skip_ws_newline_indent, skip_ws_stop by reflexivity.
        reflexivity.
  - destruct kv' as [k' x'].
    destruct (IH (k', x') level false Hl') as [body' [Henc' [Hsize' Hparse']]]; [lia|].
    exists (flat_map escape_char s ++ [34] ++ [58; 32] ++ (c :: t)
            ++ 44 :: newline_indent (S level) ++ 34 :: body').
    rewrite iterencode_dict_cons by lia. rewrite Henc. cbn [rbind].
    rewrite Henc'. cbn [rbind]. unfold encode_basestring_ascii. split.
    + norm_app. reflexivity.
    + split.
      * cbn [map list_sum fold_right snd] in Hsize' |- *. len_lia.
      * intros rest [|fuel] Hf; [cbn [map list_sum fold_right] in Hf; lia|].
        cbn [map list_sum fold_right snd] in Hf, Hparse'. norm_app. cbn [parse_members].
        cbn [N.eqb Pos.eqb].
        rewrite scanstring_encode by assumption.
        rewrite skip_ws_stop by reflexivity. cbn [N.eqb Pos.eqb].
        replace (skip_ws (32 :: c :: t ++ 44 :: newline_indent (S level) ++ 34 :: body' ++ rest))
          with ((c :: t) ++ 44 :: newline_indent (S level) ++ (34 :: body') ++ rest)
          by (cbn [skip_ws json_ws N.eqb Pos.eqb orb]; now rewrite Hws).
        rewrite Hscan by (try reflexivity; lia).
        rewrite skip_ws_stop by reflexivity. cbn [N.eqb Pos.eqb].
        rewrite skip_ws_newline_indent. cbn [app]. rewrite skip_ws_stop by reflexivity.
        change (34 :: body' ++ rest) with ((34 :: body') ++ rest).
        rewrite Hparse' by lia. reflexivity.
Qed.

(** [dict(pairs)] of pairwise different keys is the list of the pairs. *)
Lemma dict_set_fresh : forall d key v,
  Forall (fun kv => exists s, fst kv = PyStr s /\ s <> key) d ->
  dict_set d key v = d ++ [(PyStr key, v)].
Proof.
  induction d as [|[k x] d IH]; intros key v Hd; [reflexivity|].
  inversion Hd as [|kv0 d0 [s [Hk Hne]] Hd']; subst. cbn [fst] in Hk. subst k.
  cbn [dict_set]. apply str_eqb_neq in Hne. rewrite Hne.
  rewrite IH by assumption. reflexivity.
Qed.

Lemma dict_of_pairs_distinct : forall items acc,
  Forall (fun kv => storable_item kv = true) items ->
  Forall (fun kv => exists s, fst kv = PyStr s /\ ~ In s (map item_key items)) acc ->
  distinct (map item_key items) = true ->
  fold_left (fun d kv => dict_set d (fst kv) (snd kv)) (map item_pair items) acc
  = acc ++ items.
Proof.
  induction items as [|[k x] items IH]; intros acc Hst Hacc Hd.
  - simpl. now rewrite List.app_nil_r.
  - inversion Hst as [|kv0 l0 Hkx Hst']; subst.
    destruct k as [ | | | |s| | | ]; try discriminate Hkx.
    cbn [map distinct item_key fst] in Hd. apply andb_true_iff in Hd.
    destruct Hd as [Hfresh Hd]. apply negb_true_iff in Hfresh.
    cbn [map fold_left item_pair item_key fst snd].
    rewrite dict_set_fresh.
    + rewrite IH; [now rewrite <- List.app_assoc | assumption | | assumption].
      apply Forall_app. split.
      * eapply Forall_impl; [|exact Hacc]. intros kv [s' [Hk Hn]].
        exists s'. split; [assumption|]. intro Hin. apply Hn. now right.
      * constructor; [|constructor]. exists s. split; [reflexivity|].
        intro Hin. apply mem_str_In in Hin. cbn [item_key fst] in Hfresh. congruence.
    + eapply Forall_impl; [|exact Hacc]. intros kv [s' [Hk Hn]].
      exists s'. split; [assumption|]. intros ->. apply Hn. now left.
Qed.

Lemma round_trips_Dict : forall items,
  Forall (fun kv => storable_item kv = true /\ round_trips (snd kv)) items ->
  distinct (map item_key items) = true ->
  round_trips (PyDict items).
Proof.
  intros items Hall Hd level Hdepth. destruct items as [|kv l'].
  - exists 123, [125]. split; [encode_here; reflexivity|]. repeat split; [simpl; lia|].
    intros rest [|fuel] _ Hf; [simpl in Hf; lia|]. scan_here. reflexivity.
  - destruct (round_trips_members l' kv level true Hall Hdepth) as [body [Henc [Hsize Hparse]]].
    exists 123, (newline_indent (S level) ++ 34 :: body).
    cbn [iterencode]. rewrite Hwrite by lia. rewrite Henc. cbn [rbind app].
    split; [reflexivity|].
    repeat split.
    + cbn [size]. len_lia.
    + intros rest [|fuel] _ Hf; [cbn [size] in Hf; lia|].
      cbn [size] in Hf. scan_here. cbn [N.eqb Pos.eqb].
      rewrite <- List.app_assoc, skip_ws_newline_indent. cbn [app].
      rewrite skip_ws_stop by reflexivity. cbn [N.eqb Pos.eqb].
      change (34 :: body ++ rest) with ((34 :: body) ++ rest).
      rewrite Hparse by lia. unfold dict_of_pairs.
      rewrite dict_of_pairs_distinct; [reflexivity | | constructor | assumption].
      eapply Forall_impl; [|exact Hall]. intros kv' [H _]. exact H.
Qed.

(** Every storable value whose floats are read back as they are
    written is written as a text that is read back as the value. *)
Lemma storable_round_trips : forall v,
  storable v = true ->
  (forall f, In f (floats_of v) -> float_round_trips f) ->
  round_trips v.
Proof.
  induction v as [ | b | z | f | s | l IH | l IH | items IH] using pyval_nested_ind;
    intros Hst Hfl.
  - apply round_trips_None.
  - apply round_trips_Bool.
  - now apply round_trips_Int.
  - apply round_trips_Float. apply Hfl. now left.
  - now apply round_trips_Str.
  - apply round_trips_List. cbn [storable] in Hst. rewrite forallb_forall in Hst.
    rewrite Forall_forall in IH |- *. intros x Hx. apply IH; [assumption | now apply Hst|].
    intros f Hf. apply Hfl. cbn [floats_of]. apply in_flat_map. now exists x.
  - discriminate Hst.
  - cbn [storable] in Hst. apply andb_true_iff in Hst. destruct Hst as [Hitems Hd].
    apply round_trips_Dict; [|assumption].
    rewrite forallb_forall in Hitems. rewrite Forall_forall in IH |- *.
    intros kv Hkv. specialize (Hitems kv Hkv). split; [exact Hitems|].
    apply IH; [assumption| |].
    + destruct kv as [k x]. destruct k; try discriminate Hitems.
      cbn [snd]. apply andb_true_iff in Hitems. now destruct Hitems.
    + intros f Hf. apply Hfl. cbn [floats_of]. apply in_flat_map. now exists kv.
Qed.

(** [json.loads(json.dumps(v, indent=2))] is [v] for such a value. *)
Lemma loads_dumps : forall v,
  storable v = true ->
  (forall f, In f (floats_of v) -> float_round_trips f) ->
  (depth v <= n)%nat ->
  exists text,
    dumps_indent2 floatstr deep_write v = Return text
    /\ loads float_of_str deep_read text = Return v.
Proof.
  intros v Hst Hfl Hd.
  destruct (storable_round_trips v Hst Hfl 0%nat Hd) as [c [t [Henc [Hws [_ [Hsize Hscan]]]]]].
  exists (c :: t). split; [exact Henc|].
  unfold loads. rewrite skip_ws_stop by assumption.
  specialize (Hscan [] (2 * List.length (c :: t) + 2)%nat eq_refl).
  rewrite List.app_nil_r in Hscan. rewrite Hscan by (simpl List.length; lia).
  reflexivity.
Qed.

End JsonRoundTrip.

Lemma stable_storable : forall v, stable v = true -> storable v = true.
Proof.
  induction v as [ | b | z | f | s | l IH | l IH | items IH] using pyval_nested_ind;
    intro H; try reflexivity; try discriminate H; try exact H.
  - cbn [stable storable] in *. rewrite forallb_forall in H |- *.
    rewrite Forall_forall in IH. auto.
  - cbn [stable storable] in *. apply andb_true_iff in H. destruct H as [H Hd].
    rewrite Hd, andb_true_r. rewrite forallb_forall in H |- *.
    rewrite Forall_forall in IH. intros [k x] Hkx. specialize (H _ Hkx).
    specialize (IH _ Hkx). cbn [snd] in IH. destruct k; try discriminate H.
    apply andb_true_iff in H. destruct H as [Hs Hx]. rewrite Hs. cbn [andb]. auto.
Qed.

Lemma stable_no_floats : forall v, stable v = true -> floats_of v = [].
Proof.
  induction v as [ | b | z | f | s | l IH | l IH | items IH] using pyval_nested_ind;
    intro H; try reflexivity; try discriminate H.
  - cbn [stable floats_of] in *. rewrite forallb_forall in H.
    rewrite Forall_forall in IH.
    induction l as [|x l IHl]; [reflexivity|]. cbn [flat_map].
    rewrite (IH x (or_introl eq_refl) (H x (or_introl eq_refl))). cbn [app].
    apply IHl; intros y Hy; [apply IH | apply H]; now right.
  - cbn [stable floats_of] in *. apply andb_true_iff in H. destruct H as [H _].
    rewrite forallb_forall in H. rewrite Forall_forall in IH.
    induction items as [|[k x] items IHl]; [reflexivity|]. cbn [flat_map snd].
    assert (Hx : stable x = true).
    { specialize (H _ (or_introl eq_refl)). destruct k; try discriminate H.
      apply andb_true_iff in H. now destruct H. }
    pose proof (IH (k, x) (or_introl eq_refl) Hx) as E. cbn [snd] in E.
    rewrite E. cbn [app].
    apply IHl; intros y Hy; [apply IH | apply H]; now right.
Qed.

(** ** The [json] module: the fuel of the reader does not matter *)

Section JsonFuel.

Local Open Scope N_scope.

Variable float_of_str : str -> spec_float.
Variable deep_read : nat -> N -> bool.

(** The equations of the three readers. *)
Lemma scan_once_eq : forall level fuel s,
  scan_once float_of_str deep_read level (S fuel) s =
    match s with
    | [] => Raise ValueError
    | c :: rest =>
      if deep_read level c then Raise RecursionError
      else if c =? 34 then
        match scanstring rest with
        | Some (x, r) => Return (PyStr x, r)
        | None => Raise ValueError
        end
      else if c =? 123 then
        match skip_ws rest with
        | d :: r =>
          if d =? 125 then Return (PyDict [], r)
          else
            match parse_members float_of_str deep_read (S level) fuel (d :: r) with
            | Return (pairs, r') => Return (PyDict (dict_of_pairs pairs), r')
            | Raise e => Raise e
            end
        | [] => Raise ValueError
        end
      else if c =? 91 then
        match skip_ws rest with
        | d :: r =>
          if d =? 93 then Return (PyList [], r)
          else
            match parse_elements float_of_str deep_read (S level) fuel (d :: r) with
            | Return (vs, r') => Return (PyList vs, r')
            | Raise e => Raise e
            end
        | [] => Raise ValueError
        end
      else
        match strip_prefix (lit "null") s, strip_prefix (lit "true") s,
              strip_prefix (lit "false") s with
        | Some r, _, _ => Return (PyNone, r)
        | _, Some r, _ => Return (PyBool true, r)
        | _, _, Some r => Return (PyBool false, r)
        | _, _, _ =>
          match match_number float_of_str s with
          | Some x => Return x
          | None =>
            match strip_prefix (lit "NaN") s, strip_prefix (lit "Infinity") s,
                  strip_prefix (lit "-Infinity") s with
            | Some r, _, _ => Return (PyFloat S754_nan, r)
            | _, Some r, _ => Return (PyFloat (S754_infinity false), r)
            | _, _, Some r => Return (PyFloat (S754_infinity true), r)
            | _, _, _ => Raise ValueError
            end
          end
        end
    end.
Proof. reflexivity. Qed.

Lemma parse_elements_eq : forall level fuel s,
  parse_elements float_of_str deep_read level (S fuel) s =
    match scan_once float_of_str deep_read level fuel s with
    | Raise e => Raise e
    | Return (v, r) =>
      match skip_ws r with
      | d :: r' =>
        if d =? 93 then Return ([v], r')
        else if d =? 44 then
          match parse_elements float_of_str deep_read level fuel (skip_ws r') with
          | Return (vs, r'') => Return (v :: vs, r'')
          | Raise e => Raise e
          end
        else Raise ValueError
      | [] => Raise ValueError
      end
    end.
Proof. reflexivity. Qed.

Lemma parse_members_eq : forall level fuel s,
  parse_members float_of_str deep_read level (S fuel) s =
    match s with
    | q :: s1 =>
      if q =? 34 then
        match scanstring s1 with
        | None => Raise ValueError
        | Some (key, r) =>
          match skip_ws r with
          | colon :: r1 =>
            if colon =? 58 then
              match scan_once float_of_str deep_read level fuel (skip_ws r1) with
              | Raise e => Raise e
              | Return (v, r2) =>
                match skip_ws r2 with
                | d :: r3 =>
                  if d =? 125 then Return ([(key, v)], r3)
                  else if d =? 44 then
                    match parse_members float_of_str deep_read level fuel (skip_ws r3) with
                    | Return (kvs, r4) => Return ((key, v) :: kvs, r4)
                    | Raise e => Raise e
                    end
                  else Raise ValueError
                | [] => Raise ValueError
                end
              end
            else Raise ValueError
          | [] => Raise ValueError
          end
        end
      else Raise ValueError
    | [] => Raise ValueError
    end.
Proof. reflexivity. Qed.


Lemma skip_ws_length : forall s, (List.length (skip_ws s) <= List.length s)%nat.
Proof.
  induction s as [|c s IH]; simpl; [lia|].
  destruct (json_ws c); simpl; lia.
Qed.

Lemma cons_fst_Some : forall c r x rest,
  cons_fst c r = Some (x, rest) -> exists x', r = Some (x', rest).
Proof.
  intros c [[x' rest']|] x rest H; simpl in H; [|discriminate].
  injection H as _ <-. now exists x'.
Qed.

(** [scanstring] consumes the closing quote at least. *)
Lemma scanstring_length : forall n s x r,
  (List.length s <= n)%nat ->
  scanstring s = Some (x, r) -> (List.length r < List.length s)%nat.
Proof.
  induction n as [|n IH]; intros s x r Hn H.
  - destruct s; [discriminate H | simpl in Hn; lia].
  - destruct s as [|c rest]; [discriminate H|]. simpl in Hn.
    assert (Hrec : forall s' y, (List.length s' <= List.length rest)%nat ->
                                cons_fst y (scanstring s') = Some (x, r) ->
                                (List.length r < S (List.length rest))%nat).
    { intros s' y Hs' Hc. apply cons_fst_Some in Hc. destruct Hc as [x' Hc].
      apply IH in Hc; lia. }
    cbn [scanstring] in H. cbn [List.length].
    destruct (c =? 34); [injection H as _ <-; lia|].
    destruct (c =? 92).
    + destruct rest as [|e rest1]; [discriminate H|].
      destruct (e =? 117).
      * destruct rest1 as [|h1 [|h2 [|h3 [|h4 rest2]]]]; try discriminate H.
        destruct (hex4 h1 h2 h3 h4) as [uni|]; [|discriminate H].
        destruct rest2 as [|b [|u [|l1 [|l2 [|l3 [|l4 rest3]]]]]];
          try (apply Hrec in H; [exact H | simpl; lia]).
        destruct (is_high_surrogate uni && (b =? 92) && (u =? 117)).
        -- destruct (hex4 l1 l2 l3 l4) as [uni2|]; [|discriminate H].
           destruct (is_low_surrogate uni2); (apply Hrec in H; [exact H | simpl; lia]).
        -- apply Hrec in H; [exact H | simpl; lia].
      * destruct (backslash e); [|discriminate H].
        apply Hrec in H; [exact H | simpl; lia].
    + destruct (c <? 32); [discriminate H|].
      apply Hrec in H; [exact H | lia].
Qed.

Lemma startswith_length : forall p s,
  startswith s p = true -> (List.length p <= List.length s)%nat.
Proof.
  induction p as [|a p IH]; intros s H; simpl; [lia|].
  destruct s as [|c s]; [discriminate H|]. simpl in H.
  apply andb_true_iff in H. destruct H as [_ H]. apply IH in H. simpl. lia.
Qed.

Lemma strip_prefix_length : forall p s r,
  strip_prefix p s = Some r -> List.length s = (List.length p + List.length r)%nat.
Proof.
  intros p s r H. unfold strip_prefix in H.
  destruct (startswith s p) eqn:E; [|discriminate H]. injection H as <-.
  apply startswith_length in E. rewrite length_skipn. lia.
Qed.

Lemma span_digits_length : forall s ds r,
  span_digits s = (ds, r) -> List.length s = (List.length ds + List.length r)%nat.
Proof.
  induction s as [|c s IH]; intros ds r H; simpl in H.
  - injection H as <- <-. reflexivity.
  - destruct (is_digit c).
    + destruct (span_digits s) as [ds' r'] eqn:E. injection H as <- <-.
      specialize (IH _ _ eq_refl). simpl. lia.
    + injection H as <- <-. reflexivity.
Qed.

Lemma number_sign_length : forall s sign s1,
  number_sign s = (sign, s1) -> (List.length s1 <= List.length s)%nat.
Proof.
  intros [|c r] sign s1 H; simpl in H.
  - injection H as _ <-. lia.
  - destruct (c =? 45); injection H as _ <-; simpl; lia.
Qed.

Lemma number_int_length : forall s ds s2,
  number_int s = Some (ds, s2) -> (List.length s2 < List.length s)%nat.
Proof.
  intros [|c r] ds s2 H; [discriminate H|]. cbn [number_int] in H.
  destruct (c =? 48); [injection H as _ <-; simpl; lia|].
  destruct (is_digit c) eqn:Hd; [|discriminate H].
  injection H as H. cbn [span_digits] in H. rewrite Hd in H.
  destruct (span_digits r) as [ds' r'] eqn:E. injection H as _ <-.
  apply span_digits_length in E. simpl. lia.
Qed.

Lemma number_frac_length : forall s frac s3,
  number_frac s = (frac, s3) -> (List.length s3 <= List.length s)%nat.
Proof.
  intros [|c r] frac s3 H; cbn [number_frac] in H.
  - injection H as _ <-. lia.
  - destruct (c =? 46); [|injection H as _ <-; lia].
    destruct (span_digits r) as [[|f fs] r'] eqn:E; injection H as _ <-; [lia|].
    apply span_digits_length in E. simpl in *. lia.
Qed.

Lemma number_exp_length : forall s exp s4,
  number_exp s = (exp, s4) -> (List.length s4 <= List.length s)%nat.
Proof.
  intros [|e r] exp s4 H; cbn [number_exp] in H.
  - injection H as _ <-. lia.
  - destruct ((e =? 101) || (e =? 69)); [|injection H as _ <-; lia].
    destruct r as [|c r0].
    + cbn [span_digits] in H. injection H as _ <-. lia.
    + destruct ((c =? 43) || (c =? 45)).
      * destruct (span_digits r0) as [[|d ds] r'] eqn:E; injection H as _ <-; [lia|].
        apply span_digits_length in E. simpl in *. lia.
      * destruct (span_digits (c :: r0)) as [[|d ds] r'] eqn:E; injection H as _ <-; [lia|].
        apply span_digits_length in E. simpl in *. lia.
Qed.

Lemma match_number_length : forall s v r,
  match_number float_of_str s = Some (v, r) -> (List.length r < List.length s)%nat.
Proof.
  intros s v r H. unfold match_number in H.
  destruct (number_sign s) as [sign s1] eqn:E1. apply number_sign_length in E1.
  destruct (number_int s1) as [[ds s2]|] eqn:E2; [|discriminate H].
  apply number_int_length in E2.
  destruct (number_frac s2) as [frac s3] eqn:E3. apply number_frac_length in E3.
  destruct (number_exp s3) as [exp s4] eqn:E4. apply number_exp_length in E4.
  assert (r = s4).
  { destruct frac; [destruct exp|].
    - destruct (py_int (sign ++ ds)); [|discriminate H]. now injection H as _ <-.
    - now injection H as _ <-.
    - now injection H as _ <-. }
  subst r. lia.
Qed.

(** The three readers leave less text than they were given. *)
Lemma readers_consume : forall fuel,
  (forall level s v r, scan_once float_of_str deep_read level fuel s = Return (v, r) ->
                 (List.length r < List.length s)%nat)
  /\ (forall level s vs r, parse_elements float_of_str deep_read level fuel s = Return (vs, r) ->
                     (List.length r < List.length s)%nat)
  /\ (forall level s kvs r, parse_members float_of_str deep_read level fuel s = Return (kvs, r) ->
                      (List.length r < List.length s)%nat).
Proof.
  induction fuel as [|fuel [IHs [IHe IHm]]];
    [repeat split; intros; discriminate|].
  repeat split.
  - intros level s v r H. destruct s as [|c rest]; [discriminate H|].
    rewrite scan_once_eq in H. cbn [List.length].
    destruct (deep_read level c); [discriminate H|].
    destruct (c =? 34).
    { destruct (scanstring rest) as [[x r']|] eqn:E; [|discriminate H].
      injection H as _ <-. apply (scanstring_length _ _ _ _ (le_n _)) in E. lia. }
    destruct (c =? 123).
    { pose proof (skip_ws_length rest) as Hw.
      destruct (skip_ws rest) as [|d r0]; [discriminate H|].
      destruct (d =? 125); [injection H as _ <-; simpl in Hw; lia|].
      destruct (parse_members float_of_str deep_read (S level) fuel (d :: r0)) as [[pairs r']|e0] eqn:E; [|discriminate H].
      injection H as _ <-. apply IHm in E. lia. }
    destruct (c =? 91).
    { pose proof (skip_ws_length rest) as Hw.
      destruct (skip_ws rest) as [|d r0]; [discriminate H|].
      destruct (d =? 93); [injection H as _ <-; simpl in Hw; lia|].
      destruct (parse_elements float_of_str deep_read (S level) fuel (d :: r0)) as [[vs r']|e0] eqn:E; [|discriminate H].
      injection H as _ <-. apply IHe in E. lia. }
    destruct (strip_prefix (lit "null") (c :: rest)) as [r1|] eqn:E1.
    { injection H as _ <-. apply strip_prefix_length in E1. simpl in E1. lia. }
    destruct (strip_prefix (lit "true") (c :: rest)) as [r2|] eqn:E2.
    { injection H as _ <-. apply strip_prefix_length in E2. simpl in E2. lia. }
    destruct (strip_prefix (lit "false") (c :: rest)) as [r3|] eqn:E3.
    { injection H as _ <-. apply strip_prefix_length in E3. simpl in E3. lia. }
    destruct (match_number float_of_str (c :: rest)) as [[v' r']|] eqn:Em.
    { injection H as _ <-. apply match_number_length in Em. simpl in Em. lia. }
    destruct (strip_prefix (lit "NaN") (c :: rest)) as [r4|] eqn:E4.
    { injection H as _ <-. apply strip_prefix_length in E4. simpl in E4. lia. }
    destruct (strip_prefix (lit "Infinity") (c :: rest)) as [r5|] eqn:E5.
    { injection H as _ <-. apply strip_prefix_length in E5. simpl in E5. lia. }
    destruct (strip_prefix (lit "-Infinity") (c :: rest)) as [r6|] eqn:E6;
      [|discriminate H].
    injection H as _ <-. apply strip_prefix_length in E6. simpl in E6. lia.
  - intros level s vs r H. rewrite parse_elements_eq in H.
    destruct (scan_once float_of_str deep_read level fuel s) as [[v r0]|e0] eqn:E; [|discriminate H].
    apply IHs in E. pose proof (skip_ws_length r0) as Hw.
    destruct (skip_ws r0) as [|d r1]; [discriminate H|]. simpl in Hw.
    destruct (d =? 93); [injection H as _ <-; lia|].
    destruct (d =? 44); [|discriminate H].
    destruct (parse_elements float_of_str deep_read level fuel (skip_ws r1)) as [[vs' r2]|e0] eqn:E2; [|discriminate H].
    injection H as _ <-. apply IHe in E2. pose proof (skip_ws_length r1). lia.
  - intros level s kvs r H. rewrite parse_members_eq in H.
    destruct s as [|q s1]; [discriminate H|].
    destruct (q =? 34); [|discriminate H].
    destruct (scanstring s1) as [[key r0]|] eqn:E; [|discriminate H].
    apply (scanstring_length _ _ _ _ (le_n _)) in E.
    pose proof (skip_ws_length r0) as Hw0.
    destruct (skip_ws r0) as [|colon r1]; [discriminate H|]. simpl in Hw0.
    destruct (colon =? 58); [|discriminate H].
    destruct (scan_once float_of_str deep_read level fuel (skip_ws r1)) as [[v r2]|e0] eqn:E2; [|discriminate H].
    apply IHs in E2. pose proof (skip_ws_length r1) as Hw1.
    pose proof (skip_ws_length r2) as Hw2.
    destruct (skip_ws r2) as [|d r3]; [discriminate H|]. simpl in Hw2.
    cbn [List.length].
    destruct (d =? 125); [injection H as _ <-; lia|].
    destruct (d =? 44); [|discriminate H].
    destruct (parse_members float_of_str deep_read level fuel (skip_ws r3)) as [[kvs' r4]|e0] eqn:E3; [|discriminate H].
    injection H as _ <-. apply IHm in E3. pose proof (skip_ws_length r3). lia.
Qed.

(** Beyond twice the length of the text, more fuel changes nothing. *)
Lemma fuel_irrelevant : forall fuel,
  (forall level fuel' s,
      (2 * List.length s + 1 <= fuel)%nat -> (2 * List.length s + 1 <= fuel')%nat ->
      scan_once float_of_str deep_read level fuel s
      = scan_once float_of_str deep_read level fuel' s)
  /\ (forall level fuel' s,
         (2 * List.length s + 2 <= fuel)%nat -> (2 * List.length s + 2 <= fuel')%nat ->
         parse_elements float_of_str deep_read level fuel s
         = parse_elements float_of_str deep_read level fuel' s)
  /\ (forall level fuel' s,
         (2 * List.length s + 2 <= fuel)%nat -> (2 * List.length s + 2 <= fuel')%nat ->
         parse_members float_of_str deep_read level fuel s
         = parse_members float_of_str deep_read level fuel' s).
Proof.
  induction fuel as [|fuel [IHs [IHe IHm]]];
    [repeat split; intros; lia|].
  repeat split.
  - intros level [|fuel'] s Hf Hf'; [lia|].
    destruct s as [|c rest]; [reflexivity|]. cbn [List.length] in Hf, Hf'.
    rewrite !scan_once_eq.
    destruct (deep_read level c); [reflexivity|].
    destruct (c =? 34); [reflexivity|].
    pose proof (skip_ws_length rest) as Hw.
    destruct (c =? 123).
    { destruct (skip_ws rest) as [|d r0]; [reflexivity|].
      destruct (d =? 125); [reflexivity|].
      rewrite (IHm (S level) fuel' (d :: r0)) by lia. reflexivity. }
    destruct (c =? 91); [|reflexivity].
    destruct (skip_ws rest) as [|d r0]; [reflexivity|].
    destruct (d =? 93); [reflexivity|].
    rewrite (IHe (S level) fuel' (d :: r0)) by lia. reflexivity.
  - intros level [|fuel'] s Hf Hf'; [lia|]. rewrite !parse_elements_eq.
    rewrite (IHs level fuel' s) by lia.
    destruct (scan_once float_of_str deep_read level fuel' s) as [[v r0]|e0] eqn:E; [|reflexivity].
    apply (proj1 (readers_consume fuel')) in E.
    pose proof (skip_ws_length r0) as Hw.
    destruct (skip_ws r0) as [|d r1]; [reflexivity|]. simpl in Hw.
    destruct (d =? 93); [reflexivity|].
    destruct (d =? 44); [|reflexivity].
    pose proof (skip_ws_length r1) as Hw1.
    rewrite (IHe level fuel' (skip_ws r1)) by lia. reflexivity.
  - intros level [|fuel'] s Hf Hf'; [lia|]. rewrite !parse_members_eq.
    destruct s as [|q s1]; [reflexivity|]. cbn [List.length] in Hf, Hf'.
    destruct (q =? 34); [|reflexivity].
    destruct (scanstring s1) as [[key r0]|] eqn:E; [|reflexivity].
    apply (scanstring_length _ _ _ _ (le_n _)) in E.
    pose proof (skip_ws_length r0) as Hw0.
    destruct (skip_ws r0) as [|colon r1]; [reflexivity|]. simpl in Hw0.
    destruct (colon =? 58); [|reflexivity].
    pose proof (skip_ws_length r1) as Hw1.
    rewrite (IHs level fuel' (skip_ws r1)) by lia.
    destruct (scan_once float_of_str deep_read level fuel' (skip_ws r1)) as [[v r2]|e0] eqn:E2;
      [|reflexivity].
    apply (proj1 (readers_consume fuel')) in E2.
    pose proof (skip_ws_length r2) as Hw2.
    destruct (skip_ws r2) as [|d r3]; [reflexivity|]. simpl in Hw2.
    destruct (d =? 125); [reflexivity|].
    destruct (d =? 44); [|reflexivity].
    pose proof (skip_ws_length r3) as Hw3.
    rewrite (IHm level fuel' (skip_ws r3)) by lia. reflexivity.
Qed.

(** [loads] gives the fuel that suffices: with any larger amount the
    reader returns the same value or fails alike. *)
Lemma loads_fuel : forall s fuel,
  (2 * List.length s + 2 <= fuel)%nat ->
  scan_once float_of_str deep_read 0 fuel (skip_ws s)
  = scan_once float_of_str deep_read 0 (2 * List.length s + 2) (skip_ws s).
Proof.
  intros s fuel Hf. pose proof (skip_ws_length s) as Hw.
  apply (proj1 (fuel_irrelevant fuel)); lia.
Qed.

End JsonFuel.

(** ** JSON texts (RFC 8259) and what [json.loads] makes of them *)

Module Rfc8259.

Section Texts.

Local Open Scope N_scope.

(** *** The grammar

    The grammar of RFC 8259, sections 2 to 7, as a relation between a
    text and its syntax tree.  An integer keeps its digits and a number
    with a fraction or an exponent its numeral; a string is the
    characters it stands for. *)
Inductive json : Type :=
| JNull
| JBool (b : bool)
| JInt (minus : bool) (digits : str)
| JReal (numeral : str)
| JString (s : str)
| JArray (elements : list json)
| JObject (members : list (str * json)).

(** [ws]: blanks, tabs, line feeds and carriage returns. *)
Definition ws (w : str) : Prop :=
  forallb (fun c => existsb (N.eqb c) [32; 9; 10; 13]) w = true.

(** [DIGIT], and [1*DIGIT]. *)
Definition digit (c : char) : bool := existsb (N.eqb c) (lit "0123456789").

Definition digits (ds : str) : Prop := ds <> [] /\ forallb digit ds = true.

(** [int = zero / ( digit1-9 *DIGIT )]. *)
Definition int_part (ds : str) : Prop :=
  ds = [48] \/ (digits ds /\ hd 48 ds <> 48).

(** [frac = decimal-point 1*DIGIT], or nothing. *)
Definition frac_part (f : str) : Prop :=
  f = [] \/ exists fs, f = 46 :: fs /\ digits fs.

(** [exp = e [ minus / plus ] 1*DIGIT], or nothing. *)
Definition exp_part (e : str) : Prop :=
  e = [] \/ exists c sign es,
              e = c :: sign ++ es /\ (c = 101 \/ c = 69)
              /\ (sign = [] \/ sign = [43] \/ sign = [45]) /\ digits es.

(** [HEXDIG] with its value, and the code unit of four of them. *)
Fixpoint index_of (c : char) (l : str) : option N :=
  match l with
  | [] => None
  | d :: l' => if c =? d then Some 0 else option_map N.succ (index_of c l')
  end.

Definition hexdig (c : char) : option N :=
  match index_of c (lit "0123456789abcdef") with
  | Some d => Some d
  | None => index_of c (lit "0123456789ABCDEF")
  end.

Definition hex_code (h1 h2 h3 h4 : char) : option N :=
  match hexdig h1, hexdig h2, hexdig h3, hexdig h4 with
  | Some a, Some b, Some c, Some d => Some (((a * 16 + b) * 16 + c) * 16 + d)
  | _, _, _, _ => None
  end.

(** The two-character escapes: quotation mark, reverse solidus, solidus,
    backspace, form feed, line feed, carriage return, tab. *)
Definition escaped (e : char) : option char :=
  option_map snd
    (find (fun p => e =? fst p)
          [(34, 34); (92, 92); (47, 47); (98, 8); (102, 12); (110, 10); (114, 13); (116, 9)]).

(** [unescaped = %x20-21 / %x23-5B / %x5D-10FFFF]. *)
Definition unescaped (c : char) : bool :=
  (32 <=? c) && (c <=? 1114111) && negb (c =? 34) && negb (c =? 92).

(** The code units D800 to DBFF and DC00 to DFFF, which together escape
    a character outside the Basic Multilingual Plane. *)
Definition leading (u : N) : bool := (55296 <=? u) && (u <=? 56319).
Definition trailing (u : N) : bool := (56320 <=? u) && (u <=? 57343).

(** The text goes on with the escape of a trailing code unit. *)
Definition trail_follows (t : str) : bool :=
  match t with
  | b :: u :: l1 :: l2 :: l3 :: l4 :: _ =>
    (b =? 92) && (u =? 117)
    && match hex_code l1 l2 l3 l4 with
       | Some lo => trailing lo
       | None => false
       end
  | _ => false
  end.

(** The characters between the quotation marks, and the string they
    stand for.  The escape of a leading code unit directly followed by
    the escape of a trailing one stands for one character, any other
    escape [\uXXXX] for the code unit. *)
Inductive chars : str -> str -> Prop :=
| chars_end : chars [] []
| chars_unescaped : forall c t s,
    unescaped c = true -> chars t s -> chars (c :: t) (c :: s)
| chars_escaped : forall e c t s,
    escaped e = Some c -> chars t s -> chars (92 :: e :: t) (c :: s)
| chars_code : forall h1 h2 h3 h4 u t s,
    hex_code h1 h2 h3 h4 = Some u ->
    leading u && trail_follows t = false ->
    chars t s ->
    chars (92 :: 117 :: h1 :: h2 :: h3 :: h4 :: t) (u :: s)
| chars_pair : forall h1 h2 h3 h4 l1 l2 l3 l4 hi lo t s,
    hex_code h1 h2 h3 h4 = Some hi -> leading hi = true ->
    hex_code l1 l2 l3 l4 = Some lo -> trailing lo = true ->
    chars t s ->
    chars (92 :: 117 :: h1 :: h2 :: h3 :: h4 :: 92 :: 117 :: l1 :: l2 :: l3 :: l4 :: t)
          (65536 + (hi - 55296) * 1024 + (lo - 56320) :: s).

Definition sign_of (minus : bool) : str := if minus then [45] else [].

(** [value], the elements of an array from after the opening bracket,
    and the members of an object from after the opening brace. *)
Inductive value : str -> json -> Prop :=
| value_null : value (lit "null") JNull
| value_true : value (lit "true") (JBool true)
| value_false : value (lit "false") (JBool false)
| value_int : forall minus ds,
    int_part ds -> value (sign_of minus ++ ds) (JInt minus ds)
| value_real : forall minus ds f e,
    int_part ds -> frac_part f -> exp_part e -> f ++ e <> [] ->
    value (sign_of minus ++ ds ++ f ++ e) (JReal (sign_of minus ++ ds ++ f ++ e))
| value_string : forall body s,
    chars body s -> value (34 :: body ++ [34]) (JString s)
| value_empty_array : forall w,
    ws w -> value (91 :: w ++ [93]) (JArray [])
| value_array : forall body js,
    elements body js -> value (91 :: body) (JArray js)
| value_empty_object : forall w,
    ws w -> value (123 :: w ++ [125]) (JObject [])
| value_object : forall body ms,
    members body ms -> value (123 :: body) (JObject ms)

with elements : str -> list json -> Prop :=
| elements_last : forall w1 t j w2,
    ws w1 -> value t j -> ws w2 ->
    elements (w1 ++ t ++ w2 ++ [93]) [j]
| elements_more : forall w1 t j w2 body js,
    ws w1 -> value t j -> ws w2 -> elements body js ->
    elements (w1 ++ t ++ w2 ++ 44 :: body) (j :: js)

with members : str -> list (str * json) -> Prop :=
| members_last : forall w1 name k w2 w3 t j w4,
    ws w1 -> chars name k -> ws w2 -> ws w3 -> value t j -> ws w4 ->
    members (w1 ++ 34 :: name ++ 34 :: w2 ++ 58 :: w3 ++ t ++ w4 ++ [125]) [(k, j)]
| members_more : forall w1 name k w2 w3 t j w4 body ms,
    ws w1 -> chars name k -> ws w2 -> ws w3 -> value t j -> ws w4 ->
    members body ms ->
    members (w1 ++ 34 :: name ++ 34 :: w2 ++ 58 :: w3 ++ t ++ w4 ++ 44 :: body)
            ((k, j) :: ms).

Scheme value_elements_ind := Minimality for value Sort Prop
  with elements_value_ind := Minimality for elements Sort Prop
  with members_value_ind := Minimality for members Sort Prop.

Combined Scheme grammar_ind
  from value_elements_ind, elements_value_ind, members_value_ind.

(** [JSON-text = ws value ws]. *)
Definition json_text (t : str) (j : json) : Prop :=
  exists w1 s w2, ws w1 /\ value s j /\ ws w2 /\ t = w1 ++ s ++ w2.

(** *** What Python makes of a JSON text

    The conversion table of the [json] module: [null] is [None], a
    number without fraction and exponent an [int], any other number the
    [float] of its numeral, an array a [list] and an object a [dict], in
    which a repeated name keeps its first place and its last value. *)
Definition digits_value (ds : str) : Z :=
  fold_left (fun a c => (10 * a + Z.of_N (c - 48))%Z) ds 0%Z.

Fixpoint last_value (k : str) (ms : list (str * pyval)) (v : pyval) : pyval :=
  match ms with
  | [] => v
  | (k', v') :: ms' => last_value k ms' (if str_eqb k k' then v' else v)
  end.

Fixpoint object_items (seen : list str) (ms : list (str * pyval)) : list (pyval * pyval) :=
  match ms with
  | [] => []
  | (k, v) :: ms' =>
    if mem_str k seen then object_items seen ms'
    else (PyStr k, last_value k ms' v) :: object_items (k :: seen) ms'
  end.

Variable float_of_str : str -> spec_float.

Fixpoint value_of (j : json) : pyval :=
  match j with
  | JNull => PyNone
  | JBool b => PyBool b
  | JInt minus ds => PyInt (if minus then - digits_value ds else digits_value ds)%Z
  | JReal numeral => PyFloat (float_of_str numeral)
  | JString s => PyStr s
  | JArray js => PyList (map value_of js)
  | JObject ms => PyDict (object_items [] (map (fun kj => (fst kj, value_of (snd kj))) ms))
  end.

(** How deep the arrays and objects of a text are nested, and whether
    its integers have at most 4300 digits each. *)
Fixpoint nesting (j : json) : nat :=
  match j with
  | JArray js => fold_right (fun x m => Nat.max (S (nesting x)) m) 0%nat js
  | JObject ms => fold_right (fun kj m => Nat.max (S (nesting (snd kj))) m) 0%nat ms
  | _ => 0%nat
  end.

Fixpoint short_integers (j : json) : bool :=
  match j with
  | JInt _ ds => (List.length ds <=? 4300)%nat
  | JArray js => forallb short_integers js
  | JObject ms => forallb (fun kj => short_integers (snd kj)) ms
  | _ => true
  end.

(** *** Strings *)

Lemma hexdig_hex_value : forall c, hexdig c = hex_value c.
Proof.
  intro c. unfold hexdig, hex_value.
  cbn [lit map list_ascii_of_string index_of].
  repeat match goal with
         | |- context [c =? N_of_ascii ?a] =>
           let k := eval vm_compute in (N_of_ascii a) in
           change (N_of_ascii a) with k;
           destruct (N.eqb_spec c k) as [-> | ?]; [reflexivity|]
         end.
  cbn [option_map].
  destruct (N.leb_spec 48 c), (N.leb_spec c 57), (N.leb_spec 97 c), (N.leb_spec c 102),
           (N.leb_spec 65 c), (N.leb_spec c 70); cbn [andb]; try reflexivity; lia.
Qed.

Lemma hex_code_hex4 : forall a b c d, hex_code a b c d = hex4 a b c d.
Proof.
  intros a b c d. unfold hex_code, hex4. rewrite !hexdig_hex_value.
  destruct (hex_value a), (hex_value b), (hex_value c), (hex_value d); try reflexivity.
  f_equal. lia.
Qed.

Lemma escaped_backslash : forall e c,
  escaped e = Some c -> (e =? 117) = false /\ backslash e = Some c.
Proof.
  intros e c. unfold escaped, backslash. cbn [find fst snd].
  repeat match goal with
         | |- context [e =? ?k] =>
           destruct (N.eqb_spec e k) as [-> | ?];
           [cbn [option_map snd]; intros [= <-]; split; reflexivity|]
         end.
  discriminate.
Qed.

Lemma unescaped_plain : forall c,
  unescaped c = true -> (c =? 34) = false /\ (c =? 92) = false /\ (c <? 32) = false.
Proof.
  intros c H. unfold unescaped in H.
  repeat (apply andb_true_iff in H; destruct H as [H ?]).
  apply N.leb_le in H. repeat split.
  - now apply negb_true_iff.
  - now apply negb_true_iff.
  - apply N.ltb_ge. exact H.
Qed.

Lemma trail_follows_head : forall t rest,
  low_escape_head (t ++ 34 :: rest) = trail_follows t.
Proof.
  intros t rest. unfold trail_follows.
  destruct t as [|b [|u [|l1 [|l2 [|l3 [|l4 t]]]]]]; cbn [app];
    try (cbn [low_escape_head]; rewrite hex_code_hex4; reflexivity).
  - destruct rest as [|r1 [|r2 [|r3 [|r4 [|r5 rest]]]]]; reflexivity.
  - destruct rest as [|r1 [|r2 [|r3 [|r4 rest]]]]; try reflexivity.
    cbn [low_escape_head]. cbn [N.eqb Pos.eqb]. now rewrite andb_false_r.
  - destruct rest as [|r1 [|r2 [|r3 rest]]]; try reflexivity.
    cbn [low_escape_head]. unfold hex4. cbn. now rewrite andb_false_r.
  - destruct rest as [|r1 [|r2 rest]]; try reflexivity.
    cbn [low_escape_head]. unfold hex4. destruct (hex_value l1); cbn; now rewrite andb_false_r.
  - destruct rest as [|r1 rest]; try reflexivity.
    cbn [low_escape_head]. unfold hex4.
    destruct (hex_value l1), (hex_value l2); cbn; now rewrite andb_false_r.
  - cbn [low_escape_head]. unfold hex4.
    destruct (hex_value l1), (hex_value l2), (hex_value l3); cbn; now rewrite andb_false_r.
Qed.

(** What [scanstring] does after the escape of a code unit that does not
    pair with what follows it. *)
Lemma scanstring_code : forall h1 h2 h3 h4 u rest,
  hex4 h1 h2 h3 h4 = Some u ->
  is_high_surrogate u && low_escape_head rest = false ->
  scanstring rest <> None ->
  scanstring (92 :: 117 :: h1 :: h2 :: h3 :: h4 :: rest) = cons_fst u (scanstring rest).
Proof.
  intros h1 h2 h3 h4 u rest Hhex Hpair Hrest.
  cbn [scanstring]. cbn [N.eqb Pos.eqb]. rewrite Hhex.
  destruct rest as [|b [|c [|l1 [|l2 [|l3 [|l4 rest3]]]]]]; try reflexivity.
  destruct (is_high_surrogate u); [|reflexivity].
  cbn [andb low_escape_head] in Hpair |- *.
  destruct (b =? 92) eqn:Hb; [|reflexivity].
  destruct (c =? 117) eqn:Hc; [|reflexivity].
  cbn [andb] in Hpair |- *. apply N.eqb_eq in Hb, Hc. subst b c.
  destruct (hex4 l1 l2 l3 l4) as [lo|] eqn:Hlo.
  - now rewrite Hpair.
  - exfalso. apply Hrest. cbn [scanstring]. cbn [N.eqb Pos.eqb]. now rewrite Hlo.
Qed.

Lemma lor_shiftl_low : forall a b,
  b < 1024 -> N.lor (N.shiftl a 10) b = a * 1024 + b.
Proof.
  intros a b Hb. rewrite N.shiftl_mul_pow2. change (2 ^ 10) with 1024.
  rewrite <- N.lxor_lor, <- N.add_nocarry_lxor; [reflexivity| |];
    apply N.bits_inj_0; intro i; rewrite N.land_spec;
    (destruct (N.lt_ge_cases i 10) as [Hi | Hi];
     [change 1024 with (2 ^ 10); rewrite N.mul_pow2_bits_low by assumption; reflexivity|]);
    (assert (Hbi : N.testbit b i = false);
     [destruct (N.eq_dec b 0) as [-> | Hb0]; [apply N.bits_0|];
      apply N.bits_above_log2; apply N.lt_le_trans with 10; [|assumption];
      apply N.log2_lt_pow2; [lia | exact Hb]|]);
    now rewrite Hbi, andb_false_r.
Qed.

(** [scanstring] reads the characters of a string of the grammar as the
    string they stand for. *)
Lemma scanstring_chars : forall body s,
  chars body s -> forall rest, scanstring (body ++ 34 :: rest) = Some (s, rest).
Proof.
  induction 1 as [ | c t s Hc _ IH | e c t s He _ IH
                   | h1 h2 h3 h4 u t s Hu Hpair _ IH
                   | h1 h2 h3 h4 l1 l2 l3 l4 hi lo t s Hhi Hlead Hlo Htrail _ IH ];
    intro rest.
  - reflexivity.
  - destruct (unescaped_plain c Hc) as [H34 [H92 H32]].
    cbn [app scanstring]. rewrite H34, H92, H32, IH. reflexivity.
  - destruct (escaped_backslash e c He) as [H117 Hb].
    cbn [app scanstring]. cbn [N.eqb Pos.eqb]. rewrite H117, Hb, IH. reflexivity.
  - rewrite hex_code_hex4 in Hu. cbn [app].
    rewrite (scanstring_code h1 h2 h3 h4 u);
      [now rewrite IH | assumption | | rewrite IH; discriminate].
    rewrite trail_follows_head. exact Hpair.
  - rewrite hex_code_hex4 in Hhi, Hlo.
    cbn [app scanstring]. cbn [N.eqb Pos.eqb]. rewrite Hhi.
    change (is_high_surrogate hi) with (leading hi). rewrite Hlead. cbn [andb].
    rewrite Hlo. change (is_low_surrogate lo) with (trailing lo). rewrite Htrail.
    rewrite IH. cbn [cons_fst]. rewrite lor_shiftl_low; [now rewrite N.add_assoc|].
    unfold trailing in Htrail. apply andb_true_iff in Htrail. destruct Htrail as [H1 H2].
    apply N.leb_le in H1, H2. lia.
Qed.

(** *** Numbers *)

Lemma digit_is_digit : forall c, digit c = is_digit c.
Proof.
  intro c. unfold digit, is_digit. cbn [lit map list_ascii_of_string existsb].
  repeat match goal with
         | |- context [c =? N_of_ascii ?a] =>
           let k := eval vm_compute in (N_of_ascii a) in
           change (N_of_ascii a) with k;
           destruct (N.eqb_spec c k) as [-> | ?]; [reflexivity|]
         end.
  cbn [orb]. destruct (N.leb_spec 48 c), (N.leb_spec c 57); cbn [andb]; try reflexivity; lia.
Qed.

Lemma digits_is_digit : forall ds, forallb digit ds = true -> forallb is_digit ds = true.
Proof.
  induction ds as [|d ds IH]; intro H; [reflexivity|].
  cbn [forallb] in *. apply andb_true_iff in H. destruct H as [Hd Hds].
  rewrite <- digit_is_digit, Hd. now apply IH.
Qed.

Lemma is_digit_range : forall c, is_digit c = true -> 48 <= c <= 57.
Proof.
  intros c H. unfold is_digit in H. apply andb_true_iff in H. destruct H as [H1 H2].
  apply N.leb_le in H1, H2. now split.
Qed.

Lemma digits_head : forall ds,
  digits ds -> exists d ds', ds = d :: ds' /\ is_digit d = true /\ forallb is_digit ds' = true.
Proof.
  intros [|d ds] [Hne H]; [congruence|]. apply digits_is_digit in H.
  cbn [forallb] in H. apply andb_true_iff in H. destruct H as [Hd Hds].
  now exists d, ds.
Qed.

Lemma int_part_head : forall ds,
  int_part ds ->
  exists d ds', ds = d :: ds' /\ is_digit d = true /\ forallb is_digit ds' = true
                /\ (ds' = [] \/ (d =? 48) = false).
Proof.
  intros ds [-> | [Hd Hz]].
  - exists 48, []. repeat split; now left.
  - destruct (digits_head ds Hd) as [d [ds' [-> [H1 H2]]]]. exists d, ds'.
    repeat split; try assumption. right. apply N.eqb_neq. exact Hz.
Qed.

(** What follows a value in a JSON text: nothing, white space, a comma, a
    closing bracket or a closing brace. *)
Definition stops (rest : str) : bool :=
  match rest with
  | [] => true
  | c :: _ => json_ws c || (c =? 44) || (c =? 93) || (c =? 125)
  end.

(** The text does not go on with a character for which [p] holds. *)
Definition goes_on (p : char -> bool) (rest : str) : bool :=
  match rest with
  | [] => false
  | c :: _ => p c
  end.

Lemma stops_goes_on : forall rest,
  stops rest = true ->
  goes_on is_digit rest = false
  /\ goes_on (fun c => c =? 46) rest = false
  /\ goes_on (fun c => (c =? 101) || (c =? 69)) rest = false.
Proof.
  intros [|c r] H; [repeat split|]. cbn [stops goes_on] in *. unfold json_ws in H.
  repeat (apply orb_true_iff in H; destruct H as [H | H]);
    apply N.eqb_eq in H; subst c; repeat split.
Qed.

Lemma span_digits_run : forall ds rest,
  forallb is_digit ds = true ->
  goes_on is_digit rest = false ->
  span_digits (ds ++ rest) = (ds, rest).
Proof.
  induction ds as [|d ds IH]; intros rest Hds Hrest.
  - destruct rest as [|c r]; [reflexivity|]. cbn [goes_on] in Hrest.
    cbn [app span_digits]. now rewrite Hrest.
  - cbn [forallb] in Hds. apply andb_true_iff in Hds. destruct Hds as [Hd Hds].
    cbn [app span_digits]. rewrite Hd, IH by assumption. reflexivity.
Qed.

Lemma number_exp_part : forall e rest,
  exp_part e -> stops rest = true -> number_exp (e ++ rest) = (e, rest).
Proof.
  intros e rest He Hrest. destruct (stops_goes_on rest Hrest) as [Hdig [_ Hexp]].
  destruct He as [-> | [c [sign [es [-> [Hc [Hsign Hes]]]]]]].
  - destruct rest as [|c r]; [reflexivity|]. cbn [goes_on] in Hexp.
    cbn [app number_exp]. now rewrite Hexp.
  - destruct (digits_head es Hes) as [d [es' [-> [Hd Hes']]]].
    pose proof (is_digit_range d Hd) as Hr.
    assert (Hspan : span_digits ((d :: es') ++ rest) = (d :: es', rest)).
    { apply span_digits_run; [|assumption]. cbn [forallb]. now rewrite Hd, Hes'. }
    cbn [app] in Hspan.
    assert (Hce : (c =? 101) || (c =? 69) = true)
      by (destruct Hc as [-> | ->]; reflexivity).
    cbn [app number_exp]. rewrite Hce.
    destruct Hsign as [-> | [-> | ->]].
    + cbn [app].
      replace ((d =? 43) || (d =? 45)) with false
        by (symmetry; apply orb_false_iff; split; apply N.eqb_neq; lia).
      rewrite Hspan. reflexivity.
    + cbn [app]. cbn [N.eqb Pos.eqb orb]. rewrite Hspan. reflexivity.
    + cbn [app]. cbn [N.eqb Pos.eqb orb]. rewrite Hspan. reflexivity.
Qed.

Lemma exp_part_goes_on : forall e rest,
  exp_part e -> stops rest = true ->
  goes_on is_digit (e ++ rest) = false /\ goes_on (fun c => c =? 46) (e ++ rest) = false.
Proof.
  intros e rest He Hrest. destruct (stops_goes_on rest Hrest) as [Hdig [Hpt _]].
  destruct He as [-> | [c [sign [es [-> [Hc _]]]]]]; [now split|].
  destruct Hc as [-> | ->]; split; reflexivity.
Qed.

Lemma number_frac_part : forall f e rest,
  frac_part f -> exp_part e -> stops rest = true ->
  number_frac (f ++ e ++ rest) = (f, e ++ rest).
Proof.
  intros f e rest Hf He Hrest.
  destruct (exp_part_goes_on e rest He Hrest) as [Hdig Hpt].
  destruct Hf as [-> | [fs [-> Hfs]]].
  - cbn [app]. destruct (e ++ rest) as [|c r]; [reflexivity|]. cbn [goes_on] in Hpt.
    cbn [number_frac]. now rewrite Hpt.
  - destruct (digits_head fs Hfs) as [d [fs' [-> [Hd Hfs']]]].
    cbn [app number_frac]. cbn [N.eqb Pos.eqb].
    change (d :: fs' ++ e ++ rest) with ((d :: fs') ++ e ++ rest).
    rewrite span_digits_run; [reflexivity | | assumption].
    cbn [forallb]. now rewrite Hd, Hfs'.
Qed.

Lemma frac_part_goes_on : forall f e rest,
  frac_part f -> exp_part e -> stops rest = true ->
  goes_on is_digit (f ++ e ++ rest) = false.
Proof.
  intros f e rest Hf He Hrest. destruct Hf as [-> | [fs [-> _]]]; [|reflexivity].
  exact (proj1 (exp_part_goes_on e rest He Hrest)).
Qed.

Lemma number_int_part : forall ds tail,
  int_part ds -> goes_on is_digit tail = false ->
  number_int (ds ++ tail) = Some (ds, tail).
Proof.
  intros ds tail Hds Htail.
  destruct (int_part_head ds Hds) as [d [ds' [-> [Hd [Hds' Hz]]]]].
  cbn [app number_int]. destruct Hz as [-> | Hz].
  - destruct (d =? 48) eqn:E.
    + apply N.eqb_eq in E. now subst d.
    + rewrite Hd. change (d :: [] ++ tail) with ([d] ++ tail).
      rewrite span_digits_run; [reflexivity | | assumption]. cbn [forallb]. now rewrite Hd.
  - rewrite Hz, Hd. change (d :: ds' ++ tail) with ((d :: ds') ++ tail).
    rewrite span_digits_run; [reflexivity | | assumption]. cbn [forallb]. now rewrite Hd, Hds'.
Qed.

Lemma number_sign_part : forall minus ds tail,
  int_part ds ->
  number_sign (sign_of minus ++ ds ++ tail) = (sign_of minus, ds ++ tail).
Proof.
  intros minus ds tail Hds. destruct minus; [reflexivity|].
  destruct (int_part_head ds Hds) as [d [ds' [-> [Hd _]]]].
  pose proof (is_digit_range d Hd) as Hr.
  cbn [sign_of app number_sign].
  replace (d =? 45) with false by (symmetry; apply N.eqb_neq; lia). reflexivity.
Qed.

(** The digits of a numeral are the digits of a decimal number of the
    Standard Library, which has their value. *)
Lemma digits_uint : forall ds,
  forallb is_digit ds = true -> exists u, digits_of_uint u = ds.
Proof.
  induction ds as [|d ds IH]; intro H; [now exists Decimal.Nil|].
  cbn [forallb] in H. apply andb_true_iff in H. destruct H as [Hd Hds].
  destruct (IH Hds) as [u <-]. apply is_digit_range in Hd.
  destruct (N.eq_dec d 48) as [-> | ?]; [now exists (Decimal.D0 u)|].
  destruct (N.eq_dec d 49) as [-> | ?]; [now exists (Decimal.D1 u)|].
  destruct (N.eq_dec d 50) as [-> | ?]; [now exists (Decimal.D2 u)|].
  destruct (N.eq_dec d 51) as [-> | ?]; [now exists (Decimal.D3 u)|].
  destruct (N.eq_dec d 52) as [-> | ?]; [now exists (Decimal.D4 u)|].
  destruct (N.eq_dec d 53) as [-> | ?]; [now exists (Decimal.D5 u)|].
  destruct (N.eq_dec d 54) as [-> | ?]; [now exists (Decimal.D6 u)|].
  destruct (N.eq_dec d 55) as [-> | ?]; [now exists (Decimal.D7 u)|].
  destruct (N.eq_dec d 56) as [-> | ?]; [now exists (Decimal.D8 u)|].
  destruct (N.eq_dec d 57) as [-> | ?]; [now exists (Decimal.D9 u)|].
  lia.
Qed.

Definition digit_step (a : Z) (c : char) : Z := (10 * a + Z.of_N (c - 48))%Z.

Lemma of_uint_acc_value : forall u acc,
  Z.pos (Pos.of_uint_acc u acc) = fold_left digit_step (digits_of_uint u) (Z.pos acc).
Proof.
  induction u; intro acc; cbn [Pos.of_uint_acc digits_of_uint fold_left];
    try reflexivity; rewrite IHu; f_equal; unfold digit_step; lia.
Qed.

Lemma of_uint_value : forall u,
  Z.of_uint u = digits_value (digits_of_uint u).
Proof.
  unfold digits_value. change (fun a c => (10 * a + Z.of_N (c - 48))%Z) with digit_step.
  unfold Z.of_uint.
  induction u; cbn [Pos.of_uint digits_of_uint fold_left]; try reflexivity;
    try exact IHu; cbn [Z.of_N]; rewrite of_uint_acc_value; reflexivity.
Qed.

Lemma py_int_digits : forall (minus : bool) ds,
  forallb is_digit ds = true -> ds <> [] ->
  (List.length ds <= 4300)%nat ->
  py_int (sign_of minus ++ ds)
  = Some (if minus then - digits_value ds else digits_value ds)%Z.
Proof.
  intros minus ds Hds Hne Hlen. destruct (digits_uint ds Hds) as [u <-].
  unfold sign_of. rewrite py_int_number by assumption.
  rewrite of_uint_value. reflexivity.
Qed.

(** [match_number] on the numerals of the grammar. *)
Lemma match_number_int : forall minus ds rest,
  int_part ds -> (List.length ds <= 4300)%nat -> stops rest = true ->
  match_number float_of_str ((sign_of minus ++ ds) ++ rest)
  = Some (PyInt (if minus then - digits_value ds else digits_value ds)%Z, rest).
Proof.
  intros minus ds rest Hds Hlen Hrest.
  destruct (stops_goes_on rest Hrest) as [Hdig _].
  unfold match_number. rewrite <- List.app_assoc.
  rewrite number_sign_part, number_int_part by assumption.
  pose proof (number_frac_part [] [] rest (or_introl eq_refl) (or_introl eq_refl) Hrest) as Hfr.
  pose proof (number_exp_part [] rest (or_introl eq_refl) Hrest) as Hex.
  cbn [app] in Hfr, Hex. rewrite Hfr, Hex.
  destruct (int_part_head ds Hds) as [d [ds' [E [Hd [Hds' _]]]]].
  rewrite py_int_digits; [reflexivity | | | assumption].
  - rewrite E. cbn [forallb]. now rewrite Hd, Hds'.
  - rewrite E. discriminate.
Qed.

Lemma match_number_real : forall minus ds f e rest,
  int_part ds -> frac_part f -> exp_part e -> f ++ e <> [] -> stops rest = true ->
  match_number float_of_str ((sign_of minus ++ ds ++ f ++ e) ++ rest)
  = Some (PyFloat (float_of_str (sign_of minus ++ ds ++ f ++ e)), rest).
Proof.
  intros minus ds f e rest Hds Hf He Hne Hrest.
  unfold match_number. rewrite <- !List.app_assoc.
  rewrite number_sign_part by assumption.
  rewrite number_int_part by (try assumption; now apply frac_part_goes_on).
  rewrite number_frac_part, number_exp_part by assumption.
  destruct f as [|c f]; [destruct e as [|c e]; [now contradiction Hne|]|]; reflexivity.
Qed.
(** *** Objects *)

Definition items_of (acc : list (str * pyval)) : list (pyval * pyval) :=
  map (fun kv => (PyStr (fst kv), snd kv)) acc.

Lemma dict_set_present : forall acc k v,
  NoDup (map fst acc) -> In k (map fst acc) ->
  dict_set (items_of acc) k v
  = items_of (map (fun kv => (fst kv, if str_eqb (fst kv) k then v else snd kv)) acc).
Proof.
  induction acc as [|[k0 v0] acc IH]; intros k v Hnd Hin; [contradiction|].
  cbn [map fst] in Hnd, Hin. inversion Hnd as [|? ? Hnotin Hnd']; subst.
  unfold items_of in *. cbn [map dict_set fst snd].
  destruct (str_eqb k0 k) eqn:E.
  - apply str_eqb_eq in E. subst k0. f_equal.
    rewrite map_map. apply map_ext_in. intros [k1 v1] H1. cbn [fst snd].
    replace (str_eqb k1 k) with false; [reflexivity|].
    symmetry. apply str_eqb_neq. intros ->. apply Hnotin.
    apply in_map_iff. now exists (k, v1).
  - f_equal. apply IH; [assumption|].
    destruct Hin as [-> | Hin]; [|assumption].
    rewrite str_eqb_refl in E. discriminate.
Qed.

Lemma dict_set_absent : forall acc k v,
  ~ In k (map fst acc) ->
  dict_set (items_of acc) k v = items_of (acc ++ [(k, v)]).
Proof.
  induction acc as [|[k0 v0] acc IH]; intros k v Hnotin; [reflexivity|].
  unfold items_of in *. cbn [map app dict_set fst snd] in *.
  replace (str_eqb k0 k) with false
    by (symmetry; apply str_eqb_neq; intros ->; apply Hnotin; now left).
  f_equal. apply IH. intro H. apply Hnotin. now right.
Qed.

Lemma object_items_seen : forall ms s1 s2,
  (forall k, mem_str k s1 = mem_str k s2) ->
  object_items s1 ms = object_items s2 ms.
Proof.
  induction ms as [|[k v] ms IH]; intros s1 s2 H; [reflexivity|].
  cbn [object_items]. rewrite (H k). destruct (mem_str k s2); [now apply IH|].
  f_equal. apply IH. intro k'. unfold mem_str. cbn [existsb]. f_equal. apply H.
Qed.

Lemma fold_set_object : forall ms acc,
  NoDup (map fst acc) ->
  fold_left (fun d kv => dict_set d (fst kv) (snd kv)) ms (items_of acc)
  = items_of (map (fun kv => (fst kv, last_value (fst kv) ms (snd kv))) acc)
    ++ object_items (map fst acc) ms.
Proof.
  induction ms as [|[k v] ms IH]; intros acc Hnd.
  - cbn [fold_left object_items last_value]. rewrite List.app_nil_r. f_equal.
    rewrite <- (map_id acc) at 1. apply map_ext. now intros [k v].
  - cbn [fold_left fst snd object_items].
    destruct (mem_str k (map fst acc)) eqn:E.
    + apply mem_str_In in E. rewrite dict_set_present by assumption.
      rewrite IH by (rewrite map_map; cbn [fst]; exact Hnd).
      rewrite !map_map. cbn [fst snd last_value]. reflexivity.
    + assert (Hnotin : ~ In k (map fst acc)).
      { intro H. apply mem_str_In in H. congruence. }
      rewrite dict_set_absent by assumption.
      rewrite IH.
      2:{ rewrite map_app. apply NoDup_app; [assumption | repeat constructor; intros [] |].
          intros a Ha [<- | []]. contradiction. }
      rewrite !map_app. unfold items_of at 1. rewrite map_app.
      rewrite <- List.app_assoc. cbn [map app fst snd last_value].
      f_equal.
      * unfold items_of. f_equal. apply map_ext_in. intros [k1 v1] H1. cbn [fst snd].
        replace (str_eqb k1 k) with false; [reflexivity|].
        symmetry. apply str_eqb_neq. intros ->. apply Hnotin.
        apply in_map_iff. now exists (k, v1).
      * f_equal. apply object_items_seen. intro k'. unfold mem_str.
        rewrite existsb_app. cbn [existsb]. rewrite orb_false_r. apply orb_comm.
Qed.

(** [dict(pairs)] is the mapping of the members: a repeated name at its
    first place with its last value. *)
Lemma dict_of_pairs_object : forall ms, dict_of_pairs ms = object_items [] ms.
Proof.
  intro ms. unfold dict_of_pairs. exact (fold_set_object ms [] (NoDup_nil _)).
Qed.
(** *** The reader on the texts of the grammar *)

Lemma ws_json_ws : forall w, ws w -> forallb json_ws w = true.
Proof.
  unfold ws. induction w as [|c w IH]; intro H; [reflexivity|].
  cbn [forallb existsb] in *. apply andb_true_iff in H. destruct H as [Hc Hw].
  rewrite (IH Hw), andb_true_r. unfold json_ws.
  destruct (c =? 32), (c =? 9), (c =? 10), (c =? 13); try reflexivity; discriminate Hc.
Qed.

Lemma skip_ws_ws : forall w s, ws w -> skip_ws (w ++ s) = skip_ws s.
Proof.
  intros w s H. apply ws_json_ws in H.
  induction w as [|c w IH]; [reflexivity|].
  cbn [forallb] in H. apply andb_true_iff in H. destruct H as [Hc Hw].
  cbn [app skip_ws]. rewrite Hc. now apply IH.
Qed.

Lemma stops_ws : forall w s, ws w -> stops s = true -> stops (w ++ s) = true.
Proof.
  intros [|c w] s H Hs; [exact Hs|]. apply ws_json_ws in H.
  cbn [forallb] in H. apply andb_true_iff in H. destruct H as [Hc _].
  cbn [app stops]. now rewrite Hc.
Qed.

Variable deep_read : nat -> N -> bool.
Variable n : nat.
Hypothesis Hread : read_room deep_read n.

(** The text starts with a character that is no white space and no
    closing bracket. *)
Definition starts (t : str) : Prop :=
  exists c t', t = c :: t' /\ json_ws c = false /\ (c =? 93) = false.

(** The reader, [level] containers down, returns the value of the tree
    [j] for the text [t], whatever follows the text, if the interpreter
    has room and the integers are short. *)
Definition reads (t : str) (j : json) : Prop :=
  forall level rest,
    stops rest = true ->
    (level + nesting j <= n)%nat ->
    short_integers j = true ->
    exists fuel0, forall fuel,
      (fuel0 <= fuel)%nat ->
      scan_once float_of_str deep_read level fuel (t ++ rest) = Return (value_of j, rest).

Definition reads_elements (body : str) (js : list json) : Prop :=
  forall level rest,
    (level + nesting (JArray js) <= n)%nat ->
    short_integers (JArray js) = true ->
    (exists d r, skip_ws (body ++ rest) = d :: r /\ (d =? 93) = false)
    /\ exists fuel0, forall fuel,
         (fuel0 <= fuel)%nat ->
         parse_elements float_of_str deep_read (S level) fuel (skip_ws (body ++ rest))
         = Return (map value_of js, rest).

Definition reads_members (body : str) (ms : list (str * json)) : Prop :=
  forall level rest,
    (level + nesting (JObject ms) <= n)%nat ->
    short_integers (JObject ms) = true ->
    (exists r, skip_ws (body ++ rest) = 34 :: r)
    /\ exists fuel0, forall fuel,
         (fuel0 <= fuel)%nat ->
         parse_members float_of_str deep_read (S level) fuel (skip_ws (body ++ rest))
         = Return (map (fun kj => (fst kj, value_of (snd kj))) ms, rest).

Lemma nesting_array_cons : forall j js,
  nesting (JArray (j :: js)) = Nat.max (S (nesting j)) (nesting (JArray js)).
Proof. reflexivity. Qed.

Lemma nesting_object_cons : forall k j ms,
  nesting (JObject ((k, j) :: ms)) = Nat.max (S (nesting j)) (nesting (JObject ms)).
Proof. reflexivity. Qed.

Lemma short_array_cons : forall j js,
  short_integers (JArray (j :: js)) = short_integers j && short_integers (JArray js).
Proof. reflexivity. Qed.

Lemma short_object_cons : forall k j ms,
  short_integers (JObject ((k, j) :: ms)) = short_integers j && short_integers (JObject ms).
Proof. reflexivity. Qed.

Lemma value_of_array : forall js, value_of (JArray js) = PyList (map value_of js).
Proof. reflexivity. Qed.

Lemma value_of_object : forall ms,
  value_of (JObject ms)
  = PyDict (object_items [] (map (fun kj => (fst kj, value_of (snd kj))) ms)).
Proof. reflexivity. Qed.

Lemma starts_number : forall minus ds tail,
  int_part ds ->
  exists c t', sign_of minus ++ ds ++ tail = c :: t'
               /\ plain_head c /\ json_ws c = false /\ (c =? 93) = false.
Proof.
  intros minus ds tail Hds.
  destruct (int_part_head ds Hds) as [d [ds' [-> [Hd _]]]].
  destruct minus; eexists; eexists; (split; [reflexivity|]); apply number_head; auto.
Qed.

Lemma reads_constant : forall c t v j,
  value_of j = v -> nesting j = 0%nat ->
  (forall level fuel rest,
      (level <= n)%nat ->
      scan_once float_of_str deep_read level (S fuel) ((c :: t) ++ rest) = Return (v, rest)) ->
  reads (c :: t) j.
Proof.
  intros c t v j Hv Hn H level rest _ Hl _. exists 1%nat. intros [|fuel] Hf; [lia|].
  rewrite Hv. apply H. lia.
Qed.

Ltac scan_value :=
  rewrite scan_once_eq; cbn [app]; rewrite Hread by lia; cbn [N.eqb Pos.eqb].

(** Every text of the grammar is read as the value of its tree. *)
Lemma reader_complete :
  (forall t j, value t j -> starts t /\ reads t j)
  /\ (forall body js, elements body js -> reads_elements body js)
  /\ (forall body ms, members body ms -> reads_members body ms).
Proof.
  apply grammar_ind.
  - (* null *)
    split; [now exists 110, (lit "ull")|].
    apply (reads_constant 110 (lit "ull") PyNone); try reflexivity.
    intros level fuel rest Hl. cbn [lit map list_ascii_of_string]. scan_value. reflexivity.
  - split; [now exists 116, (lit "rue")|].
    apply (reads_constant 116 (lit "rue") (PyBool true)); try reflexivity.
    intros level fuel rest Hl. cbn [lit map list_ascii_of_string]. scan_value. reflexivity.
  - split; [now exists 102, (lit "alse")|].
    apply (reads_constant 102 (lit "alse") (PyBool false)); try reflexivity.
    intros level fuel rest Hl. cbn [lit map list_ascii_of_string]. scan_value. reflexivity.
  - (* integers *)
    intros minus ds Hds.
    destruct (starts_number minus ds [] Hds) as [c [t' [E [Hplain [Hws H93]]]]].
    rewrite List.app_nil_r in E. rewrite E. split; [now exists c, t'|].
    intros level rest Hstop Hl Hshort. exists 1%nat. intros [|fuel] Hf; [lia|].
    cbn [app]. apply (scan_once_number float_of_str deep_read n Hread);
      [cbn [nesting] in Hl; lia | assumption|].
    change (c :: t' ++ rest) with ((c :: t') ++ rest). rewrite <- E.
    cbn [short_integers] in Hshort. apply Nat.leb_le in Hshort.
    now apply match_number_int.
  - (* other numbers *)
    intros minus ds f e Hds Hf He Hne.
    destruct (starts_number minus ds (f ++ e) Hds) as [c [t' [E [Hplain [Hws H93]]]]].
    split; [exists c, t'; now rewrite E|].
    intros level rest Hstop Hl Hshort. exists 1%nat. intros [|fuel] Hfu; [lia|].
    assert (Hm := match_number_real minus ds f e rest Hds Hf He Hne Hstop).
    cbn [value_of]. revert Hm. rewrite E. intro Hm.
    cbn [app]. apply (scan_once_number float_of_str deep_read n Hread);
      [cbn [nesting] in Hl; lia | assumption | exact Hm].
  - (* strings *)
    intros body s Hs. split; [now exists 34, (body ++ [34])|].
    intros level rest Hstop Hl _. exists 1%nat. intros [|fuel] Hf; [lia|].
    cbn [nesting] in Hl. scan_value. rewrite <- List.app_assoc. cbn [app].
    rewrite (scanstring_chars body s Hs). reflexivity.
  - (* the empty array *)
    intros w Hw. split; [now exists 91, (w ++ [93])|].
    intros level rest Hstop Hl _. exists 1%nat. intros [|fuel] Hf; [lia|].
    cbn [nesting fold_right] in Hl. scan_value. rewrite <- List.app_assoc. cbn [app].
    rewrite skip_ws_ws by assumption. rewrite skip_ws_stop by reflexivity.
    reflexivity.
  - (* arrays *)
    intros body js _ IH. split; [now exists 91, body|].
    intros level rest Hstop Hl Hshort.
    destruct (IH level rest Hl Hshort) as [[d [r [Hskip H93]]] [fuel0 Hparse]].
    exists (S fuel0). intros [|fuel] Hf; [lia|].
    scan_value. rewrite Hskip in *. rewrite H93, Hparse by lia.
    rewrite value_of_array. reflexivity.
  - (* the empty object *)
    intros w Hw. split; [now exists 123, (w ++ [125])|].
    intros level rest Hstop Hl _. exists 1%nat. intros [|fuel] Hf; [lia|].
    cbn [nesting fold_right] in Hl. scan_value. rewrite <- List.app_assoc. cbn [app].
    rewrite skip_ws_ws by assumption. rewrite skip_ws_stop by reflexivity.
    reflexivity.
  - (* objects *)
    intros body ms _ IH. split; [now exists 123, body|].
    intros level rest Hstop Hl Hshort.
    destruct (IH level rest Hl Hshort) as [[r Hskip] [fuel0 Hparse]].
    exists (S fuel0). intros [|fuel] Hf; [lia|].
    scan_value. rewrite Hskip in *. cbn [N.eqb Pos.eqb]. rewrite Hparse by lia.
    rewrite dict_of_pairs_object, value_of_object. reflexivity.
  - (* the last element *)
    intros w1 t j w2 Hw1 _ [[c [t' [E [Hws H93]]]] Hreads] Hw2 level rest Hl Hshort.
    rewrite nesting_array_cons in Hl. rewrite short_array_cons in Hshort.
    apply andb_true_iff in Hshort. destruct Hshort as [Hshort _].
    assert (Hskip : skip_ws ((w1 ++ t ++ w2 ++ [93]) ++ rest) = t ++ w2 ++ 93 :: rest).
    { rewrite <- !List.app_assoc. rewrite skip_ws_ws by assumption.
      rewrite E. cbn [app]. now rewrite skip_ws_stop. }
    rewrite Hskip. split; [exists c, (t' ++ w2 ++ 93 :: rest); rewrite E; now split|].
    destruct (Hreads (S level) (w2 ++ 93 :: rest)) as [fuel0 Hscan];
      [now apply stops_ws | lia | assumption|].
    exists (S fuel0). intros [|fuel] Hf; [lia|].
    rewrite parse_elements_eq, Hscan by lia.
    rewrite skip_ws_ws by assumption. rewrite skip_ws_stop by reflexivity.
    reflexivity.
  - (* an element before others *)
    intros w1 t j w2 body js Hw1 _ [[c [t' [E [Hws H93]]]] Hreads] Hw2 _ IH
           level rest Hl Hshort.
    rewrite nesting_array_cons in Hl. rewrite short_array_cons in Hshort.
    apply andb_true_iff in Hshort. destruct Hshort as [Hshort Hshorts].
    assert (Hskip : skip_ws ((w1 ++ t ++ w2 ++ 44 :: body) ++ rest)
                    = t ++ w2 ++ 44 :: body ++ rest).
    { rewrite <- !List.app_assoc. rewrite skip_ws_ws by assumption.
      rewrite E. cbn [app]. now rewrite skip_ws_stop. }
    rewrite Hskip. split; [exists c, (t' ++ w2 ++ 44 :: body ++ rest); rewrite E; now split|].
    destruct (Hreads (S level) (w2 ++ 44 :: body ++ rest)) as [fuel0 Hscan];
      [now apply stops_ws | lia | assumption|].
    destruct (IH level rest) as [_ [fuel1 Hparse]]; [lia | assumption|].
    exists (S (Nat.max fuel0 fuel1)). intros [|fuel] Hf; [lia|].
    rewrite parse_elements_eq, Hscan by lia.
    rewrite skip_ws_ws by assumption. rewrite skip_ws_stop by reflexivity.
    cbn [N.eqb Pos.eqb]. rewrite Hparse by lia. reflexivity.
  - (* the last member *)
    intros w1 name k w2 w3 t j w4 Hw1 Hname Hw2 Hw3 _ [[c [t' [E [Hws H93]]]] Hreads] Hw4
           level rest Hl Hshort.
    rewrite nesting_object_cons in Hl. rewrite short_object_cons in Hshort.
    apply andb_true_iff in Hshort. destruct Hshort as [Hshort _].
    assert (Hskip : skip_ws ((w1 ++ 34 :: name ++ 34 :: w2 ++ 58 :: w3 ++ t ++ w4 ++ [125])
                             ++ rest)
                    = 34 :: name ++ 34 :: w2 ++ 58 :: w3 ++ t ++ w4 ++ 125 :: rest).
    { rewrite <- List.app_assoc. rewrite skip_ws_ws by assumption.
      cbn [app]. rewrite skip_ws_stop by reflexivity.
      repeat (rewrite <- List.app_assoc; cbn [app]). reflexivity. }
    rewrite Hskip. split; [eexists; reflexivity|].
    destruct (Hreads (S level) (w4 ++ 125 :: rest)) as [fuel0 Hscan];
      [now apply stops_ws | lia | assumption|].
    exists (S fuel0). intros [|fuel] Hf; [lia|].
    rewrite parse_members_eq. cbn [N.eqb Pos.eqb].
    rewrite (scanstring_chars name k Hname).
    rewrite skip_ws_ws by assumption. rewrite skip_ws_stop by reflexivity.
    cbn [N.eqb Pos.eqb]. rewrite skip_ws_ws by assumption.
    rewrite E. cbn [app]. rewrite skip_ws_stop by assumption.
    change (c :: t' ++ w4 ++ 125 :: rest) with ((c :: t') ++ w4 ++ 125 :: rest).
    rewrite <- E, Hscan by lia.
    rewrite skip_ws_ws by assumption. rewrite skip_ws_stop by reflexivity.
    reflexivity.
  - (* a member before others *)
    intros w1 name k w2 w3 t j w4 body ms Hw1 Hname Hw2 Hw3 _
           [[c [t' [E [Hws H93]]]] Hreads] Hw4 _ IH level rest Hl Hshort.
    rewrite nesting_object_cons in Hl. rewrite short_object_cons in Hshort.
    apply andb_true_iff in Hshort. destruct Hshort as [Hshort Hshorts].
    assert (Hskip : skip_ws ((w1 ++ 34 :: name ++ 34 :: w2 ++ 58 :: w3 ++ t ++ w4
                                 ++ 44 :: body) ++ rest)
                    = 34 :: name ++ 34 :: w2 ++ 58 :: w3 ++ t ++ w4 ++ 44 :: body ++ rest).
    { rewrite <- List.app_assoc. rewrite skip_ws_ws by assumption.
      cbn [app]. rewrite skip_ws_stop by reflexivity.
      repeat (rewrite <- List.app_assoc; cbn [app]). reflexivity. }
    rewrite Hskip. split; [eexists; reflexivity|].
    destruct (Hreads (S level) (w4 ++ 44 :: body ++ rest)) as [fuel0 Hscan];
      [now apply stops_ws | lia | assumption|].
    destruct (IH level rest) as [_ [fuel1 Hparse]]; [lia | assumption|].
    exists (S (Nat.max fuel0 fuel1)). intros [|fuel] Hf; [lia|].
    rewrite parse_members_eq. cbn [N.eqb Pos.eqb].
    rewrite (scanstring_chars name k Hname).
    rewrite skip_ws_ws by assumption. rewrite skip_ws_stop by reflexivity.
    cbn [N.eqb Pos.eqb]. rewrite skip_ws_ws by assumption.
    rewrite E. cbn [app]. rewrite skip_ws_stop by assumption.
    change (c :: t' ++ w4 ++ 44 :: body ++ rest) with ((c :: t') ++ w4 ++ 44 :: body ++ rest).
    rewrite <- E, Hscan by lia.
    rewrite skip_ws_ws by assumption. rewrite skip_ws_stop by reflexivity.
    cbn [N.eqb Pos.eqb]. rewrite Hparse by lia. reflexivity.
Qed.

(** [json.loads] returns the value of every JSON text whose arrays and
    objects are nested no deeper than the interpreter has room for and
    whose integers have at most 4300 digits. *)
Lemma loads_json_text : forall t j,
  json_text t j ->
  (nesting j <= n)%nat ->
  short_integers j = true ->
  loads float_of_str deep_read t = Return (value_of j).
Proof.
  intros t j [w1 [s [w2 [Hw1 [Hv [Hw2 ->]]]]]] Hn Hshort.
  destruct (proj1 reader_complete s j Hv) as [[c [s' [E [Hws _]]]] Hreads].
  destruct (Hreads 0%nat w2) as [fuel0 Hscan];
    [rewrite <- (List.app_nil_r w2); now apply stops_ws | lia | assumption|].
  unfold loads. rewrite skip_ws_ws by assumption.
  assert (Hskip : skip_ws (s ++ w2) = s ++ w2)
    by (rewrite E; cbn [app]; now rewrite skip_ws_stop).
  rewrite Hskip.
  rewrite (proj1 (fuel_irrelevant float_of_str deep_read _) 0%nat
                 (Nat.max fuel0 (2 * List.length (w1 ++ s ++ w2) + 2)) (s ++ w2)).
  - rewrite Hscan by lia. rewrite <- (List.app_nil_r w2), skip_ws_ws by assumption.
    reflexivity.
  - rewrite (length_app w1). lia.
  - rewrite (length_app w1). lia.
Qed.

End Texts.

End Rfc8259.
(** ** State store *)

Section StateFiles.

Import Rfc8259.

(** A string between quotation marks. *)
Definition quoted (s : string) : str := 34%N :: lit s ++ [34%N].

Lemma chars_plain : forall s, forallb unescaped s = true -> chars s s.
Proof.
  induction s as [|c s IH]; intro H; [constructor|].
  cbn [forallb] in H. apply andb_true_iff in H. destruct H as [Hc Hs].
  constructor; auto.
Qed.

(** A state file with a repeated name, an array and a constant. *)
Definition repeating_file : str :=
  [123%N] ++ quoted "key" ++ lit ": " ++ quoted "k-1" ++ lit ", "
  ++ quoted "ips" ++ lit ": [10, true], " ++ quoted "key" ++ lit ": null}".

Definition repeating_tree : json :=
  JObject [(lit "key", JString (lit "k-1"));
           (lit "ips", JArray [JInt false (lit "10"); JBool true]);
           (lit "key", JNull)].

Lemma repeating_file_text : json_text repeating_file repeating_tree.
Proof.
  exists [], repeating_file, []. repeat split.
  apply value_object.
  apply (members_more [] (lit "key") (lit "key") [] [32%N] (quoted "k-1") _ []); try reflexivity.
  - now apply chars_plain.
  - apply value_string. now apply chars_plain.
  - apply (members_more [32%N] (lit "ips") (lit "ips") [] [32%N] (lit "[10, true]") _ []);
      try reflexivity.
    + now apply chars_plain.
    + apply value_array.
      apply (elements_more [] (lit "10") _ [] (lit " true]")); try reflexivity.
      * apply (value_int false (lit "10")). right. repeat split; discriminate.
      * apply (elements_last [32%N] (lit "true") _ []); try reflexivity. constructor.
    + apply (members_last [32%N] (lit "key") (lit "key") [] [32%N] (lit "null") _ []);
        try reflexivity.
      * now apply chars_plain.
      * constructor.
Qed.

(** Arrays one in another, [S k] of them. *)
Fixpoint brackets (k : nat) : str :=
  match k with
  | O => lit "[]"
  | S k' => 91%N :: brackets k' ++ [93%N]
  end.

Fixpoint nested_arrays (k : nat) : json :=
  match k with
  | O => JArray []
  | S k' => JArray [nested_arrays k']
  end.

Lemma brackets_text : forall k, json_text (brackets k) (nested_arrays k).
Proof.
  intro k. exists [], (brackets k), []. repeat split; [|now rewrite List.app_nil_r].
  induction k as [|k IH].
  - exact (value_empty_array [] eq_refl).
  - cbn [brackets nested_arrays]. apply value_array.
    exact (elements_last [] (brackets k) _ [] eq_refl IH eq_refl).
Qed.

Lemma nines_text : forall k, json_text (repeat 57%N (S k)) (JInt false (repeat 57%N (S k))).
Proof.
  intro k. exists [], (repeat 57%N (S k)), []. repeat split; [|now rewrite List.app_nil_r].
  apply (value_int false). right. repeat split; try discriminate.
  change (forallb digit (repeat 57%N (S k)) = true).
  induction (S k) as [|m IH]; [reflexivity|]. cbn [repeat forallb]. now rewrite IH.
Qed.

Definition file_with (content : str) : filesystem :=
  {| state_file := Text content; mkdir_ok := true; write_ok := true; cut := None |}.

(** C10 (as amended).  [load_state] returns the empty mapping when the
    file is missing or cannot be read, and raises the [OSError] of
    [exists()] when the directory cannot be searched.  When the file
    holds a JSON text of RFC 8259 whose arrays and objects are nested no
    deeper than the interpreter has room for and whose integers have at
    most 4300 digits each, it returns exactly the value of the text,
    whatever its type: an array gives a list and a string a string, not
    a mapping.  Whenever [json.loads] raises, it returns the empty
    mapping. *)
Theorem load_state_cases :
  forall (float_of_str : str -> spec_float) (deep_read : nat -> N -> bool) (fs : filesystem),
    (state_file fs = Absent -> load_state float_of_str deep_read fs = Return (PyDict []))
    /\ (state_file fs = Unreadable -> load_state float_of_str deep_read fs = Return (PyDict []))
    /\ (state_file fs = Unsearchable -> load_state float_of_str deep_read fs = Raise OSError)
    /\ (forall n content j,
           read_room deep_read n ->
           state_file fs = Text content ->
           json_text content j ->
           (nesting j <= n)%nat ->
           short_integers j = true ->
           load_state float_of_str deep_read fs = Return (value_of float_of_str j)
           /\ (forall js, j = JArray js ->
                          load_state float_of_str deep_read fs
                          = Return (PyList (map (value_of float_of_str) js)))
           /\ (forall s, j = JString s ->
                         load_state float_of_str deep_read fs = Return (PyStr s)))
    /\ (forall content e,
           state_file fs = Text content ->
           loads float_of_str deep_read content = Raise e ->
           load_state float_of_str deep_read fs = Return (PyDict [])).
Proof.
  intros f2s deep fs. unfold load_state. repeat split.
  - intros ->. reflexivity.
  - intros ->. reflexivity.
  - intros ->. reflexivity.
  - rewrite H0. now rewrite (loads_json_text f2s deep n H content j H1 H2 H3).
  - intros js ->. rewrite H0.
    now rewrite (loads_json_text f2s deep n H content _ H1 H2 H3).
  - intros s ->. rewrite H0.
    now rewrite (loads_json_text f2s deep n H content _ H1 H2 H3).
  - intros content e -> ->. reflexivity.
Qed.

Lemma load_state_cases_witness :
  load_state (fun _ => S754_zero false) (read_limit 3) (file_with repeating_file)
  = Return (PyDict [(PyStr (lit "key"), PyNone);
                    (PyStr (lit "ips"), PyList [PyInt 10; PyBool true])])
  /\ load_state (fun _ => S754_zero false) (read_limit 3) (file_with (brackets 1))
     = Return (PyList [PyList []])
  /\ load_state (fun _ => S754_zero false) (read_limit 3) (file_with (lit "{,}"))
     = Return (PyDict [])
  /\ load_state (fun _ => S754_zero false) (read_limit 3)
       {| state_file := Absent; mkdir_ok := true; write_ok := true; cut := None |}
     = Return (PyDict [])
  /\ load_state (fun _ => S754_zero false) (read_limit 3)
       {| state_file := Unreadable; mkdir_ok := true; write_ok := true; cut := None |}
     = Return (PyDict [])
  /\ load_state (fun _ => S754_zero false) (read_limit 3)
       {| state_file := Unsearchable; mkdir_ok := true; write_ok := true; cut := None |}
     = Raise OSError.
Proof.
  split; [|split; [|split; [|split; [|split]]]].
  - refine (proj1 (proj1 (proj2 (proj2 (proj2
              (load_state_cases (fun _ => S754_zero false) (read_limit 3)
                                (file_with repeating_file)))))
              2%nat repeating_file repeating_tree
              (read_limit_room 2) eq_refl repeating_file_text _ eq_refl)).
    vm_compute. lia.
  - refine (proj1 (proj2 (proj1 (proj2 (proj2 (proj2
              (load_state_cases (fun _ => S754_zero false) (read_limit 3)
                                (file_with (brackets 1))))))
              2%nat (brackets 1) (nested_arrays 1)
              (read_limit_room 2) eq_refl (brackets_text 1) _ eq_refl))
              [nested_arrays 0] eq_refl).
    vm_compute. lia.
  - exact (proj2 (proj2 (proj2 (proj2
             (load_state_cases (fun _ => S754_zero false) (read_limit 3)
                               (file_with (lit "{,}"))))))
             (lit "{,}") ValueError eq_refl eq_refl).
  - exact (proj1 (load_state_cases (fun _ => S754_zero false) (read_limit 3)
             {| state_file := Absent; mkdir_ok := true; write_ok := true; cut := None |})
             eq_refl).
  - exact (proj1 (proj2 (load_state_cases (fun _ => S754_zero false) (read_limit 3)
             {| state_file := Unreadable; mkdir_ok := true; write_ok := true; cut := None |}))
             eq_refl).
  - exact (proj1 (proj2 (proj2 (load_state_cases (fun _ => S754_zero false) (read_limit 3)
             {| state_file := Unsearchable; mkdir_ok := true; write_ok := true;
                cut := None |})))
             eq_refl).
Defined.

(** C10 (as stated) fails.  An integer of 4301 digits is a JSON text,
    and so are 1001 arrays one in another; [int] raises [ValueError] for
    the first, whatever room the interpreter has, and an interpreter
    that gives up 1000 containers down raises [RecursionError] for the
    second: [load_state] answers both with the empty mapping, not with
    the value of the text. *)
Lemma load_state_cases_counterexample :
  json_text (repeat 57%N 4301) (JInt false (repeat 57%N 4301))
  /\ load_state (fun _ => S754_zero false) (fun _ _ => false) (file_with (repeat 57%N 4301))
     = Return (PyDict [])
  /\ json_text (brackets 1000) (nested_arrays 1000)
  /\ loads (fun _ => S754_zero false) (read_limit 1000) (brackets 1000)
     = Raise RecursionError
  /\ load_state (fun _ => S754_zero false) (read_limit 1000) (file_with (brackets 1000))
     = Return (PyDict []).
Proof.
  split; [exact (nines_text 4300)|].
  split; [vm_compute; reflexivity|].
  split; [exact (brackets_text 1000)|].
  split; vm_compute; reflexivity.
Qed.

(** A float of the examples: the number 1.5, its [repr] and what
    [float] makes of the numeral. *)
Definition one_and_a_half : spec_float := S754_finite false 3 (-1).

Definition repr_1_5 : spec_float -> str := fun _ => lit "1.5".

Definition float_1_5 : str -> spec_float := fun _ => one_and_a_half.

Lemma one_and_a_half_round_trips : float_round_trips repr_1_5 float_1_5 one_and_a_half.
Proof.
  split.
  - exists 49%N, (lit ".5"). split; [reflexivity | now right].
  - intros [|c r] H; [reflexivity|]. cbn [ends_token] in H.
    apply orb_true_iff in H. destruct H as [H | H]; apply N.eqb_eq in H; subst c; reflexivity.
Qed.

(** C5 (as amended).  For every mapping whose keys are pairwise different
    strings and whose values are [None], Booleans, integers of at most
    4300 digits, floats that [repr] and [float] take to their numeral
    and back (all but [NaN]), strings, lists or such mappings again, with
    no high surrogate directly before a low surrogate in a string, and
    which is nested no deeper than the interpreter has room for, writing
    and reading: when [save_state] returns, reading the file back with
    [load_state] gives the mapping that was saved; and [save_state]
    returns whenever the directory can be made and the file written. *)
Theorem state_round_trip :
  forall (floatstr : spec_float -> str) (float_of_str : str -> spec_float)
         (deep_write : nat -> pyval -> bool) (deep_read : nat -> N -> bool) (n : nat)
         (items : list (pyval * pyval)) (fs : filesystem),
    write_room deep_write n ->
    read_room deep_read n ->
    storable (PyDict items) = true ->
    (forall f, In f (floats_of (PyDict items)) -> float_round_trips floatstr float_of_str f) ->
    (depth (PyDict items) <= n)%nat ->
    (forall fs', save_state floatstr deep_write (PyDict items) fs = (Return tt, fs') ->
                 load_state float_of_str deep_read fs' = Return (PyDict items))
    /\ (mkdir_ok fs = true -> write_ok fs = true ->
        exists fs', save_state floatstr deep_write (PyDict items) fs = (Return tt, fs')).
Proof.
  intros floatstr float_of_str deep_write deep_read n items fs Hw Hr Hst Hfl Hd.
  destruct (loads_dumps floatstr float_of_str deep_write deep_read n Hw Hr
                        (PyDict items) Hst Hfl Hd) as [text [Hdumps Hl]].
  unfold save_state. rewrite Hdumps. split.
  - intros fs' H. destruct (mkdir_ok fs); [|discriminate H].
    destruct (write_ok fs); [|destruct (cut fs); discriminate H].
    cbn [negb] in H. injection H as <-. unfold load_state. cbn [state_file].
    rewrite Hl. reflexivity.
  - intros -> ->. cbn [negb]. eexists. reflexivity.
Qed.

(** A wizard state with a key and an activation code. *)
Definition sample_state : list (pyval * pyval) :=
  [(PyStr (lit "api_key"), PyStr (lit "k-123"));
   (PyStr (lit "activation_code"), PyNone)].

(** A state with a list and a float in a mapping. *)
Definition measured_state : list (pyval * pyval) :=
  [(PyStr (lit "api_key"), PyStr (lit "k-123"));
   (PyStr (lit "network"),
    PyDict [(PyStr (lit "ips"), PyList [PyStr (lit "10.0.0.7")]);
            (PyStr (lit "load"), PyFloat one_and_a_half)])].

Definition writable_disk : filesystem :=
  {| state_file := Absent; mkdir_ok := true; write_ok := true; cut := None |}.

Lemma state_round_trip_witness :
  load_state float_1_5 (read_limit 4)
    (snd (save_state repr_1_5 (write_limit 4) (PyDict measured_state) writable_disk))
  = Return (PyDict measured_state).
Proof.
  refine (proj1 (state_round_trip repr_1_5 float_1_5 (write_limit 4) (read_limit 4) 3%nat
                   measured_state writable_disk
                   (write_limit_room 3) (read_limit_room 3) eq_refl _ _)
                (snd (save_state repr_1_5 (write_limit 4) (PyDict measured_state)
                                 writable_disk))
                eq_refl).
  - intros f [<- | []]. exact one_and_a_half_round_trips.
  - vm_compute. lia.
Defined.

(** C5 (as stated) fails.  Each of the three mappings is accepted by
    [json.dumps] and saved, and read back as another mapping: an integer
    key comes back as a string, a tuple as a list, and two surrogate code
    points as the one character they encode. *)
Lemma state_round_trip_counterexample :
  let of_str := fun _ : str => S754_zero false in
  let repr := fun _ : spec_float => @nil N in
  let round := fun v =>
    (fst (save_state repr (write_limit 1000) v writable_disk),
     load_state of_str (read_limit 1000)
                (snd (save_state repr (write_limit 1000) v writable_disk))) in
  round (PyDict [(PyInt 1, PyStr (lit "a"))])
  = (Return tt, Return (PyDict [(PyStr (lit "1"), PyStr (lit "a"))]))
  /\ round (PyDict [(PyStr (lit "ips"), PyTuple [PyInt 1; PyInt 2])])
     = (Return tt, Return (PyDict [(PyStr (lit "ips"), PyList [PyInt 1; PyInt 2])]))
  /\ round (PyDict [(PyStr (lit "name"), PyStr [55357; 56832]%N)])
     = (Return tt, Return (PyDict [(PyStr (lit "name"), PyStr [128512]%N)])).
Proof. repeat split; vm_compute; reflexivity. Qed.

(** An integer of 4301 digits is neither saved nor loaded: [json.dumps]
    and [json.loads] raise the [ValueError] of the conversion, which
    [save_state] lets through and [load_state] answers with the empty
    mapping. *)
Lemma state_digit_limit :
  fst (save_state (fun _ => []) (write_limit 1000)
                  (PyDict [(PyStr (lit "n"), PyInt (10 ^ 4300))]) writable_disk)
  = Raise ValueError
  /\ load_state (fun _ => S754_zero false) (read_limit 1000) (file_with (repeat 57%N 4301))
     = Return (PyDict []).
Proof. split; vm_compute; reflexivity. Qed.

(** Lists one in another, [S k] of them. *)
Fixpoint nested_lists (k : nat) : pyval :=
  match k with
  | O => PyList []
  | S k' => PyList [nested_lists k']
  end.

(** A mapping nested deeper than the interpreter has room for is not
    saved: [json.dumps] raises [RecursionError], which [save_state] lets
    through, and the file is left as it was. *)
Lemma state_depth_limit :
  save_state (fun _ => []) (write_limit 1000)
             (PyDict [(PyStr (lit "deep"), nested_lists 1000)]) writable_disk
  = (Raise RecursionError, writable_disk).
Proof. vm_compute. reflexivity. Qed.

End StateFiles.

(* ===================================================================== *)
(** * Part III. Further properties of the code                            *)
(* ===================================================================== *)

(** ** Stripping and splitting at white space *)

Lemma lstrip_suffix : forall s,
  exists ws, s = ws ++ lstrip s /\ forallb isspace ws = true.
Proof.
  induction s as [|c s [ws [E Hws]]]; [exists []; split; reflexivity|].
  simpl. destruct (isspace c) eqn:Hc.
  - exists (c :: ws). split; [simpl; now rewrite <- E | simpl; now rewrite Hc].
  - exists []. split; reflexivity.
Qed.

Lemma lstrip_head : forall s c r, lstrip s = c :: r -> isspace c = false.
Proof.
  induction s as [|d s IH]; intros c r H; [discriminate|].
  simpl in H. destruct (isspace d) eqn:Hd; [now apply IH with r|].
  now injection H as <- _.
Qed.

Lemma lstrip_fixed : forall s,
  (forall c r, s = c :: r -> isspace c = false) -> lstrip s = s.
Proof.
  intros [|c r] H; [reflexivity|]. simpl. now rewrite (H c r eq_refl).
Qed.

Lemma lstrip_lstrip : forall s, lstrip (lstrip s) = lstrip s.
Proof.
  intro s. apply lstrip_fixed. intros c r. apply lstrip_head.
Qed.

(** A text that neither starts nor ends with white space. *)
Definition trimmed (s : str) : Prop :=
  (forall c r, s = c :: r -> isspace c = false)
  /\ (forall c r, rev s = c :: r -> isspace c = false).

Lemma strip_trimmed : forall s, trimmed (strip s).
Proof.
  intro s. unfold strip.
  set (t := lstrip s).
  assert (Ht : forall c r, t = c :: r -> isspace c = false)
    by (intros c r; apply lstrip_head).
  destruct (lstrip_suffix (rev t)) as [ws [E Hws]].
  set (u := lstrip (rev t)) in *.
  split.
  - intros c r Hu.
    assert (Et : t = rev u ++ rev ws).
    { rewrite <- rev_app_distr, <- E. symmetry. apply rev_involutive. }
    rewrite Hu in Et. apply (Ht c (r ++ rev ws)). exact Et.
  - intros c r Hu. rewrite rev_involutive in Hu. subst u.
    now apply lstrip_head with (rev t) r.
Qed.

Lemma trimmed_strip : forall s, trimmed s -> strip s = s.
Proof.
  intros s [Hhead Hlast]. unfold strip.
  rewrite (lstrip_fixed s Hhead), (lstrip_fixed (rev s) Hlast).
  apply rev_involutive.
Qed.

Lemma strip_strip : forall s, strip (strip s) = strip s.
Proof. intro s. apply trimmed_strip, strip_trimmed. Qed.

Lemma lstrip_incl : forall s c, In c (lstrip s) -> In c s.
Proof.
  intros s c H. destruct (lstrip_suffix s) as [ws [E _]].
  rewrite E. apply in_or_app. now right.
Qed.

Lemma strip_incl : forall s c, In c (strip s) -> In c s.
Proof.
  intros s c H. unfold strip in H.
  apply in_rev, lstrip_incl in H. rewrite <- in_rev in H.
  now apply lstrip_incl.
Qed.

(** A word: not empty and without white space. *)
Definition word (w : str) : Prop :=
  w <> [] /\ forallb (fun c => negb (isspace c)) w = true.

Lemma split_fields_words : forall s,
  forallb (fun c => negb (isspace c)) (fst (split_fields s)) = true
  /\ Forall word (snd (split_fields s)).
Proof.
  induction s as [|c s [Ht Hts]]; [split; [reflexivity | constructor]|].
  simpl. destruct (split_fields s) as [t ts]. simpl in Ht, Hts.
  destruct (isspace c) eqn:Hc; simpl.
  - split; [reflexivity|]. destruct t as [|d t]; [assumption|].
    constructor; [|assumption]. split; [discriminate | assumption].
  - split; [now rewrite Hc | assumption].
Qed.

Lemma split_whitespace_words : forall s, Forall word (split_whitespace s).
Proof.
  intro s. unfold split_whitespace.
  destruct (split_fields_words s) as [Ht Hts].
  destruct (split_fields s) as [t ts]. simpl in Ht, Hts.
  destruct t as [|d t]; [assumption|].
  constructor; [|assumption]. split; [discriminate | assumption].
Qed.

Lemma word_trimmed : forall w, word w -> trimmed w.
Proof.
  intros w [_ Hw]. rewrite forallb_forall in Hw. split; intros c r E.
  - apply negb_true_iff, Hw. rewrite E. now left.
  - apply negb_true_iff, Hw. apply in_rev. rewrite E. now left.
Qed.

Lemma split_whitespace_space : forall c s,
  isspace c = true -> split_whitespace (c :: s) = split_whitespace s.
Proof.
  intros c s Hc. unfold split_whitespace. simpl.
  destruct (split_fields s) as [t ts]. now rewrite Hc.
Qed.

Lemma split_whitespace_lstrip : forall s,
  split_whitespace (lstrip s) = split_whitespace s.
Proof.
  induction s as [|c s IH]; [reflexivity|].
  simpl. destruct (isspace c) eqn:Hc; [|reflexivity].
  now rewrite split_whitespace_space.
Qed.

Lemma split_fields_trailing : forall s c,
  isspace c = true -> split_fields (s ++ [c]) = split_fields s.
Proof.
  induction s as [|d s IH]; intros c Hc; simpl; [now rewrite Hc|].
  now rewrite IH.
Qed.

Lemma split_whitespace_rstrip : forall r,
  split_whitespace (rev (lstrip r)) = split_whitespace (rev r).
Proof.
  induction r as [|c r IH]; [reflexivity|].
  simpl. destruct (isspace c) eqn:Hc; [|reflexivity].
  rewrite IH. unfold split_whitespace. now rewrite split_fields_trailing.
Qed.

Lemma split_whitespace_strip : forall s,
  split_whitespace (strip s) = split_whitespace s.
Proof.
  intro s. unfold strip.
  rewrite split_whitespace_rstrip, rev_involutive.
  apply split_whitespace_lstrip.
Qed.

(** ** The command runners on a process that finishes *)

Lemma universal_newlines_no_cr : forall s,
  ~ In 13%N (universal_newlines s)
  /\ forall d, ~ In 13%N (universal_newlines (d :: s)).
Proof.
  induction s as [|c s [IH IHd]].
  - split; [intros []|]. intro d. simpl.
    destruct (N.eqb_spec d 13) as [-> | Hd]; intros [H | []]; [discriminate | congruence].
  - split; [apply IHd|]. intro d.
    change (universal_newlines (d :: c :: s))
      with (if (d =? 13)%N
            then 10%N :: (if (c =? 10)%N then universal_newlines s
                          else universal_newlines (c :: s))
            else d :: universal_newlines (c :: s)).
    destruct (N.eqb_spec d 13) as [-> | Hd].
    + intros [H | H]; [discriminate|].
      destruct (c =? 10)%N; [now apply IH | now apply (IHd c)].
    + intros [H | H]; [congruence | now apply (IHd c)].
Qed.

Lemma trimmed_lit : forall t : string, strip (lit t) = lit t -> trimmed (lit t).
Proof. intros t E. rewrite <- E. apply strip_trimmed. Qed.

(** A process that prints on both streams and exits with [rc] after a
    tenth of a second. *)
Definition writes (rc : Z) (out err : string) : result process :=
  Return {| duration := Some (1 # 10)%Q; returncode := rc;
            stdout := Some (lit out); stderr := Some (lit err); kill := Killed |}.

Lemma _run_trimmed :
  forall (World : Type) (spawn : list str -> World -> result process * World)
         (cmd : list str) (timeout : Z) (s s' : rstate World) (rc : Z) (out err : str),
    _run spawn cmd timeout s = (Return (rc, out, err), s') -> trimmed out /\ trimmed err.
Proof.
  intros World spawn cmd timeout s s' rc out err H.
  unfold _run in H. destruct (spawn cmd (world s)) as [[proc|e] w]; [|discriminate H].
  destruct (finishes_within proc timeout).
  - destruct (stdout proc) as [o|]; [|discriminate H].
    destruct (stderr proc) as [e|]; [|discriminate H].
    injection H as _ <- <- _. split; apply strip_trimmed.
  - destruct (kill proc); try discriminate H.
    injection H as _ <- <- _. split; [split; intros c r E; discriminate E|].
    now apply trimmed_lit.
Qed.

Lemma run_trimmed :
  forall (World : Type) (spawn : list str -> World -> result process * World)
         (cmd : list str) (timeout : Z) (s s' : rstate World) (rc : Z) (out err : str),
    run spawn cmd timeout s = (Return (rc, out, err), s') ->
    trimmed out /\ trimmed err /\ ~ In 13%N out /\ ~ In 13%N err.
Proof.
  intros World spawn cmd timeout s s' rc out err H.
  unfold run in H. destruct (spawn cmd (world s)) as [[proc|e] w]; [|discriminate H].
  destruct (finishes_within proc timeout).
  - destruct (stdout proc) as [o|]; [|discriminate H].
    destruct (stderr proc) as [e|]; [|discriminate H].
    injection H as _ <- <- _. repeat split; try apply strip_trimmed;
      intro Hin; apply strip_incl in Hin;
      now apply (proj1 (universal_newlines_no_cr _)) in Hin.
  - injection H as _ <- <- _. split; [|split; [|split]].
    + split; intros c r E; discriminate E.
    + now apply trimmed_lit.
    + intros [].
    + intro Hin. apply (proj1 (universal_newlines_no_cr (lit "Command timed out"))).
      exact Hin.
Qed.

(** X1.  The two texts that a runner returns neither start nor end with
    white space, whether the process finished or was killed; the texts of
    the archived [run] hold no carriage return either. *)
Theorem runner_texts_trimmed :
  forall (World : Type) (spawn : list str -> World -> result process * World)
         (cmd : list str) (timeout : Z) (s s' : rstate World) (rc : Z) (out err : str),
    (_run spawn cmd timeout s = (Return (rc, out, err), s') ->
     trimmed out /\ trimmed err)
    /\ (run spawn cmd timeout s = (Return (rc, out, err), s') ->
        trimmed out /\ trimmed err /\ ~ In 13%N out /\ ~ In 13%N err).
Proof.
  intros World spawn cmd timeout s s' rc out err. split; intro H.
  - now apply _run_trimmed in H.
  - now apply run_trimmed in H.
Qed.

Lemma runner_texts_trimmed_witness :
  trimmed (lit "cafe:70") /\ trimmed [].
Proof.
  exact (proj1 (runner_texts_trimmed scripted spawn_scripted [lit "nmcli"] 10
                  (answers [writes 0 "  cafe:70
" " "])
                  {| world := []; trace := [Exec [lit "nmcli"]] |}
                  0%Z (lit "cafe:70") []) eq_refl).
Defined.

(** ** [get_connectivity] *)

Definition connectivity_cmd : list str :=
  map lit ["nmcli"; "-t"; "-f"; "CONNECTIVITY"; "general"]%string.

Lemma get_connectivity_finished :
  forall (World : Type) (spawn : list str -> World -> result process * World)
         (lower : str -> str) (s : rstate World) (proc : process) (w : World)
         (out err : str),
    spawn connectivity_cmd (world s) = (Return proc, w) ->
    finishes_within proc 10 = true ->
    stdout proc = Some out ->
    stderr proc = Some err ->
    get_connectivity spawn lower s
    = (Return ((returncode proc =? 0)%Z && contains (lit "full") (lower (strip err))),
       {| world := w; trace := trace s ++ [Exec connectivity_cmd] |}).
Proof.
  intros World spawn lower s proc w out err Hspawn Hfin Hout Herr.
  unfold get_connectivity, bind, _run. fold connectivity_cmd.
  rewrite Hspawn, Hfin, Hout, Herr. unfold ret.
  destruct (returncode proc =? 0)%Z; reflexivity.
Qed.

(** X2.  [get_connectivity] searches the text of the error stream: for a
    process that finishes in time its answer is decided by the exit code
    and that text, whatever the process printed on its standard output.
    A process that reports on its standard output only, with a silent
    error stream, gets the answer [False]. *)
Theorem get_connectivity_reads_stderr :
  forall (World : Type) (spawn : list str -> World -> result process * World)
         (lower : str -> str) (s : rstate World) (proc : process) (w : World)
         (out err : str),
    spawn connectivity_cmd (world s) = (Return proc, w) ->
    finishes_within proc 10 = true ->
    stdout proc = Some out ->
    stderr proc = Some err ->
    let s' := {| world := w; trace := trace s ++ [Exec connectivity_cmd] |} in
    get_connectivity spawn lower s
    = (Return ((returncode proc =? 0)%Z && contains (lit "full") (lower (strip err))), s')
    /\ (strip err = [] -> lower [] = [] ->
        get_connectivity spawn lower s = (Return false, s')).
Proof.
  intros World spawn lower s proc w out err Hspawn Hfin Hout Herr s'.
  pose proof (get_connectivity_finished World spawn lower s proc w out err
                Hspawn Hfin Hout Herr) as H.
  split; [exact H|]. intros Hempty Hlower. rewrite H, Hempty, Hlower.
  now rewrite andb_false_r.
Qed.

Lemma get_connectivity_reads_stderr_witness :
  get_connectivity spawn_scripted ascii_lower (answers [writes 0 "full" ""])
  = (Return false, {| world := []; trace := [Exec connectivity_cmd] |}).
Proof.
  exact (proj2 (get_connectivity_reads_stderr scripted spawn_scripted ascii_lower
                  (answers [writes 0 "full" ""])
                  {| duration := Some (1 # 10)%Q; returncode := 0;
                     stdout := Some (lit "full"); stderr := Some [];
            kill := Killed |}
                  [] (lit "full") [] eq_refl eq_refl eq_refl eq_refl)
               eq_refl eq_refl).
Defined.

(** ** Fields of a scan line of [scan_networks] *)

Definition colon_free (s : str) : Prop := ~ In 58%N s.

Lemma split_sep_free : forall sep s, ~ In sep s -> split sep s = [s].
Proof.
  intros sep s. induction s as [|c s IH]; intro H; [reflexivity|].
  simpl. destruct (N.eqb_spec c sep) as [-> | Hc]; [exfalso; apply H; now left|].
  rewrite IH; [reflexivity|]. intro Hin. apply H. now right.
Qed.

(** Splitting joins: [(a + sep + b).split(sep)] is [a.split(sep)]
    followed by [b.split(sep)]. *)
Lemma split_app : forall sep a b,
  split sep (a ++ sep :: b) = split sep a ++ split sep b.
Proof.
  intros sep a b. induction a as [|c a IH].
  - simpl. now rewrite N.eqb_refl.
  - simpl. destruct (c =? sep)%N; [now rewrite IH|].
    rewrite IH. pose proof (split_not_nil sep a) as Hne.
    destruct (split sep a); [congruence | reflexivity].
Qed.

Lemma fields_of_line : forall name sig tail,
  colon_free name -> colon_free sig ->
  (tail = [] \/ exists more, tail = 58%N :: more) ->
  ssid_field (name ++ 58%N :: sig ++ tail) = name
  /\ signal_field (name ++ 58%N :: sig ++ tail) = sig.
Proof.
  intros name sig tail Hname Hsig Htail. unfold ssid_field, signal_field.
  rewrite split_app, (split_sep_free _ name Hname). cbn [app hd].
  destruct Htail as [-> | [more ->]].
  - now rewrite List.app_nil_r, (split_sep_free _ sig Hsig).
  - now rewrite split_app, (split_sep_free _ sig Hsig).
Qed.

(** X3.  [scan_networks] reads the first two fields of a line.  A line
    that is a name without any colon counts as a network of signal 0; in
    a line with two fields or more the second field alone is converted,
    whatever follows it. *)
Theorem scan_networks_fields :
  forall (name sig tail : str) (more : list str) (acc : list pyval),
    name <> [] -> colon_free name -> colon_free sig ->
    (tail = [] \/ exists rest, tail = 58%N :: rest) ->
    scan_networks_loop (name :: more) acc
    = scan_networks_loop more (acc ++ [network_dict name 0])
    /\ scan_networks_loop ((name ++ 58%N :: sig ++ tail) :: more) acc
       = match py_int sig with
         | Some z => scan_networks_loop more (acc ++ [network_dict name z])
         | None => Raise ValueError
         end.
Proof.
  intros name sig tail more acc Hne Hname Hsig Htail. split.
  - rewrite scan_networks_loop_step. unfold has_ssid, ssid_field, signal_field.
    rewrite (split_sep_free _ name Hname). cbn [hd].
    destruct name; [congruence | reflexivity].
  - rewrite scan_networks_loop_step. unfold has_ssid.
    destruct (fields_of_line name sig tail Hname Hsig Htail) as [-> ->].
    destruct name; [congruence | reflexivity].
Qed.

Lemma scan_networks_fields_witness :
  scan_networks_loop [lit "cafe"] [] = Return [network_dict (lit "cafe") 0]
  /\ scan_networks_loop [lit "cafe:70:WPA2:x"] [] = Return [network_dict (lit "cafe") 70].
Proof.
  refine (scan_networks_fields (lit "cafe") (lit "70") (lit ":WPA2:x") [] [] _ _ _ _).
  - discriminate.
  - vm_compute. intuition discriminate.
  - vm_compute. intuition discriminate.
  - right. eexists. reflexivity.
Defined.

(** ** [scan_networks] and [connect_network] on the runner *)

Lemma scan_networks_loop_length : forall lines acc nets,
  scan_networks_loop lines acc = Return nets ->
  (List.length nets <= List.length acc + List.length lines)%nat.
Proof.
  induction lines as [|line more IH]; intros acc nets H.
  - simpl in H. injection H as <-. simpl. lia.
  - rewrite scan_networks_loop_step in H. cbn [List.length].
    destruct (has_ssid line).
    + destruct (py_int (signal_field line)); [|discriminate H].
      apply IH in H. rewrite length_app in H. simpl in H. lia.
    + apply IH in H. lia.
Qed.

(** X4.  A scan command that is still running after ten seconds is
    killed and [scan_networks] returns the empty list, no error, provided
    the kill succeeds; when [proc.kill()] raises, that [OSError] leaves
    [scan_networks].  In general the list has at most as many entries as
    the output has lines, and the exit code of the command plays no
    part. *)
Theorem scan_networks_bounds :
  forall (World : Type) (spawn : list str -> World -> result process * World)
         (s : rstate World),
    (forall proc w,
        spawn scan_networks_cmd (world s) = (Return proc, w) ->
        exceeds proc 10 ->
        (kill proc = Killed ->
         scan_networks spawn s
         = (Return [], {| world := w;
                          trace := trace s ++ [Exec scan_networks_cmd;
                                               Kill scan_networks_cmd] |}))
        /\ (kill proc <> Killed ->
            scan_networks spawn s
            = (Raise OSError,
               {| world := w; trace := trace s ++ [Exec scan_networks_cmd] |})))
    /\ (forall proc w out err,
           spawn scan_networks_cmd (world s) = (Return proc, w) ->
           finishes_within proc 10 = true ->
           stdout proc = Some out -> stderr proc = Some err ->
           scan_networks spawn s
           = (scan_networks_loop (splitlines (strip out)) [],
              {| world := w; trace := trace s ++ [Exec scan_networks_cmd] |})
           /\ forall nets,
               scan_networks_loop (splitlines (strip out)) [] = Return nets ->
               (List.length nets <= List.length (splitlines (strip out)))%nat).
Proof.
  intros World spawn s. split.
  - intros proc w Hspawn Hex. apply exceeds_finishes_within in Hex.
    rewrite scan_networks_unfold. unfold _run. rewrite Hspawn, Hex. split.
    + intros ->. reflexivity.
    + intro Hk. destruct (kill proc); [congruence | reflexivity | reflexivity].
  - intros proc w out err Hspawn Hfin Hout Herr. split.
    + rewrite scan_networks_unfold. unfold _run.
      now rewrite Hspawn, Hfin, Hout, Herr.
    + intros nets H. now apply scan_networks_loop_length in H.
Qed.

Lemma scan_networks_bounds_witness :
  scan_networks spawn_scripted (answers [hangs])
  = (Return [], {| world := [];
                   trace := [Exec scan_networks_cmd; Kill scan_networks_cmd] |})
  /\ scan_networks spawn_scripted (answers [escapes Gone])
     = (Raise OSError, {| world := []; trace := [Exec scan_networks_cmd] |}).
Proof.
  split.
  - exact (proj1 (proj1 (scan_networks_bounds scripted spawn_scripted (answers [hangs]))
                        {| duration := None; returncode := 0; stdout := Some [];
                           stderr := Some []; kill := Killed |}
                        [] eq_refl I) eq_refl).
  - refine (proj2 (proj1 (scan_networks_bounds scripted spawn_scripted
                            (answers [escapes Gone]))
                         {| duration := None; returncode := 0; stdout := Some [];
                            stderr := Some []; kill := Gone |}
                         [] eq_refl I) _).
    discriminate.
Defined.

Lemma connect_network_unfold :
  forall (World : Type) (spawn : list str -> World -> result process * World)
         (ssid_ password : str) (s : rstate World),
    connect_network spawn ssid_ password s =
    match _run spawn (plain_connect_cmd ssid_ password) 30 s with
    | (Return (rc, out, err), s1) =>
      (Return ((rc =? 0)%Z, if (rc =? 0)%Z then out else err), s1)
    | (Raise e, s1) => (Raise e, s1)
    end.
Proof.
  intros World spawn ssid_ password s.
  unfold connect_network, plain_connect_cmd, bind, ret.
  replace (match password with
           | [] => map lit ["sudo"; "nmcli"; "device"; "wifi"; "connect"]%string ++ [ssid_]
           | _ :: _ => (map lit ["sudo"; "nmcli"; "device"; "wifi"; "connect"]%string ++ [ssid_])
                       ++ [lit "password"; password]
           end)
    with (map lit ["sudo"; "nmcli"; "device"; "wifi"; "connect"]%string ++ [ssid_]
          ++ match password with [] => [] | _ => [lit "password"; password] end)
    by (destruct password; reflexivity).
  destruct (_run spawn _ 30 s) as [[[[rc out] err]|e] s1]; reflexivity.
Qed.

(** X5.  [connect_network] starts one command, the plain connect
    command, and nothing else; the only other thing it does is to kill
    that command at the timeout.  It answers [True] only for a command
    that finished within thirty seconds with exit code 0, and then with
    the stripped standard output as message.  At the timeout it answers
    [False] with the message [Timeout] when the kill succeeds; when
    [proc.kill()] raises (the command runs under [sudo]), that [OSError]
    leaves [connect_network]. *)
Theorem connect_network_outcome :
  forall (World : Type) (spawn : list str -> World -> result process * World)
         (ssid_ password : str) (s s' : rstate World) (r : result (bool * str)),
    connect_network spawn ssid_ password s = (r, s') ->
    let cmd := plain_connect_cmd ssid_ password in
    (trace s' = trace s ++ [Exec cmd] \/ trace s' = trace s ++ [Exec cmd; Kill cmd])
    /\ (forall msg, r = Return (true, msg) ->
        exists proc out,
          fst (spawn cmd (world s)) = Return proc
          /\ finishes_within proc 30 = true /\ returncode proc = 0%Z
          /\ stdout proc = Some out /\ msg = strip out
          /\ trace s' = trace s ++ [Exec cmd])
    /\ (forall proc, fst (spawn cmd (world s)) = Return proc -> exceeds proc 30 ->
        (kill proc = Killed ->
         r = Return (false, lit "Timeout") /\ trace s' = trace s ++ [Exec cmd; Kill cmd])
        /\ (kill proc <> Killed -> r = Raise OSError /\ trace s' = trace s ++ [Exec cmd])).
Proof.
  intros World spawn ssid_ password s s' r H cmd.
  rewrite connect_network_unfold in H. fold cmd in H. unfold _run in H.
  destruct (spawn cmd (world s)) as [[proc|e] w] eqn:Hspawn; cbn [fst].
  - destruct (finishes_within proc 30) eqn:Hfin.
    + destruct (stdout proc) as [out|] eqn:Hout.
      * destruct (stderr proc) as [err|] eqn:Herr.
        -- injection H as <- <-. cbn [trace]. split; [now left|]. split.
           ++ intros msg Hmsg. exists proc, out.
              destruct (Z.eqb_spec (returncode proc) 0) as [Hrc | Hrc];
                [|discriminate Hmsg].
              injection Hmsg as <-. repeat split; assumption.
           ++ intros proc' Hp Hex. injection Hp as <-.
              apply exceeds_finishes_within in Hex. congruence.
        -- injection H as <- <-. cbn [trace]. split; [now left|]. split.
           ++ intros msg Hmsg. discriminate Hmsg.
           ++ intros proc' Hp Hex. injection Hp as <-.
              apply exceeds_finishes_within in Hex. congruence.
      * injection H as <- <-. cbn [trace]. split; [now left|]. split.
        -- intros msg Hmsg. discriminate Hmsg.
        -- intros proc' Hp Hex. injection Hp as <-.
           apply exceeds_finishes_within in Hex. congruence.
    + destruct (kill proc) eqn:Hk; injection H as <- <-; cbn [trace];
        (split; [auto|]; split;
         [intros msg Hmsg; discriminate Hmsg
         |intros proc' Hp _; injection Hp as <-; rewrite Hk; split;
          [intro Hq; try discriminate Hq; split; reflexivity
          |intro Hq; try congruence; split; reflexivity]]).
  - injection H as <- <-. cbn [trace]. split; [now left|]. split.
    + intros msg Hmsg. discriminate Hmsg.
    + intros proc Hp. discriminate Hp.
Qed.

Lemma connect_network_outcome_witness :
  fst (connect_network spawn_scripted (lit "cafe") (lit "secret") (answers [hangs]))
  = Return (false, lit "Timeout")
  /\ fst (connect_network spawn_scripted (lit "cafe") (lit "secret")
            (answers [escapes Denied]))
     = Raise OSError.
Proof.
  split.
  - exact (proj1 (proj1 (proj2 (proj2 (connect_network_outcome scripted spawn_scripted
                           (lit "cafe") (lit "secret") (answers [hangs])
                           (snd (connect_network spawn_scripted (lit "cafe") (lit "secret")
                                   (answers [hangs])))
                           (fst (connect_network spawn_scripted (lit "cafe") (lit "secret")
                                   (answers [hangs])))
                           eq_refl))
                    {| duration := None; returncode := 0; stdout := Some [];
                       stderr := Some []; kill := Killed |}
                    eq_refl I) eq_refl)).
  - refine (proj1 (proj2 (proj2 (proj2 (connect_network_outcome scripted spawn_scripted
                           (lit "cafe") (lit "secret") (answers [escapes Denied])
                           (snd (connect_network spawn_scripted (lit "cafe") (lit "secret")
                                   (answers [escapes Denied])))
                           (fst (connect_network spawn_scripted (lit "cafe") (lit "secret")
                                   (answers [escapes Denied])))
                           eq_refl))
                    {| duration := None; returncode := 0; stdout := Some [];
                       stderr := Some []; kill := Denied |}
                    eq_refl I) _)).
    discriminate.
Defined.

(** ** What [get_ip_address] can return *)

Definition hostname_cmd : list str := map lit ["hostname"; "-I"]%string.

Lemma get_ip_address_unfold :
  forall (World : Type) (spawn : list str -> World -> result process * World)
         (ip_is_private : str -> option bool) (s : rstate World),
    get_ip_address spawn ip_is_private s =
    match _run spawn hostname_cmd 10 s with
    | (Return (rc, out, _), s') =>
      let ips := filter candidate (split_whitespace out) in
      (Return (match find (judged_private ip_is_private) ips with
               | Some ip => Some ip
               | None => hd_error ips
               end), s')
    | (Raise e, s') => (Raise e, s')
    end.
Proof.
  intros World spawn f s. unfold get_ip_address, bind. fold hostname_cmd.
  destruct (_run spawn hostname_cmd 10 s) as [[[[rc out] err]|e] s']; [|reflexivity].
  change (filter _ (split_whitespace out)) with (filter candidate (split_whitespace out)).
  cbv zeta. rewrite first_private_find.
  destruct (find (judged_private f) (filter candidate (split_whitespace out))); reflexivity.
Qed.

Lemma hd_error_In : forall (A : Type) (l : list A) (x : A), hd_error l = Some x -> In x l.
Proof. intros A [|y l] x H; [discriminate|]. injection H as ->. now left. Qed.

(** X6.  Whatever address [get_ip_address] returns is one of the words of
    the output of [hostname -I]: not empty, free of white space, and not
    starting with [127.]; and it returns [None] exactly when every word
    of the output starts with [127.] (in particular for an empty
    output). *)
Theorem get_ip_address_entry :
  forall (World : Type) (spawn : list str -> World -> result process * World)
         (ip_is_private : str -> option bool)
         (s s' : rstate World) (rc : Z) (out err : str),
    _run spawn hostname_cmd 10 s = (Return (rc, out, err), s') ->
    (forall ip, fst (get_ip_address spawn ip_is_private s) = Return (Some ip) ->
                In ip (split_whitespace out) /\ word ip
                /\ startswith ip (lit "127.") = false)
    /\ (fst (get_ip_address spawn ip_is_private s) = Return None
        <-> forall w, In w (split_whitespace out) -> startswith w (lit "127.") = true).
Proof.
  intros World spawn f s s' rc out err Hrun.
  rewrite get_ip_address_unfold, Hrun. cbv zeta. cbn [fst].
  set (ips := filter candidate (split_whitespace out)).
  pose proof (split_whitespace_words out) as Hwords. rewrite Forall_forall in Hwords.
  assert (Hips : forall ip, In ip ips ->
                 In ip (split_whitespace out) /\ word ip
                 /\ startswith ip (lit "127.") = false).
  { intros ip Hin. apply filter_In in Hin. destruct Hin as [Hin Hc].
    split; [assumption|]. split; [now apply Hwords|].
    unfold candidate in Hc. destruct ip; [discriminate|]. now apply negb_true_iff. }
  split.
  - intros ip H. apply Hips.
    destruct (find (judged_private f) ips) as [ip'|] eqn:Hfind.
    + injection H as <-. now apply find_some in Hfind.
    + injection H as H. now apply hd_error_In.
  - split.
    + intros H w Hw.
      destruct (find (judged_private f) ips) as [ip'|] eqn:Hfind; [discriminate H|].
      destruct ips as [|ip more] eqn:E; [|discriminate H].
      destruct (startswith w (lit "127.")) eqn:Hs; [reflexivity|].
      assert (Hin : In w ips).
      { apply filter_In. split; [assumption|]. unfold candidate.
        destruct (Hwords w Hw) as [Hne _]. destruct w; [congruence|]. now rewrite Hs. }
      rewrite E in Hin. destruct Hin.
    + intro H. assert (E : ips = []).
      { destruct ips as [|ip more] eqn:E; [reflexivity|]. exfalso.
        destruct (Hips ip (or_introl eq_refl)) as [Hin [_ Hs]].
        rewrite (H ip Hin) in Hs. discriminate Hs. }
      rewrite E. reflexivity.
Qed.

Lemma get_ip_address_entry_witness :
  fst (get_ip_address spawn_scripted dotted_quad_is_private
         (answers [prints 0 "127.0.0.1 127.0.1.1"])) = Return None.
Proof.
  refine (proj2 (proj2 (get_ip_address_entry scripted spawn_scripted dotted_quad_is_private
                          (answers [prints 0 "127.0.0.1 127.0.1.1"])
                          {| world := []; trace := [Exec hostname_cmd] |}
                          0%Z (lit "127.0.0.1 127.0.1.1") [] eq_refl)) _).
  intros w [<- | [<- | []]]; reflexivity.
Defined.

(** ** The archived scan: what a record holds *)

Lemma join_split : forall sep s, join [sep] (split sep s) = s.
Proof.
  intros sep s. induction s as [|c s IH]; [reflexivity|].
  simpl split. pose proof (split_not_nil sep s) as Hne.
  destruct (N.eqb_spec c sep) as [-> | Hc].
  - destruct (split sep s) as [|l ls] eqn:E; [congruence|].
    change (join [sep] ([] :: l :: ls)) with ([] ++ [sep] ++ join [sep] (l :: ls)).
    now rewrite IH.
  - destruct (split sep s) as [|l ls] eqn:E; [congruence|].
    destruct ls as [|l' ls'].
    + simpl in *. now rewrite IH.
    + change (join [sep] ((c :: l) :: l' :: ls'))
        with (c :: (l ++ [sep] ++ join [sep] (l' :: ls'))).
      now rewrite <- IH.
Qed.

Lemma keep_first_incl : forall l seen n, In n (keep_first seen l) -> In n l.
Proof.
  induction l as [|m l IH]; intros seen n H; simpl in *; [contradiction|].
  destruct (mem_str (ssid m) seen); [right; now apply IH with seen|].
  destruct H as [<- | H]; [now left | right; now apply IH with (ssid m :: seen)].
Qed.

Lemma str_or_trimmed : forall x (d : string),
  strip (lit d) = lit d -> lit d <> [] ->
  str_or (strip x) (lit d) <> [] /\ trimmed (str_or (strip x) (lit d)).
Proof.
  intros x d Hd Hne. unfold str_or. destruct (strip x) eqn:E.
  - split; [assumption | now apply trimmed_lit].
  - split; [discriminate|]. rewrite <- E. apply strip_trimmed.
Qed.

(** A record of the archived scan as the loop builds it: the name and the
    security are not empty and neither starts nor ends with white space. *)
Definition presentable (n : WifiNetwork) : Prop :=
  ssid n <> [] /\ trimmed (ssid n) /\ security n <> [] /\ trimmed (security n).

Lemma line_network_presentable : forall line, presentable (line_network line).
Proof.
  intro line. unfold presentable, line_network. cbv zeta. cbn [ssid security].
  set (name := strip (join [58%N] _)).
  assert (Hname : str_or name (lit "(hidden)") <> []
                  /\ trimmed (str_or name (lit "(hidden)")))
    by (apply str_or_trimmed; [reflexivity | discriminate]).
  assert (E : match name with [] => lit "(hidden)" | _ :: _ => name end
              = str_or name (lit "(hidden)")) by reflexivity.
  rewrite E. destruct Hname as [H1 H2].
  destruct (str_or_trimmed (nth (List.length (split 58%N line) - 1) (split 58%N line) [])
              "--" eq_refl ltac:(discriminate)) as [H3 H4].
  split; [|split; [|split]]; assumption.
Qed.

(** X7.  Every record that the archived [scan_wifi] returns has a name
    and a security text that are not empty and neither start nor end with
    white space: a network without a name is listed as [(hidden)], one
    without security text as [--]. *)
Theorem scan_wifi_records_presentable :
  forall (World : Type) (spawn : list str -> World -> result process * World)
         (lower : str -> str) (s s' : rstate World) (nets : list WifiNetwork),
    scan_wifi spawn lower s = (Return nets, s') -> Forall presentable nets.
Proof.
  intros World spawn lower s s' nets H.
  unfold scan_wifi, bind in H.
  destruct (run spawn _ 8 s) as [[[[rc out] err]|e] s1]; [|discriminate H].
  destruct (negb (rc =? 0)%Z).
  - injection H as <- _. constructor.
  - injection H as <- _. rewrite scan_wifi_fold. cbn [app].
    apply Forall_forall. intros n Hn.
    apply (Permutation_in _ (sort_by_key_perm lower _)) in Hn.
    apply keep_first_incl in Hn. apply in_map_iff in Hn.
    destruct Hn as [line [<- _]]. apply line_network_presentable.
Qed.

Lemma scan_wifi_records_presentable_witness :
  Forall presentable
    [ {| ssid := lit "cafe"; signal := 70; security := lit "--" |};
      {| ssid := lit "(hidden)"; signal := 40; security := lit "WPA2" |} ].
Proof.
  exact (scan_wifi_records_presentable scripted spawn_scripted ascii_lower
           (answers [prints 0 " :40: WPA2
cafe :70:"])
           {| world := []; trace := [Exec scan_wifi_cmd] |}
           _ eq_refl).
Defined.

(** X8.  The archived scan takes the last two fields of a line as signal
    and security and everything before them as the name, so that a name
    may hold colons: the line made of a name, a signal text and a
    security text gives the record of the three, stripped, with
    [(hidden)] for an empty name, 0 for a signal that is no integer and
    [--] for an empty security. *)
Theorem scan_wifi_line_fields :
  forall (name sig sec : str) (nets : list WifiNetwork) (seen : list str),
    colon_free sig -> colon_free sec ->
    let shown := str_or (strip name) (lit "(hidden)") in
    scan_wifi_line (nets, seen) (name ++ 58%N :: sig ++ 58%N :: sec)
    = if mem_str shown seen then (nets, seen)
      else (nets ++ [ {| ssid := shown;
                         signal := match py_int (strip sig) with
                                   | Some z => z
                                   | None => 0%Z
                                   end;
                         security := str_or (strip sec) (lit "--") |} ],
            shown :: seen).
Proof.
  intros name sig sec nets seen Hsig Hsec shown.
  assert (Hsplit : split 58%N (name ++ 58%N :: sig ++ 58%N :: sec)
                   = split 58%N name ++ [sig; sec]).
  { rewrite !split_app, (split_sep_free _ sig Hsig), (split_sep_free _ sec Hsec).
    reflexivity. }
  assert (Hlen : List.length (split 58%N name ++ [sig; sec])
                 = S (S (List.length (split 58%N name))))
    by (rewrite length_app; simpl; lia).
  assert (Hnet : line_network (name ++ 58%N :: sig ++ 58%N :: sec)
                 = {| ssid := shown;
                      signal := match py_int (strip sig) with
                                | Some z => z
                                | None => 0%Z
                                end;
                      security := str_or (strip sec) (lit "--") |}).
  { unfold line_network. cbv zeta. rewrite Hsplit, Hlen.
    replace (S (S (List.length (split 58%N name))) - 2)%nat
      with (List.length (split 58%N name)) by lia.
    replace (S (S (List.length (split 58%N name))) - 1)%nat
      with (S (List.length (split 58%N name))) by lia.
    rewrite firstn_app, Nat.sub_diag, firstn_all. cbn [firstn]. rewrite List.app_nil_r.
    rewrite join_split.
    rewrite !app_nth2 by lia. rewrite Nat.sub_diag.
    replace (S (List.length (split 58%N name)) - List.length (split 58%N name))%nat
      with 1%nat by lia.
    cbn [nth]. unfold shown, str_or. destruct (strip name); reflexivity. }
  rewrite scan_wifi_line_spec, Hnet. unfold well_formed. rewrite Hsplit, Hlen.
  destruct (List.length (split 58%N name)) as [|k] eqn:Ek.
  - apply length_zero_iff_nil in Ek. now apply split_not_nil in Ek.
  - reflexivity.
Qed.

Lemma scan_wifi_line_fields_witness :
  scan_wifi_line ([], []) (lit "my:net:70:WPA2")
  = ([ {| ssid := lit "my:net"; signal := 70; security := lit "WPA2" |} ], [lit "my:net"]).
Proof.
  refine (scan_wifi_line_fields (lit "my:net") (lit "70") (lit "WPA2") [] [] _ _).
  - vm_compute. intuition discriminate.
  - vm_compute. intuition discriminate.
Defined.

(** ** The archived connect functions *)

(** The number of commands started in a trace. *)
Definition started (l : list event) : nat :=
  List.length (filter (fun e => match e with Exec _ => true | Kill _ => false end) l).

Lemma run_trace :
  forall (World : Type) (spawn : list str -> World -> result process * World)
         (cmd : list str) (timeout : Z) (s : rstate World),
    exists new, trace (snd (run spawn cmd timeout s)) = trace s ++ new
                /\ started new = 1%nat.
Proof.
  intros World spawn cmd timeout s. unfold run.
  destruct (spawn cmd (world s)) as [[proc|e] w].
  - destruct (finishes_within proc timeout).
    + exists [Exec cmd]. destruct (stdout proc), (stderr proc); split; reflexivity.
    + exists [Exec cmd; Kill cmd]. split; reflexivity.
  - exists [Exec cmd]. split; reflexivity.
Qed.

Lemma str_or_nonempty : forall x d, d <> [] -> str_or x d <> [].
Proof. intros [|c x] d H; [exact H | discriminate]. Qed.

Lemma up_outcome_message : forall r3 ok msg,
  up_outcome r3 = Return (ok, msg) ->
  msg <> [] /\ (ok = true -> exists out3 err3, r3 = Return (0%Z, out3, err3)).
Proof.
  intros [[[rc3 out3] err3]|e] ok msg H; [|discriminate H]. simpl in H.
  destruct (Z.eqb_spec rc3 0) as [-> | Hrc]; injection H as <- <-.
  - split; [apply str_or_nonempty; discriminate|]. intros _. now exists out3, err3.
  - split; [|discriminate]. do 2 (apply str_or_nonempty). discriminate.
Qed.

(** The command of [connect_wifi]. *)
Definition wifi_connect_cmd (ssid_ : str) (password : option str) : list str :=
  match has_password password with
  | Some p => (map lit ["nmcli"; "device"; "wifi"; "connect"]%string ++ [ssid_])
              ++ [lit "password"; p]
  | None => map lit ["nmcli"; "device"; "wifi"; "connect"]%string ++ [ssid_]
  end.

(** X9.  [connect_wifi] refuses the placeholder name [(hidden)] without
    starting a command; for every other name it starts exactly one
    command.  Its message is never empty, and it answers [True] only when
    that command returned the exit code 0. *)
Theorem connect_wifi_outcome :
  forall (World : Type) (spawn : list str -> World -> result process * World)
         (ssid_ : str) (password : option str) (s : rstate World),
    let r := fst (connect_wifi spawn ssid_ password s) in
    let s' := snd (connect_wifi spawn ssid_ password s) in
    (ssid_ = lit "(hidden)" -> s' = s /\ exists msg, r = Return (false, msg))
    /\ (ssid_ <> lit "(hidden)" ->
        exists new, trace s' = trace s ++ new /\ started new = 1%nat)
    /\ (forall ok msg, r = Return (ok, msg) ->
        msg <> []
        /\ (ok = true ->
            exists out err,
              run spawn (wifi_connect_cmd ssid_ password) 25 s
              = (Return (0%Z, out, err), s'))).
Proof.
  intros World spawn ssid_ password s. cbv zeta. unfold connect_wifi.
  destruct (str_eqb ssid_ (lit "(hidden)")) eqn:Eh.
  - apply str_eqb_eq in Eh. split; [intros _; split; [reflexivity | eexists; reflexivity]|].
    split; [intro H; contradiction|].
    intros ok msg H. injection H as <- <-. split; [discriminate | discriminate].
  - apply str_eqb_neq in Eh. split; [intro H; contradiction|].
    fold (wifi_connect_cmd ssid_ password). set (cmd := wifi_connect_cmd ssid_ password).
    unfold bind. pose proof (run_trace World spawn cmd 25 s) as Htrace.
    destruct (run spawn cmd 25 s) as [[[[rc out] err]|e] s1] eqn:Hrun; cbn [fst snd] in *.
    + destruct (Z.eqb_spec rc 0) as [-> | Hrc]; cbn [fst snd ret].
      * split; [intros _; exact Htrace|].
        intros ok msg H. injection H as <- <-.
        split; [apply str_or_nonempty; discriminate|].
        intros _. now exists out, err.
      * split; [intros _; exact Htrace|].
        intros ok msg H. injection H as <- <-.
        split; [do 2 apply str_or_nonempty; discriminate | discriminate].
    + split; [intros _; exact Htrace|]. intros ok msg H. discriminate H.
Qed.

Lemma connect_wifi_outcome_witness :
  snd (connect_wifi spawn_scripted (lit "(hidden)") None (answers [prints 0 ""]))
  = answers [prints 0 ""].
Proof.
  exact (proj1 (proj1 (connect_wifi_outcome scripted spawn_scripted (lit "(hidden)") None
                         (answers [prints 0 ""])) eq_refl)).
Defined.

(** X10.  [connect_hidden_wifi] starts no command for an empty name and
    between one and three commands otherwise.  Its message is never
    empty, and it answers [True] only when the last command it ran, the
    direct connect or the bring-up of the profile, returned the exit
    code 0. *)
Theorem connect_hidden_wifi_outcome :
  forall (World : Type) (spawn : list str -> World -> result process * World)
         (lower : str -> str) (ssid_ : str) (password : option str) (s : rstate World),
    let r := fst (connect_hidden_wifi spawn lower ssid_ password s) in
    let s' := snd (connect_hidden_wifi spawn lower ssid_ password s) in
    (ssid_ = [] -> s' = s /\ r = Return (false, lit "SSID cannot be empty."))
    /\ (ssid_ <> [] ->
        exists new, trace s' = trace s ++ new
                    /\ (1 <= started new <= 3)%nat)
    /\ (forall ok msg, r = Return (ok, msg) ->
        msg <> []
        /\ (ok = true ->
            exists cmd timeout s0 out err,
              (cmd = hidden_connect_cmd ssid_ password \/ cmd = profile_up_cmd ssid_)
              /\ run spawn cmd timeout s0 = (Return (0%Z, out, err), s'))).
Proof.
  intros World spawn lower ssid_ password s. cbv zeta.
  destruct ssid_ as [|c name].
  - split; [intros _; split; reflexivity|]. split; [intro H; congruence|].
    intros ok msg H. injection H as <- <-. split; discriminate.
  - split; [intro H; discriminate H|].
    pose proof (connect_hidden_wifi_path World spawn lower (c :: name) password s
                  ltac:(discriminate)) as Hpath.
    set (r := fst (connect_hidden_wifi spawn lower (c :: name) password s)) in *.
    set (s' := snd (connect_hidden_wifi spawn lower (c :: name) password s)) in *.
    clearbody r s'.
    assert (Hprofile : forall s1 r s',
               profile_path spawn lower (c :: name) password s1 r s' ->
               (exists new, trace s' = trace s1 ++ new /\ (1 <= started new <= 2)%nat)
               /\ forall ok msg, r = Return (ok, msg) ->
                  msg <> []
                  /\ (ok = true ->
                      exists cmd timeout s0 out err,
                        (cmd = hidden_connect_cmd (c :: name) password
                         \/ cmd = profile_up_cmd (c :: name))
                        /\ run spawn cmd timeout s0 = (Return (0%Z, out, err), s'))).
    { intros s1 r0 s0 Hp. destruct Hp as [s1 s2 e H2 | s1 s2 rc2 out2 err2 H2 Hav
                                         | s1 s2 s3 rc2 out2 err2 r3 H2 Hav H3].
      - destruct (run_trace World spawn (add_profile_cmd (c :: name) password) 15 s1)
          as [new [Ht Hn]]. rewrite H2 in Ht. cbn [snd] in Ht.
        split; [exists new; split; [assumption | lia]|]. intros ok msg H. discriminate H.
      - destruct (run_trace World spawn (add_profile_cmd (c :: name) password) 15 s1)
          as [new [Ht Hn]]. rewrite H2 in Ht. cbn [snd] in Ht.
        split; [exists new; split; [assumption | lia]|].
        intros ok msg H. injection H as <- <-.
        split; [do 2 apply str_or_nonempty; discriminate | discriminate].
      - destruct (run_trace World spawn (add_profile_cmd (c :: name) password) 15 s1)
          as [new [Ht Hn]]. rewrite H2 in Ht. cbn [snd] in Ht.
        destruct (run_trace World spawn (bring_up_cmd (c :: name)) 20 s2)
          as [new' [Ht' Hn']]. rewrite H3 in Ht'. cbn [snd] in Ht'.
        split.
        + exists (new ++ new'). split; [now rewrite Ht', Ht, List.app_assoc|].
          unfold started in *. rewrite filter_app, length_app. lia.
        + intros ok msg H. destruct (up_outcome_message _ _ _ H) as [Hmsg Hok].
          split; [assumption|]. intro Htrue. destruct (Hok Htrue) as [out3 [err3 ->]].
          exists (profile_up_cmd (c :: name)), 20%Z, s2, out3, err3.
          split; [now right | assumption]. }
    destruct Hpath as [s s1 e H1 | s s1 out err H1 | s s1 rc out err r s' H1 Hrc Hp].
    + destruct (run_trace World spawn (direct_hidden_cmd (c :: name) password) 25 s)
        as [new [Ht Hn]]. rewrite H1 in Ht. cbn [snd] in Ht.
      split; [intros _; exists new; split; [assumption | lia]|].
      intros ok msg H. discriminate H.
    + destruct (run_trace World spawn (direct_hidden_cmd (c :: name) password) 25 s)
        as [new [Ht Hn]]. rewrite H1 in Ht. cbn [snd] in Ht.
      split; [intros _; exists new; split; [assumption | lia]|].
      intros ok msg H. injection H as <- <-.
      split; [apply str_or_nonempty; discriminate|]. intros _.
      exists (hidden_connect_cmd (c :: name) password), 25%Z, s, out, err.
      split; [now left | rewrite hidden_connect_cmd_words; assumption].
    + destruct (run_trace World spawn (direct_hidden_cmd (c :: name) password) 25 s)
        as [new [Ht Hn]]. rewrite H1 in Ht. cbn [snd] in Ht.
      destruct (Hprofile _ _ _ Hp) as [[new' [Ht' Hn']] Hmsg].
      split; [|exact Hmsg]. intros _.
      exists (new ++ new'). split; [now rewrite Ht', Ht, List.app_assoc|].
      unfold started in *. rewrite filter_app, length_app. lia.
Qed.

Lemma connect_hidden_wifi_outcome_witness :
  exists new,
    trace (snd (connect_hidden_wifi spawn_scripted ascii_lower (lit "attic") None
                  (answers [prints 10 ""; prints 1 "exists"; prints 0 "up"])))
    = [] ++ new
    /\ (1 <= started new <= 3)%nat.
Proof.
  refine (proj1 (proj2 (connect_hidden_wifi_outcome scripted spawn_scripted ascii_lower
                          (lit "attic") None
                          (answers [prints 10 ""; prints 1 "exists"; prints 0 "up"]))) _).
  discriminate.
Defined.

(** ** The archived address list and connectivity check *)

Lemma split_whitespace_nonempty : forall s,
  s <> [] -> trimmed s -> split_whitespace s <> [].
Proof.
  intros [|c r] Hne [Hhead _]; [congruence|].
  unfold split_whitespace. simpl. destruct (split_fields r) as [t ts].
  rewrite (Hhead c r eq_refl). discriminate.
Qed.

Lemma words_kept : forall ws,
  Forall word ws ->
  map strip (filter (fun ip => match strip ip with [] => false | _ => true end) ws) = ws.
Proof.
  induction ws as [|w ws IH]; intro H; [reflexivity|].
  inversion H as [|? ? Hw Hws]; subst. cbn [filter].
  rewrite (trimmed_strip w (word_trimmed w Hw)).
  destruct Hw as [Hne _]. destruct w as [|c w]; [congruence|].
  cbn [map]. rewrite (IH Hws). f_equal.
  apply trimmed_strip, word_trimmed. split; [discriminate|].
  inversion H as [|? ? [_ Hc] _]. exact Hc.
Qed.

(** X11.  When [hostname -I] exits with code 0 and prints something,
    [get_ip_addresses] returns exactly the words of that output, in
    order, and at least one; the stripping and the filtering that it
    applies to them change nothing.  The second command is not run. *)
Theorem get_ip_addresses_words :
  forall (World : Type) (spawn : list str -> World -> result process * World)
         (s s1 : rstate World) (out err : str),
    run spawn hostname_cmd 8 s = (Return (0%Z, out, err), s1) ->
    out <> [] ->
    get_ip_addresses spawn s = (Return (split_whitespace out), s1)
    /\ split_whitespace out <> [].
Proof.
  intros World spawn s s1 out err Hrun Hne.
  destruct (run_trimmed _ _ _ _ _ _ _ _ _ Hrun) as [Hout _].
  split; [|now apply split_whitespace_nonempty].
  unfold get_ip_addresses, bind. fold hostname_cmd. rewrite Hrun.
  destruct out as [|c out']; [congruence|]. cbn [Z.eqb andb]. unfold ret.
  rewrite split_whitespace_strip, words_kept by apply split_whitespace_words.
  reflexivity.
Qed.

Lemma get_ip_addresses_words_witness :
  get_ip_addresses spawn_scripted (answers [prints 0 "192.168.1.7  fd00::7 
"])
  = (Return [lit "192.168.1.7"; lit "fd00::7"],
     {| world := []; trace := [Exec hostname_cmd] |}).
Proof.
  refine (proj1 (get_ip_addresses_words scripted spawn_scripted
                   (answers [prints 0 "192.168.1.7  fd00::7 
"])
                   {| world := []; trace := [Exec hostname_cmd] |}
                   (lit "192.168.1.7  fd00::7") [] eq_refl _)).
  discriminate.
Defined.

Definition curl_cmd : list str :=
  map lit ["curl"; "-sS"; "--max-time"; "3"; "https://www.google.com/generate_204"]%string.

(** X12.  [have_connectivity] never raises.  It answers [True] exactly
    when the resolver answers for [www.google.com] and the [curl] command
    then finishes within four seconds with exit code 0 and output that
    decodes; when the resolver raises no command is started. *)
Theorem have_connectivity_answer :
  forall (World : Type) (spawn : list str -> World -> result process * World)
         (gethostbyname : str -> World -> result unit * World) (s : rstate World),
    exists b s',
      have_connectivity spawn gethostbyname s = (Return b, s')
      /\ (b = true <->
          exists u w proc w',
            gethostbyname (lit "www.google.com") (world s) = (Return u, w)
            /\ spawn curl_cmd w = (Return proc, w')
            /\ finishes_within proc 4 = true /\ returncode proc = 0%Z
            /\ stdout proc <> None /\ stderr proc <> None)
      /\ (forall e w, gethostbyname (lit "www.google.com") (world s) = (Raise e, w) ->
          b = false /\ trace s' = trace s).
Proof.
  intros World spawn gethostbyname s. unfold have_connectivity. fold curl_cmd.
  destruct (gethostbyname (lit "www.google.com") (world s)) as [[u|e] w] eqn:Hdns.
  - unfold run. cbn [world trace].
    destruct (spawn curl_cmd w) as [[proc|e] w'] eqn:Hspawn.
    + destruct (finishes_within proc 4) eqn:Hfin.
      * destruct (stdout proc) as [out|] eqn:Hout.
        -- destruct (stderr proc) as [err|] eqn:Herr.
           ++ do 2 eexists. split; [reflexivity|]. split; [|intros e w0 H; discriminate H].
              split.
              ** intro Hb. apply Z.eqb_eq in Hb. exists u, w, proc, w'.
                 rewrite Hspawn, Hout, Herr. repeat split; try assumption; discriminate.
              ** intros [u0 [w0 [proc0 [w0' [H1 [H2 [_ [Hrc _]]]]]]]].
                 injection H1 as _ <-. rewrite Hspawn in H2. injection H2 as <- _.
                 now apply Z.eqb_eq.
           ++ do 2 eexists. split; [reflexivity|]. split; [|intros e w0 H; discriminate H].
              split; [discriminate|].
              intros [u0 [w0 [proc0 [w0' [H1 [H2 [_ [_ [_ Herr']]]]]]]]].
              injection H1 as _ <-. rewrite Hspawn in H2. injection H2 as <- _.
              congruence.
        -- do 2 eexists. split; [reflexivity|]. split; [|intros e w0 H; discriminate H].
           split; [discriminate|].
           intros [u0 [w0 [proc0 [w0' [H1 [H2 [_ [_ [Hout' _]]]]]]]]].
           injection H1 as _ <-. rewrite Hspawn in H2. injection H2 as <- _.
           congruence.
      * do 2 eexists. split; [reflexivity|]. split; [|intros e w0 H; discriminate H].
        split; [discriminate|].
        intros [u0 [w0 [proc0 [w0' [H1 [H2 [Hfin' _]]]]]]].
        injection H1 as _ <-. rewrite Hspawn in H2. injection H2 as <- _.
        congruence.
    + do 2 eexists. split; [reflexivity|]. split; [|intros e0 w0 H; discriminate H].
      split; [discriminate|].
      intros [u0 [w0 [proc0 [w0' [H1 [H2 _]]]]]].
      injection H1 as _ <-. rewrite Hspawn in H2. discriminate H2.
  - do 2 eexists. split; [reflexivity|]. split.
    + split; [discriminate|]. intros [u0 [w0 [proc0 [w0' [H1 _]]]]]. discriminate H1.
    + intros e0 w0 _. split; reflexivity.
Qed.

(** A resolver that knows no name. *)
Definition no_resolver (name : str) (w : scripted) : result unit * scripted :=
  (Raise OSError, w).

Lemma have_connectivity_answer_witness :
  have_connectivity spawn_scripted no_resolver (answers [prints 0 ""])
  = (Return false, answers [prints 0 ""]).
Proof.
  destruct (have_connectivity_answer scripted spawn_scripted no_resolver
              (answers [prints 0 ""])) as [b [s' [H _]]].
  rewrite H. vm_compute in H. exact (eq_sym H).
Defined.

(** ** The archived wizard: pressing Connect *)

(** X13.  Whatever [attempt_connect] does, and also when a command cannot
    be started and the exception passes through, it leaves the widgets
    enabled and the status label showing the status text. *)
Theorem attempt_connect_restores :
  forall (World : Type) (spawn : list str -> World -> result process * World)
         (lower : str -> str) (a : NetworkWizard) (s : rstate World),
    widgets_enabled a = true ->
    let a' := fst (snd (attempt_connect spawn lower (a, s))) in
    widgets_enabled a' = true /\ status_label a' = status_text a'.
Proof.
  intros World spawn lower a s Hen a'. subst a'.
  destruct (selected_ssid a) as [selected|] eqn:Hsel.
  - destruct (str_eqb selected (lit "(hidden-enter-next)")) eqn:Hnext.
    + assert (H : attempt_connect spawn lower (a, s)
                  = (Return tt,
                     (show_status
                        match strip (password_value a) with
                        | [] => set_status_text (lit "Hidden SSID cannot be empty.") a
                        | entered => capture_hidden_ssid entered a
                        end, s))).
      { unfold attempt_connect, bind at 1, self. cbn [fst snd]. rewrite Hsel, Hnext.
        destruct (strip (password_value a)); reflexivity. }
      rewrite H. cbn [fst snd].
      destruct (strip (password_value a)); split; (assumption || reflexivity).
    + apply str_eqb_neq in Hnext.
      pose proof (attempt_connect_reported World spawn lower a s selected Hsel Hnext) as H.
      cbv zeta in H. unfold reported in H.
      destruct (attempt_connect spawn lower (a, s)) as [res [a' s']].
      destruct H as [H1 [H2 _]]. cbn [fst snd]. now split.
  - assert (H : attempt_connect spawn lower (a, s)
                = (Return tt,
                   (show_status
                      (set_status_text
                         (lit "Select a network first (or choose Hidden SSID).") a), s))).
    { unfold attempt_connect, bind at 1, self. cbn [fst snd]. rewrite Hsel. reflexivity. }
    rewrite H. split; (assumption || reflexivity).
Qed.

Lemma attempt_connect_restores_witness :
  let a' := fst (snd (attempt_connect spawn_scripted ascii_lower
                        (attic_entered, answers []))) in
  widgets_enabled a' = true /\ status_label a' = status_text a'.
Proof.
  exact (attempt_connect_restores scripted spawn_scripted ascii_lower
           attic_entered (answers []) eq_refl).
Defined.

(** The user replaces the content of the password field. *)
Definition type_into_field (text : str) (a : NetworkWizard) : NetworkWizard :=
  {| selected_ssid := selected_ssid a; networks := networks a;
     password_value := text; password_mode := password_mode a;
     password_placeholder := password_placeholder a;
     status_text := status_text a; status_label := status_label a;
     ip_label := ip_label a; connected_ips := connected_ips a;
     widgets_enabled := widgets_enabled a |}.

(** X14.  The hidden-name dialogue.  After [enter_hidden_ssid], a first
    Connect with a name typed into the password field starts no command:
    it takes the stripped text as the selected name, empties the field
    and puts it back into password mode.  A second Connect, with the
    password typed, then connects that name, if it is no placeholder and
    was not found by the scan, through the hidden-network path with the
    typed password, and reports its outcome. *)
Theorem hidden_name_dialogue :
  forall (World : Type) (spawn : list str -> World -> result process * World)
         (lower : str -> str) (a : NetworkWizard) (s : rstate World)
         (typed_name typed_password : str),
    let name := strip typed_name in
    name <> [] ->
    let prompted := fst (snd (enter_hidden_ssid (a, s))) in
    let first := attempt_connect spawn lower (type_into_field typed_name prompted, s) in
    let captured := fst (snd first) in
    (fst first = Return tt /\ snd (snd first) = s
     /\ selected_ssid captured = Some name /\ networks captured = networks a
     /\ password_value captured = [] /\ password_mode captured = true)
    /\ (name <> lit "(hidden)" -> name <> lit "(hidden-enter-next)" ->
        (forall n, In n (networks a) -> ssid n <> name) ->
        let pwd := match typed_password with [] => None | v => Some v end in
        exists r s1,
          hidden_path spawn lower name pwd s r s1
          /\ reported spawn name r s1
               (attempt_connect spawn lower (type_into_field typed_password captured, s))).
Proof.
  intros World spawn lower a s typed_name typed_password name Hne prompted first captured.
  assert (Hfirst : first = (Return tt, (show_status (capture_hidden_ssid name
                                          (type_into_field typed_name prompted)), s))).
  { assert (Hsel : selected_ssid (type_into_field typed_name prompted)
                   = Some (lit "(hidden-enter-next)")) by reflexivity.
    assert (Hval : password_value (type_into_field typed_name prompted) = typed_name)
      by reflexivity.
    unfold first, attempt_connect, bind at 1, self. cbn [fst snd].
    rewrite Hsel, Hval.
    change (str_eqb (lit "(hidden-enter-next)") (lit "(hidden-enter-next)")) with true.
    cbv iota. subst name. destruct (strip typed_name); [congruence | reflexivity]. }
  unfold captured. rewrite Hfirst. cbn [fst snd].
  split; [split; [|split; [|split; [|split; [|split]]]]; reflexivity|].
  intros Hh Hnext Habs.
  set (pwd := match typed_password with [] => None | _ :: _ => Some typed_password end).
  set (b := type_into_field typed_password
              (show_status (capture_hidden_ssid name (type_into_field typed_name prompted)))).
  assert (Hsel : selected_ssid b = Some name) by reflexivity.
  assert (Hnets : networks b = networks a) by reflexivity.
  assert (Hpwd : password_value b = typed_password) by reflexivity.
  pose proof (attempt_connect_reported World spawn lower b s name Hsel Hnext) as Hrep.
  cbv zeta in Hrep. rewrite Hpwd, Hnets in Hrep.
  assert (Epwd : match typed_password with [] => None | n :: l => Some (n :: l) end = pwd)
    by (subst pwd; destruct typed_password; reflexivity).
  rewrite Epwd in Hrep.
  apply in_scan_absent in Habs.
  rewrite (attempt_connect_choose_hidden World spawn lower name pwd _ Hne Hh Habs) in Hrep.
  eexists. eexists. split; [|exact Hrep].
  now apply connect_hidden_wifi_path.
Qed.

Lemma hidden_name_dialogue_witness :
  let first := attempt_connect spawn_scripted ascii_lower
                 (type_into_field (lit " attic ")
                    (fst (snd (enter_hidden_ssid (attic_entered, attic_world)))),
                  attic_world) in
  fst first = Return tt /\ snd (snd first) = attic_world
  /\ selected_ssid (fst (snd first)) = Some (lit "attic")
  /\ networks (fst (snd first)) = networks attic_entered
  /\ password_value (fst (snd first)) = [] /\ password_mode (fst (snd first)) = true.
Proof.
  refine (proj1 (hidden_name_dialogue scripted spawn_scripted ascii_lower
                   attic_entered attic_world (lit " attic ") (lit "secret") _)).
  discriminate.
Defined.


(** ** Integers that [int] has read can be written *)

Lemma digits_of_uint_length : forall u,
  List.length (digits_of_uint u) = Decimal.nb_digits u.
Proof. induction u; simpl; try rewrite IHu; reflexivity. Qed.

Lemma uint_of_digits_length : forall d u,
  uint_of_digits d = Some u -> Decimal.nb_digits u = List.length d.
Proof.
  induction d as [|c d IH]; intros u H; simpl in H.
  - now injection H as <-.
  - destruct (uint_of_digits d) as [v|]; [|discriminate H].
    specialize (IH v eq_refl). unfold digit_of_char in H.
    repeat match type of H with
           | (if ?b then _ else _) = _ =>
             destruct b; [injection H as <-; simpl; now rewrite IH|]
           end.
    discriminate H.
Qed.

Lemma int_numeral_of_uint : forall u,
  int_numeral (Z.of_uint u) = digits_of_uint (Decimal.unorm u).
Proof.
  intro u. rewrite <- DecimalPos.Unsigned.to_of. unfold int_numeral, Z.of_uint.
  destruct (Pos.of_uint u); reflexivity.
Qed.

Lemma int_fits_of_uint : forall u,
  (Decimal.nb_digits u <= max_str_digits)%nat -> int_fits (Z.of_uint u) = true.
Proof.
  intros u H. unfold int_fits. apply Nat.leb_le.
  replace (Z.abs (Z.of_uint u)) with (Z.of_uint u)
    by (unfold Z.of_uint; destruct (Pos.of_uint u); reflexivity).
  rewrite int_numeral_of_uint, digits_of_uint_length.
  destruct u as [|u|u|u|u|u|u|u|u|u|u];
    try (etransitivity; [apply nb_digits_unorm; discriminate | exact H]).
  unfold max_str_digits. simpl. lia.
Qed.

Lemma int_fits_opp : forall z, int_fits (- z) = int_fits z.
Proof. intro z. unfold int_fits. now rewrite Z.abs_opp. Qed.

(** Whatever [int] returns is within the limit of digits of [str]. *)
Lemma py_int_fits : forall s z, py_int s = Some z -> int_fits z = true.
Proof.
  intros s z H. unfold py_int in H.
  destruct (transform_decimal_and_space s) as [a|]; [|discriminate H].
  destruct (match c_strip a with
            | [] => (false, c_strip a)
            | c :: r => if (c =? 43)%N then (false, r)
                        else if (c =? 45)%N then (true, r) else (false, c_strip a)
            end) as [neg ds].
  destruct (literal_digits false ds) as [d|]; [|discriminate H].
  destruct (max_str_digits <? List.length d)%nat eqn:Hmax; [discriminate H|].
  apply Nat.ltb_ge in Hmax.
  destruct (uint_of_digits d) as [u|] eqn:Hu; [|discriminate H].
  apply uint_of_digits_length in Hu. injection H as <-.
  destruct neg; [rewrite int_fits_opp|]; apply int_fits_of_uint; lia.
Qed.

(** ** The network screen: the list of networks *)

(** An entry of the list as [scan_networks] builds it: a dictionary with
    a name that is not empty and a signal within the limit of digits. *)
Definition scanned (n : pyval) : Prop :=
  exists name z, name <> [] /\ int_fits z = true /\ n = network_dict name z.

Lemma scan_networks_loop_scanned : forall lines acc nets,
  Forall scanned acc ->
  scan_networks_loop lines acc = Return nets ->
  Forall scanned nets.
Proof.
  induction lines as [|line more IH]; intros acc nets Hacc H.
  - simpl in H. injection H as <-. assumption.
  - rewrite scan_networks_loop_step in H.
    destruct (has_ssid line) eqn:Hs.
    + destruct (py_int (signal_field line)) as [z|] eqn:Hz; [|discriminate].
      refine (IH _ _ _ H). apply Forall_app. split; [assumption|].
      constructor; [|constructor].
      exists (ssid_field line), z. split; [|split; [now apply py_int_fits in Hz | reflexivity]].
      unfold has_ssid in Hs. destruct (ssid_field line); discriminate.
    + exact (IH _ _ Hacc H).
Qed.

Lemma scan_networks_scanned :
  forall (World : Type) (spawn : list str -> World -> result process * World)
         (s s' : rstate World) (nets : list pyval),
    scan_networks spawn s = (Return nets, s') -> Forall scanned nets.
Proof.
  intros World spawn s s' nets H. rewrite scan_networks_unfold in H.
  destruct (_run spawn scan_networks_cmd 10 s) as [[[[rc out] err]|e] s1]; [|discriminate H].
  injection H as H _. now apply scan_networks_loop_scanned in H.
Qed.

(** The text of the list item of a network. *)
Definition item_label (name : str) (z : Z) : str :=
  name ++ lit "  (" ++ int_numeral z ++ lit "%)".

Lemma item_text_scanned : forall format_other name z,
  int_fits z = true ->
  network_screen.item_text format_other (network_dict name z) = Done (item_label name z).
Proof.
  intros fo name z Hz. unfold network_screen.item_text, network_dict, getitem.
  change (dict_find _ (lit "ssid")) with (Some (PyStr name)).
  change (dict_find _ (lit "signal")) with (Some (PyInt z)).
  cbn [format_value]. unfold int_repr. rewrite Hz. reflexivity.
Qed.

(** The items of the list view are those of the networks, one for one. *)
Definition labelled (nets : list pyval) (texts : list str) : Prop :=
  Forall2 (fun net text => exists name z,
               name <> [] /\ net = network_dict name z /\ text = item_label name z)
          nets texts.

Lemma append_items_scanned :
  forall (World : Type) format_other nets (scr : network_screen.NetworkScreen)
         (s : rstate World),
    Forall scanned nets ->
    exists texts,
      network_screen.append_items format_other nets (scr, s)
      = (Done tt,
         ({| network_screen.networks := network_screen.networks scr;
             network_screen.selected_ssid := network_screen.selected_ssid scr;
             network_screen.listview := network_screen.listview scr ++ texts;
             network_screen.password := network_screen.password scr;
             network_screen.status := network_screen.status scr |}, s))
      /\ labelled nets texts.
Proof.
  intros World fo nets. induction nets as [|net more IH]; intros scr s H.
  - exists []. split; [|constructor]. cbn. rewrite List.app_nil_r. now destruct scr.
  - inversion H as [|? ? [name [z [Hne [Hz ->]]]] Hmore]; subst.
    cbn [network_screen.append_items]. unfold and_then at 1, lift.
    rewrite (item_text_scanned fo name z Hz).
    unfold and_then at 1, network_screen.self. cbn [fst snd].
    unfold and_then at 1, network_screen.set_listview, network_screen.update.
    cbn [fst snd].
    destruct (IH {| network_screen.networks := network_screen.networks scr;
                    network_screen.selected_ssid := network_screen.selected_ssid scr;
                    network_screen.listview :=
                      network_screen.listview scr ++ [item_label name z];
                    network_screen.password := network_screen.password scr;
                    network_screen.status := network_screen.status scr |} s Hmore)
      as [texts [E Hl]].
    exists (item_label name z :: texts). split.
    + rewrite E. cbn. now rewrite <- List.app_assoc.
    + constructor; [|assumption]. now exists name, z.
Qed.

(** What [refresh_networks] leaves behind. *)
Lemma refresh_networks_spec :
  forall (World : Type) (spawn : list str -> World -> result process * World)
         format_other (scr : network_screen.NetworkScreen) (s : rstate World),
    let scan := scan_networks spawn s in
    let after := network_screen.refresh_networks spawn format_other (scr, s) in
    let scr' := fst (snd after) in
    snd (snd after) = snd scan
    /\ network_screen.selected_ssid scr' = network_screen.selected_ssid scr
    /\ network_screen.password scr' = network_screen.password scr
    /\ match fst scan with
       | Return nets =>
         fst after = Done tt
         /\ network_screen.networks scr' = nets
         /\ labelled nets (network_screen.listview scr')
         /\ network_screen.status scr'
            = lit "Found " ++ len_text nets ++ lit " network(s)."
       | Raise e =>
         fst after = Fails (Utility e)
         /\ network_screen.networks scr' = network_screen.networks scr
         /\ network_screen.listview scr' = network_screen.listview scr
         /\ network_screen.status scr' = lit "Scanning" ++ [8230%N]
       end.
Proof.
  intros World spawn fo scr s scan after scr'. subst scan scr'.
  destruct (scan_networks spawn s) as [[nets|e] s1] eqn:Hscan; cbn [fst snd].
  - pose proof (scan_networks_scanned _ _ _ _ _ Hscan) as Hall.
    assert (Hafter : exists texts,
               labelled nets texts
               /\ after = (Done tt,
                           ({| network_screen.networks := nets;
                               network_screen.selected_ssid := network_screen.selected_ssid scr;
                               network_screen.listview := texts;
                               network_screen.password := network_screen.password scr;
                               network_screen.status :=
                                 lit "Found " ++ len_text nets ++ lit " network(s)." |},
                            s1))).
    { destruct (append_items_scanned World fo nets
                  {| network_screen.networks := nets;
                     network_screen.selected_ssid := network_screen.selected_ssid scr;
                     network_screen.listview := [];
                     network_screen.password := network_screen.password scr;
                     network_screen.status := lit "Scanning" ++ [8230%N] |} s1 Hall)
        as [texts [E Hl]].
      exists texts. split; [exact Hl|]. subst after.
      unfold network_screen.refresh_networks.
      unfold and_then at 1, network_screen.status_update, network_screen.update.
      cbn [fst snd].
      unfold and_then at 1, network_screen.await. cbn [fst snd]. rewrite Hscan.
      cbn [of_result].
      unfold and_then at 1, network_screen.set_networks, network_screen.update.
      cbn [fst snd].
      unfold and_then at 1, network_screen.set_listview, network_screen.update.
      cbn [fst snd network_screen.networks network_screen.selected_ssid
           network_screen.listview network_screen.password network_screen.status].
      unfold and_then at 1. rewrite E. reflexivity. }
    destruct Hafter as [texts [Hl ->]]. cbn [fst snd].
    repeat split; try reflexivity. exact Hl.
  - assert (Hafter : after
                     = (Fails (Utility e),
                        ({| network_screen.networks := network_screen.networks scr;
                            network_screen.selected_ssid := network_screen.selected_ssid scr;
                            network_screen.listview := network_screen.listview scr;
                            network_screen.password := network_screen.password scr;
                            network_screen.status := lit "Scanning" ++ [8230%N] |}, s1))).
    { subst after. unfold network_screen.refresh_networks.
      unfold and_then at 1, network_screen.status_update, network_screen.update.
      cbn [fst snd].
      unfold and_then at 1, network_screen.await. cbn [fst snd]. rewrite Hscan.
      reflexivity. }
    rewrite Hafter. cbn [fst snd]. repeat split; reflexivity.
Qed.

(** A formatter for the closed examples; the values met there are texts
    and integers, which it is not asked about. *)
Definition no_format (v : pyval) : attempt str := Fails (Utility TypeError).

(** X15.  [refresh_networks] keeps the list view in step with the list of
    networks.  When the scan returns, the view holds one item for each
    network, in order, showing its name and signal, and the status tells
    their number.  When the scan raises, the exception passes through
    and the screen keeps its former networks and items under the status
    [Scanning...].  The selection and the password are left as they are. *)
Theorem refresh_networks_view :
  forall (World : Type) (spawn : list str -> World -> result process * World)
         format_other (scr : network_screen.NetworkScreen) (s : rstate World),
    let scan := scan_networks spawn s in
    let after := network_screen.refresh_networks spawn format_other (scr, s) in
    let scr' := fst (snd after) in
    snd (snd after) = snd scan
    /\ network_screen.selected_ssid scr' = network_screen.selected_ssid scr
    /\ network_screen.password scr' = network_screen.password scr
    /\ match fst scan with
       | Return nets =>
         fst after = Done tt
         /\ network_screen.networks scr' = nets
         /\ labelled nets (network_screen.listview scr')
         /\ List.length (network_screen.listview scr') = List.length nets
         /\ network_screen.status scr'
            = lit "Found " ++ len_text nets ++ lit " network(s)."
       | Raise e =>
         fst after = Fails (Utility e)
         /\ network_screen.networks scr' = network_screen.networks scr
         /\ network_screen.listview scr' = network_screen.listview scr
         /\ network_screen.status scr' = lit "Scanning" ++ [8230%N]
       end.
Proof.
  intros World spawn fo scr s scan after scr'.
  destruct (refresh_networks_spec World spawn fo scr s) as [H1 [H2 [H3 H4]]].
  fold scan after scr' in H1, H2, H3, H4.
  split; [exact H1|]. split; [exact H2|]. split; [exact H3|].
  destruct (fst scan) as [nets|e]; [|exact H4].
  destruct H4 as [Ha [Hb [Hc Hd]]]. repeat split; try assumption.
  symmetry. exact (Forall2_length Hc).
Qed.

Lemma refresh_networks_view_witness :
  let after := network_screen.refresh_networks spawn_scripted no_format
                 (network_screen.init, answers [prints 0 "cafe:70
:80
lab:55"]) in
  List.length (network_screen.listview (fst (snd after))) = 2%nat
  /\ network_screen.status (fst (snd after)) = lit "Found 2 network(s).".
Proof.
  pose proof (refresh_networks_view scripted spawn_scripted no_format
                network_screen.init (answers [prints 0 "cafe:70
:80
lab:55"])) as H.
  cbv zeta in H. destruct H as [_ [_ [_ H]]]. vm_compute in H.
  destruct H as [_ [_ [_ [H4 H5]]]]. split; vm_compute; assumption.
Defined.

(** ** The network screen: selecting and connecting *)

Lemma list_item_nth : forall (A : Type) (l : list A) (i : Z),
  let n := Z.of_nat (List.length l) in
  ((- n <= i < n)%Z ->
   exists k, (k < List.length l)%nat
             /\ forall (B : Type) (l' : list B),
                 List.length l' = List.length l ->
                 list_item l' i = match nth_error l' k with
                                  | Some x => Done x
                                  | None => Fails IndexError
                                  end)
  /\ (~ (- n <= i < n)%Z -> list_item l i = Fails IndexError).
Proof.
  intros A l i n. split.
  - intro Hi.
    exists (Z.to_nat (if (i <? 0)%Z then (i + n)%Z else i)). split.
    + destruct (Z.ltb_spec i 0); subst n; lia.
    + intros B l' Hlen. unfold list_item. rewrite Hlen. fold n.
      replace ((0 <=? (if (i <? 0)%Z then (i + n)%Z else i))%Z
               && ((if (i <? 0)%Z then (i + n)%Z else i) <? n)%Z) with true; [reflexivity|].
      symmetry. apply andb_true_iff.
      destruct (Z.ltb_spec i 0); split; try apply Z.leb_le; try apply Z.ltb_lt; lia.
  - intro Hi. unfold list_item. fold n.
    replace ((0 <=? (if (i <? 0)%Z then (i + n)%Z else i))%Z
             && ((if (i <? 0)%Z then (i + n)%Z else i) <? n)%Z) with false; [reflexivity|].
    symmetry. apply andb_false_iff.
    assert (Hn : (0 <= n)%Z) by (subst n; lia).
    destruct (Z.ltb_spec i 0).
    + left. apply Z.leb_gt. lia.
    + right. apply Z.ltb_ge. lia.
Qed.

Lemma Forall2_nth_error : forall (A B : Type) (R : A -> B -> Prop) l1 l2 k,
  Forall2 R l1 l2 -> (k < List.length l1)%nat ->
  exists x y, nth_error l1 k = Some x /\ nth_error l2 k = Some y /\ R x y.
Proof.
  intros A B R l1 l2 k H. revert k. induction H as [|x y l1 l2 Hxy H IH]; intros k Hk.
  - simpl in Hk. lia.
  - destruct k as [|k]; [now exists x, y|]. simpl in Hk. apply IH. lia.
Qed.

(** X16.  After [refresh_networks] has returned, an index that is valid
    for the list view selects the network shown at that index: the name
    selected is the one in the item, and it is not empty; no lookup
    fails.  An index outside the view raises [IndexError] and changes
    nothing. *)
Theorem handle_select_after_refresh :
  forall (World : Type) (spawn : list str -> World -> result process * World)
         format_other (scr scr' : network_screen.NetworkScreen) (s s' : rstate World),
    network_screen.refresh_networks spawn format_other (scr, s) = (Done tt, (scr', s')) ->
    forall index : Z,
      let n := Z.of_nat (List.length (network_screen.listview scr')) in
      ((- n <= index < n)%Z ->
       exists name z,
         name <> []
         /\ list_item (network_screen.listview scr') index = Done (item_label name z)
         /\ network_screen.handle_select index (scr', s')
            = (Done tt,
               ({| network_screen.networks := network_screen.networks scr';
                   network_screen.selected_ssid := PyStr name;
                   network_screen.listview := network_screen.listview scr';
                   network_screen.password := network_screen.password scr';
                   network_screen.status := network_screen.status scr' |}, s')))
      /\ (~ (- n <= index < n)%Z ->
          network_screen.handle_select index (scr', s') = (Fails IndexError, (scr', s'))).
Proof.
  intros World spawn fo scr scr' s s' Hrefresh index n.
  destruct (refresh_networks_spec World spawn fo scr s) as [_ [_ [_ H]]].
  rewrite Hrefresh in H. cbn [fst snd] in H.
  destruct (fst (scan_networks spawn s)) as [nets|e]; [|destruct H as [H _]; discriminate H].
  destruct H as [_ [Hnets [Hl _]]].
  assert (Hlen : List.length (network_screen.networks scr')
                 = List.length (network_screen.listview scr'))
    by (rewrite Hnets; exact (Forall2_length Hl)).
  destruct (list_item_nth _ (network_screen.listview scr') index) as [Hin Hout].
  fold n in Hin, Hout. split.
  - intro Hi. destruct (Hin Hi) as [k [Hk Hitem]].
    rewrite <- Hnets in Hl.
    destruct (Forall2_nth_error _ _ _ _ _ k Hl ltac:(lia))
      as [net [text [Hnet [Htext [name [z [Hne [-> ->]]]]]]]].
    exists name, z. split; [exact Hne|]. split.
    + rewrite (Hitem _ _ eq_refl), Htext. reflexivity.
    + unfold network_screen.handle_select, and_then, network_screen.self, lift.
      cbn [fst snd]. rewrite (Hitem _ _ Hlen), Hnet. reflexivity.
  - intro Hi. unfold network_screen.handle_select, and_then, network_screen.self, lift.
    cbn [fst snd].
    destruct (list_item_nth _ (network_screen.networks scr') index) as [_ Hout'].
    rewrite Hlen in Hout'. fold n in Hout'. now rewrite (Hout' Hi).
Qed.

Lemma handle_select_after_refresh_witness :
  let shown := snd (network_screen.refresh_networks spawn_scripted no_format
                      (network_screen.init, answers [prints 0 "cafe:70
lab:55"])) in
  exists name z,
    name <> []
    /\ list_item (network_screen.listview (fst shown)) (-1) = Done (item_label name z)
    /\ network_screen.handle_select (-1) shown
       = (Done tt,
          ({| network_screen.networks := network_screen.networks (fst shown);
              network_screen.selected_ssid := PyStr name;
              network_screen.listview := network_screen.listview (fst shown);
              network_screen.password := network_screen.password (fst shown);
              network_screen.status := network_screen.status (fst shown) |}, snd shown)).
Proof.
  refine (proj1 (handle_select_after_refresh scripted spawn_scripted no_format
                   network_screen.init _ (answers [prints 0 "cafe:70
lab:55"]) _ eq_refl (-1)%Z) _).
  vm_compute. split; [discriminate | reflexivity].
Defined.

(** The screen with another status text. *)
Definition showing (text : str) (scr : network_screen.NetworkScreen)
  : network_screen.NetworkScreen :=
  {| network_screen.networks := network_screen.networks scr;
     network_screen.selected_ssid := network_screen.selected_ssid scr;
     network_screen.listview := network_screen.listview scr;
     network_screen.password := network_screen.password scr;
     network_screen.status := text |}.

Lemma handle_connect_named :
  forall (World : Type) (spawn : list str -> World -> result process * World)
         ip_is_private format_other (scr : network_screen.NetworkScreen)
         (s : rstate World) (name : str),
    network_screen.selected_ssid scr = PyStr name -> name <> [] ->
    let connecting := showing (lit "Connecting to " ++ name ++ [8230%N]) scr in
    network_screen.handle_connect spawn ip_is_private format_other (scr, s) =
    match connect_network spawn name (network_screen.password scr) s with
    | (Return (true, _), s1) =>
      match get_ip_address spawn ip_is_private s1 with
      | (Return ip, s2) =>
        (Done tt, (showing (lit "Connected! IP: " ++ network_screen.or_unknown ip) scr, s2))
      | (Raise e, s2) => (Fails (Utility e), (connecting, s2))
      end
    | (Return (false, msg), s1) => (Done tt, (showing (lit "Failed: " ++ msg) scr, s1))
    | (Raise e, s1) => (Fails (Utility e), (connecting, s1))
    end.
Proof.
  intros World spawn judge fo scr s name Hsel Hne connecting.
  unfold network_screen.handle_connect, and_then at 1, network_screen.self.
  cbn [fst snd]. rewrite Hsel. cbn [py_truthy].
  destruct name as [|c name']; [congruence|]. cbn [negb format_value].
  unfold and_then at 1, lift. unfold and_then at 1.
  unfold network_screen.status_update, network_screen.update. cbn [fst snd].
  unfold and_then at 1, network_screen.await. cbn [fst snd network_screen.password].
  destruct (connect_network spawn (c :: name') (network_screen.password scr) s)
    as [[[ok msg]|e] s1]; cbn [of_result]; [|reflexivity].
  destruct ok; [|reflexivity].
  unfold and_then, network_screen.await. cbn [fst snd].
  destruct (get_ip_address spawn judge s1) as [[ip|e] s2]; reflexivity.
Qed.

Lemma or_unknown_nonempty : forall ip, network_screen.or_unknown ip <> [].
Proof. intros [[|c r]|]; discriminate. Qed.

(** X17.  [handle_connect].  With nothing selected it starts no command
    and asks for a selection.  With a name selected: a connect command
    that is still running after thirty seconds is killed and the status
    is [Failed: Timeout], the address is not looked up, provided the kill
    succeeds; when [proc.kill()] raises (the command runs under [sudo]),
    the [OSError] leaves the handler with the status at
    [Connecting to ...].  Whenever the handler returns, the status is
    either [Connected! IP: ] followed by a text that is not empty, and
    then the connect command reported success, or [Failed: ] followed by
    the message of the failed command; and when an exception passes
    through, the status is left at [Connecting to ...]. *)
Theorem handle_connect_status :
  forall (World : Type) (spawn : list str -> World -> result process * World)
         ip_is_private format_other (scr : network_screen.NetworkScreen)
         (s : rstate World),
    let after := network_screen.handle_connect spawn ip_is_private format_other (scr, s) in
    let shown := network_screen.status (fst (snd after)) in
    (py_truthy (network_screen.selected_ssid scr) = false ->
     after = (Done tt, (showing (lit "Select a network first.") scr, s)))
    /\ (forall name,
           network_screen.selected_ssid scr = PyStr name -> name <> [] ->
           let cmd := plain_connect_cmd name (network_screen.password scr) in
           let tried := connect_network spawn name (network_screen.password scr) s in
           (forall proc w,
               spawn cmd (world s) = (Return proc, w) -> exceeds proc 30 ->
               (kill proc = Killed ->
                after = (Done tt,
                         (showing (lit "Failed: Timeout") scr,
                          {| world := w; trace := trace s ++ [Exec cmd; Kill cmd] |})))
               /\ (kill proc <> Killed ->
                   after = (Fails (Utility OSError),
                            (showing (lit "Connecting to " ++ name ++ [8230%N]) scr,
                             {| world := w; trace := trace s ++ [Exec cmd] |}))))
           /\ (fst after = Done tt ->
               (exists ip msg, ip <> [] /\ shown = lit "Connected! IP: " ++ ip
                               /\ fst tried = Return (true, msg))
               \/ (exists msg, shown = lit "Failed: " ++ msg
                               /\ fst tried = Return (false, msg)
                               /\ snd (snd after) = snd tried))
           /\ (forall e, fst after = Fails e ->
                         shown = lit "Connecting to " ++ name ++ [8230%N])).
Proof.
  intros World spawn judge fo scr s after shown. split.
  - intro Hsel. subst after.
    unfold network_screen.handle_connect, and_then at 1, network_screen.self.
    cbn [fst snd]. rewrite Hsel. reflexivity.
  - intros name Hsel Hne cmd tried.
    pose proof (handle_connect_named World spawn judge fo scr s name Hsel Hne) as H.
    cbv zeta in H. fold after tried in H. subst shown. split; [|split].
    + intros proc w Hspawn Hex. apply exceeds_finishes_within in Hex.
      rewrite H. subst tried. rewrite connect_network_unfold. fold cmd.
      unfold _run. rewrite Hspawn, Hex. split.
      * intros ->. reflexivity.
      * intro Hk. destruct (kill proc); [congruence | reflexivity | reflexivity].
    + intro Hdone. rewrite H in Hdone |- *.
      destruct tried as [[[[|] msg]|e] s1]; cbn [fst snd] in *.
      * destruct (get_ip_address spawn judge s1) as [[ip|e] s2]; [|discriminate Hdone].
        left. exists (network_screen.or_unknown ip), msg.
        split; [apply or_unknown_nonempty | split; reflexivity].
      * right. exists msg. repeat split; reflexivity.
      * discriminate Hdone.
    + intros e He. rewrite H in He |- *.
      destruct tried as [[[[|] msg]|e'] s1]; cbn [fst snd] in *.
      * destruct (get_ip_address spawn judge s1) as [[ip|e'] s2];
          [discriminate He | reflexivity].
      * discriminate He.
      * reflexivity.
Qed.

(** A screen on which the network [cafe] is selected. *)
Definition cafe_selected : network_screen.NetworkScreen :=
  {| network_screen.networks := [network_dict (lit "cafe") 70];
     network_screen.selected_ssid := PyStr (lit "cafe");
     network_screen.listview := [lit "cafe  (70%)"];
     network_screen.password := [];
     network_screen.status := [] |}.

Lemma handle_connect_status_witness :
  network_screen.handle_connect spawn_scripted dotted_quad_is_private no_format
    (cafe_selected, answers [hangs])
  = (Done tt,
     (showing (lit "Failed: Timeout") cafe_selected,
      {| world := [];
         trace := [Exec (plain_connect_cmd (lit "cafe") []);
                   Kill (plain_connect_cmd (lit "cafe") [])] |}))
  /\ network_screen.handle_connect spawn_scripted dotted_quad_is_private no_format
       (cafe_selected, answers [escapes Denied])
     = (Fails (Utility OSError),
        (showing (lit "Connecting to cafe" ++ [8230%N]) cafe_selected,
         {| world := []; trace := [Exec (plain_connect_cmd (lit "cafe") [])] |})).
Proof.
  split.
  - refine (proj1 (proj1 (proj2 (handle_connect_status scripted spawn_scripted
                                  dotted_quad_is_private no_format cafe_selected
                                  (answers [hangs]))
                               (lit "cafe") eq_refl _)
                        {| duration := None; returncode := 0; stdout := Some [];
                           stderr := Some []; kill := Killed |}
                        [] eq_refl I) eq_refl).
    discriminate.
  - refine (proj2 (proj1 (proj2 (handle_connect_status scripted spawn_scripted
                                  dotted_quad_is_private no_format cafe_selected
                                  (answers [escapes Denied]))
                               (lit "cafe") eq_refl _)
                        {| duration := None; returncode := 0; stdout := Some [];
                           stderr := Some []; kill := Denied |}
                        [] eq_refl I) _); discriminate.
Defined.

(** ** From the network screen to the next screen *)

(** X18.  Pressing Continue on the network screen.  The activation
    screen is reached exactly when the handler returns and
    [get_connectivity] answered [True]; when it answered [False] the
    summary screen with the error is shown; when an exception passes
    through no screen is pushed.  Since [get_connectivity] reads the
    error stream, a connectivity command that reports on its standard
    output and keeps the error stream silent never leads to the
    activation screen. *)
Theorem continue_after_network :
  forall (World : Type) (spawn : list str -> World -> result process * World)
         (lower : str -> str) ip_is_private (s : rstate World) (st : stack),
    let after := network_screen.handle_done spawn lower ip_is_private after_network
                   (s, on_mount st) in
    let app := snd (snd after) in
    let connected := fst (get_connectivity spawn lower s) in
    (hd_error app = Some ActivationScreen <-> fst after = Done tt /\ connected = Return true)
    /\ (fst after = Done tt -> connected = Return false ->
        app = SummaryScreen network_error :: NetworkScreen :: st)
    /\ (forall e, fst after = Fails e -> app = on_mount st)
    /\ (forall proc w out err,
           spawn connectivity_cmd (world s) = (Return proc, w) ->
           finishes_within proc 10 = true ->
           stdout proc = Some out -> stderr proc = Some err ->
           strip err = [] -> lower [] = [] ->
           hd_error app <> Some ActivationScreen).
Proof.
  intros World spawn lower judge s st after app connected.
  assert (Hafter : after =
            match get_connectivity spawn lower s with
            | (Raise e, s1) => (Fails (Utility e), (s1, on_mount st))
            | (Return c, s1) =>
              match get_ip_address spawn judge s1 with
              | (Raise e, s2) => (Fails (Utility e), (s2, on_mount st))
              | (Return ip, s2) =>
                (Done tt, (s2, after_network (network_step_result c ip) (on_mount st)))
              end
            end) by reflexivity.
  assert (Hmain :
    (hd_error app = Some ActivationScreen <-> fst after = Done tt /\ connected = Return true)
    /\ (fst after = Done tt -> connected = Return false ->
        app = SummaryScreen network_error :: NetworkScreen :: st)
    /\ (forall e, fst after = Fails e -> app = on_mount st)).
  { subst app connected. rewrite Hafter.
    destruct (get_connectivity spawn lower s) as [[c|e] s1]; cbn [fst snd].
    - destruct (get_ip_address spawn judge s1) as [[ip|e] s2]; cbn [fst snd].
      + destruct c; cbn; (split; [split|split]).
        * intros _. split; reflexivity.
        * intros _. reflexivity.
        * intros _ H. discriminate H.
        * intros e H. discriminate H.
        * intro H. discriminate H.
        * intros [_ H]. discriminate H.
        * intros _ _. reflexivity.
        * intros e H. discriminate H.
      + split; [split|split].
        * intro H. discriminate H.
        * intros [H _]. discriminate H.
        * intro H. discriminate H.
        * intros e0 _. reflexivity.
    - split; [split|split].
      + intro H. discriminate H.
      + intros [H _]. discriminate H.
      + intro H. discriminate H.
      + intros e0 _. reflexivity. }
  destruct Hmain as [H1 [H2 H3]]. split; [exact H1|]. split; [exact H2|].
  split; [exact H3|].
  intros proc w out err Hspawn Hfin Hout Herr Hsilent Hlower Htop.
  apply H1 in Htop. destruct Htop as [_ Hc]. subst connected.
  rewrite (get_connectivity_finished World spawn lower s proc w out err
             Hspawn Hfin Hout Herr) in Hc.
  rewrite Hsilent, Hlower in Hc. cbn [fst] in Hc.
  rewrite andb_false_r in Hc. discriminate Hc.
Qed.

Lemma continue_after_network_witness :
  hd_error (snd (snd (network_screen.handle_done spawn_scripted ascii_lower
                        dotted_quad_is_private after_network
                        (answers [writes 0 "full" ""; prints 0 "192.168.1.7"],
                         on_mount []))))
  <> Some ActivationScreen.
Proof.
  exact (proj2 (proj2 (proj2 (continue_after_network scripted spawn_scripted ascii_lower
                                dotted_quad_is_private
                                (answers [writes 0 "full" ""; prints 0 "192.168.1.7"]) [])))
               {| duration := Some (1 # 10)%Q; returncode := 0;
                  stdout := Some (lit "full"); stderr := Some [];
            kill := Killed |}
               [prints 0 "192.168.1.7"] (lit "full") [] eq_refl eq_refl eq_refl eq_refl
               eq_refl eq_refl).
Defined.


(** ** What the readers of [json.loads] leave of a text *)

(** [r] is the end of the text [s]. *)
Definition tail_of (r s : str) : Prop := exists p, s = p ++ r.

Lemma tail_of_refl : forall s, tail_of s s.
Proof. intro s. now exists []. Qed.

Lemma tail_of_cons : forall c r s, tail_of r s -> tail_of r (c :: s).
Proof. intros c r s [p ->]. now exists (c :: p). Qed.

Lemma tail_of_trans : forall a b c, tail_of a b -> tail_of b c -> tail_of a c.
Proof. intros a b c [p ->] [p' ->]. exists (p' ++ p). now rewrite List.app_assoc. Qed.

Lemma tail_of_Forall : forall (P : N -> Prop) r s,
  tail_of r s -> Forall P s -> Forall P r.
Proof. intros P r s [p ->] H. apply Forall_app in H. now destruct H. Qed.

Lemma tail_of_length : forall r s, tail_of r s -> (List.length r <= List.length s)%nat.
Proof. intros r s [p ->]. rewrite length_app. lia. Qed.

Create HintDb tails.
#[local] Hint Resolve tail_of_refl tail_of_cons : tails.

Lemma skip_ws_tail : forall s, tail_of (skip_ws s) s.
Proof.
  induction s as [|c s IH]; simpl; [apply tail_of_refl|].
  destruct (json_ws c); [now apply tail_of_cons | apply tail_of_refl].
Qed.

Lemma skipn_tail : forall n (s : str), tail_of (skipn n s) s.
Proof. intros n s. exists (firstn n s). symmetry. apply firstn_skipn. Qed.

Lemma strip_prefix_tail : forall p s r, strip_prefix p s = Some r -> tail_of r s.
Proof.
  intros p s r H. unfold strip_prefix in H.
  destruct (startswith s p); [|discriminate H]. injection H as <-. apply skipn_tail.
Qed.

Lemma span_digits_tail : forall s ds r, span_digits s = (ds, r) -> tail_of r s.
Proof.
  induction s as [|c s IH]; intros ds r H; simpl in H.
  - injection H as _ <-. apply tail_of_refl.
  - destruct (is_digit c).
    + destruct (span_digits s) as [ds' r'] eqn:E. injection H as _ <-.
      apply tail_of_cons. now apply IH with ds'.
    + injection H as _ <-. apply tail_of_refl.
Qed.

Lemma match_number_tail : forall float_of_str s v r,
  match_number float_of_str s = Some (v, r) -> tail_of r s.
Proof.
  intros fl s v r H. unfold match_number in H.
  assert (H1 : tail_of (snd (number_sign s)) s).
  { destruct s as [|c s']; simpl; [apply tail_of_refl|].
    destruct (N.eqb c 45); simpl; auto with tails. }
  destruct (number_sign s) as [sign s1]. cbn [snd] in H1.
  destruct (number_int s1) as [[ds s2]|] eqn:E2; [|discriminate H].
  assert (H2 : tail_of s2 s1).
  { destruct s1 as [|c r1]; [discriminate E2|]. cbn [number_int] in E2.
    destruct (N.eqb c 48); [injection E2 as _ <-; auto with tails|].
    destruct (is_digit c); [|discriminate E2]. injection E2 as E2.
    exact (span_digits_tail (c :: r1) ds s2 E2). }
  assert (H3 : tail_of (snd (number_frac s2)) s2).
  { destruct s2 as [|c r2]; cbn [number_frac]; [apply tail_of_refl|].
    destruct (N.eqb c 46); [|apply tail_of_refl].
    destruct (span_digits r2) as [[|f fs] r'] eqn:E; cbn [snd]; [apply tail_of_refl|].
    apply tail_of_cons. now apply span_digits_tail in E. }
  destruct (number_frac s2) as [frac s3]. cbn [snd] in H3.
  assert (H4 : tail_of (snd (number_exp s3)) s3).
  { destruct s3 as [|e r3]; cbn [number_exp]; [apply tail_of_refl|].
    destruct (N.eqb e 101 || N.eqb e 69); [|apply tail_of_refl].
    destruct r3 as [|c r0].
    - cbn [span_digits snd]. apply tail_of_refl.
    - destruct (N.eqb c 43 || N.eqb c 45).
      + destruct (span_digits r0) as [[|d ds'] r'] eqn:E; cbn [snd]; [apply tail_of_refl|].
        do 2 apply tail_of_cons. now apply span_digits_tail in E.
      + destruct (span_digits (c :: r0)) as [[|d ds'] r'] eqn:E; cbn [snd];
          [apply tail_of_refl|].
        apply tail_of_cons. now apply span_digits_tail in E. }
  destruct (number_exp s3) as [exp s4]. cbn [snd] in H4.
  assert (r = s4).
  { destruct frac; [destruct exp|].
    - destruct (py_int (sign ++ ds)); [|discriminate H]. now injection H as _ <-.
    - now injection H as _ <-.
    - now injection H as _ <-. }
  subst r.
  apply (tail_of_trans _ _ _ H4), (tail_of_trans _ _ _ H3), (tail_of_trans _ _ _ H2), H1.
Qed.

(** An integer that [match_number] reads is within the limit of digits. *)
Lemma match_number_fits : forall float_of_str s z r,
  match_number float_of_str s = Some (PyInt z, r) -> int_fits z = true.
Proof.
  intros fl s z r H. unfold match_number in H.
  destruct (number_sign s) as [sign s1].
  destruct (number_int s1) as [[ds s2]|]; [|discriminate H].
  destruct (number_frac s2) as [frac s3]. destruct (number_exp s3) as [exp s4].
  destruct frac; [destruct exp|]; try discriminate H.
  destruct (py_int (sign ++ ds)) as [z'|] eqn:E; [|discriminate H].
  injection H as <- _. now apply py_int_fits in E.
Qed.

Lemma match_number_kind : forall float_of_str s v r,
  match_number float_of_str s = Some (v, r) ->
  (exists z, v = PyInt z) \/ (exists f, v = PyFloat f).
Proof.
  intros fl s v r H. unfold match_number in H.
  destruct (number_sign s) as [sign s1].
  destruct (number_int s1) as [[ds s2]|]; [|discriminate H].
  destruct (number_frac s2) as [frac s3]. destruct (number_exp s3) as [exp s4].
  destruct frac; [destruct exp|].
  - destruct (py_int (sign ++ ds)) as [z'|]; [|discriminate H].
    injection H as <- _. left. now eexists.
  - injection H as <- _. right. now eexists.
  - injection H as <- _. right. now eexists.
Qed.

Lemma scanstring_tail : forall n s x r,
  (List.length s <= n)%nat -> scanstring s = Some (x, r) -> tail_of r s.
Proof.
  induction n as [|n IH]; intros s x r Hn H.
  - destruct s; [discriminate H | simpl in Hn; lia].
  - destruct s as [|c rest]; [discriminate H|]. simpl in Hn.
    assert (Hrec : forall s' y, (List.length s' <= n)%nat ->
                                cons_fst y (scanstring s') = Some (x, r) -> tail_of r s').
    { intros s' y Hs' Hc. apply cons_fst_Some in Hc. destruct Hc as [x' Hc].
      now apply IH in Hc. }
    cbn [scanstring] in H.
    destruct (N.eqb c 34); [injection H as _ <-; auto with tails|].
    destruct (N.eqb c 92).
    + destruct rest as [|e rest1]; [discriminate H|].
      destruct (N.eqb e 117).
      * destruct rest1 as [|h1 [|h2 [|h3 [|h4 rest2]]]]; try discriminate H.
        destruct (hex4 h1 h2 h3 h4) as [uni|]; [|discriminate H].
        assert (Hrest2 : tail_of r rest2 -> tail_of r (c :: e :: h1 :: h2 :: h3 :: h4 :: rest2))
          by (intro Ht; do 6 apply tail_of_cons; exact Ht).
        destruct rest2 as [|b [|u [|l1 [|l2 [|l3 [|l4 rest3]]]]]];
          try (apply Hrest2; apply Hrec in H; [exact H | cbn [List.length] in *; lia]).
        destruct (is_high_surrogate uni && N.eqb b 92 && N.eqb u 117).
        -- destruct (hex4 l1 l2 l3 l4) as [uni2|]; [|discriminate H].
           destruct (is_low_surrogate uni2).
           ++ apply Hrest2. do 6 apply tail_of_cons.
              apply Hrec in H; [exact H | cbn [List.length] in *; lia].
           ++ apply Hrest2. apply Hrec in H; [exact H | cbn [List.length] in *; lia].
        -- apply Hrest2. apply Hrec in H; [exact H | cbn [List.length] in *; lia].
      * destruct (backslash e); [|discriminate H].
        do 2 apply tail_of_cons. apply Hrec in H; [exact H | cbn [List.length] in *; lia].
    + destruct (N.ltb c 32); [discriminate H|].
      apply tail_of_cons. apply Hrec in H; [exact H | lia].
Qed.

(** ** The values that [json.loads] returns *)

Section WellRead.

(** What is known of the strings. *)
Variable okstr : str -> bool.

(** The shape of a value read from a text: integers within the limit of
    digits, no tuple, dictionaries with pairwise different [str] keys. *)
Fixpoint well_read (v : pyval) : bool :=
  match v with
  | PyNone | PyBool _ | PyFloat _ => true
  | PyInt z => int_fits z
  | PyStr s => okstr s
  | PyTuple _ => false
  | PyList l => forallb well_read l
  | PyDict items =>
    forallb (fun kv => match kv with
                       | (PyStr s, x) => okstr s && well_read x
                       | _ => false
                       end) items
    && distinct (map item_key items)
  end.

Definition keyed (kv : pyval * pyval) : bool :=
  match kv with
  | (PyStr s, x) => okstr s && well_read x
  | _ => false
  end.

Lemma mem_str_app : forall k l m, mem_str k (l ++ m) = mem_str k l || mem_str k m.
Proof. intros k l m. unfold mem_str. apply existsb_app. Qed.

Lemma distinct_snoc : forall l k,
  distinct l = true -> mem_str k l = false -> distinct (l ++ [k]) = true.
Proof.
  induction l as [|a l IH]; intros k Hd Hk; [reflexivity|].
  cbn [distinct app] in *. apply andb_true_iff in Hd. destruct Hd as [Ha Hd].
  cbn [mem_str existsb] in Hk. apply orb_false_iff in Hk. destruct Hk as [Hka Hk].
  apply andb_true_iff. split; [|now apply IH].
  rewrite mem_str_app. apply negb_true_iff in Ha. rewrite Ha. cbn.
  rewrite orb_false_r. destruct (str_eqb a k) eqn:E; [|reflexivity].
  apply str_eqb_eq in E. subst a. now rewrite str_eqb_refl in Hka.
Qed.

Lemma dict_set_keys : forall items k x,
  forallb keyed items = true ->
  map item_key (dict_set items k x)
  = if mem_str k (map item_key items) then map item_key items
    else map item_key items ++ [k].
Proof.
  induction items as [|[k0 x0] items IH]; intros k x H; [reflexivity|].
  cbn [forallb] in H. apply andb_true_iff in H. destruct H as [H0 H].
  destruct k0 as [ | | | |s| | | ]; try discriminate H0.
  cbn [dict_set map item_key fst mem_str existsb].
  destruct (str_eqb s k) eqn:E.
  - apply str_eqb_eq in E. subst s. now rewrite str_eqb_refl.
  - replace (str_eqb k s) with false
      by (symmetry; apply str_eqb_neq; intros ->; now rewrite str_eqb_refl in E).
    cbn [map item_key fst orb]. rewrite (IH k x H). fold (mem_str k (map item_key items)).
    destruct (mem_str k (map item_key items)); reflexivity.
Qed.

Lemma dict_set_keyed : forall items k x,
  forallb keyed items = true -> okstr k = true -> well_read x = true ->
  forallb keyed (dict_set items k x) = true.
Proof.
  induction items as [|[k0 x0] items IH]; intros k x H Hk Hx.
  - cbn. now rewrite Hk, Hx.
  - cbn [forallb] in H. apply andb_true_iff in H. destruct H as [H0 H].
    destruct k0 as [ | | | |s| | | ]; try discriminate H0.
    cbn [dict_set]. destruct (str_eqb s k) eqn:E.
    + cbn [forallb keyed] in *. apply andb_true_iff in H0. destruct H0 as [Hs _].
      now rewrite Hs, Hx, H.
    + cbn [forallb]. rewrite H0. now apply IH.
Qed.

Lemma dict_set_well_read : forall items k x,
  well_read (PyDict items) = true -> okstr k = true -> well_read x = true ->
  well_read (PyDict (dict_set items k x)) = true.
Proof.
  intros items k x H Hk Hx. cbn [well_read] in *. fold keyed in *.
  apply andb_true_iff in H. destruct H as [Hall Hd].
  apply andb_true_iff. split; [now apply dict_set_keyed|].
  rewrite dict_set_keys by assumption.
  destruct (mem_str k (map item_key items)) eqn:E; [assumption | now apply distinct_snoc].
Qed.

Lemma dict_of_pairs_well_read : forall pairs acc,
  well_read (PyDict acc) = true ->
  Forall (fun kv : str * pyval => okstr (fst kv) = true /\ well_read (snd kv) = true) pairs ->
  well_read (PyDict (fold_left (fun d kv => dict_set d (fst kv) (snd kv)) pairs acc)) = true.
Proof.
  induction pairs as [|[k x] pairs IH]; intros acc Hacc H; [exact Hacc|].
  inversion H as [|? ? [Hk Hx] H']; subst. cbn [fold_left fst snd].
  apply IH; [|assumption]. now apply dict_set_well_read.
Qed.

Section Readers.

Variable float_of_str : str -> spec_float.
Variable deep_read : nat -> N -> bool.

(** What is known of the characters of the text. *)
Variable okchar : N -> Prop.

Hypothesis scanstring_ok : forall s x r,
  Forall okchar s -> scanstring s = Some (x, r) -> okstr x = true.

Lemma readers_well_read : forall fuel,
  (forall level s v r, Forall okchar s ->
                       scan_once float_of_str deep_read level fuel s = Return (v, r) ->
                 well_read v = true /\ tail_of r s)
  /\ (forall level s vs r, Forall okchar s ->
                        parse_elements float_of_str deep_read level fuel s = Return (vs, r) ->
                     forallb well_read vs = true /\ tail_of r s)
  /\ (forall level s kvs r, Forall okchar s ->
                         parse_members float_of_str deep_read level fuel s = Return (kvs, r) ->
                      Forall (fun kv : str * pyval =>
                                okstr (fst kv) = true /\ well_read (snd kv) = true) kvs
                      /\ tail_of r s).
Proof.
  induction fuel as [|fuel [IHs [IHe IHm]]];
    [repeat split; intros; discriminate|].
  split; [|split].
  - intros level s v r Hok H. destruct s as [|c rest]; [discriminate H|].
    assert (Hrest : Forall okchar rest) by (now inversion Hok).
    rewrite scan_once_eq in H.
    destruct (deep_read level c); [discriminate H|].
    destruct (N.eqb c 34).
    { destruct (scanstring rest) as [[x r']|] eqn:E; [|discriminate H].
      injection H as <- <-. split.
      - cbn [well_read]. now apply scanstring_ok in E.
      - apply tail_of_cons. now apply (scanstring_tail _ _ _ _ (le_n _)) in E. }
    destruct (N.eqb c 123).
    { pose proof (skip_ws_tail rest) as Hw.
      destruct (skip_ws rest) as [|d r0] eqn:Es; [discriminate H|].
      destruct (N.eqb d 125);
        [injection H as <- <-; split; [reflexivity|];
         apply tail_of_cons; apply (tail_of_trans _ (d :: r0)); auto with tails|].
      destruct (parse_members float_of_str deep_read (S level) fuel (d :: r0)) as [[pairs r']|e0] eqn:E;
      [|discriminate H].
      injection H as <- <-. apply IHm in E; [|now apply (tail_of_Forall _ _ _ Hw)].
      destruct E as [Hp Ht]. split.
      - unfold dict_of_pairs. now apply dict_of_pairs_well_read.
      - apply tail_of_cons. now apply (tail_of_trans _ (d :: r0)). }
    destruct (N.eqb c 91).
    { pose proof (skip_ws_tail rest) as Hw.
      destruct (skip_ws rest) as [|d r0] eqn:Es; [discriminate H|].
      destruct (N.eqb d 93);
        [injection H as <- <-; split; [reflexivity|];
         apply tail_of_cons; apply (tail_of_trans _ (d :: r0)); auto with tails|].
      destruct (parse_elements float_of_str deep_read (S level) fuel (d :: r0)) as [[vs r']|e0] eqn:E;
      [|discriminate H].
      injection H as <- <-. apply IHe in E; [|now apply (tail_of_Forall _ _ _ Hw)].
      destruct E as [Hp Ht]. split; [exact Hp|].
      apply tail_of_cons. now apply (tail_of_trans _ (d :: r0)). }
    destruct (strip_prefix (lit "null") (c :: rest)) as [r1|] eqn:E1.
    { injection H as <- <-. split; [reflexivity | now apply strip_prefix_tail in E1]. }
    destruct (strip_prefix (lit "true") (c :: rest)) as [r2|] eqn:E2.
    { injection H as <- <-. split; [reflexivity | now apply strip_prefix_tail in E2]. }
    destruct (strip_prefix (lit "false") (c :: rest)) as [r3|] eqn:E3.
    { injection H as <- <-. split; [reflexivity | now apply strip_prefix_tail in E3]. }
    destruct (match_number float_of_str (c :: rest)) as [[v' r']|] eqn:Em.
    { injection H as <- <-. split; [|now apply match_number_tail in Em].
      destruct (match_number_kind _ _ _ _ Em) as [[z ->] | [f ->]]; [|reflexivity].
      cbn [well_read]. now apply match_number_fits in Em. }
    destruct (strip_prefix (lit "NaN") (c :: rest)) as [r4|] eqn:E4.
    { injection H as <- <-. split; [reflexivity | now apply strip_prefix_tail in E4]. }
    destruct (strip_prefix (lit "Infinity") (c :: rest)) as [r5|] eqn:E5.
    { injection H as <- <-. split; [reflexivity | now apply strip_prefix_tail in E5]. }
    destruct (strip_prefix (lit "-Infinity") (c :: rest)) as [r6|] eqn:E6;
      [|discriminate H].
    injection H as <- <-. split; [reflexivity | now apply strip_prefix_tail in E6].
  - intros level s vs r Hok H. rewrite parse_elements_eq in H.
    destruct (scan_once float_of_str deep_read level fuel s) as [[v r0]|e0] eqn:E;
      [|discriminate H].
    apply IHs in E; [|assumption]. destruct E as [Hv Ht0].
    pose proof (skip_ws_tail r0) as Hw.
    destruct (skip_ws r0) as [|d r1] eqn:Es; [discriminate H|].
    assert (Ht1 : tail_of r1 s).
    { apply (tail_of_trans _ (d :: r1)); [auto with tails|].
      now apply (tail_of_trans _ r0). }
    destruct (N.eqb d 93).
    { injection H as <- <-. split; [|exact Ht1]. cbn. now rewrite Hv. }
    destruct (N.eqb d 44); [|discriminate H].
    destruct (parse_elements float_of_str deep_read level fuel (skip_ws r1)) as [[vs' r2]|e0] eqn:E2;
      [|discriminate H].
    injection H as <- <-.
    assert (Ht2 : tail_of (skip_ws r1) s) by (apply (tail_of_trans _ r1); [apply skip_ws_tail | exact Ht1]).
    apply IHe in E2; [|now apply (tail_of_Forall _ _ _ Ht2)].
    destruct E2 as [Hvs Ht]. split; [cbn; now rewrite Hv, Hvs|].
    now apply (tail_of_trans _ (skip_ws r1)).
  - intros level s kvs r Hok H. destruct s as [|q s1]; [discriminate H|].
    rewrite parse_members_eq in H.
    assert (Hs1 : Forall okchar s1) by (now inversion Hok).
    destruct (N.eqb q 34); [|discriminate H].
    destruct (scanstring s1) as [[key r0]|] eqn:E; [|discriminate H].
    pose proof (scanstring_ok _ _ _ Hs1 E) as Hkey.
    apply (scanstring_tail _ _ _ _ (le_n _)) in E.
    pose proof (skip_ws_tail r0) as Hw0.
    destruct (skip_ws r0) as [|colon r1] eqn:Es0; [discriminate H|].
    destruct (N.eqb colon 58); [|discriminate H].
    assert (Ht1 : tail_of (skip_ws r1) s1).
    { apply (tail_of_trans _ r1); [apply skip_ws_tail|].
      apply (tail_of_trans _ (colon :: r1)); [auto with tails|].
      now apply (tail_of_trans _ r0). }
    destruct (scan_once float_of_str deep_read level fuel (skip_ws r1)) as [[v r2]|e0] eqn:E2;
      [|discriminate H].
    apply IHs in E2; [|now apply (tail_of_Forall _ _ _ Ht1)].
    destruct E2 as [Hv Ht2].
    pose proof (skip_ws_tail r2) as Hw2.
    destruct (skip_ws r2) as [|d r3] eqn:Es2; [discriminate H|].
    assert (Ht3 : tail_of r3 s1).
    { apply (tail_of_trans _ (d :: r3)); [auto with tails|].
      apply (tail_of_trans _ r2); [exact Hw2|].
      now apply (tail_of_trans _ (skip_ws r1)). }
    destruct (N.eqb d 125).
    { injection H as <- <-. split; [|now apply tail_of_cons].
      constructor; [now split | constructor]. }
    destruct (N.eqb d 44); [|discriminate H].
    destruct (parse_members float_of_str deep_read level fuel (skip_ws r3)) as [[kvs' r4]|e0] eqn:E3;
      [|discriminate H].
    injection H as <- <-.
    assert (Ht4 : tail_of (skip_ws r3) s1)
      by (apply (tail_of_trans _ r3); [apply skip_ws_tail | exact Ht3]).
    apply IHm in E3; [|now apply (tail_of_Forall _ _ _ Ht4)].
    destruct E3 as [Hkvs Ht]. split.
    + constructor; [now split | exact Hkvs].
    + apply tail_of_cons. now apply (tail_of_trans _ (skip_ws r3)).
Qed.

Lemma loads_well_read : forall content v,
  Forall okchar content ->
  loads float_of_str deep_read content = Return v -> well_read v = true.
Proof.
  intros content v Hok H. unfold loads in H.
  destruct (scan_once float_of_str deep_read 0 _ (skip_ws content)) as [[v' r]|e0] eqn:E;
    [|discriminate H].
  destruct (skip_ws r); [|discriminate H]. injection H as <-.
  destruct (readers_well_read (2 * List.length content + 2)) as [Hs _].
  apply Hs in E; [now destruct E|].
  exact (tail_of_Forall _ _ _ (skip_ws_tail content) Hok).
Qed.

End Readers.

End WellRead.

(** ** What is read can be written, and read again *)

Section ScannedStrings.

Local Open Scope N_scope.

(** A code point of a decoded text: within the range of Unicode and no
    surrogate. *)
Definition plain (c : N) : Prop :=
  c < 1114112 /\ is_high_surrogate c = false /\ is_low_surrogate c = false.

Definition starts_low (x : str) : bool :=
  match x with
  | d :: _ => is_low_surrogate d
  | [] => false
  end.

Lemma hex_value_bound : forall c d, hex_value c = Some d -> d < 16.
Proof.
  intros c d H. unfold hex_value in H.
  destruct ((48 <=? c) && (c <=? 57)) eqn:E1.
  { apply andb_true_iff in E1. destruct E1 as [Ha Hb]. apply N.leb_le in Ha, Hb.
    injection H as <-. lia. }
  destruct ((97 <=? c) && (c <=? 102)) eqn:E2.
  { apply andb_true_iff in E2. destruct E2 as [Ha Hb]. apply N.leb_le in Ha, Hb.
    injection H as <-. lia. }
  destruct ((65 <=? c) && (c <=? 70)) eqn:E3; [|discriminate H].
  apply andb_true_iff in E3. destruct E3 as [Ha Hb]. apply N.leb_le in Ha, Hb.
  injection H as <-. lia.
Qed.

Lemma hex4_bound : forall a b c d n, hex4 a b c d = Some n -> n < 65536.
Proof.
  intros a b c d n H. unfold hex4 in H.
  destruct (hex_value a) as [x|] eqn:Ea; [|discriminate H].
  destruct (hex_value b) as [y|] eqn:Eb; [|discriminate H].
  destruct (hex_value c) as [z|] eqn:Ec; [|discriminate H].
  destruct (hex_value d) as [w|] eqn:Ed; [|discriminate H].
  apply hex_value_bound in Ea. apply hex_value_bound in Eb.
  apply hex_value_bound in Ec. apply hex_value_bound in Ed.
  assert (Hn : n = 4096 * x + 256 * y + 16 * z + w) by congruence. lia.
Qed.

Lemma joined_bound : forall uni uni2,
  is_high_surrogate uni = true -> is_low_surrogate uni2 = true ->
  65536 <= 65536 + N.lor (N.shiftl (uni - 55296) 10) (uni2 - 56320) < 1114112.
Proof.
  intros uni uni2 Hh Hl. unfold is_high_surrogate in Hh. unfold is_low_surrogate in Hl.
  apply andb_true_iff in Hh, Hl. destruct Hh as [H1 H2]. destruct Hl as [H3 H4].
  apply N.leb_le in H1, H2, H3, H4. split; [lia|].
  assert (Hlor : N.lor (N.shiftl (uni - 55296) 10) (uni2 - 56320) < 2 ^ 20).
  { set (a := N.shiftl (uni - 55296) 10). set (b := uni2 - 56320).
    assert (Ha : a < 2 ^ 20).
    { subst a. rewrite N.shiftl_mul_pow2. change (2 ^ 20) with (1024 * 2 ^ 10).
      apply N.mul_lt_mono_pos_r; lia. }
    assert (Hb : b < 2 ^ 20) by (subst b; change (2 ^ 20) with 1048576; lia).
    destruct (N.eq_dec (N.lor a b) 0) as [-> | Hnz]; [reflexivity|].
    apply N.log2_lt_pow2; [lia|]. rewrite N.log2_lor.
    apply N.max_lub_lt.
    - destruct (N.eq_dec a 0) as [-> | Ha0]; [reflexivity|]. apply N.log2_lt_pow2; lia.
    - destruct (N.eq_dec b 0) as [-> | Hb0]; [reflexivity|]. apply N.log2_lt_pow2; lia. }
  change (2 ^ 20) with 1048576 in Hlor. lia.
Qed.

Lemma backslash_plain : forall e ch, backslash e = Some ch -> ch < 128.
Proof.
  intros e ch H. unfold backslash in H.
  repeat match type of H with
         | (if ?b then _ else _) = _ => destruct b; [injection H as <-; reflexivity|]
         end.
  discriminate H.
Qed.

Lemma low_not_high : forall c, is_low_surrogate c = true -> is_high_surrogate c = false.
Proof.
  intros c H. unfold is_low_surrogate in H. unfold is_high_surrogate.
  apply andb_true_iff in H. destruct H as [H1 _]. apply N.leb_le in H1.
  apply andb_false_iff. right. apply N.leb_gt. lia.
Qed.

Lemma text_ok_cons : forall c x,
  c < 1114112 -> (is_high_surrogate c = true -> starts_low x = false) ->
  text_ok x = true -> text_ok (c :: x) = true.
Proof.
  intros c x Hc Hpair Hx. cbn [text_ok]. rewrite Hx, andb_true_r.
  apply andb_true_iff. split; [now apply N.ltb_lt|].
  apply negb_true_iff. destruct (is_high_surrogate c); [|reflexivity].
  cbn [andb]. now apply Hpair.
Qed.

Lemma small_not_surrogate : forall c,
  c < 55296 -> is_high_surrogate c = false /\ is_low_surrogate c = false.
Proof.
  intros c H. unfold is_high_surrogate, is_low_surrogate.
  split; apply andb_false_iff; left; apply N.leb_gt; lia.
Qed.

Lemma large_not_surrogate : forall c,
  65536 <= c -> is_high_surrogate c = false /\ is_low_surrogate c = false.
Proof.
  intros c H. unfold is_high_surrogate, is_low_surrogate.
  split; apply andb_false_iff; right; apply N.leb_gt; lia.
Qed.

(** The strings that [scanstring] reads in a decoded text: a surrogate
    comes from an escape only, and a high one directly followed by the
    escape of a low one has been joined with it. *)
Lemma scanstring_text_ok : forall n s x r,
  (List.length s <= n)%nat -> Forall plain s -> scanstring s = Some (x, r) ->
  text_ok x = true /\ (low_escape_head s = false -> starts_low x = false).
Proof.
  induction n as [|n IH]; intros s x r Hn Hs H.
  - destruct s; [discriminate H | simpl in Hn; lia].
  - destruct s as [|c rest]; [discriminate H|]. simpl in Hn.
    assert (Hrest : Forall plain rest) by (now inversion Hs).
    assert (Hc : plain c) by (now inversion Hs).
    assert (Hrec : forall s' y, (List.length s' <= n)%nat -> Forall plain s' ->
                     cons_fst y (scanstring s') = Some (x, r) ->
                     exists x', x = y :: x' /\ text_ok x' = true
                                /\ (low_escape_head s' = false -> starts_low x' = false)).
    { intros s' y Hs' Hp Hcons.
      destruct (scanstring s') as [[x' r']|] eqn:E; [|discriminate Hcons].
      cbn [cons_fst] in Hcons. injection Hcons as <- <-.
      exists x'. split; [reflexivity|]. exact (IH s' x' r' Hs' Hp E). }
    cbn [scanstring] in H.
    destruct (N.eqb c 34); [injection H as <- <-; split; reflexivity|].
    destruct (N.eqb_spec c 92) as [-> | Hc92].
    + destruct rest as [|e rest1]; [discriminate H|].
      assert (Hrest1 : Forall plain rest1) by (now inversion Hrest).
      destruct (N.eqb_spec e 117) as [-> | He].
      * destruct rest1 as [|h1 [|h2 [|h3 [|h4 rest2]]]]; try discriminate H.
        assert (Hrest2 : Forall plain rest2).
        { inversion Hrest1 as [|? ? _ H1]; subst. inversion H1 as [|? ? _ H2]; subst.
          inversion H2 as [|? ? _ H3]; subst. now inversion H3. }
        destruct (hex4 h1 h2 h3 h4) as [uni|] eqn:Ehex; [|discriminate H].
        pose proof (hex4_bound _ _ _ _ _ Ehex) as Huni.
        assert (Hsingle : low_escape_head rest2 = false \/ is_high_surrogate uni = false ->
                          cons_fst uni (scanstring rest2) = Some (x, r) ->
                          text_ok x = true
                          /\ (low_escape_head (92 :: 117 :: h1 :: h2 :: h3 :: h4 :: rest2) = false
                              -> starts_low x = false)).
        { intros Hcase Hcons. apply Hrec in Hcons; [|cbn [List.length] in *; lia | assumption].
          destruct Hcons as [x' [-> [Hx' Hlow]]]. split.
          - apply text_ok_cons; [lia | | assumption].
            intro Hhigh. destruct Hcase as [Hcase | Hcase]; [now apply Hlow | congruence].
          - cbn [low_escape_head starts_low]. rewrite Ehex. cbn. auto. }
        destruct rest2 as [|b [|u [|l1 [|l2 [|l3 [|l4 rest3]]]]]];
          try (apply Hsingle; [left; reflexivity | exact H]).
        destruct (is_high_surrogate uni) eqn:Ehigh; cbn [andb] in H;
          [|apply Hsingle; [now right | exact H]].
        destruct ((b =? 92) && (u =? 117)) eqn:Ebu;
          [|apply Hsingle; [left; cbn [low_escape_head]; now rewrite Ebu | exact H]].
        destruct (hex4 l1 l2 l3 l4) as [uni2|] eqn:Ehex2; [|discriminate H].
        destruct (is_low_surrogate uni2) eqn:Elow;
          [|apply Hsingle;
            [left; cbn [low_escape_head]; rewrite Ebu, Ehex2; exact Elow | exact H]].
        apply Hrec in H;
          [|cbn [List.length] in *; lia
           |inversion Hrest2 as [|? ? _ H1]; subst; inversion H1 as [|? ? _ H2]; subst;
            inversion H2 as [|? ? _ H3]; subst; inversion H3 as [|? ? _ H4]; subst;
            inversion H4 as [|? ? _ H5]; subst; now inversion H5].
        destruct H as [x' [-> [Hx' _]]].
        pose proof (joined_bound uni uni2 Ehigh Elow) as [Hge Hlt].
        destruct (large_not_surrogate _ Hge) as [Hnh Hnl]. split.
        -- apply text_ok_cons; [exact Hlt | congruence | exact Hx'].
        -- intros _. exact Hnl.
      * destruct (backslash e) as [ch|] eqn:Eb; [|discriminate H].
        apply Hrec in H; [|cbn [List.length] in *; lia | assumption].
        destruct H as [x' [-> [Hx' _]]].
        apply backslash_plain in Eb.
        destruct (small_not_surrogate ch) as [Hnh Hnl]; [lia|]. split.
        -- apply text_ok_cons; [lia | congruence | exact Hx'].
        -- intros _. exact Hnl.
    + destruct (N.ltb c 32); [discriminate H|].
      apply Hrec in H; [|lia | assumption].
      destruct H as [x' [-> [Hx' _]]]. destruct Hc as [Hmax [Hnh Hnl]]. split.
      * apply text_ok_cons; [exact Hmax | congruence | exact Hx'].
      * intros _. exact Hnl.
Qed.

Lemma scanstring_plain_text_ok : forall s x r,
  Forall plain s -> scanstring s = Some (x, r) -> text_ok x = true.
Proof.
  intros s x r Hs H. exact (proj1 (scanstring_text_ok _ s x r (le_n _) Hs H)).
Qed.

End ScannedStrings.

(** No float in the value. *)
Fixpoint float_free (v : pyval) : bool :=
  match v with
  | PyFloat _ => false
  | PyList l | PyTuple l => forallb float_free l
  | PyDict items => forallb (fun kv => float_free (fst kv) && float_free (snd kv)) items
  | _ => true
  end.

Lemma well_read_stable : forall v,
  well_read text_ok v = true -> float_free v = true -> stable v = true.
Proof.
  induction v as [ | b | z | f | s | l IH | l IH | items IH] using pyval_nested_ind;
    intros Hw Hf; try reflexivity; try discriminate; try exact Hw.
  - cbn [well_read float_free stable] in *. apply forallb_forall. intros x Hx.
    rewrite forallb_forall in Hw, Hf. rewrite Forall_forall in IH. auto.
  - cbn [well_read float_free stable] in *. apply andb_true_iff in Hw.
    destruct Hw as [Hw Hd]. rewrite Hd, andb_true_r.
    apply forallb_forall. intros [k x] Hkx.
    rewrite forallb_forall in Hw, Hf. rewrite Forall_forall in IH.
    specialize (Hw _ Hkx). specialize (Hf _ Hkx). specialize (IH _ Hkx).
    cbn [fst snd] in *. destruct k; try discriminate Hw.
    apply andb_true_iff in Hw. destruct Hw as [Hs Hx].
    apply andb_true_iff in Hf. destruct Hf as [_ Hfx].
    rewrite Hs. cbn [andb]. now apply IH.
Qed.

Section Writable.

Variable floatstr : spec_float -> str.
Variable deep_write : nat -> pyval -> bool.

(** The encoder returns a text, or gives up for the depth. *)
Definition written (r : result str) : Prop :=
  (exists t, r = Return t) \/ r = Raise RecursionError.

Lemma iterencode_list_written : forall enc level l first,
  Forall (fun x => written (enc x)) l ->
  written (iterencode_list enc level first l).
Proof.
  induction l as [|x l IH]; intros first H; [left; eexists; reflexivity|].
  inversion H as [|? ? Hx Hl]; subst. cbn [iterencode_list].
  destruct Hx as [[tx ->] | ->]; [|now right]. cbn [rbind].
  destruct (IH false Hl) as [[tl ->] | ->]; [left; eexists; reflexivity | now right].
Qed.

Lemma iterencode_dict_written : forall enc level l first,
  Forall (fun kv : pyval * pyval =>
            (exists s, fst kv = PyStr s) /\ written (enc (snd kv))) l ->
  written (iterencode_dict floatstr deep_write enc level first l).
Proof.
  induction l as [|[k x] l IH]; intros first H; [left; eexists; reflexivity|].
  inversion H as [|? ? [[s Hk] Hx] Hl]; subst. cbn [fst snd] in *. subst k.
  cbn [iterencode_dict]. destruct (deep_write (S level) (PyStr s)); [now right|].
  cbn [encode_key rbind].
  destruct Hx as [[tx ->] | ->]; [|now right]. cbn [rbind].
  destruct (IH false Hl) as [[tl ->] | ->]; [left; eexists; reflexivity | now right].
Qed.

(** [json.dumps] accepts a value of the shape that [json.loads] returns,
    at every level of indentation, unless the interpreter has no room
    for it. *)
Lemma well_read_iterencode : forall okstr v,
  well_read okstr v = true ->
  forall level, written (iterencode floatstr deep_write level v).
Proof.
  intros okstr.
  induction v as [ | b | z | f | s | l IH | l IH | items IH] using pyval_nested_ind;
    intros Hw level; try discriminate Hw; cbn [iterencode];
    (destruct (deep_write level _); [now right|]).
  - left; eexists; reflexivity.
  - destruct b; left; eexists; reflexivity.
  - cbn [well_read] in Hw. unfold int_repr. rewrite Hw. left; eexists; reflexivity.
  - left; eexists; reflexivity.
  - left; eexists; reflexivity.
  - destruct l as [|x l]; [left; eexists; reflexivity|].
    cbn [well_read] in Hw.
    destruct (iterencode_list_written (iterencode floatstr deep_write (S level)) level
                                      (x :: l) true) as [[t ->] | ->];
      [|left; eexists; reflexivity | now right].
    rewrite Forall_forall in IH |- *. rewrite forallb_forall in Hw. intros y Hy.
    now apply IH; [|apply Hw].
  - destruct items as [|kv items]; [left; eexists; reflexivity|].
    cbn [well_read] in Hw. apply andb_true_iff in Hw. destruct Hw as [Hw _].
    destruct (iterencode_dict_written (iterencode floatstr deep_write (S level)) level
                                      (kv :: items) true) as [[t ->] | ->];
      [|left; eexists; reflexivity | now right].
    rewrite Forall_forall in IH |- *. rewrite forallb_forall in Hw. intros [k y] Hy.
    specialize (Hw _ Hy). specialize (IH _ Hy). cbn [fst snd] in *.
    destruct k; try discriminate Hw. apply andb_true_iff in Hw. destruct Hw as [_ Hy'].
    split; [eexists; reflexivity | now apply IH].
Qed.

End Writable.

Section Reload.

Variable float_of_str : str -> spec_float.
Variable deep_read : nat -> N -> bool.

(** What [load_state] returns has the shape of a value read from a text,
    whatever the file holds. *)
Lemma load_state_well_read : forall fs v,
  load_state float_of_str deep_read fs = Return v ->
  well_read (fun _ => true) v = true.
Proof.
  intros fs v H. unfold load_state in H.
  destruct (state_file fs) as [ | | |content]; try discriminate H;
    try (injection H as <-; reflexivity).
  destruct (loads float_of_str deep_read content) as [v'|e] eqn:E;
    injection H as <-; [|reflexivity].
  apply (loads_well_read (fun _ => true) float_of_str deep_read (fun _ => True)) with content;
    [reflexivity | | exact E].
  apply Forall_forall. intros; exact I.
Qed.

(** In a decoded text its strings are without a high surrogate directly
    before a low one. *)
Lemma load_state_text_ok : forall fs v,
  match state_file fs with Text content => Forall plain content | _ => True end ->
  load_state float_of_str deep_read fs = Return v ->
  well_read text_ok v = true.
Proof.
  intros fs v Hdec H. unfold load_state in H.
  destruct (state_file fs) as [ | | |content]; try discriminate H;
    try (injection H as <-; reflexivity).
  destruct (loads float_of_str deep_read content) as [v'|e] eqn:E;
    injection H as <-; [|reflexivity].
  apply (loads_well_read text_ok float_of_str deep_read plain) with content;
    [exact scanstring_plain_text_ok | exact Hdec | exact E].
Qed.

End Reload.

(** ** The state store: what was loaded can be saved and loaded again *)

(** The state file, if there is one, holds a decoded text. *)
Definition decoded (fs : filesystem) : Prop :=
  match state_file fs with
  | Text content => Forall plain content
  | _ => True
  end.

Lemma below_surrogates_plain : forall s,
  forallb (fun c => c <? 55296)%N s = true -> Forall plain s.
Proof.
  intros s H. apply Forall_forall. intros c Hc.
  rewrite forallb_forall in H. specialize (H c Hc). apply N.ltb_lt in H.
  destruct (small_not_surrogate c H) as [Hh Hl]. repeat split; [lia | exact Hh | exact Hl].
Qed.

Lemma below_surrogates_text_ok : forall s,
  forallb (fun c => c <? 55296)%N s = true -> text_ok s = true.
Proof.
  induction s as [|c s IH]; intro H; [reflexivity|].
  cbn [forallb] in H. apply andb_true_iff in H. destruct H as [Hc Hs].
  apply N.ltb_lt in Hc. destruct (small_not_surrogate c Hc) as [Hh _].
  apply text_ok_cons; [lia | congruence | now apply IH].
Qed.

(** The file after [write_text] of [text]: the text when the write
    succeeds; when it fails, the file as it was if it could not be opened,
    and else the part of the text that was written. *)
Definition write_text (text : str) (fs : filesystem) : result unit * filesystem :=
  if write_ok fs then
    (Return tt,
     {| state_file := Text text; mkdir_ok := mkdir_ok fs; write_ok := write_ok fs;
        cut := cut fs |})
  else
    (Raise OSError,
     match cut fs with
     | None => fs
     | Some n =>
       {| state_file := Text (firstn n text); mkdir_ok := mkdir_ok fs;
          write_ok := write_ok fs; cut := cut fs |}
     end).

Lemma save_state_written : forall floatstr deep_write v text fs,
  dumps_indent2 floatstr deep_write v = Return text ->
  save_state floatstr deep_write v fs
  = if mkdir_ok fs then write_text text fs else (Raise OSError, fs).
Proof.
  intros floatstr deep_write v text fs H. unfold save_state, write_text. rewrite H.
  destruct (mkdir_ok fs), (write_ok fs); try reflexivity. destruct (cut fs); reflexivity.
Qed.

Lemma load_state_written : forall float_of_str deep_read text v mk wr ct,
  loads float_of_str deep_read text = Return v ->
  load_state float_of_str deep_read
    {| state_file := Text text; mkdir_ok := mk; write_ok := wr; cut := ct |} = Return v.
Proof.
  intros f2s deep text v mk wr ct H. unfold load_state. cbn [state_file]. now rewrite H.
Qed.

Lemma float_free_dict_set : forall items k x,
  float_free (PyDict items) = true -> float_free x = true ->
  float_free (PyDict (dict_set items k x)) = true.
Proof.
  induction items as [|[k0 x0] items IH]; intros k x H Hx.
  - cbn. now rewrite Hx.
  - cbn [float_free forallb fst snd] in H. apply andb_true_iff in H. destruct H as [H0 H].
    apply andb_true_iff in H0. destruct H0 as [Hk0 Hx0].
    specialize (IH k x H Hx). cbn [float_free] in IH.
    destruct k0; cbn [dict_set]; try destruct (str_eqb s k);
      cbn [float_free forallb fst snd] in *;
      rewrite ?Hk0, ?Hx0, ?Hx, ?H, ?IH; try reflexivity; try discriminate.
Qed.

(** Setting a string under a string key in a loaded state that is free
    of floats gives a value that a round through the file leaves as it
    is. *)
Lemma loaded_set_stable : forall float_of_str deep_read fs items k x,
  decoded fs -> load_state float_of_str deep_read fs = Return (PyDict items) ->
  float_free (PyDict items) = true ->
  text_ok k = true -> text_ok x = true ->
  stable (PyDict (dict_set items k (PyStr x))) = true.
Proof.
  intros f2s deep fs items k x Hdec Hload Hff Hk Hx.
  pose proof (load_state_text_ok f2s deep fs _ Hdec Hload) as Hw.
  apply well_read_stable.
  - now apply dict_set_well_read.
  - now apply float_free_dict_set.
Qed.

(** Setting a value under a key adds at most the depth of the value, one
    level down. *)
Lemma depth_dict_set : forall items k x,
  (depth (PyDict (dict_set items k x)) <= Nat.max (depth (PyDict items)) (S (depth x)))%nat.
Proof.
  induction items as [|[k0 x0] items IH]; intros k x.
  - cbn [dict_set]. rewrite depth_dict_cons. cbn [depth fold_right]. lia.
  - specialize (IH k x). rewrite depth_dict_cons.
    destruct k0; cbn [dict_set]; try destruct (str_eqb s k);
      rewrite !depth_dict_cons; lia.
Qed.

(** A value that a round through the file leaves as it is, is saved and
    loaded again where the interpreter has room for it. *)
Lemma stable_reloads : forall floatstr float_of_str deep_write deep_read n v disk,
  write_room deep_write n -> read_room deep_read n ->
  stable v = true -> (depth v <= n)%nat ->
  mkdir_ok disk = true -> write_ok disk = true ->
  exists text,
    save_state floatstr deep_write v disk
    = (Return tt, {| state_file := Text text; mkdir_ok := true; write_ok := true;
                     cut := cut disk |})
    /\ loads float_of_str deep_read text = Return v.
Proof.
  intros fstr f2s dw dr n v disk Hw Hr Hst Hd Hmk Hwr.
  destruct (loads_dumps fstr f2s dw dr n Hw Hr v (stable_storable v Hst)) as [text [Hdumps Hl]];
    [rewrite (stable_no_floats v Hst); intros f [] | assumption|].
  exists text. split; [|exact Hl].
  rewrite (save_state_written fstr dw v text disk Hdumps). unfold write_text.
  now rewrite Hmk, Hwr.
Qed.

(** X19.  Saving what [load_state] returned, whatever the state file
    holds: [json.dumps] accepts the value, unless the interpreter has no
    room for it, and then [save_state] raises [RecursionError] and leaves
    the file system as it is.  Otherwise [save_state] fails only with the
    [OSError] of [mkdir], which leaves the file system as it is, or of
    [write_text], which leaves the file as it was if it could not be
    opened and else holding the part of the text that was written; and
    when neither fails, the file holds the text of the loaded value. *)
Theorem loaded_state_saves :
  forall (float_of_str : str -> spec_float) (floatstr : spec_float -> str)
         (deep_read : nat -> N -> bool) (deep_write : nat -> pyval -> bool)
         (fs : filesystem) (v : pyval),
    load_state float_of_str deep_read fs = Return v ->
    (dumps_indent2 floatstr deep_write v = Raise RecursionError
     /\ forall disk,
          save_state floatstr deep_write v disk
          = (Raise (if mkdir_ok disk then RecursionError else OSError), disk))
    \/ exists text,
         dumps_indent2 floatstr deep_write v = Return text
         /\ forall disk,
              save_state floatstr deep_write v disk
              = if negb (mkdir_ok disk) then (Raise OSError, disk)
                else if write_ok disk then
                  (Return tt,
                   {| state_file := Text text; mkdir_ok := mkdir_ok disk;
                      write_ok := write_ok disk; cut := cut disk |})
                else
                  (Raise OSError,
                   match cut disk with
                   | None => disk
                   | Some n =>
                     {| state_file := Text (firstn n text); mkdir_ok := mkdir_ok disk;
                        write_ok := write_ok disk; cut := cut disk |}
                   end).
Proof.
  intros f2s fstr dr dw fs v Hload.
  destruct (well_read_iterencode fstr dw _ v (load_state_well_read f2s dr fs v Hload) 0%nat)
    as [[text H] | H].
  - right. exists text. split; [exact H|]. intro disk.
    rewrite (save_state_written fstr dw v text disk H). unfold write_text.
    destruct (mkdir_ok disk); reflexivity.
  - left. split; [exact H|]. intro disk. unfold save_state.
    unfold dumps_indent2 in *. rewrite H. destruct (mkdir_ok disk); reflexivity.
Qed.

(** X20.  Load, save, load.  When the state file holds a decoded text
    (no surrogate code points), the loaded value contains no float and
    is nested no deeper than the interpreter has room for, writing and
    reading, then saving the loaded value on a disk that takes it and
    loading again gives the same value. *)
Theorem saved_state_reloads :
  forall (float_of_str : str -> spec_float) (floatstr : spec_float -> str)
         (deep_read : nat -> N -> bool) (deep_write : nat -> pyval -> bool) (n : nat)
         (fs disk : filesystem) (v : pyval),
    write_room deep_write n ->
    read_room deep_read n ->
    decoded fs ->
    load_state float_of_str deep_read fs = Return v ->
    float_free v = true ->
    (depth v <= n)%nat ->
    mkdir_ok disk = true -> write_ok disk = true ->
    exists fs',
      save_state floatstr deep_write v disk = (Return tt, fs')
      /\ load_state float_of_str deep_read fs' = Return v.
Proof.
  intros f2s fstr dr dw n fs disk v Hw Hr Hdec Hload Hff Hd Hmk Hwr.
  assert (Hst : stable v = true)
    by (apply well_read_stable; [now apply (load_state_text_ok f2s dr fs) | exact Hff]).
  destruct (stable_reloads fstr f2s dw dr n v disk Hw Hr Hst Hd Hmk Hwr) as [text [Hs Hl]].
  eexists. split; [exact Hs|]. now apply load_state_written.
Qed.

(** ** Activation codes *)

Lemma choices_returned :
  forall (Rng : Type) (random_index : nat -> Rng -> nat * Rng) population k g cs g',
    choices random_index population k g = (Done cs, g') ->
    List.length cs = k /\ Forall (fun c => In c population) cs.
Proof.
  intros Rng random_index population. induction k as [|k IH]; intros g cs g' H.
  - injection H as <- _. split; [reflexivity | constructor].
  - cbn [choices] in H.
    destruct (random_index (List.length population) g) as [i g1].
    destruct (nth_error population i) as [c|] eqn:En; [|discriminate H].
    destruct (choices random_index population k g1) as [[cs1|e] g2] eqn:Ec;
      [|discriminate H].
    injection H as <- <-. destruct (IH _ _ _ Ec) as [Hl Hf]. split.
    + simpl. now rewrite Hl.
    + constructor; [now apply nth_error_In with i | exact Hf].
Qed.

Lemma choices_drawn :
  forall (Rng : Type) (random_index : nat -> Rng -> nat * Rng) population k g,
    (forall n g0, (0 < n)%nat -> (fst (random_index n g0) < n)%nat) ->
    population <> [] ->
    exists cs g', choices random_index population k g = (Done cs, g').
Proof.
  intros Rng random_index population k g Hrange Hne. revert g.
  induction k as [|k IH]; intro g; [now exists [], g|].
  cbn [choices].
  assert (Hi : (fst (random_index (List.length population) g) < List.length population)%nat).
  { apply Hrange. destruct population; [congruence | simpl; lia]. }
  destruct (random_index (List.length population) g) as [i g1]. cbn [fst] in Hi.
  destruct (nth_error population i) as [c|] eqn:En; [|apply nth_error_None in En; lia].
  destruct (IH g1) as [cs [g2 Hc]]. rewrite Hc. now exists (c :: cs), g2.
Qed.

Lemma digits_are_digits : forall code,
  Forall (fun c => In c (lit "0123456789")) code -> forallb is_digit code = true.
Proof.
  intros code H. apply forallb_forall. intros c Hc.
  rewrite Forall_forall in H. specialize (H c Hc). cbn in H.
  repeat (destruct H as [<- | H]; [reflexivity|]). contradiction.
Qed.

(** The generator as [random.choices] uses it: an index below the size
    of the population. *)
Definition in_range {Rng : Type} (random_index : nat -> Rng -> nat * Rng) : Prop :=
  forall n g, (0 < n)%nat -> (fst (random_index n g) < n)%nat.

Lemma code_drawn :
  forall (Rng : Type) (random_index : nat -> Rng -> nat * Rng) (g : Rng),
    in_range random_index ->
    exists code g',
      generate_activation_code random_index g = (Done code, g')
      /\ List.length code = 6%nat /\ forallb is_digit code = true.
Proof.
  intros Rng random_index g Hrange.
  destruct (choices_drawn Rng random_index (lit "0123456789") 6 g Hrange) as [code [g' H]];
    [discriminate|].
  exists code, g'. split; [exact H|].
  destruct (choices_returned _ _ _ _ _ _ _ H) as [Hl Hf].
  split; [exact Hl | now apply digits_are_digits].
Qed.

Lemma digits_below_surrogates : forall code,
  forallb is_digit code = true -> forallb (fun c => c <? 55296)%N code = true.
Proof.
  intros code H. apply forallb_forall. intros c Hc. rewrite forallb_forall in H.
  specialize (H c Hc). unfold is_digit in H. apply andb_true_iff in H.
  destruct H as [_ H]. apply N.leb_le in H. apply N.ltb_lt. lia.
Qed.

(** A generator for the examples: it counts. *)
Definition counting (n : nat) (g : nat) : nat * nat := (g mod n, S g)%nat.

Lemma counting_in_range : in_range counting.
Proof. intros n g Hn. cbn [counting fst]. apply Nat.mod_upper_bound. lia. Qed.

(** X21.  [generate_activation_code] gives six characters, each a
    decimal digit, whenever it returns; and it returns when the
    generator keeps to its range. *)
Theorem generate_activation_code_digits :
  forall (Rng : Type) (random_index : nat -> Rng -> nat * Rng) (g : Rng),
    in_range random_index ->
    exists code g',
      generate_activation_code random_index g = (Done code, g')
      /\ List.length code = 6%nat
      /\ Forall (fun c => (48 <= c <= 57)%N) code.
Proof.
  intros Rng random_index g Hrange.
  destruct (code_drawn Rng random_index g Hrange) as [code [g' [H [Hl Hd]]]].
  exists code, g'. split; [exact H|]. split; [exact Hl|].
  apply Forall_forall. intros c Hc. rewrite forallb_forall in Hd.
  specialize (Hd c Hc). unfold is_digit in Hd. apply andb_true_iff in Hd.
  destruct Hd as [H1 H2]. apply N.leb_le in H1, H2. now split.
Qed.

Lemma generate_activation_code_digits_witness :
  exists code g',
    generate_activation_code counting 7%nat = (Done code, g')
    /\ List.length code = 6%nat
    /\ Forall (fun c => (48 <= c <= 57)%N) code.
Proof. exact (generate_activation_code_digits nat counting 7%nat counting_in_range). Defined.

(** ** The activation screen *)

(** The screen with another text in its status label. *)
Definition announcing (text : str) (scr : activation_screen.ActivationScreen)
  : activation_screen.ActivationScreen :=
  {| activation_screen.status := text;
     activation_screen.key_input := activation_screen.key_input scr |}.

(** The file system after a text has been written. *)
Definition holding (text : str) (fs : filesystem) : filesystem :=
  {| state_file := Text text; mkdir_ok := mkdir_ok fs; write_ok := write_ok fs; cut := cut fs |}.

(** [check_key_status(key)] for whatever is stored as the key. *)
Definition checked (http_get : str -> list (str * str) -> http_outcome)
    (check_other : pyval -> outcome) (key : pyval) : outcome :=
  match key with
  | PyStr k => check_key_status http_get k
  | _ => check_other key
  end.

Definition mapping (v : pyval) : bool :=
  match v with
  | PyDict _ => true
  | _ => false
  end.

Definition activated (b : bool) : pyval := PyDict [(PyStr (lit "activated"), PyBool b)].

(** What becomes of saving the state [v] on [fs]: [mkdir] fails and
    nothing is touched; or [json.dumps] has no room for [v] and nothing
    is touched; or the text of [v] is written, or the file cannot be
    opened and stays as it was, or the write breaks off and the file
    holds the part of the text that was written. *)
Definition save_outcome (floatstr : spec_float -> str) (deep_write : nat -> pyval -> bool)
    (v : pyval) (fs : filesystem) (r : attempt unit) (fs' : filesystem) : Prop :=
  (mkdir_ok fs = false /\ r = Fails (Utility OSError) /\ fs' = fs)
  \/ (mkdir_ok fs = true /\ dumps_indent2 floatstr deep_write v = Raise RecursionError
      /\ r = Fails (Utility RecursionError) /\ fs' = fs)
  \/ exists text,
       mkdir_ok fs = true /\ dumps_indent2 floatstr deep_write v = Return text
       /\ ((write_ok fs = true /\ r = Done tt /\ fs' = holding text fs)
           \/ (write_ok fs = false /\ cut fs = None
               /\ r = Fails (Utility OSError) /\ fs' = fs)
           \/ exists n, write_ok fs = false /\ cut fs = Some n
                        /\ r = Fails (Utility OSError) /\ fs' = holding (firstn n text) fs).

Lemma save_state_outcome : forall floatstr deep_write okstr v fs,
  well_read okstr v = true ->
  save_outcome floatstr deep_write v fs
    (of_result (fst (save_state floatstr deep_write v fs)))
    (snd (save_state floatstr deep_write v fs)).
Proof.
  intros fstr dw okstr v [nd mk wr ct] Hw. unfold save_outcome, save_state, holding.
  cbn [mkdir_ok write_ok cut state_file].
  destruct mk; cbn [negb]; [|left; repeat split].
  right. destruct (well_read_iterencode fstr dw okstr v Hw 0%nat) as [[text H] | H];
    unfold dumps_indent2; rewrite H.
  - right. exists text. split; [reflexivity|]. split; [reflexivity|].
    destruct wr; [left; repeat split|].
    right. destruct ct as [n|]; [right; exists n | left]; repeat split.
  - left. repeat split.
Qed.

Section ActivationSteps.

Variable float_of_str : str -> spec_float.
Variable floatstr : spec_float -> str.
Variable deep_read : nat -> N -> bool.
Variable deep_write : nat -> pyval -> bool.
Variable http_get : str -> list (str * str) -> http_outcome.
Variable check_other : pyval -> outcome.
Variable Rng : Type.
Variable random_index : nat -> Rng -> nat * Rng.

Lemma on_mount_no_key : forall scr fs (g : Rng) items code g',
  load_state float_of_str deep_read fs = Return (PyDict items) ->
  py_truthy (dict_get items (lit "api_key")) = false ->
  generate_activation_code random_index g = (Done code, g') ->
  activation_screen.on_mount float_of_str floatstr deep_read deep_write http_get check_other
    random_index (scr, (fs, g))
  = (of_result (fst (save_state floatstr deep_write
                       (PyDict (dict_set items (lit "activation_code") (PyStr code))) fs)),
     (announcing (lit "No API key found." ++ [10%N] ++ lit "Activation code: " ++ code) scr,
      (snd (save_state floatstr deep_write
              (PyDict (dict_set items (lit "activation_code") (PyStr code))) fs),
       g'))).
Proof.
  intros scr fs g items code g' Hload Hkey Hgen.
  unfold activation_screen.on_mount, and_then at 1, activation_screen.load.
  cbn [fst snd]. rewrite Hload. cbn [of_result]. unfold and_then at 1, lift. cbn [get_method].
  rewrite Hkey. cbn [negb].
  unfold and_then at 1, activation_screen.draw_code. cbn [fst snd]. rewrite Hgen.
  unfold and_then at 1, activation_screen.status_update. cbn [fst snd].
  unfold and_then, lift, activation_screen.save. cbn [setitem fst snd].
  destruct (save_state floatstr deep_write _ fs) as [r fs']. reflexivity.
Qed.

Lemma on_mount_key : forall scr fs (g : Rng) items,
  load_state float_of_str deep_read fs = Return (PyDict items) ->
  py_truthy (dict_get items (lit "api_key")) = true ->
  activation_screen.on_mount float_of_str floatstr deep_read deep_write http_get check_other
    random_index (scr, (fs, g))
  = match checked http_get check_other (dict_get items (lit "api_key")) with
    | Returns ok msg => (Done tt, (announcing msg scr, (fs, g)))
    | Propagates e => (Fails (Passed e), (scr, (fs, g)))
    end.
Proof.
  intros scr fs g items Hload Hkey.
  unfold activation_screen.on_mount, and_then at 1, activation_screen.load.
  cbn [fst snd]. rewrite Hload. cbn [of_result]. unfold and_then at 1, lift. cbn [get_method].
  rewrite Hkey. cbn [negb].
  unfold and_then, activation_screen.check, checked.
  destruct (dict_get items (lit "api_key")) as [ | | | |k| | | ];
    match goal with
    | |- context [check_key_status ?h ?k] => destruct (check_key_status h k)
    | |- context [check_other ?v] => destruct (check_other v)
    end; reflexivity.
Qed.

Lemma on_mount_no_mapping : forall s v,
  load_state float_of_str deep_read (fst (snd s)) = Return v ->
  mapping v = false ->
  activation_screen.on_mount float_of_str floatstr deep_read deep_write http_get check_other
    random_index s
  = (Fails (Utility AttributeError), s).
Proof.
  intros [scr [fs g]] v Hload H. cbn [fst snd] in Hload.
  unfold activation_screen.on_mount, and_then at 1, activation_screen.load.
  cbn [fst snd]. rewrite Hload. cbn [of_result]. unfold and_then, lift.
  destruct v; try reflexivity. discriminate H.
Qed.

Lemma validate_key_blank : forall scr (s : filesystem * Rng),
  strip (activation_screen.key_input scr) = [] ->
  activation_screen.validate_key float_of_str floatstr deep_read deep_write http_get
    check_other (scr, s)
  = (Done tt, (announcing (lit "Please enter a key.") scr, s)).
Proof.
  intros scr s H.
  unfold activation_screen.validate_key, and_then, activation_screen.self.
  cbn [fst snd]. rewrite H. reflexivity.
Qed.

Lemma validate_key_typed : forall scr fs (g : Rng) key,
  strip (activation_screen.key_input scr) = key -> key <> [] ->
  activation_screen.validate_key float_of_str floatstr deep_read deep_write http_get
    check_other (scr, (fs, g))
  = match check_key_status http_get key with
    | Propagates e => (Fails (Passed e), (scr, (fs, g)))
    | Returns false msg => (Done tt, (announcing msg scr, (fs, g)))
    | Returns true msg =>
      match load_state float_of_str deep_read fs with
      | Return (PyDict items) =>
        (of_result (fst (save_state floatstr deep_write
                           (PyDict (dict_set items (lit "api_key") (PyStr key))) fs)),
         (announcing msg scr,
          (snd (save_state floatstr deep_write
                  (PyDict (dict_set items (lit "api_key") (PyStr key))) fs), g)))
      | Return _ => (Fails (Utility TypeError), (announcing msg scr, (fs, g)))
      | Raise e => (Fails (Utility e), (announcing msg scr, (fs, g)))
      end
    end.
Proof.
  intros scr fs g key Hkey Hne.
  unfold activation_screen.validate_key, and_then at 1, activation_screen.self.
  cbn [fst snd]. rewrite Hkey. destruct key as [|c key']; [congruence|].
  unfold and_then at 1, activation_screen.check.
  destruct (check_key_status http_get (c :: key')) as [ok msg|e]; [|reflexivity].
  unfold pure. unfold and_then at 1, activation_screen.status_update. cbn [fst snd].
  destruct ok; [|reflexivity].
  unfold and_then at 1, activation_screen.load. cbn [fst snd].
  unfold and_then, lift, activation_screen.save.
  destruct (load_state float_of_str deep_read fs) as [v|e]; [|reflexivity].
  cbn [of_result]. destruct v; try reflexivity.
  cbn [setitem fst snd]. destruct (save_state floatstr deep_write _ fs) as [r fs']. reflexivity.
Qed.

End ActivationSteps.

Lemma done_reports :
  forall float_of_str deep_read (App : Type) (on_done : pyval -> App -> App) fs (app : App)
         items,
    load_state float_of_str deep_read fs = Return (PyDict items) ->
    activation_screen.done float_of_str deep_read on_done (fs, app)
    = (Done tt, (fs, on_done (activated (py_truthy (dict_get items (lit "api_key")))) app)).
Proof.
  intros f2s dr App on_done fs app items H. unfold activation_screen.done. cbn [fst snd].
  rewrite H. reflexivity.
Qed.

Lemma dict_get_set_same : forall items k x, dict_get (dict_set items k x) k = x.
Proof.
  induction items as [|[k0 x0] items IH]; intros k x.
  - cbn. now rewrite str_eqb_refl.
  - destruct k0; cbn [dict_set dict_get]; try apply IH.
    destruct (str_eqb s k) eqn:E; cbn [dict_get]; rewrite E; [reflexivity | apply IH].
Qed.

Lemma dict_get_set_other : forall items k x k',
  k <> k' -> dict_get (dict_set items k x) k' = dict_get items k'.
Proof.
  induction items as [|[k0 x0] items IH]; intros k x k' Hne.
  - cbn. now replace (str_eqb k k') with false by (symmetry; now apply str_eqb_neq).
  - destruct k0; cbn [dict_set dict_get]; try (now apply IH).
    destruct (str_eqb s k) eqn:E; cbn [dict_get].
    + apply str_eqb_eq in E. subst s.
      now replace (str_eqb k k') with false by (symmetry; now apply str_eqb_neq).
    + destruct (str_eqb s k'); [reflexivity | now apply IH].
Qed.

(** State files for the examples: one written by hand without a key,
    [{ "name" : "attic" }], one with a key, [{"api_key": "k-123"}], one
    that holds an array, and one in a directory that is closed to the
    wizard. *)
Definition keyless_file : filesystem :=
  {| state_file := Text (lit "{ " ++ [34%N] ++ lit "name" ++ [34%N] ++ lit " : "
                         ++ [34%N] ++ lit "attic" ++ [34%N] ++ lit " }");
     mkdir_ok := true; write_ok := true; cut := None |}.

Definition keyed_file : filesystem :=
  {| state_file := Text (lit "{" ++ [34%N] ++ lit "api_key" ++ [34%N] ++ lit ": "
                         ++ [34%N] ++ lit "k-123" ++ [34%N] ++ lit "}");
     mkdir_ok := true; write_ok := true; cut := None |}.

Definition array_file : filesystem :=
  {| state_file := Text (lit "[]"); mkdir_ok := true; write_ok := true; cut := None |}.

Definition closed_directory : filesystem :=
  {| state_file := Unsearchable; mkdir_ok := true; write_ok := false; cut := None |}.

(** The file without a key on a disk that fills up after twelve
    characters. *)
Definition filling_disk : filesystem :=
  {| state_file := state_file keyless_file; mkdir_ok := true; write_ok := false;
     cut := Some 12%nat |}.

Definition no_float : str -> spec_float := fun _ => S754_zero false.

Definition no_repr : spec_float -> str := fun _ => [].

Definition no_check : pyval -> outcome := fun _ => Returns false [].

(** An interpreter that gives up 1000 containers down. *)
Definition reading : nat -> N -> bool := read_limit 1000.

Definition writing : nat -> pyval -> bool := write_limit 1000.

(** The screen with a text typed into the key input. *)
Definition typed (text : string) : activation_screen.ActivationScreen :=
  {| activation_screen.status := activation_screen.status activation_screen.init;
     activation_screen.key_input := lit text |}.

Lemma saved_state_reloads_witness :
  exists fs',
    save_state no_repr writing (PyDict [(PyStr (lit "name"), PyStr (lit "attic"))])
               writable_disk = (Return tt, fs')
    /\ load_state no_float reading fs'
       = Return (PyDict [(PyStr (lit "name"), PyStr (lit "attic"))]).
Proof.
  refine (saved_state_reloads no_float no_repr reading writing 999%nat keyless_file
            writable_disk (PyDict [(PyStr (lit "name"), PyStr (lit "attic"))])
            (write_limit_room 999) (read_limit_room 999) _ eq_refl eq_refl _
            eq_refl eq_refl).
  - apply below_surrogates_plain. reflexivity.
  - vm_compute. lia.
Defined.

Lemma loaded_state_saves_witness :
  (dumps_indent2 no_repr writing (PyDict [(PyStr (lit "name"), PyStr (lit "attic"))])
   = Raise RecursionError
   /\ forall disk,
        save_state no_repr writing (PyDict [(PyStr (lit "name"), PyStr (lit "attic"))]) disk
        = (Raise (if mkdir_ok disk then RecursionError else OSError), disk))
  \/ exists text,
       dumps_indent2 no_repr writing (PyDict [(PyStr (lit "name"), PyStr (lit "attic"))])
       = Return text
       /\ forall disk,
            save_state no_repr writing (PyDict [(PyStr (lit "name"), PyStr (lit "attic"))])
                       disk
            = if negb (mkdir_ok disk) then (Raise OSError, disk)
              else if write_ok disk then
                (Return tt,
                 {| state_file := Text text; mkdir_ok := mkdir_ok disk;
                    write_ok := write_ok disk; cut := cut disk |})
              else
                (Raise OSError,
                 match cut disk with
                 | None => disk
                 | Some n =>
                   {| state_file := Text (firstn n text); mkdir_ok := mkdir_ok disk;
                      write_ok := write_ok disk; cut := cut disk |}
                 end).
Proof.
  exact (loaded_state_saves no_float no_repr reading writing keyless_file
           (PyDict [(PyStr (lit "name"), PyStr (lit "attic"))]) eq_refl).
Defined.

(** X22.  [on_mount] when the state is a mapping without a key (or with
    an empty one).  A code of six digits is drawn and shown, and the
    loaded mapping with the code under [activation_code] is saved, its
    other entries as they were.  [json.dumps] accepts it whatever the
    file held, unless the interpreter has no room for it.  When the
    handler fails, the code is already on the screen: with the [OSError]
    of [mkdir], the file untouched; with [RecursionError], the file
    untouched; or with the [OSError] of [write_text], the file as it was
    if it could not be opened, and else cut down to the part of the text
    that was written. *)
Theorem on_mount_without_key :
  forall (float_of_str : str -> spec_float) (floatstr : spec_float -> str)
         (deep_read : nat -> N -> bool) (deep_write : nat -> pyval -> bool)
         http_get check_other (Rng : Type) (random_index : nat -> Rng -> nat * Rng)
         scr fs (g : Rng) items,
    in_range random_index ->
    load_state float_of_str deep_read fs = Return (PyDict items) ->
    py_truthy (dict_get items (lit "api_key")) = false ->
    exists code g' r fs',
      generate_activation_code random_index g = (Done code, g')
      /\ List.length code = 6%nat
      /\ forallb is_digit code = true
      /\ save_outcome floatstr deep_write
           (PyDict (dict_set items (lit "activation_code") (PyStr code))) fs r fs'
      /\ activation_screen.on_mount float_of_str floatstr deep_read deep_write http_get
           check_other random_index (scr, (fs, g))
         = (r, (announcing (lit "No API key found." ++ [10%N]
                            ++ lit "Activation code: " ++ code) scr,
                (fs', g'))).
Proof.
  intros f2s fstr dr dw http_get check_other Rng random_index scr fs g items
         Hrange Hload Hkey.
  destruct (code_drawn Rng random_index g Hrange) as [code [g' [Hgen [Hlen Hdig]]]].
  assert (Hw : well_read (fun _ => true)
                 (PyDict (dict_set items (lit "activation_code") (PyStr code))) = true).
  { apply dict_set_well_read; [|reflexivity|reflexivity].
    exact (load_state_well_read f2s dr fs _ Hload). }
  exists code, g'. eexists. eexists. repeat (split; [eassumption|]).
  split; [exact (save_state_outcome fstr dw _ _ fs Hw)|].
  exact (on_mount_no_key f2s fstr dr dw http_get check_other Rng random_index
           scr fs g items code g' Hload Hkey Hgen).
Qed.

Lemma on_mount_without_key_witness :
  exists code g' r fs',
    generate_activation_code counting 7%nat = (Done code, g')
    /\ List.length code = 6%nat
    /\ forallb is_digit code = true
    /\ save_outcome no_repr writing
         (PyDict (dict_set [(PyStr (lit "name"), PyStr (lit "attic"))]
                    (lit "activation_code") (PyStr code))) filling_disk r fs'
    /\ activation_screen.on_mount no_float no_repr reading writing network_down no_check
         counting (activation_screen.init, (filling_disk, 7%nat))
       = (r, (announcing (lit "No API key found." ++ [10%N] ++ lit "Activation code: " ++ code)
                activation_screen.init,
              (fs', g'))).
Proof.
  exact (on_mount_without_key no_float no_repr reading writing network_down no_check nat
           counting activation_screen.init filling_disk 7%nat
           [(PyStr (lit "name"), PyStr (lit "attic"))]
           counting_in_range eq_refl eq_refl).
Defined.

(** The handler on the disk that fills up: the code is shown, [OSError]
    passes through, and the file holds the first twelve characters of
    the new text. *)
Lemma on_mount_cuts_the_file :
  activation_screen.on_mount no_float no_repr reading writing network_down no_check
    counting (activation_screen.init, (filling_disk, 7%nat))
  = (Fails (Utility OSError),
     (announcing (lit "No API key found." ++ [10%N] ++ lit "Activation code: 789012")
        activation_screen.init,
      (holding ([123; 10; 32; 32; 34]%N ++ lit "name" ++ [34; 58; 32]%N) filling_disk,
       13%nat))).
Proof. vm_compute. reflexivity. Qed.

(** X23.  The code that [on_mount] shows is the code in the file.  When
    the state file holds a decoded text, the loaded mapping has no float
    and no key and is nested no deeper than the interpreter has room
    for, writing and reading, and the disk takes the file: after
    [on_mount], loading the state gives the former mapping with the shown
    code under [activation_code]; no key has been stored, so Continue
    reports [activated] as [False]. *)
Theorem activation_code_persisted :
  forall (float_of_str : str -> spec_float) (floatstr : spec_float -> str)
         (deep_read : nat -> N -> bool) (deep_write : nat -> pyval -> bool) (n : nat)
         http_get check_other (Rng : Type) (random_index : nat -> Rng -> nat * Rng)
         scr fs (g : Rng) items (st : stack),
    write_room deep_write n ->
    read_room deep_read n ->
    (1 <= n)%nat ->
    in_range random_index ->
    decoded fs ->
    load_state float_of_str deep_read fs = Return (PyDict items) ->
    float_free (PyDict items) = true ->
    (depth (PyDict items) <= n)%nat ->
    py_truthy (dict_get items (lit "api_key")) = false ->
    mkdir_ok fs = true -> write_ok fs = true ->
    let after := activation_screen.on_mount float_of_str floatstr deep_read deep_write
                   http_get check_other random_index (scr, (fs, g)) in
    let fs' := fst (snd (snd after)) in
    exists code,
      fst after = Done tt
      /\ activation_screen.status (fst (snd after))
         = lit "No API key found." ++ [10%N] ++ lit "Activation code: " ++ code
      /\ load_state float_of_str deep_read fs'
         = Return (PyDict (dict_set items (lit "activation_code") (PyStr code)))
      /\ activation_screen.done float_of_str deep_read after_activation (fs', st)
         = (Done tt, (fs', SummaryScreen (activated false) :: st)).
Proof.
  intros f2s fstr dr dw n http_get check_other Rng random_index scr fs g items st
         Hw Hr Hn Hrange Hdec Hload Hff Hd Hkey Hmk Hwr after fs'.
  destruct (code_drawn Rng random_index g Hrange) as [code [g' [Hgen [Hlen Hdig]]]].
  assert (Hst : stable (PyDict (dict_set items (lit "activation_code") (PyStr code))) = true).
  { apply (loaded_set_stable f2s dr fs); try assumption; [reflexivity|].
    apply below_surrogates_text_ok. now apply digits_below_surrogates. }
  assert (Hdepth : (depth (PyDict (dict_set items (lit "activation_code") (PyStr code)))
                    <= n)%nat).
  { pose proof (depth_dict_set items (lit "activation_code") (PyStr code)) as H.
    change (depth (PyStr code)) with 0%nat in H. lia. }
  destruct (stable_reloads fstr f2s dw dr n _ fs Hw Hr Hst Hdepth Hmk Hwr)
    as [text [Hsave Hl]].
  assert (Hafter : after
                   = (Done tt,
                      (announcing (lit "No API key found." ++ [10%N]
                                   ++ lit "Activation code: " ++ code) scr,
                       ({| state_file := Text text; mkdir_ok := true; write_ok := true;
                           cut := cut fs |}, g')))).
  { subst after.
    rewrite (on_mount_no_key f2s fstr dr dw http_get check_other Rng random_index
               scr fs g items code g' Hload Hkey Hgen).
    rewrite Hsave. reflexivity. }
  assert (Hfs' : load_state f2s dr fs'
                 = Return (PyDict (dict_set items (lit "activation_code") (PyStr code)))).
  { subst fs'. rewrite Hafter. cbn [fst snd]. now apply load_state_written. }
  exists code. rewrite Hafter at 1 2. cbn [fst snd announcing activation_screen.status].
  split; [reflexivity|]. split; [reflexivity|]. split; [exact Hfs'|].
  rewrite (done_reports f2s dr stack after_activation fs' st _ Hfs').
  rewrite dict_get_set_other by discriminate. rewrite Hkey. reflexivity.
Qed.

Lemma activation_code_persisted_witness :
  exists code,
    fst (activation_screen.on_mount no_float no_repr reading writing network_down no_check
           counting (activation_screen.init, (keyless_file, 7%nat))) = Done tt
    /\ activation_screen.status
         (fst (snd (activation_screen.on_mount no_float no_repr reading writing network_down
                      no_check counting (activation_screen.init, (keyless_file, 7%nat)))))
       = lit "No API key found." ++ [10%N] ++ lit "Activation code: " ++ code
    /\ load_state no_float reading
         (fst (snd (snd (activation_screen.on_mount no_float no_repr reading writing
                           network_down no_check counting
                           (activation_screen.init, (keyless_file, 7%nat))))))
       = Return (PyDict (dict_set [(PyStr (lit "name"), PyStr (lit "attic"))]
                           (lit "activation_code") (PyStr code)))
    /\ activation_screen.done no_float reading after_activation
         (fst (snd (snd (activation_screen.on_mount no_float no_repr reading writing
                           network_down no_check counting
                           (activation_screen.init, (keyless_file, 7%nat))))),
          [NetworkScreen])
       = (Done tt,
          (fst (snd (snd (activation_screen.on_mount no_float no_repr reading writing
                            network_down no_check counting
                            (activation_screen.init, (keyless_file, 7%nat))))),
           [SummaryScreen (activated false); NetworkScreen])).
Proof.
  refine (activation_code_persisted no_float no_repr reading writing 999%nat network_down
            no_check nat counting
            activation_screen.init keyless_file 7%nat
            [(PyStr (lit "name"), PyStr (lit "attic"))] [NetworkScreen]
            (write_limit_room 999) (read_limit_room 999) _
            counting_in_range _ eq_refl eq_refl _ eq_refl eq_refl eq_refl).
  - lia.
  - apply below_surrogates_plain. reflexivity.
  - vm_compute. lia.
Defined.

(** X24.  A stored key counts as activation whatever the check says.
    When the state is a mapping with a key, [on_mount] draws no code and
    leaves the file alone; it shows the message of [check_key_status].
    Continue then reports [activated] as [True], also when the check
    answered [False], and the summary reads that the device is activated. *)
Theorem stored_key_counts_as_activated :
  forall (float_of_str : str -> spec_float) (floatstr : spec_float -> str)
         (deep_read : nat -> N -> bool) (deep_write : nat -> pyval -> bool)
         http_get check_other (Rng : Type) (random_index : nat -> Rng -> nat * Rng)
         format_other scr fs (g : Rng) items (st : stack),
    load_state float_of_str deep_read fs = Return (PyDict items) ->
    py_truthy (dict_get items (lit "api_key")) = true ->
    let after := activation_screen.on_mount float_of_str floatstr deep_read deep_write
                   http_get check_other random_index (scr, (fs, g)) in
    snd (snd after) = (fs, g)
    /\ (forall ok msg,
           checked http_get check_other (dict_get items (lit "api_key")) = Returns ok msg ->
           after = (Done tt, (announcing msg scr, (fs, g))))
    /\ activation_screen.done float_of_str deep_read after_activation (fs, st)
       = (Done tt, (fs, SummaryScreen (activated true) :: st))
    /\ summary_screen.message format_other (activated true)
       = Done ([9989%N] ++ lit " Device activated and ready!").
Proof.
  intros f2s fstr dr dw http_get check_other Rng random_index fo scr fs g items st
         Hload Hkey after.
  assert (Hafter : after
                   = match checked http_get check_other (dict_get items (lit "api_key")) with
                     | Returns ok msg => (Done tt, (announcing msg scr, (fs, g)))
                     | Propagates e => (Fails (Passed e), (scr, (fs, g)))
                     end)
    by (subst after; now apply on_mount_key).
  split; [|split; [|split]].
  - rewrite Hafter.
    destruct (checked http_get check_other (dict_get items (lit "api_key"))); reflexivity.
  - intros ok msg Hc. rewrite Hafter, Hc. reflexivity.
  - rewrite (done_reports f2s dr stack after_activation fs st items Hload), Hkey. reflexivity.
  - reflexivity.
Qed.

Lemma stored_key_counts_as_activated_witness :
  activation_screen.on_mount no_float no_repr reading writing unknown_key no_check counting
    (activation_screen.init, (keyed_file, 7%nat))
  = (Done tt, (announcing (lit "Invalid API key.") activation_screen.init, (keyed_file, 7%nat)))
  /\ activation_screen.done no_float reading after_activation (keyed_file, [NetworkScreen])
     = (Done tt, (keyed_file, [SummaryScreen (activated true); NetworkScreen])).
Proof.
  pose proof (stored_key_counts_as_activated no_float no_repr reading writing unknown_key
                no_check nat counting no_format activation_screen.init keyed_file 7%nat
                [(PyStr (lit "api_key"), PyStr (lit "k-123"))] [NetworkScreen]
                eq_refl eq_refl) as [_ [Hshown [Hdone _]]].
  split; [exact (Hshown false (lit "Invalid API key.") eq_refl) | exact Hdone].
Defined.

(** X25.  A state file that holds a JSON value other than an object (an
    array, a string, a number, [true], [null]) breaks the activation
    screen: [on_mount] and Continue raise [AttributeError], nothing is
    shown or pushed, and a key that the check accepts is announced and
    then lost, since storing it raises [TypeError]; the file stays as it
    is. *)
Theorem state_that_is_no_mapping :
  forall (float_of_str : str -> spec_float) (floatstr : spec_float -> str)
         (deep_read : nat -> N -> bool) (deep_write : nat -> pyval -> bool)
         http_get check_other (Rng : Type) (random_index : nat -> Rng -> nat * Rng)
         scr fs (g : Rng) (st : stack) (v : pyval),
    load_state float_of_str deep_read fs = Return v ->
    mapping v = false ->
    activation_screen.on_mount float_of_str floatstr deep_read deep_write http_get
      check_other random_index (scr, (fs, g))
    = (Fails (Utility AttributeError), (scr, (fs, g)))
    /\ activation_screen.done float_of_str deep_read after_activation (fs, st)
       = (Fails (Utility AttributeError), (fs, st))
    /\ (forall msg,
           strip (activation_screen.key_input scr) <> [] ->
           check_key_status http_get (strip (activation_screen.key_input scr))
           = Returns true msg ->
           activation_screen.validate_key float_of_str floatstr deep_read deep_write
             http_get check_other (scr, (fs, g))
           = (Fails (Utility TypeError), (announcing msg scr, (fs, g)))).
Proof.
  intros f2s fstr dr dw http_get check_other Rng random_index scr fs g st v Hload Hmap.
  split; [|split].
  - now apply (on_mount_no_mapping f2s fstr dr dw http_get check_other Rng random_index
                 (scr, (fs, g)) v).
  - unfold activation_screen.done. cbn [fst snd]. rewrite Hload.
    destruct v; try reflexivity. discriminate Hmap.
  - intros msg Hne Hc.
    rewrite (validate_key_typed f2s fstr dr dw http_get check_other Rng scr fs g _
               eq_refl Hne).
    rewrite Hc, Hload. destruct v; try reflexivity. discriminate Hmap.
Qed.

Lemma state_that_is_no_mapping_witness :
  activation_screen.on_mount no_float no_repr reading writing confirms no_check counting
    (typed " k-9 ", (array_file, 7%nat))
  = (Fails (Utility AttributeError), (typed " k-9 ", (array_file, 7%nat)))
  /\ activation_screen.done no_float reading after_activation (array_file, [NetworkScreen])
     = (Fails (Utility AttributeError), (array_file, [NetworkScreen]))
  /\ activation_screen.validate_key no_float no_repr reading writing confirms no_check
       (typed " k-9 ", (array_file, 7%nat))
     = (Fails (Utility TypeError),
        (announcing (lit "API key active " ++ [9989%N]) (typed " k-9 "), (array_file, 7%nat))).
Proof.
  pose proof (state_that_is_no_mapping no_float no_repr reading writing confirms no_check nat
                counting (typed " k-9 ") array_file 7%nat [NetworkScreen] (PyList [])
                eq_refl eq_refl) as [H1 [H2 H3]].
  split; [exact H1|]. split; [exact H2|].
  apply H3; [discriminate | reflexivity].
Defined.

(** X26.  Validate.  The key is the input without the white space around
    it.  With nothing left, the screen asks for a key and nothing else
    happens.  A key that the check does not accept leaves the file as it
    is, under the message of the check.  A key that the check accepts is
    stored under [api_key] in the loaded mapping, whose other entries
    stay.  [json.dumps] accepts the result unless the interpreter has no
    room for it.  When the handler fails then, the message has been
    shown: with the [OSError] of [mkdir] or with [RecursionError], the
    file untouched; or with the [OSError] of [write_text], the file as it
    was if it could not be opened, and else cut down to the part of the
    text that was written.  When the directory of the state file cannot
    be searched, the [OSError] of [load_state] passes through after the
    message. *)
Theorem validate_key_outcome :
  forall (float_of_str : str -> spec_float) (floatstr : spec_float -> str)
         (deep_read : nat -> N -> bool) (deep_write : nat -> pyval -> bool)
         http_get check_other (Rng : Type) scr fs (g : Rng),
    let key := strip (activation_screen.key_input scr) in
    let after := activation_screen.validate_key float_of_str floatstr deep_read deep_write
                   http_get check_other (scr, (fs, g)) in
    (key = [] -> after = (Done tt, (announcing (lit "Please enter a key.") scr, (fs, g))))
    /\ (key <> [] ->
        (forall msg, check_key_status http_get key = Returns false msg ->
                     after = (Done tt, (announcing msg scr, (fs, g))))
        /\ (forall e, check_key_status http_get key = Propagates e ->
                      after = (Fails (Passed e), (scr, (fs, g))))
        /\ (forall msg items,
               check_key_status http_get key = Returns true msg ->
               load_state float_of_str deep_read fs = Return (PyDict items) ->
               exists r fs',
                 save_outcome floatstr deep_write
                   (PyDict (dict_set items (lit "api_key") (PyStr key))) fs r fs'
                 /\ after = (r, (announcing msg scr, (fs', g))))
        /\ (forall msg e,
               check_key_status http_get key = Returns true msg ->
               load_state float_of_str deep_read fs = Raise e ->
               e = OSError /\ state_file fs = Unsearchable
               /\ after = (Fails (Utility OSError), (announcing msg scr, (fs, g))))).
Proof.
  intros f2s fstr dr dw http_get check_other Rng scr fs g key after. split.
  - intro Hkey. subst after. now apply validate_key_blank.
  - intro Hne.
    assert (Hafter := validate_key_typed f2s fstr dr dw http_get check_other Rng scr fs g key
                        eq_refl Hne).
    fold after in Hafter. split; [|split; [|split]].
    + intros msg Hc. rewrite Hafter, Hc. reflexivity.
    + intros e Hc. rewrite Hafter, Hc. reflexivity.
    + intros msg items Hc Hload.
      assert (Hw : well_read (fun _ => true)
                     (PyDict (dict_set items (lit "api_key") (PyStr key))) = true).
      { apply dict_set_well_read; [|reflexivity|reflexivity].
        exact (load_state_well_read f2s dr fs _ Hload). }
      eexists. eexists. split; [exact (save_state_outcome fstr dw _ _ fs Hw)|].
      rewrite Hafter, Hc, Hload. reflexivity.
    + intros msg e Hc Hload. rewrite Hafter, Hc, Hload.
      unfold load_state in Hload.
      destruct (state_file fs) as [ | | |content]; try discriminate Hload.
      * injection Hload as <-. repeat split.
      * destruct (loads f2s dr content); discriminate Hload.
Qed.

Lemma validate_key_outcome_witness :
  activation_screen.validate_key no_float no_repr reading writing confirms no_check
    (typed "   ", (keyless_file, 7%nat))
  = (Done tt, (announcing (lit "Please enter a key.") (typed "   "), (keyless_file, 7%nat)))
  /\ activation_screen.validate_key no_float no_repr reading writing unknown_key no_check
       (typed " k-9 ", (keyless_file, 7%nat))
     = (Done tt, (announcing (lit "Invalid API key.") (typed " k-9 "), (keyless_file, 7%nat)))
  /\ (exists r fs',
         save_outcome no_repr writing
           (PyDict (dict_set [(PyStr (lit "name"), PyStr (lit "attic"))]
                      (lit "api_key") (PyStr (lit "k-9")))) filling_disk r fs'
         /\ activation_screen.validate_key no_float no_repr reading writing confirms no_check
              (typed " k-9 ", (filling_disk, 7%nat))
            = (r, (announcing (lit "API key active " ++ [9989%N]) (typed " k-9 "),
                   (fs', 7%nat))))
  /\ activation_screen.validate_key no_float no_repr reading writing confirms no_check
       (typed " k-9 ", (closed_directory, 7%nat))
     = (Fails (Utility OSError),
        (announcing (lit "API key active " ++ [9989%N]) (typed " k-9 "),
         (closed_directory, 7%nat))).
Proof.
  split; [|split; [|split]].
  - exact (proj1 (validate_key_outcome no_float no_repr reading writing confirms no_check nat
                    (typed "   ") keyless_file 7%nat) eq_refl).
  - refine (proj1 (proj2 (validate_key_outcome no_float no_repr reading writing unknown_key
                            no_check nat (typed " k-9 ") keyless_file 7%nat) _)
                  (lit "Invalid API key.") eq_refl).
    discriminate.
  - refine (proj1 (proj2 (proj2 (proj2 (validate_key_outcome no_float no_repr reading writing
                                          confirms no_check nat (typed " k-9 ")
                                          filling_disk 7%nat) _)))
                  (lit "API key active " ++ [9989%N])
                  [(PyStr (lit "name"), PyStr (lit "attic"))] eq_refl eq_refl).
    discriminate.
  - refine (proj2 (proj2 (proj2 (proj2 (proj2 (proj2
              (validate_key_outcome no_float no_repr reading writing confirms no_check nat
                 (typed " k-9 ") closed_directory 7%nat) _)))
              (lit "API key active " ++ [9989%N]) OSError eq_refl eq_refl))).
    discriminate.
Defined.

(** X27.  A validated key activates the device.  When the state file
    holds a decoded text, the loaded mapping has no float and is nested
    no deeper than the interpreter has room for, writing and reading,
    the disk takes the file and the check accepts the typed key: after
    Validate, loading the state gives the former mapping with the key
    under [api_key], and Continue reports [activated] as [True]. *)
Theorem validated_key_activates :
  forall (float_of_str : str -> spec_float) (floatstr : spec_float -> str)
         (deep_read : nat -> N -> bool) (deep_write : nat -> pyval -> bool) (n : nat)
         http_get check_other (Rng : Type) scr fs (g : Rng) items msg (st : stack),
    write_room deep_write n ->
    read_room deep_read n ->
    (1 <= n)%nat ->
    decoded fs ->
    load_state float_of_str deep_read fs = Return (PyDict items) ->
    float_free (PyDict items) = true ->
    (depth (PyDict items) <= n)%nat ->
    mkdir_ok fs = true -> write_ok fs = true ->
    let key := strip (activation_screen.key_input scr) in
    key <> [] -> text_ok key = true ->
    check_key_status http_get key = Returns true msg ->
    let after := activation_screen.validate_key float_of_str floatstr deep_read deep_write
                   http_get check_other (scr, (fs, g)) in
    let fs' := fst (snd (snd after)) in
    fst after = Done tt
    /\ activation_screen.status (fst (snd after)) = msg
    /\ load_state float_of_str deep_read fs'
       = Return (PyDict (dict_set items (lit "api_key") (PyStr key)))
    /\ activation_screen.done float_of_str deep_read after_activation (fs', st)
       = (Done tt, (fs', SummaryScreen (activated true) :: st)).
Proof.
  intros f2s fstr dr dw n http_get check_other Rng scr fs g items msg st
         Hw Hr Hn Hdec Hload Hff Hd Hmk Hwr key Hne Hok Hc after fs'.
  assert (Hst : stable (PyDict (dict_set items (lit "api_key") (PyStr key))) = true)
    by (apply (loaded_set_stable f2s dr fs); try assumption; reflexivity).
  assert (Hdepth : (depth (PyDict (dict_set items (lit "api_key") (PyStr key))) <= n)%nat).
  { pose proof (depth_dict_set items (lit "api_key") (PyStr key)) as H.
    change (depth (PyStr key)) with 0%nat in H. lia. }
  destruct (stable_reloads fstr f2s dw dr n _ fs Hw Hr Hst Hdepth Hmk Hwr)
    as [text [Hsave Hl]].
  assert (Hafter : after
                   = (Done tt,
                      (announcing msg scr,
                       ({| state_file := Text text; mkdir_ok := true; write_ok := true;
                           cut := cut fs |}, g)))).
  { subst after.
    rewrite (validate_key_typed f2s fstr dr dw http_get check_other Rng scr fs g key
               eq_refl Hne).
    rewrite Hc, Hload, Hsave. reflexivity. }
  assert (Hfs' : load_state f2s dr fs'
                 = Return (PyDict (dict_set items (lit "api_key") (PyStr key)))).
  { subst fs'. rewrite Hafter. cbn [fst snd]. now apply load_state_written. }
  rewrite Hafter at 1 2. cbn [fst snd announcing activation_screen.status].
  split; [reflexivity|]. split; [reflexivity|]. split; [exact Hfs'|].
  rewrite (done_reports f2s dr stack after_activation fs' st _ Hfs').
  rewrite dict_get_set_same. destruct key; [congruence | reflexivity].
Qed.

Lemma validated_key_activates_witness :
  load_state no_float reading
    (fst (snd (snd (activation_screen.validate_key no_float no_repr reading writing confirms
                      no_check (typed " k-9 ", (keyless_file, 7%nat))))))
  = Return (PyDict [(PyStr (lit "name"), PyStr (lit "attic"));
                    (PyStr (lit "api_key"), PyStr (lit "k-9"))]).
Proof.
  refine (proj1 (proj2 (proj2
            (validated_key_activates no_float no_repr reading writing 999%nat confirms
               no_check nat
               (typed " k-9 ") keyless_file 7%nat
               [(PyStr (lit "name"), PyStr (lit "attic"))]
               (lit "API key active " ++ [9989%N]) [NetworkScreen]
               (write_limit_room 999) (read_limit_room 999) _
               _ eq_refl eq_refl _ eq_refl eq_refl _ eq_refl eq_refl)))).
  - lia.
  - apply below_surrogates_plain. reflexivity.
  - vm_compute. lia.
  - discriminate.
Defined.

(** X28.  The summaries of the wizard.  The summary after a failed
    network step reads that the network is not connected.  The result
    that Continue on the activation screen hands over holds [activated]
    only, so the summary after the activation step reads either that the
    device is activated or that the setup is incomplete; the text with
    the IP address is not among the summaries the wizard shows.  When
    Continue raises, no summary is pushed, and what it raises is the
    [OSError] of [exists()] when the directory of the state file cannot
    be searched, and [AttributeError] otherwise. *)
Theorem wizard_summary_texts :
  forall (float_of_str : str -> spec_float) (deep_read : nat -> N -> bool)
         format_other (fs : filesystem) (st : stack),
    let after := activation_screen.done float_of_str deep_read after_activation (fs, st) in
    summary_screen.message format_other network_error
    = Done ([10060%N; 32%N] ++ lit "Network not connected")
    /\ (fst after = Done tt ->
        exists b,
          snd after = (fs, SummaryScreen (activated b) :: st)
          /\ summary_screen.message format_other (activated b)
             = Done (if b then [9989%N] ++ lit " Device activated and ready!"
                     else [9888%N; 65039%N] ++ lit "  Setup incomplete."))
    /\ (forall e, fst after = Fails e ->
                  snd after = (fs, st)
                  /\ ((state_file fs = Unsearchable /\ e = Utility OSError)
                      \/ (state_file fs <> Unsearchable /\ e = Utility AttributeError))).
Proof.
  intros f2s dr fo fs st after. split; [reflexivity|].
  subst after. unfold activation_screen.done. cbn [fst snd].
  destruct (load_state f2s dr fs) as [v|e0] eqn:Hload.
  - assert (Hfs : state_file fs <> Unsearchable).
    { intro H. unfold load_state in Hload. rewrite H in Hload. discriminate Hload. }
    destruct v as [ | | | | | | |items]; cbn [get_method fst snd];
      (split; [intro H; try discriminate H | intros e H; try discriminate H]);
      try (injection H as <-; split; [reflexivity | now right]).
    exists (py_truthy (dict_get items (lit "api_key"))). split; [reflexivity|].
    destruct (py_truthy (dict_get items (lit "api_key"))); reflexivity.
  - cbn [fst snd]. split; [intro H; discriminate H|].
    intros e H. injection H as <-. split; [reflexivity|]. left.
    unfold load_state in Hload.
    destruct (state_file fs) as [ | | |content]; try discriminate Hload.
    + injection Hload as <-. now split.
    + destruct (loads f2s dr content); discriminate Hload.
Qed.

Lemma wizard_summary_texts_witness :
  (exists b,
      snd (activation_screen.done no_float reading after_activation
             (keyless_file, [NetworkScreen]))
      = (keyless_file, [SummaryScreen (activated b); NetworkScreen])
      /\ summary_screen.message no_format (activated b)
         = Done (if b then [9989%N] ++ lit " Device activated and ready!"
                 else [9888%N; 65039%N] ++ lit "  Setup incomplete."))
  /\ snd (activation_screen.done no_float reading after_activation
            (closed_directory, [NetworkScreen]))
     = (closed_directory, [NetworkScreen])
  /\ snd (activation_screen.done no_float reading after_activation
            (array_file, [NetworkScreen]))
     = (array_file, [NetworkScreen]).
Proof.
  split; [|split].
  - exact (proj1 (proj2 (wizard_summary_texts no_float reading no_format keyless_file
                           [NetworkScreen]))
                 eq_refl).
  - exact (proj1 (proj2 (proj2 (wizard_summary_texts no_float reading no_format
                                  closed_directory [NetworkScreen]))
                        (Utility OSError) eq_refl)).
  - exact (proj1 (proj2 (proj2 (wizard_summary_texts no_float reading no_format array_file
                                  [NetworkScreen]))
                        (Utility AttributeError) eq_refl)).
Defined.
